(* ===== verification/_CoqProject ===== *)
-Q . S2P
Prelude.v
Platform.v
State.v
Synch.v
Locks.v
LockSpec.v
LockDemo.v
VmStats.v
Tlb.v
LoadSegment.v
Swap.v
Coremap.v
Frames.v
Paging.v
Segments.v
VmFault.v
Runs.v
AddrSpace.v
KernelPages.v
Regions.v
Lifecycle.v
Boot.v
Os.v
Proc.v
ProcTable.v
Thread.v
Sched.v
Switch.v
Migrate.v
Isolation.v
Copy.v
Fork.v
ProcSyscalls.v
WaitPid.v
FileSyscalls.v
FileTable.v
KernelBuffer.v
Syscall.v
SyscallSpec.v
LoadElf.v
RunProgram.v
Menu.v
Programs.v
ForkProcess.v
Kmain.v
Sys161.v
Scenario.v
Startup.v
Machine.v
Duo.v
Session.v
