(* ===== verification/Prelude.v ===== *)
(** * OS/161 with demand paging: a verification development

    The program is a teaching kernel, OS/161, with the parts that its authors
    added or changed: demand paging with a swap file and a software-managed
    TLB, locks and condition variables, processes with [waitpid], system calls
    on files and processes, argument passing, and the kernel menu.  All paths
    below are relative to src/os161/os161-base-2.0.2/kern.  The configuration
    is PAGING: the options syscalls, synch, waitpid, args and paging are on.
    The options file and fork are a parameter ([FileSyscalls.Options]), so
    that the code they select is modelled too.

    ** The program and its parts

    - Physical memory: [vm/coremap.c] keeps one entry per frame; [getPage]
      takes a free frame or evicts a page of the same process to the swap file
      ([vm/swapfile.c]).
    - Address spaces: [vm/addrspace.c] keeps a list of segments and a page
      table per process and serves faults ([vm_fault]): from swap, from the
      executable ([syscall/loadelf.c]) or with zeros, and loads the TLB
      ([vm/vm_tlb.c]).  [vm/pt.c] looks pages up, [vm/vmstats.c] counts.
    - Threads: [thread/thread.c] has processors, run queues, wait channels,
      the context switch and migration; [thread/synch.c] builds semaphores,
      locks and condition variables on wait channels and spinlocks.
    - Processes: [proc/proc.c] has the table of pids and the semaphores that
      [waitpid] uses.
    - System calls: [arch/mips/syscall/syscall.c] dispatches to
      [syscall/file_syscalls.c] and [syscall/proc_syscalls.c];
      [syscall/runprogram.c] starts a program.
    - Start and menu: [main/main.c] and [main/menu.c].

    ** How it is modelled

    A C function is a function in the state monad [M] below, over the record
    [State.kernel] (memory management) or the record [Os.os] (the whole
    kernel, with the former inside; [Os.vm] runs an operation of the first in
    the second).  A computation that panics, fails an assertion, does what C
    leaves undefined (a NULL pointer, an index out of range, an uninitialised
    variable), waits for something that cannot come from itself, or loops
    forever ends in [Stop] with the reason, and the state at that point.  The
    weakest precondition [wp m Q s] is total: it says that [m] ends properly
    from [s], and in [Q].  Integers are [Z], with the wrap-around of the C
    types written out ([u32], [u16], [to_int]).  Structures on the heap are
    known by their block, pointers that may be NULL are options.  [kmalloc]
    may fail: [Synch.room n h] says that it succeeds [n] times from the heap
    [h], and the theorems say how many blocks an operation needs and what it
    does without them.  The function a thread will start in is part of the
    thread ([Os.entrypoint]).

    What is not in the repository is a parameter, with its documented
    behaviour as laws: [Platform.Platform] and [PlatformLaws] for the MIPS
    constants, the TLB registers, physical memory, the heap, bitmaps, the VFS
    and its devices; [FileSyscalls.UserCopy] for copyin and copyout,
    [Syscall.Environment] for call numbers, the clock and the VFS calls of a
    shutdown, [LoadElf.Elf] for the layout of executables, [Menu.MenuEnv] for
    what the menu calls, [Kmain.Devices] and [DeviceLaws] for the devices.
    [Sys161.v] and [Session.v] give instances of all of them, and the
    witnesses of the theorems are proved there.

    ** The files

    - [Prelude.v]: the monad, its logic and tactics ([step], [steps], the hint
      database), machine integers, byte memories, lists.
    - [Platform.v], [State.v], [Synch.v]: the platform; the state of the
      memory management and its setters; creation and destruction of
      semaphores, locks and condition variables.
    - [Locks.v], [LockSpec.v], [LockDemo.v]: [thread/synch.c] statement by
      statement, for any number of threads in any interleaving, as a
      transition system; an abstract lock and the simulation that relates the
      code to it; an example.
    - [VmStats.v], [Tlb.v], [LoadSegment.v], [Swap.v], [Coremap.v]: one per
      file of [vm/] and for the demand loader.  [Swap.swap_refines] relates
      the swap file to an abstract store of pages, [Coremap.cm_wf] is the
      well-formedness of the coremap.
    - [Frames.v], [Paging.v], [Segments.v]: the invariant [vm_inv] that ties
      coremap, page tables, swap slots and TLB together, and page allocation
      with eviction under it; the layout of segments.
    - [VmFault.v], [Runs.v]: the fault handler; programs of loads and stores
      that fault as they go, against a flat memory.
    - [AddrSpace.v], [KernelPages.v], [Regions.v], [Lifecycle.v], [Boot.v]:
      the rest of [vm/addrspace.c] and [vm/pt.c]: kernel pages, regions and
      the page table, creation, copy and destruction, activation, the start.
    - [Os.v], [Proc.v], [ProcTable.v]: the whole kernel; processes; pids.
    - [Thread.v], [Sched.v], [Switch.v], [Migrate.v], [Fork.v]: threads and
      processors; the invariant [sched_inv] that every thread is in exactly
      one place; the context switch, wake-ups, migration and new threads
      under it.
    - [Isolation.v], [Copy.v]: memory management and scheduler together:
      several processes that share memory and processors, each with its own
      flat memory; [as_copy], which gives the child of a fork that memory.
    - [ProcSyscalls.v], [WaitPid.v]: exit, wait, getpid and fork.
    - [FileSyscalls.v], [FileTable.v], [KernelBuffer.v]: open files and the
      console; the second implementation of transfers, through a kernel
      buffer.
    - [Syscall.v], [SyscallSpec.v]: the dispatcher.
    - [LoadElf.v], [RunProgram.v]: executables and the start of programs.
    - [Menu.v], [Programs.v], [Kmain.v]: the menu, programs run from it, the
      boot and the main program.
    - [ForkProcess.v]: fork, with memory, processes, files and threads.
    - [Sys161.v], [Scenario.v], [Startup.v], [Machine.v], [Duo.v], [Session.v]:
      concrete machines on which the conditions of the theorems hold.

    ** What the theorems show

    - Paging is invisible: a process that faults, is evicted and reloaded
      reads what it wrote ([Runs.paging_transparent]), because every fault is
      served and no other page is lost ([VmFault.vm_fault_*]); a page read
      from the executable has the bytes of the file at the addresses its
      program header says, for the pages where the loader computes the right
      offset; the statistics add up and the error paths are as described.
    - Processes are isolated: whatever the order of accesses, switches,
      sleeps, wake-ups and migrations, each process computes as it would
      alone ([Isolation.processes_isolated]); a copied address space starts
      with the memory of its parent and shares no frame with it
      ([Copy.as_copy_duplicates], for a parent with no page in swap: the
      branch for such pages reads an uninitialised address); fork makes, under
      the same conditions, a process with that memory and a thread that is
      queued to run the right function, and loses the open files of the parent
      ([ForkProcess.sys_fork_copies]).
    - Synchronisation: every interleaving of the code of locks and condition
      variables is a run of an abstract lock in which each client has made
      exactly the calls that returned ([LockSpec.lock_refines_spec]); locks
      exclude each other, never lose a wake-up or fail an assertion; waiting
      on a condition variable is atomic ([Locks.*]).
    - The scheduler keeps every thread in one place over switches, wake-ups,
      migration and creation, and wakes and runs threads in order.
    - Processes get unique pids; exit and wait meet in every order; everything
      a process holds but its open files and the copy of its program's name is
      released when it is collected.
    - System calls: console output is what the process stored; reference
      counts of open files are exact but for an open that finds no descriptor;
      errors are reported as described, and where the code loses an error or
      reads past a table this is proved too.
    - Programs start with the regions of their executable and their arguments
      on the stack; the menu dispatches a line by its first word and runs
      commands in order; a program run from it has a process and a queued
      thread when the menu starts to wait ([Programs.common_prog_waits]).
    - The boot establishes the invariants of processes, files and paging, and
      that of the scheduler up to the mark of the running thread, which the
      code leaves at [S_READY] ([Kmain.boot_establishes]).

    ** Bounds and fuel

    Loops over arrays and lists are structural.  Fuel remains in three places:
    the search for a victim frame ([Coremap.find_victim]) may look at every
    frame once and is proved to find one whenever the process owns one, and to
    run forever, whatever the fuel, when it owns none
    ([Coremap.find_victim_diverges]); the search for a pid has
    [MAX_PROC + 1] rounds, proved to be enough ([pid_search_complete]); the
    loop around [strtok_r] has one round more than there are characters,
    proved to be enough ([Menu.strtok_words]).  The main loop of the menu
    never ends and is watched for a given number of rounds.

    ** Not modelled

    The guard words at the end of a kernel stack ([thread_checkstack]), the
    switch frame and the interrupt priority of a thread beyond the checks of
    it, which are machine-dependent; the spinlocks of [Os.os], whose sections
    do not block and are single computations there (those of [synch.c] are
    modelled in [Locks.v]), and with them the assertions of [spinlock_cleanup]
    and [threadlist_cleanup] when an object is destroyed; interrupt handlers
    that would call blocking code; that large blocks of the heap are pages of
    the coremap, which [free_kpages] refuses to take back in a process with an
    address space; the branches that the configuration leaves out and
    that call functions of other address-space implementations, which are not
    in the repository (the loader and [runprogram] without paging), and
    [waitpid] with condition variables; diagnostic messages (the output of the
    console, the menus, the directory, the prompt and the commands of the
    kernel line are modelled); declarations of the test suite
    ([include/test.h]). *)

From Stdlib Require Import ZArith Lia.
From stdpp Require Import base list gmap strings.
Local Open Scope Z_scope.

(** ** Error codes and results

    A C function that returns [0] or an error number returns an [rc] here.
    Error numbers that only external code produces are [Eother]. *)

Inductive errno :=
  | ENOSYS | ENOMEM | EFAULT | EINVAL | ENOENT | ENOEXEC | ENOSPC
  | ENFILE | EMFILE | E2BIG | Eother (n : Z).

Inductive rc := OK | Err (e : errno).

#[export] Instance errno_eq_dec : EqDecision errno.
Proof. solve_decision. Defined.

#[export] Instance rc_eq_dec : EqDecision rc.
Proof. solve_decision. Defined.

(** ** Computations

    A computation either delivers a value and the new state, or stops: a
    [panic], a failed [KASSERT], a C operation without meaning (a NULL or
    out-of-range access), a lock that is never going to be available to the
    running thread, or a loop that never ends.  The state in which it stopped
    is kept. *)

Inductive stop :=
  | Panic (msg : string)
  | Kassert (what : string)
  | Undef (what : string)
  | Blocked (what : string)
  | Loops (what : string).

Inductive outcome (S A : Type) : Type :=
  | Done (a : A) (s : S)
  | Stop (w : stop) (s : S).
Arguments Done {S A} a s.
Arguments Stop {S A} w s.

Definition M (S A : Type) : Type := S -> outcome S A.

Definition ret {S A} (a : A) : M S A := fun s => Done a s.

Definition bind {S A B} (m : M S A) (f : A -> M S B) : M S B :=
  fun s => match m s with Done a s' => f a s' | Stop w s' => Stop w s' end.

Definition halt {S A} (w : stop) : M S A := fun s => Stop w s.

Definition gets {S A} (f : S -> A) : M S A := fun s => Done (f s) s.

Definition modify {S} (f : S -> S) : M S unit := fun s => Done tt (f s).

Definition kassert {S} (b : bool) (what : string) : M S unit :=
  if b then ret tt else halt (Kassert what).

Declare Scope kernel_scope.
Delimit Scope kernel_scope with kern.
Notation "'let*' x := m 'in' k" := (bind m (fun x => k))
  (at level 10, x name, m at level 100, k at level 200,
   format "'[v' 'let*'  x  :=  m  'in' '/' k ']'") : kernel_scope.
Notation "m ;; k" := (bind m (fun _ => k))
  (at level 100, k at level 200, right associativity) : kernel_scope.
Open Scope kernel_scope.

(** A [for] loop with a [break]: the body is run for the given indices in
    turn and answers whether to leave the loop; the result is the index it
    was left at, if any. *)
Fixpoint for_break {S} (idx : list nat) (body : nat -> M S bool) : M S (option nat) :=
  match idx with
  | [] => ret None
  | i :: idx' => let* b := body i in
                if b : bool then ret (Some i) else for_break idx' body
  end.

(** A [for] loop whose body always falls through. *)
Fixpoint for_each {S} (idx : list nat) (body : nat -> M S unit) : M S unit :=
  match idx with
  | [] => ret tt
  | i :: idx' => body i ;; for_each idx' body
  end.

(** ** Weakest preconditions (total: a stopped computation has none) *)

Definition wp {S A} (m : M S A) (Q : A -> S -> Prop) (s : S) : Prop :=
  match m s with Done a s' => Q a s' | Stop _ _ => False end.

(** ** Machine integers *)

Definition u32 (x : Z) : Z := x mod 2 ^ 32.
Definition u16 (x : Z) : Z := x mod 2 ^ 16.

(** ** Physical memory, byte addressed *)

Definition pmem := Z -> Z.

Definition mem_read (m : pmem) (a : Z) (n : nat) : list Z :=
  (fun i => m (a + Z.of_nat i)) <$> seq 0 n.

Definition mem_write (m : pmem) (a : Z) (bs : list Z) : pmem :=
  fun x => if (a <=? x) && (x <? a + Z.of_nat (length bs))
           then default 0 (bs !! Z.to_nat (x - a)) else m x.

(** * Lemmas *)

(** ** Computations *)

Section Computations.
Context {S A B : Type}.
Implicit Types (s : S) (m : M S A) (f : A -> M S B).

Lemma bind_Done m f s a s' : m s = Done a s' -> bind m f s = f a s'.
Proof. intros H. unfold bind. by rewrite H. Qed.

Lemma bind_Stop m f s w s' : m s = Stop w s' -> bind m f s = Stop w s'.
Proof. intros H. unfold bind. by rewrite H. Qed.
Lemma bind_stops m f s w (R : S -> Prop) :
  wp m (fun a s1 => exists s2, f a s1 = Stop w s2 /\ R s2) s -> exists s2, bind m f s = Stop w s2 /\ R s2.
Proof. unfold wp, bind. by destruct (m s). Qed.

Lemma wp_bind m f (Q : B -> S -> Prop) s :
  wp m (fun a s' => wp (f a) Q s') s -> wp (bind m f) Q s.
Proof. unfold wp, bind. by destruct (m s). Qed.

Lemma wp_conj (m : M S A) (Q1 Q2 : A -> S -> Prop) s :
  wp m Q1 s -> wp m Q2 s -> wp m (fun a s' => Q1 a s' /\ Q2 a s') s.
Proof. unfold wp. by destruct (m s). Qed.

Lemma wp_mono m (Q Q' : A -> S -> Prop) s :
  wp m Q s -> (forall a s', Q a s' -> Q' a s') -> wp m Q' s.
Proof. unfold wp. destruct (m s); auto. Qed.

Lemma wp_ret (a : A) (Q : A -> S -> Prop) s : Q a s -> wp (ret a) Q s.
Proof. done. Qed.

Lemma wp_Done m (Q : A -> S -> Prop) s :
  wp m Q s <-> exists a s', m s = Done a s' /\ Q a s'.
Proof.
  unfold wp. split.
  - destruct (m s); [eauto | done].
  - by intros (a & s' & -> & H).
Qed.

Lemma wp_eq m (Q : A -> S -> Prop) s a s' : m s = Done a s' -> Q a s' -> wp m Q s.
Proof. unfold wp. by intros -> ?. Qed.
End Computations.

Lemma wp_gets {S A} (f : S -> A) (Q : A -> S -> Prop) s : Q (f s) s -> wp (gets f) Q s.
Proof. done. Qed.

Lemma wp_modify {S} (f : S -> S) (Q : unit -> S -> Prop) s : Q tt (f s) -> wp (modify f) Q s.
Proof. done. Qed.

Lemma wp_kassert {S} (b : bool) what (Q : unit -> S -> Prop) s :
  b = true -> Q tt s -> wp (kassert b what) Q s.
Proof. by intros ->. Qed.

(** [step] runs the next primitive of the computation in the goal. *)
Ltac step :=
  lazymatch goal with
  | |- wp (bind _ _) _ _ => apply wp_bind
  | |- wp (ret _) _ _ => apply wp_ret
  | |- wp (gets _) _ _ => apply wp_gets
  | |- wp (modify _) _ _ => apply wp_modify
  end; cbv beta.

Ltac steps := repeat step.

(** A search loop whose test only reads the state: it stops at the first
    index that passes. *)
Lemma for_break_search {S} (idx : list nat) (body : nat -> M S bool) (t : nat -> bool) (s : S) :
  (forall i, i ∈ idx -> body i s = Done (t i) s) ->
  for_break idx body s = Done (list_find (fun i => t i = true) idx ≫= fun p => Some p.2) s.
Proof.
  induction idx as [|i idx IH]; intros H; [done|].
  cbn [for_break]. rewrite (bind_Done _ _ s (t i) s) by (apply H; left).
  cbn [list_find]. destruct (t i) eqn:E.
  - rewrite decide_True by done. done.
  - rewrite decide_False by done.
    rewrite IH by (intros; apply H; by right).
    by destruct (list_find _ idx) as [[? ?]|].
Qed.

(** A loop that falls through up to index [j] and is left there. *)
Lemma wp_for_break_hit {S} a n j (body : nat -> M S bool) (s : S) (Q : option nat -> S -> Prop) :
  (a <= j < a + n)%nat -> (forall i, (a <= i < j)%nat -> body i s = Done false s) ->
  wp (body j) (fun b s' => b = true /\ Q (Some j) s') s ->
  wp (for_break (seq a n) body) Q s.
Proof.
  revert a. induction n as [|n IH]; intros a Hj Hf Hb; [lia|]. cbn [seq for_break].
  apply wp_bind. destruct (decide (a = j)) as [->|Hne].
  - eapply wp_mono; [exact Hb|]. by intros b s' [-> HQ].
  - eapply wp_eq; [apply Hf; lia|]. apply IH; [lia | intros i Hi; apply Hf; lia | done].
Qed.

(** A loop in which every round preserves an invariant indexed by the
    indices still to come. *)
Lemma wp_for_each {S} (I : list nat -> S -> Prop) (idx : list nat) (body : nat -> M S unit) s
    (Q : unit -> S -> Prop) :
  I idx s ->
  (forall i idx' s', I (i :: idx') s' -> wp (body i) (fun _ s'' => I idx' s'') s') ->
  (forall s', I [] s' -> Q tt s') ->
  wp (for_each idx body) Q s.
Proof.
  revert s. induction idx as [|i idx IH]; intros s HI Hb HQ; cbn [for_each].
  - apply wp_ret. auto.
  - step. eapply wp_mono; [by apply Hb|]. intros [] s' HI'. by apply IH.
Qed.

(** ** Machine integers *)

Lemma u32_small x : 0 <= x < 2 ^ 32 -> u32 x = x.
Proof. apply Z.mod_small. Qed.

Lemma u32_range x : 0 <= u32 x < 2 ^ 32.
Proof. by apply Z.mod_pos_bound. Qed.

Lemma u16_small x : 0 <= x < 2 ^ 16 -> u16 x = x.
Proof. apply Z.mod_small. Qed.

Lemma u32_add_l a b : u32 (u32 a + b) = u32 (a + b).
Proof. unfold u32. apply Zplus_mod_idemp_l. Qed.

Lemma u32_add_r a b : u32 (a + u32 b) = u32 (a + b).
Proof. unfold u32. apply Zplus_mod_idemp_r. Qed.

Lemma u32_add_ll a b c : u32 (u32 a + b + c) = u32 (a + b + c).
Proof. by rewrite <- Z.add_assoc, u32_add_l, Z.add_assoc. Qed.

Lemma u32_add_lr a b c : u32 (a + u32 b + c) = u32 (a + b + c).
Proof. rewrite (Z.add_comm a), u32_add_ll. f_equal. lia. Qed.

Lemma u32_u32 a : u32 (u32 a) = u32 a.
Proof. unfold u32. apply Zmod_mod. Qed.

Create Rewrite HintDb word.
#[export] Hint Rewrite u32_add_l u32_add_r u32_add_ll u32_add_lr u32_u32 : word.

(** ** Lists *)

Lemma list_find_index_Some (t : nat -> bool) (idx : list nat) i :
  (list_find (fun j => t j = true) idx ≫= fun p => Some p.2) = Some i ->
  i ∈ idx /\ t i = true.
Proof.
  intros H. destruct (list_find _ idx) as [[k j]|] eqn:E; simplify_eq/=.
  apply list_find_Some in E as (Hl & Ht & _).
  split; [by eapply list_elem_of_lookup_2 | done].
Qed.

Lemma list_find_seq_Some (t : nat -> bool) a n i :
  (list_find (fun j => t j = true) (seq a n) ≫= fun p => Some p.2) = Some i <->
  (a <= i < a + n)%nat /\ t i = true /\ forall j, (a <= j < i)%nat -> t j = false.
Proof.
  revert a. induction n as [|n IH]; intros a; cbn [seq list_find].
  - split; [done | intros [? _]; lia].
  - destruct (t a) eqn:E.
    + rewrite decide_True by done. cbn. split.
      * intros [= <-]. repeat split; [lia.. | done |]. intros; lia.
      * intros (Hi & Ht & Hmin). f_equal.
        destruct (decide (a = i)) as [|Hne]; [done|].
        rewrite Hmin in E; [done | lia].
    + rewrite decide_False by congruence.
      replace ((prod_map S id <$> list_find (λ j, t j = true) (seq (S a) n)) ≫= λ p, Some p.2)
        with (list_find (λ j, t j = true) (seq (S a) n) ≫= λ p, Some p.2)
        by (by destruct (list_find _ _) as [[? ?]|]).
      rewrite IH. split; intros (Hi & Ht & Hmin); (split; [|split]); try done.
      * lia.
      * intros j Hj. destruct (decide (j = a)) as [->|]; [done|]. apply Hmin. lia.
      * destruct (decide (a = i)) as [->|]; [congruence | lia].
      * intros j Hj. apply Hmin. lia.
Qed.

Lemma list_find_seq_None (t : nat -> bool) a n :
  (list_find (fun j => t j = true) (seq a n) ≫= fun p => Some p.2) = None <->
  forall j, (a <= j < a + n)%nat -> t j = false.
Proof.
  split.
  - intros H j Hj. destruct (t j) eqn:E; [|done]. exfalso.
    destruct (list_find _ (seq a n)) as [[k l]|] eqn:F; [done|].
    apply list_find_None in F. rewrite Forall_forall in F.
    apply (F j); [|done]. apply elem_of_seq. lia.
  - intros H. destruct (list_find _ (seq a n)) as [[k l]|] eqn:F; [|done].
    apply list_find_Some in F as (Hl & Ht & _). exfalso.
    apply lookup_seq in Hl as [-> Hk]. rewrite H in Ht; [done | lia].
Qed.

(** Lists defined at the same indices are equally long. *)
Lemma length_same_support {A B} (l : list A) (l' : list B) :
  (forall i, is_Some (l !! i) <-> is_Some (l' !! i)) -> length l = length l'.
Proof.
  intros H. pose proof (H (length l)) as H1. pose proof (H (length l')) as H2.
  rewrite !lookup_lt_is_Some in *. lia.
Qed.

(** Filters that agree on the members of a list. *)
Lemma list_filter_ext_in {A} (Q1 Q2 : A -> Prop) `{!forall x, Decision (Q1 x)} `{!forall x, Decision (Q2 x)}
    (l : list A) :
  (forall x, x ∈ l -> Q1 x <-> Q2 x) -> filter Q1 l = filter Q2 l.
Proof.
  induction l as [|x l IH]; intros Heq; [done|]. rewrite !filter_cons.
  assert (Hx : Q1 x <-> Q2 x) by (apply Heq; left). rewrite IH by (intros; apply Heq; by right).
  destruct (decide (Q1 x)), (decide (Q2 x)); tauto || done.
Qed.

(** ** Memory *)

Lemma length_mem_read m a n : length (mem_read m a n) = n.
Proof. unfold mem_read. by rewrite length_fmap, length_seq. Qed.

Lemma mem_read_lookup m a n i :
  (i < n)%nat -> mem_read m a n !! i = Some (m (a + Z.of_nat i)).
Proof.
  intros H. unfold mem_read. rewrite list_lookup_fmap, lookup_seq_lt by done. done.
Qed.

Lemma mem_read_ext m m' a n :
  (forall x, a <= x < a + Z.of_nat n -> m x = m' x) -> mem_read m a n = mem_read m' a n.
Proof.
  intros H. unfold mem_read. apply list_fmap_ext.
  intros i x Hx. apply lookup_seq in Hx as [-> Hx]. apply H. lia.
Qed.

Lemma mem_read_write_same m a bs : mem_read (mem_write m a bs) a (length bs) = bs.
Proof.
  apply list_eq_same_length with (length bs); [done | apply length_mem_read |].
  intros i x y Hi Hx Hy. rewrite mem_read_lookup in Hx by done.
  unfold mem_write in Hx. rewrite (proj2 (Z.leb_le _ _)), (proj2 (Z.ltb_lt _ _)) in Hx by lia.
  replace (Z.to_nat (a + Z.of_nat i - a)) with i in Hx by lia.
  rewrite Hy in Hx. by simplify_eq/=.
Qed.

Lemma mem_write_other m a bs x :
  x < a \/ a + Z.of_nat (length bs) <= x -> mem_write m a bs x = m x.
Proof.
  intros H. unfold mem_write.
  destruct (Z.leb_spec a x); destruct (Z.ltb_spec x (a + Z.of_nat (length bs))); try done; lia.
Qed.

Lemma mem_read_write_other m a bs b n :
  b + Z.of_nat n <= a \/ a + Z.of_nat (length bs) <= b ->
  mem_read (mem_write m a bs) b n = mem_read m b n.
Proof. intros H. apply mem_read_ext. intros x Hx. apply mem_write_other. lia. Qed.

Lemma mem_write_at m a bs n c : bs !! n = Some c -> mem_write m a bs (a + Z.of_nat n) = c.
Proof.
  intros H. pose proof (lookup_lt_Some _ _ _ H). unfold mem_write.
  rewrite (proj2 (Z.leb_le _ _)), (proj2 (Z.ltb_lt _ _)) by lia. cbn.
  replace (Z.to_nat (a + Z.of_nat n - a)) with n by lia. by rewrite H.
Qed.

(** Writing one byte of a block. *)
Lemma mem_read_write_byte m p n off c : (off < n)%nat ->
  mem_read (mem_write m (p + Z.of_nat off) [c]) p n = <[off := c]> (mem_read m p n).
Proof.
  intros Hoff. apply list_eq. intros i. destruct (decide (i < n)%nat) as [Hi|Hi].
  - rewrite mem_read_lookup by done. destruct (decide (i = off)) as [->|Hne].
    + rewrite list_lookup_insert_eq by (by rewrite length_mem_read).
      f_equal. pose proof (mem_write_at m (p + Z.of_nat off) [c] 0 c eq_refl) as E.
      by rewrite Z.add_0_r in E.
    + rewrite list_lookup_insert_ne, mem_read_lookup by done. f_equal.
      apply mem_write_other. cbn. lia.
  - rewrite !lookup_ge_None_2; [done|..]; rewrite ?length_insert, length_mem_read; lia.
Qed.
