(* ===== verification/Platform.v ===== *)
(** What the paging code takes from the rest of OS/161 and from the machine.

    None of this code is in the repository: the constants and macros of
    [machine/vm.h], [mips/tlb.h], [elf.h] and [lib.h], the TLB instructions,
    the RAM bootstrap allocator ([ram.c]), the kernel heap ([kmalloc.c]), the
    bitmaps of [kern/lib/bitmap.c] and the VFS.  [Platform] names the
    operations the sources call; [PlatformLaws] states the documented
    behaviour they rely on.  The definitions of the development are over an
    arbitrary [Platform], its theorems over one that satisfies the laws;
    [Sys161.v] builds one. *)

From Stdlib Require Import ZArith Lia.
From stdpp Require Import base list gmap strings.
From S2P Require Import Prelude.
Local Open Scope Z_scope.

Class Platform := {
  (** [machine/vm.h], [lib.h] *)
  PAGE_SIZE : Z;
  PAGE_FRAME : Z;
  MIPS_KSEG0 : Z;
  USERSTACK : Z;
  PADDR_TO_KVADDR : Z -> Z;
  DIVROUNDUP : Z -> Z -> Z;
  (** sizes of the two table entries on this ABI *)
  sizeof_c_entry : Z;
  sizeof_pt_entry : Z;
  (** [vm.h] *)
  VM_FAULT_READ : Z; VM_FAULT_WRITE : Z; VM_FAULT_READONLY : Z;
  (** [elf.h] *)
  PF_R : Z; PF_W : Z; PF_X : Z;
  (** [cpu.h], [machine/vm.h] *)
  IPI_PANIC : Z; IPI_OFFLINE : Z; IPI_UNIDLE : Z; IPI_TLBSHOOTDOWN : Z;
  TLBSHOOTDOWN_MAX : Z;
  (** [limits.h], [spl.h], [kern/errno.h] *)
  OPEN_MAX : Z;
  IPL_HIGH : Z;
  errno_code : errno -> Z;
  (** [mips/tlb.h] *)
  NUM_TLB : nat;
  TLBLO_VALID : Z;
  TLBLO_DIRTY : Z;
  TLBHI_INVALID : nat -> Z;
  TLBLO_INVALID : Z;
  tlb_hw : Type;
  tlb_read : tlb_hw -> nat -> Z * Z;
  tlb_write : Z -> Z -> nat -> tlb_hw -> tlb_hw;
  tlb_probe : Z -> tlb_hw -> Z;
  (** [ram.c] *)
  ram : Type;
  ram_getsize : ram -> Z;
  ram_getfirstfree : ram -> Z * ram;
  ram_stealmem : Z -> ram -> Z * ram;
  (** [kmalloc.c]; a pointer is a number, a failed allocation [None] *)
  heap : Type;
  kmalloc : heap -> option (nat * heap);
  kfree : nat -> heap -> heap;
  heap_live : heap -> nat -> Prop;
  (** what a fresh block, and fresh frames read as a page table, happen to hold *)
  heap_word : heap -> nat -> Z;
  pte_raw : pmem -> Z -> nat -> Z * Z * bool * bool * Z;
  (** [kern/lib/bitmap.c]; [bitmap_unmark] asserts that the bit is set *)
  bitmap : Type;
  bitmap_nbits : bitmap -> Z;
  bitmap_create : Z -> option bitmap;
  bitmap_isset : bitmap -> Z -> bool;
  bitmap_alloc : bitmap -> errno + (bitmap * Z);
  bitmap_unmark : bitmap -> Z -> option bitmap;
  (** VFS: a read delivers at most the requested bytes *)
  vnode : Type;
  disk : Type;
  vfs_open : string -> disk -> errno + (vnode * disk);
  vfs_close : vnode -> disk -> disk;
  vfs_swapon : string -> disk -> errno + (vnode * disk);
  vfs_swapoff : string -> disk -> errno + disk;
  VOP_STAT_size : vnode -> disk -> errno + Z;
  VOP_READ : vnode -> Z -> Z -> disk -> errno + list Z;
  (** what a read has transferred when it reports an error *)
  VOP_READ_partial : vnode -> Z -> Z -> disk -> list Z;
  VOP_WRITE : vnode -> Z -> list Z -> disk -> errno + disk;
  VOP_INCREF : vnode -> disk -> disk;
  VOP_DECREF : vnode -> disk -> disk;
}.

(** The page a TLB entry translates. *)
Definition tlb_vpage {P : Platform} (t : tlb_hw) (i : nat) : Z :=
  Z.land (tlb_read t i).1 PAGE_FRAME.

Class PlatformLaws (P : Platform) : Prop := {
  page_size_pow2 : exists n, 0 < n < 32 /\ PAGE_SIZE = 2 ^ n;
  page_frame_mask : PAGE_FRAME = 2 ^ 32 - PAGE_SIZE;
  userstack_range : 0 < USERSTACK <= MIPS_KSEG0;
  userstack_aligned : USERSTACK mod PAGE_SIZE = 0;
  kseg0_range : MIPS_KSEG0 < 2 ^ 32;
  paddr_to_kvaddr : forall p, PADDR_TO_KVADDR p = u32 (p + MIPS_KSEG0);
  divroundup : forall a b, 0 <= a -> 0 < b -> DIVROUNDUP a b = (a + b - 1) / b;
  sizeof_c_entry_range : 0 < sizeof_c_entry <= PAGE_SIZE;
  sizeof_pt_entry_range : 0 < sizeof_pt_entry <= PAGE_SIZE;
  fault_types : VM_FAULT_READONLY <> VM_FAULT_READ /\ VM_FAULT_READONLY <> VM_FAULT_WRITE;
  pf_bits : PF_R = 4 /\ PF_W = 2 /\ PF_X = 1;
  ipi_codes : NoDup [IPI_PANIC; IPI_OFFLINE; IPI_UNIDLE; IPI_TLBSHOOTDOWN] /\
    Forall (fun c => 0 <= c < 32) [IPI_PANIC; IPI_OFFLINE; IPI_UNIDLE; IPI_TLBSHOOTDOWN];
  tlbshootdown_max_pos : 0 < TLBSHOOTDOWN_MAX;
  open_max_range : 3 < OPEN_MAX < 2 ^ 31;
  errno_code_pos : forall e, 0 < errno_code e;
  ipl_high_pos : 0 < IPL_HIGH;

  num_tlb_pos : (0 < NUM_TLB)%nat;
  tlblo_bits : exists v d, 0 <= v /\ 0 <= d /\ v <> d /\
    TLBLO_VALID = 2 ^ v /\ TLBLO_DIRTY = 2 ^ d /\ 2 ^ v < PAGE_SIZE /\ 2 ^ d < PAGE_SIZE;
  tlbhi_invalid_page : forall i, (i < NUM_TLB)%nat ->
    Z.land (TLBHI_INVALID i) PAGE_FRAME = TLBHI_INVALID i /\ MIPS_KSEG0 <= TLBHI_INVALID i;
  tlbhi_invalid_inj : forall i j, (i < NUM_TLB)%nat -> (j < NUM_TLB)%nat ->
    TLBHI_INVALID i = TLBHI_INVALID j -> i = j;
  tlblo_invalid : Z.land TLBLO_INVALID TLBLO_VALID = 0;
  tlb_read_write : forall t hi lo i j, (i < NUM_TLB)%nat -> (j < NUM_TLB)%nat ->
    tlb_read (tlb_write hi lo i t) j = if decide (j = i) then (hi, lo) else tlb_read t j;
  tlb_probe_hit : forall t v, 0 <= tlb_probe v t ->
    (Z.to_nat (tlb_probe v t) < NUM_TLB)%nat /\
    tlb_vpage t (Z.to_nat (tlb_probe v t)) = Z.land v PAGE_FRAME;
  tlb_probe_miss : forall t v i, tlb_probe v t < 0 -> (i < NUM_TLB)%nat ->
    tlb_vpage t i <> Z.land v PAGE_FRAME;

  kmalloc_fresh : forall h p h', kmalloc h = Some (p, h') -> ~ heap_live h p;
  kmalloc_live : forall h p h' q, kmalloc h = Some (p, h') ->
    heap_live h' q <-> q = p \/ heap_live h q;
  kfree_live : forall h p q, heap_live (kfree p h) q <-> q <> p /\ heap_live h q;

  bitmap_create_spec : forall n b, bitmap_create n = Some b ->
    bitmap_nbits b = n /\ forall i, bitmap_isset b i = false;
  bitmap_isset_range : forall b i, bitmap_isset b i = true -> 0 <= i < bitmap_nbits b;
  bitmap_alloc_ok : forall b b' i, bitmap_alloc b = inr (b', i) ->
    0 <= i < bitmap_nbits b /\ bitmap_isset b i = false /\
    bitmap_nbits b' = bitmap_nbits b /\
    forall j, bitmap_isset b' j = (j =? i) || bitmap_isset b j;
  bitmap_alloc_full : forall b e, bitmap_alloc b = inl e ->
    forall i, 0 <= i < bitmap_nbits b -> bitmap_isset b i = true;
  bitmap_unmark_ok : forall b i, bitmap_isset b i = true ->
    exists b', bitmap_unmark b i = Some b' /\ bitmap_nbits b' = bitmap_nbits b /\
      forall j, bitmap_isset b' j = negb (j =? i) && bitmap_isset b j;
  bitmap_unmark_clear : forall b i, bitmap_isset b i = false -> bitmap_unmark b i = None;

  vop_read_length : forall v off n d bs, 0 <= n ->
    VOP_READ v off n d = inr bs -> Z.of_nat (length bs) <= n;
  vop_read_partial_length : forall v off n d, 0 <= n -> Z.of_nat (length (VOP_READ_partial v off n d)) <= n;
  vop_write_read : forall v off bs d d', VOP_WRITE v off bs d = inr d' ->
    VOP_READ v off (Z.of_nat (length bs)) d' = inr bs;
  vop_write_disjoint : forall v off bs d d' off' n, VOP_WRITE v off bs d = inr d' ->
    off' + n <= off \/ off + Z.of_nat (length bs) <= off' ->
    VOP_READ v off' n d' = VOP_READ v off' n d;
  vop_write_other : forall v w off bs d d' off' n, VOP_WRITE v off bs d = inr d' ->
    v <> w -> VOP_READ w off' n d' = VOP_READ w off' n d;
  vfs_open_reads : forall name d v d' w off n, vfs_open name d = inr (v, d') ->
    VOP_READ w off n d' = VOP_READ w off n d;
  vfs_close_reads : forall v d w off n,
    VOP_READ w off n (vfs_close v d) = VOP_READ w off n d;
  vop_incref_reads : forall v d w off n,
    VOP_READ w off n (VOP_INCREF v d) = VOP_READ w off n d;
  vop_decref_reads : forall v d w off n,
    VOP_READ w off n (VOP_DECREF v d) = VOP_READ w off n d;
}.

(** ** Page arithmetic *)

Section Pages.
Context {P : Platform} {L : PlatformLaws P}.

Lemma page_size_range : 1 < PAGE_SIZE < 2 ^ 32.
Proof.
  destruct page_size_pow2 as (n & Hn & ->). split.
  - apply (Z.pow_lt_mono_r 2 0 n); lia.
  - apply Z.pow_lt_mono_r; lia.
Qed.

Lemma page_size_pos : 0 < PAGE_SIZE.
Proof. pose proof page_size_range. lia. Qed.

(** Masking an address with [PAGE_FRAME] rounds it down to its page. *)
Lemma land_page_frame x : 0 <= x < 2 ^ 32 -> Z.land x PAGE_FRAME = x - x mod PAGE_SIZE.
Proof.
  intros Hx. rewrite page_frame_mask. destruct page_size_pow2 as (n & Hn & E). rewrite E.
  replace (2 ^ 32 - 2 ^ n) with (Z.shiftl (Z.ones (32 - n)) n); cycle 1.
  { rewrite Z.shiftl_mul_pow2, Z.ones_equiv by lia.
    replace (2 ^ 32) with (2 ^ (32 - n) * 2 ^ n) by (rewrite <- Z.pow_add_r by lia; f_equal; lia).
    lia. }
  replace (x - x mod 2 ^ n) with (Z.shiftl (Z.shiftr x n) n); cycle 1.
  { rewrite Z.shiftl_mul_pow2, Z.shiftr_div_pow2 by lia. pose proof (Z.div_mod x (2 ^ n)). lia. }
  apply Z.bits_inj'. intros i Hi. rewrite Z.land_spec, !Z.shiftl_spec by done.
  destruct (decide (i < n)).
  - rewrite !(Z.testbit_neg_r _ (i - n)) by lia. apply andb_false_r.
  - rewrite Z.shiftr_spec by lia. replace (i - n + n) with i by lia.
    destruct (decide (i < 32)).
    + rewrite Z.ones_spec_low by lia. apply andb_true_r.
    + rewrite <- (Z.mod_small x (2 ^ 32)) by done. rewrite Z.mod_pow2_bits_high by lia. done.
Qed.

Lemma land_page_frame_aligned x :
  0 <= x < 2 ^ 32 -> x mod PAGE_SIZE = 0 -> Z.land x PAGE_FRAME = x.
Proof. intros Hx Ha. rewrite land_page_frame by done. lia. Qed.

Lemma land_page_frame_mod x : 0 <= x < 2 ^ 32 -> Z.land x PAGE_FRAME mod PAGE_SIZE = 0.
Proof.
  intros Hx. rewrite land_page_frame by done. pose proof page_size_pos.
  rewrite Zminus_mod, Zmod_mod, Z.sub_diag. done.
Qed.

(** What the mask leaves out is the offset in the page. *)
Lemma ldiff_page_frame x : 0 <= x < 2 ^ 32 -> Z.ldiff x PAGE_FRAME = x mod PAGE_SIZE.
Proof.
  intros Hx. pose proof (land_page_frame x Hx) as E.
  assert (Hs : x = Z.land x PAGE_FRAME + Z.ldiff x PAGE_FRAME).
  { rewrite Z.add_nocarry_lxor; apply Z.bits_inj'; intros i Hi;
      rewrite ?Z.lxor_spec, !Z.land_spec, Z.ldiff_spec, ?Z.bits_0;
      by destruct (Z.testbit x i), (Z.testbit PAGE_FRAME i). }
  lia.
Qed.

Lemma page_frame_bit_low i : 0 <= i -> 2 ^ i < PAGE_SIZE -> Z.testbit PAGE_FRAME i = false.
Proof.
  intros Hi Hlt. rewrite page_frame_mask. destruct page_size_pow2 as (n & Hn & E). rewrite E in *.
  assert (i < n) by (apply (Z.pow_lt_mono_r_iff 2); lia).
  replace (2 ^ 32 - 2 ^ n) with (Z.shiftl (Z.ones (32 - n)) n).
  - rewrite Z.shiftl_spec by done. apply Z.testbit_neg_r. lia.
  - rewrite Z.shiftl_mul_pow2, Z.ones_equiv by lia.
    replace (2 ^ 32) with (2 ^ (32 - n) * 2 ^ n) by (rewrite <- Z.pow_add_r by lia; f_equal; lia).
    lia.
Qed.

(** A page-aligned address has its low bits clear. *)
Lemma aligned_bit_low x i :
  x mod PAGE_SIZE = 0 -> 0 <= i -> 2 ^ i < PAGE_SIZE -> Z.testbit x i = false.
Proof.
  intros Ha Hi Hlt. destruct page_size_pow2 as (n & Hn & E). rewrite E in *.
  assert (i < n) by (apply (Z.pow_lt_mono_r_iff 2); lia).
  rewrite <- (Z.mod_pow2_bits_low x n i) by lia. rewrite Ha. apply Z.bits_0.
Qed.

(** ** TLB entry words: [paddr | flags] *)

Definition is_valid (elo : Z) : bool := negb (Z.land elo TLBLO_VALID =? 0).
Definition is_dirty (elo : Z) : bool := negb (Z.land elo TLBLO_DIRTY =? 0).

Definition elo_of (paddr : Z) (readOnly : bool) : Z :=
  Z.lor (Z.lor paddr (if readOnly then 0 else TLBLO_DIRTY)) TLBLO_VALID.

Lemma land_pow2_testbit x n : 0 <= n -> negb (Z.land x (2 ^ n) =? 0) = Z.testbit x n.
Proof.
  intros Hn. destruct (Z.testbit x n) eqn:E.
  - destruct (Z.eqb_spec (Z.land x (2 ^ n)) 0) as [H|]; [|done].
    assert (Z.testbit (Z.land x (2 ^ n)) n = false) as F by (rewrite H; apply Z.bits_0).
    rewrite Z.land_spec, E, Z.pow2_bits_true in F by done. done.
  - destruct (Z.eqb_spec (Z.land x (2 ^ n)) 0) as [|H]; [done|]. exfalso. apply H.
    apply Z.bits_inj'. intros i Hi. rewrite Z.land_spec, Z.bits_0, Z.pow2_bits_eqb by done.
    destruct (Z.eqb_spec n i) as [->|]; [by rewrite E | apply andb_false_r].
Qed.

Lemma aligned_even x : x mod PAGE_SIZE = 0 -> Z.land x 1 = 0.
Proof.
  intros Ha. pose proof page_size_range. apply Z.eqb_eq, negb_false_iff. change 1 with (2 ^ 0).
  rewrite land_pow2_testbit by lia. apply aligned_bit_low; [done | lia | cbn; lia].
Qed.

Lemma elo_of_valid paddr ro : is_valid (elo_of paddr ro) = true.
Proof.
  destruct tlblo_bits as (v & d & Hv & Hd & _ & Ev & Ed & _).
  unfold is_valid, elo_of. rewrite Ev, land_pow2_testbit by done.
  rewrite Z.lor_spec, Z.pow2_bits_true by done. apply orb_true_r.
Qed.

Lemma elo_of_dirty paddr ro : paddr mod PAGE_SIZE = 0 -> is_dirty (elo_of paddr ro) = negb ro.
Proof.
  intros Ha. destruct tlblo_bits as (v & d & Hv & Hd & Hvd & Ev & Ed & Hv' & Hd').
  unfold is_dirty, elo_of. rewrite Ed, Ev, land_pow2_testbit by done.
  rewrite !Z.lor_spec, (aligned_bit_low paddr d), Z.pow2_bits_false by done.
  rewrite orb_false_r, orb_false_l. destruct ro; [apply Z.bits_0 | by apply Z.pow2_bits_true].
Qed.

Lemma elo_of_frame paddr ro : 0 <= paddr < 2 ^ 32 -> paddr mod PAGE_SIZE = 0 ->
  Z.land (elo_of paddr ro) PAGE_FRAME = paddr.
Proof.
  intros Hr Ha. destruct tlblo_bits as (v & d & Hv & Hd & Hvd & Ev & Ed & Hv' & Hd').
  rewrite <- (land_page_frame_aligned paddr) at 2 by done.
  unfold elo_of. rewrite Ed, Ev, !Z.land_lor_distr_l.
  assert (F : forall n, 0 <= n -> 2 ^ n < PAGE_SIZE -> Z.land (2 ^ n) PAGE_FRAME = 0).
  { intros n Hn Hlt. apply Z.bits_inj'. intros i Hi.
    rewrite Z.land_spec, Z.bits_0, Z.pow2_bits_eqb by done.
    destruct (Z.eqb_spec n i) as [->|]; [by rewrite page_frame_bit_low | done]. }
  rewrite (F v) by done. destruct ro.
  - by rewrite Z.land_0_l, !Z.lor_0_r.
  - rewrite (F d) by done. by rewrite !Z.lor_0_r.
Qed.

Lemma tlblo_invalid_not_valid : is_valid TLBLO_INVALID = false.
Proof. unfold is_valid. by rewrite tlblo_invalid. Qed.
End Pages.
