(* ===== verification/State.v ===== *)
(** The data of the paging kernel and its global state.

    One record per C structure ([c_entry], [pt_entry], [segment_t],
    [addrspace]) and one record per file that keeps static or global
    variables ([coremap.c], [swapfile.c], [vm_tlb.c], [vmstats.c]); [kernel]
    puts them together with physical memory, the kernel heap, the devices and
    the running thread.  The files of the components define their operations
    as computations over [kernel].

    A pointer to an address space is an [asid], NULL is [None].  The array
    behind [as_pt] is kept as the list [pt] next to the pointer.  A spinlock
    is [true] while it is held; a sleep lock carries its owner. *)

From Stdlib Require Import ZArith Lia.
From stdpp Require Import base list gmap strings.
From S2P Require Import Prelude Platform.
Local Open Scope Z_scope.

Abbreviation asid := nat (only parsing).
Abbreviation tid := nat (only parsing).

(** [coremap.h] *)
Record c_entry := mk_c_entry {
  ce_vaddr : Z;
  ce_as : option asid;
  ce_allocpages : Z;
}.

(** [pt.h] *)
Record pt_entry := mk_pt_entry {
  pte_paddr : Z;
  pte_vaddr : Z;
  pte_in_mem : bool;
  pte_in_swap : bool;
  pte_rwx : Z;
}.

(** [segment.h]; [seg_node] is the heap address of the list node. *)
Record segment_t := mk_segment {
  seg_node : nat;
  seg_start : Z;
  seg_size : Z;
  seg_filesize : Z;
  seg_npages : Z;
  seg_rwx : Z;
  seg_offset : Z;
  seg_initoffset : Z;
}.

(** The heap blocks behind a [struct lock] of [synch.c]: the structure, its
    name, its semaphore, the semaphore's name and wait channel. *)
Record sem_h := mk_sem_h { sem_node : nat; sem_name : nat; sem_wchan : nat }.
Record lock_h := mk_lock_h { lk_node : nat; lk_name : nat; lk_sem : sem_h }.

(** Static variables of [vm_tlb.c] (with the TLB itself) and [vmstats.c]. *)
Record stats_st := mk_stats {
  counters : list Z;
  stats_lock : option tid;
  stats_lock_h : option lock_h;
}.

(** What [curcpu] and [curthread] tell the paging code. *)
Record cpu_st := mk_cpu {
  curcpu_exists : bool;
  c_spinlocks : Z;
  t_in_interrupt : bool;
  curthread : tid;
}.

(** Static variables of [coremap.c]; [next_svic] is the static of [swapvictim]. *)
Record coremap_st := mk_coremap {
  coremap : list c_entry;
  coremapSize : Z;
  ram_used : Z;
  firstpaddr : Z;
  lastpaddr : Z;
  coremapActive : bool;
  next_svic : Z;
  coremap_lock : bool;
}.

Section State.
Context {P : Platform}.

(** [addrspace.h]; [as_pt] is the kernel address of the page table, 0 for NULL,
    and [pt] the array stored there; [progname] is NULL or a heap string. *)
Record addrspace := mk_addrspace {
  as_pt : Z;
  pt : list pt_entry;
  as_segment : list segment_t;
  as_v : vnode;
  npages : Z;
  pt_lock : option tid;
  pt_lock_h : lock_h;
  progname : option (nat * string);
}.

(** [swapfile.c]; [used] is an [unsigned short]. *)
Record swap_st := mk_swap {
  swapFile : option vnode;
  swapFileSize : Z;
  swapMap : option bitmap;
  used : Z;
  swap_lock : option tid;
  swap_lock_h : option lock_h;
}.

Record tlb_st := mk_tlb {
  tlb : tlb_hw;
  tlb_full : bool;
  next_victim : Z;
}.

(** [k_curproc] is [None] for a NULL [curproc], else its [p_addrspace]. *)
Record kernel := mk_kernel {
  k_cm : coremap_st;
  k_swap : swap_st;
  k_tlb : tlb_st;
  k_stats : stats_st;
  k_cpu : cpu_st;
  k_as : gmap asid addrspace;
  k_curproc : option (option asid);
  k_mem : pmem;
  k_disk : disk;
  k_heap : heap;
  k_ram : ram;
  k_stealmem_lock : bool;
}.

Definition set_cm (f : coremap_st -> coremap_st) (k : kernel) : kernel :=
  mk_kernel (f (k_cm k)) (k_swap k) (k_tlb k) (k_stats k) (k_cpu k) (k_as k) (k_curproc k)
    (k_mem k) (k_disk k) (k_heap k) (k_ram k) (k_stealmem_lock k).
Definition set_swap (f : swap_st -> swap_st) (k : kernel) : kernel :=
  mk_kernel (k_cm k) (f (k_swap k)) (k_tlb k) (k_stats k) (k_cpu k) (k_as k) (k_curproc k)
    (k_mem k) (k_disk k) (k_heap k) (k_ram k) (k_stealmem_lock k).
Definition set_tlb (f : tlb_st -> tlb_st) (k : kernel) : kernel :=
  mk_kernel (k_cm k) (k_swap k) (f (k_tlb k)) (k_stats k) (k_cpu k) (k_as k) (k_curproc k)
    (k_mem k) (k_disk k) (k_heap k) (k_ram k) (k_stealmem_lock k).
Definition set_stats (f : stats_st -> stats_st) (k : kernel) : kernel :=
  mk_kernel (k_cm k) (k_swap k) (k_tlb k) (f (k_stats k)) (k_cpu k) (k_as k) (k_curproc k)
    (k_mem k) (k_disk k) (k_heap k) (k_ram k) (k_stealmem_lock k).
Definition set_cpu (f : cpu_st -> cpu_st) (k : kernel) : kernel :=
  mk_kernel (k_cm k) (k_swap k) (k_tlb k) (k_stats k) (f (k_cpu k)) (k_as k) (k_curproc k)
    (k_mem k) (k_disk k) (k_heap k) (k_ram k) (k_stealmem_lock k).
Definition set_ases (f : gmap asid addrspace -> gmap asid addrspace) (k : kernel) : kernel :=
  mk_kernel (k_cm k) (k_swap k) (k_tlb k) (k_stats k) (k_cpu k) (f (k_as k)) (k_curproc k)
    (k_mem k) (k_disk k) (k_heap k) (k_ram k) (k_stealmem_lock k).
Definition set_curproc (o : option (option asid)) (k : kernel) : kernel :=
  mk_kernel (k_cm k) (k_swap k) (k_tlb k) (k_stats k) (k_cpu k) (k_as k) o
    (k_mem k) (k_disk k) (k_heap k) (k_ram k) (k_stealmem_lock k).
Definition set_mem (f : pmem -> pmem) (k : kernel) : kernel :=
  mk_kernel (k_cm k) (k_swap k) (k_tlb k) (k_stats k) (k_cpu k) (k_as k) (k_curproc k)
    (f (k_mem k)) (k_disk k) (k_heap k) (k_ram k) (k_stealmem_lock k).
Definition set_disk (d : disk) (k : kernel) : kernel :=
  mk_kernel (k_cm k) (k_swap k) (k_tlb k) (k_stats k) (k_cpu k) (k_as k) (k_curproc k)
    (k_mem k) d (k_heap k) (k_ram k) (k_stealmem_lock k).
Definition set_heap (h : heap) (k : kernel) : kernel :=
  mk_kernel (k_cm k) (k_swap k) (k_tlb k) (k_stats k) (k_cpu k) (k_as k) (k_curproc k)
    (k_mem k) (k_disk k) h (k_ram k) (k_stealmem_lock k).
Definition set_ram (r : ram) (k : kernel) : kernel :=
  mk_kernel (k_cm k) (k_swap k) (k_tlb k) (k_stats k) (k_cpu k) (k_as k) (k_curproc k)
    (k_mem k) (k_disk k) (k_heap k) r (k_stealmem_lock k).
Definition set_stealmem_lock (b : bool) (k : kernel) : kernel :=
  mk_kernel (k_cm k) (k_swap k) (k_tlb k) (k_stats k) (k_cpu k) (k_as k) (k_curproc k)
    (k_mem k) (k_disk k) (k_heap k) (k_ram k) b.

(** Field updates inside the component records. *)
Definition with_coremap (l : list c_entry) (c : coremap_st) : coremap_st :=
  mk_coremap l (coremapSize c) (ram_used c) (firstpaddr c) (lastpaddr c) (coremapActive c)
    (next_svic c) (coremap_lock c).
Definition with_next_svic (n : Z) (c : coremap_st) : coremap_st :=
  mk_coremap (coremap c) (coremapSize c) (ram_used c) (firstpaddr c) (lastpaddr c)
    (coremapActive c) n (coremap_lock c).
Definition with_coremap_lock (b : bool) (c : coremap_st) : coremap_st :=
  mk_coremap (coremap c) (coremapSize c) (ram_used c) (firstpaddr c) (lastpaddr c)
    (coremapActive c) (next_svic c) b.
Definition with_swap_lock (o : option tid) (w : swap_st) : swap_st :=
  mk_swap (swapFile w) (swapFileSize w) (swapMap w) (used w) o (swap_lock_h w).
Definition with_swapMap (b : bitmap) (n : Z) (w : swap_st) : swap_st :=
  mk_swap (swapFile w) (swapFileSize w) (Some b) n (swap_lock w) (swap_lock_h w).
Definition with_tlb (t : tlb_hw) (w : tlb_st) : tlb_st :=
  mk_tlb t (tlb_full w) (next_victim w).
Definition with_counters (l : list Z) (w : stats_st) : stats_st :=
  mk_stats l (stats_lock w) (stats_lock_h w).
Definition with_stats_lock (o : option tid) (w : stats_st) : stats_st :=
  mk_stats (counters w) o (stats_lock_h w).
Definition with_c_spinlocks (n : Z) (c : cpu_st) : cpu_st :=
  mk_cpu (curcpu_exists c) n (t_in_interrupt c) (curthread c).
Definition with_pt_lock (o : option tid) (a : addrspace) : addrspace :=
  mk_addrspace (as_pt a) (pt a) (as_segment a) (as_v a) (npages a) o (pt_lock_h a) (progname a).
Definition with_pt (l : list pt_entry) (a : addrspace) : addrspace :=
  mk_addrspace (as_pt a) l (as_segment a) (as_v a) (npages a) (pt_lock a) (pt_lock_h a) (progname a).
Definition with_segments (l : list segment_t) (a : addrspace) : addrspace :=
  mk_addrspace (as_pt a) (pt a) l (as_v a) (npages a) (pt_lock a) (pt_lock_h a) (progname a).
Definition with_table (p : Z) (l : list pt_entry) (a : addrspace) : addrspace :=
  mk_addrspace p l (as_segment a) (as_v a) (npages a) (pt_lock a) (pt_lock_h a) (progname a).
Definition with_npages (n : Z) (a : addrspace) : addrspace :=
  mk_addrspace (as_pt a) (pt a) (as_segment a) (as_v a) n (pt_lock a) (pt_lock_h a) (progname a).

Definition with_in_mem (b : bool) (e : pt_entry) : pt_entry :=
  mk_pt_entry (pte_paddr e) (pte_vaddr e) b (pte_in_swap e) (pte_rwx e).
Definition with_in_swap (b : bool) (e : pt_entry) : pt_entry :=
  mk_pt_entry (pte_paddr e) (pte_vaddr e) (pte_in_mem e) b (pte_rwx e).
Definition with_paddr (p : Z) (e : pt_entry) : pt_entry :=
  mk_pt_entry p (pte_vaddr e) (pte_in_mem e) (pte_in_swap e) (pte_rwx e).

(** ** Locks

    The view a running thread has of the locks: a free one is taken, a sleep
    lock it already owns fails the assertion of [lock_acquire], and one that
    another thread holds is waited for.  [Locks.v] proves that the semaphore
    based code of [synch.c] gives exactly this view. *)

Definition lock_acquire (get : kernel -> option tid) (put : option tid -> kernel -> kernel)
    (name : string) : M kernel unit :=
  fun k =>
    match get k with
    | Some t => if (t =? curthread (k_cpu k))%nat
                then Stop (Kassert "!(lock_do_i_hold(lock))") k
                else Stop (Blocked name) k
    | None => if t_in_interrupt (k_cpu k)
              then Stop (Kassert "curthread->t_in_interrupt == false") k
              else Done tt (put (Some (curthread (k_cpu k))) k)
    end.

Definition lock_release (get : kernel -> option tid) (put : option tid -> kernel -> kernel)
    : M kernel unit :=
  fun k =>
    match get k with
    | Some t => if (t =? curthread (k_cpu k))%nat then Done tt (put None k)
                else Stop (Kassert "lock_do_i_hold(lock)") k
    | None => Stop (Kassert "lock_do_i_hold(lock)") k
    end.

Definition spinlock_acquire (get : kernel -> bool) (put : bool -> kernel -> kernel)
    (name : string) : M kernel unit :=
  fun k => if get k then Stop (Blocked name) k
           else Done tt (put true (set_cpu (fun c => with_c_spinlocks (c_spinlocks c + 1) c) k)).

Definition spinlock_release (put : bool -> kernel -> kernel) : M kernel unit :=
  modify (fun k => put false (set_cpu (fun c => with_c_spinlocks (c_spinlocks c - 1) c) k)).

Definition acquire_stats_lock : M kernel unit :=
  lock_acquire (fun k => stats_lock (k_stats k))
    (fun o => set_stats (with_stats_lock o)) "stats_lock".
Definition release_stats_lock : M kernel unit :=
  lock_release (fun k => stats_lock (k_stats k)) (fun o => set_stats (with_stats_lock o)).
Definition acquire_swap_lock : M kernel unit :=
  lock_acquire (fun k => swap_lock (k_swap k))
    (fun o => set_swap (with_swap_lock o)) "swap_lock".
Definition release_swap_lock : M kernel unit :=
  lock_release (fun k => swap_lock (k_swap k)) (fun o => set_swap (with_swap_lock o)).
Definition acquire_coremap_lock : M kernel unit :=
  spinlock_acquire (fun k => coremap_lock (k_cm k))
    (fun b => set_cm (with_coremap_lock b)) "coremap_lock".
Definition release_coremap_lock : M kernel unit :=
  spinlock_release (fun b => set_cm (with_coremap_lock b)).

(** Dereferencing an address space pointer. *)
Definition as_get (a : asid) : M kernel addrspace :=
  fun k => match k_as k !! a with
           | Some A => Done A k
           | None => Stop (Undef "as") k
           end.
Definition as_set (a : asid) (A : addrspace) : M kernel unit :=
  modify (set_ases (fun m => <[a := A]> m)).

Definition acquire_pt_lock (a : asid) : M kernel unit :=
  let* A := as_get a in
  lock_acquire (fun k => k_as k !! a ≫= pt_lock)
    (fun o => set_ases (alter (with_pt_lock o) a)) "pt_lock".
Definition release_pt_lock (a : asid) : M kernel unit :=
  let* A := as_get a in
  lock_release (fun k => k_as k !! a ≫= pt_lock)
    (fun o => set_ases (alter (with_pt_lock o) a)).

(** [pt[i]] of an address space, read and written. *)
Definition pt_get (a : asid) (i : nat) : M kernel pt_entry :=
  let* A := as_get a in
  match pt A !! i with
  | Some e => ret e
  | None => halt (Undef "pt[i]")
  end.
Definition pt_set (a : asid) (i : nat) (e : pt_entry) : M kernel unit :=
  let* A := as_get a in
  match pt A !! i with
  | Some _ => as_set a (with_pt (<[i := e]> (pt A)) A)
  | None => halt (Undef "pt[i]")
  end.

(** [proc_getas] and [proc_setas] of [proc.c]; the latter needs a process. *)
Definition proc_getas : M kernel (option asid) :=
  gets (fun k => k_curproc k ≫= id).

Definition proc_setas (newas : option asid) : M kernel (option asid) :=
  let* p := gets k_curproc in
  match p with
  | None => halt (Kassert "proc != NULL")
  | Some oldas => modify (set_curproc (Some newas)) ;; ret oldas
  end.

(** [can_sleep] and [checkcanLock] of [addrspace.c]; [checkcanLock] answers 0
    when locks may be taken. *)
Definition can_sleep : M kernel unit :=
  let* c := gets k_cpu in
  if curcpu_exists c then
    kassert (c_spinlocks c =? 0) "curcpu->c_spinlocks == 0" ;;
    kassert (negb (t_in_interrupt c)) "curthread->t_in_interrupt == 0"
  else ret tt.

Definition checkcanLock : M kernel Z :=
  let* c := gets k_cpu in
  ret (if curcpu_exists c && ((c_spinlocks c =? 0) && negb (t_in_interrupt c)) then 0 else 1).
End State.

(** Reading through the updates. *)
Ltac kred :=
  cbn [k_cm k_swap k_tlb k_stats k_cpu k_as k_curproc k_mem k_disk k_heap k_ram k_stealmem_lock
       set_cm set_swap set_tlb set_stats set_cpu set_ases set_curproc set_mem set_disk set_heap set_ram
       set_stealmem_lock
       coremap coremapSize ram_used firstpaddr lastpaddr coremapActive next_svic coremap_lock
       with_coremap with_next_svic with_coremap_lock
       swapFile swapFileSize swapMap used swap_lock with_swap_lock with_swapMap
       tlb tlb_full next_victim with_tlb
       counters stats_lock with_counters with_stats_lock
       curcpu_exists c_spinlocks t_in_interrupt curthread with_c_spinlocks
       as_pt pt as_segment as_v npages pt_lock pt_lock_h progname
       stats_lock_h swap_lock_h
       with_pt_lock with_pt with_segments with_table with_npages
       pte_paddr pte_vaddr pte_in_mem pte_in_swap pte_rwx with_in_mem with_in_swap with_paddr
       ce_vaddr ce_as ce_allocpages] in *.

(** [kernel_eq k] proves two descriptions of the kernel [k] after some updates
    equal: [k] is taken apart and the updates are computed. *)
Ltac kernel_eq k :=
  destruct k as [[] [] [] [] [] ? ? ? ? ? ? ?]; cbn in *; subst;
  lazy [k_cm k_swap k_tlb k_stats k_cpu k_as k_curproc k_mem k_disk k_heap k_ram k_stealmem_lock
       set_cm set_swap set_tlb set_stats set_cpu set_ases set_curproc set_mem set_disk set_heap set_ram
       set_stealmem_lock
       coremap coremapSize ram_used firstpaddr lastpaddr coremapActive next_svic coremap_lock
       with_coremap with_next_svic with_coremap_lock
       swapFile swapFileSize swapMap used swap_lock with_swap_lock with_swapMap
       tlb tlb_full next_victim with_tlb
       counters stats_lock with_counters with_stats_lock stats_lock_h swap_lock_h
       curcpu_exists c_spinlocks t_in_interrupt curthread with_c_spinlocks];
  rewrite ?list_insert_insert_eq, ?insert_insert_eq, ?Z.add_simpl_r; try reflexivity.

Section Locks.
Context {P : Platform}.
Implicit Types (k : kernel).

Lemma wp_lock_acquire get put name k (Q : unit -> kernel -> Prop) :
  get k = None -> t_in_interrupt (k_cpu k) = false ->
  Q tt (put (Some (curthread (k_cpu k))) k) -> wp (lock_acquire get put name) Q k.
Proof. intros Hg Ht HQ. unfold wp, lock_acquire. by rewrite Hg, Ht. Qed.

Lemma wp_lock_release get put k (Q : unit -> kernel -> Prop) :
  get k = Some (curthread (k_cpu k)) -> Q tt (put None k) -> wp (lock_release get put) Q k.
Proof. intros Hg HQ. unfold wp, lock_release. by rewrite Hg, Nat.eqb_refl. Qed.

Lemma wp_acquire_coremap_lock k (Q : unit -> kernel -> Prop) :
  coremap_lock (k_cm k) = false ->
  Q tt (set_cm (with_coremap_lock true)
         (set_cpu (fun c => with_c_spinlocks (c_spinlocks c + 1) c) k)) ->
  wp acquire_coremap_lock Q k.
Proof. intros Hg HQ. unfold wp, acquire_coremap_lock, spinlock_acquire. by rewrite Hg. Qed.

Lemma wp_as_get a A k (Q : addrspace -> kernel -> Prop) :
  k_as k !! a = Some A -> Q A k -> wp (as_get a) Q k.
Proof. intros Ha HQ. unfold wp, as_get. by rewrite Ha. Qed.

Lemma wp_acquire_pt_lock a A k (Q : unit -> kernel -> Prop) :
  k_as k !! a = Some A -> pt_lock A = None -> t_in_interrupt (k_cpu k) = false ->
  Q tt (set_ases (<[a := with_pt_lock (Some (curthread (k_cpu k))) A]>) k) ->
  wp (acquire_pt_lock a) Q k.
Proof.
  intros Ha Hl Ht HQ. unfold acquire_pt_lock. apply wp_bind, (wp_as_get _ _ _ _ Ha).
  apply wp_lock_acquire; [by rewrite Ha | done |].
  replace (set_ases (alter (with_pt_lock (Some (curthread (k_cpu k)))) a) k)
    with (set_ases (<[a := with_pt_lock (Some (curthread (k_cpu k))) A]>) k); [done|].
  unfold set_ases. f_equal. apply map_eq. intros b. destruct (decide (a = b)) as [<-|Hne].
  - by rewrite lookup_insert_eq, lookup_alter_eq, Ha.
  - by rewrite lookup_insert_ne, lookup_alter_ne.
Qed.

Lemma wp_release_pt_lock a A k (Q : unit -> kernel -> Prop) :
  k_as k !! a = Some A -> pt_lock A = Some (curthread (k_cpu k)) ->
  Q tt (set_ases (<[a := with_pt_lock None A]>) k) ->
  wp (release_pt_lock a) Q k.
Proof.
  intros Ha Hl HQ. unfold release_pt_lock. apply wp_bind, (wp_as_get _ _ _ _ Ha).
  apply wp_lock_release; [by rewrite Ha|].
  replace (set_ases (alter (with_pt_lock None) a) k)
    with (set_ases (<[a := with_pt_lock None A]>) k); [done|].
  unfold set_ases. f_equal. apply map_eq. intros b. destruct (decide (a = b)) as [<-|Hne].
  - by rewrite lookup_insert_eq, lookup_alter_eq, Ha.
  - by rewrite lookup_insert_ne, lookup_alter_ne.
Qed.

Lemma wp_pt_get a A i e k (Q : pt_entry -> kernel -> Prop) :
  k_as k !! a = Some A -> pt A !! i = Some e -> Q e k -> wp (pt_get a i) Q k.
Proof.
  intros Ha He HQ. unfold pt_get. apply wp_bind, (wp_as_get _ _ _ _ Ha). by rewrite He.
Qed.

Lemma wp_pt_set a A i e e' k (Q : unit -> kernel -> Prop) :
  k_as k !! a = Some A -> pt A !! i = Some e ->
  Q tt (set_ases (<[a := with_pt (<[i := e']> (pt A)) A]>) k) -> wp (pt_set a i e') Q k.
Proof.
  intros Ha He HQ. unfold pt_set. apply wp_bind, (wp_as_get _ _ _ _ Ha). by rewrite He.
Qed.
End Locks.
