(* ===== verification/Synch.v ===== *)
(** Creation and destruction of semaphores, locks and condition variables
    ([thread/synch.c], and [wchan_create]/[wchan_destroy] of
    [thread/thread.c]), over the kernel heap.

    Each constructor allocates its parts one after the other and gives back
    the ones it has when an allocation fails.  The theorems show that nothing
    leaks on any of these paths, and that a destructor returns exactly the
    blocks its constructor took.

    Only the heap is modelled here, not the contents of the objects: that
    nobody holds the spinlock or sleeps on the wait channel of an object that
    is destroyed, which [spinlock_cleanup] and [threadlist_cleanup] assert, is
    left to the callers, which destroy objects of their own only.  How the
    objects are used is in [Locks.v]. *)

From Stdlib Require Import ZArith Lia.
From stdpp Require Import base list gmap strings.
From S2P Require Import Prelude Platform State.
Local Open Scope Z_scope.

(** The heap blocks behind a [struct cv]. *)
Record cv_h := mk_cv_h { cv_node : nat; cv_name : nat; cv_wchan : nat }.

Section Objects.
Context {P : Platform}.

Definition kmallocM : M kernel (option nat) :=
  fun k => match kmalloc (k_heap k) with
           | Some (p, h) => Done (Some p) (set_heap h k)
           | None => Done None k
           end.
Definition kfreeM (p : nat) : M kernel unit := modify (fun k => set_heap (kfree p (k_heap k)) k).

(** A copy of a string needs one block, NULL when there is none. *)
Definition kstrdupM : M kernel (option nat) := kmallocM.

Definition wchan_create : M kernel (option nat) :=
  let* wc := kmallocM in
  match wc with
  | None => ret None
  | Some wc => ret (Some wc)
  end.

Definition wchan_destroy (wc : nat) : M kernel unit := kfreeM wc.

Definition sem_create : M kernel (option sem_h) :=
  let* sem := kmallocM in
  match sem with
  | None => ret None
  | Some sem =>
    let* name := kstrdupM in
    match name with
    | None => kfreeM sem ;; ret None
    | Some name =>
      let* wc := wchan_create in
      match wc with
      | None => kfreeM name ;; kfreeM sem ;; ret None
      | Some wc => ret (Some (mk_sem_h sem name wc))
      end
    end
  end.

Definition sem_destroy (s : sem_h) : M kernel unit :=
  wchan_destroy (sem_wchan s) ;; kfreeM (sem_name s) ;; kfreeM (sem_node s).

Definition lock_create : M kernel (option lock_h) :=
  let* lock := kmallocM in
  match lock with
  | None => ret None
  | Some lock =>
    let* name := kstrdupM in
    match name with
    | None => kfreeM lock ;; ret None
    | Some name =>
      let* sem := sem_create in
      match sem with
      | None => kfreeM name ;; kfreeM lock ;; ret None
      | Some sem => ret (Some (mk_lock_h lock name sem))
      end
    end
  end.

Definition lock_destroy (l : lock_h) : M kernel unit :=
  sem_destroy (lk_sem l) ;; kfreeM (lk_name l) ;; kfreeM (lk_node l).

Definition cv_create : M kernel (option cv_h) :=
  let* cv := kmallocM in
  match cv with
  | None => ret None
  | Some cv =>
    let* name := kstrdupM in
    match name with
    | None => kfreeM cv ;; ret None
    | Some name =>
      let* wc := wchan_create in
      match wc with
      | None => kfreeM name ;; kfreeM cv ;; ret None
      | Some wc => ret (Some (mk_cv_h cv name wc))
      end
    end
  end.

Definition cv_destroy (c : cv_h) : M kernel unit :=
  wchan_destroy (cv_wchan c) ;; kfreeM (cv_name c) ;; kfreeM (cv_node c).

(** The blocks an object consists of. *)
Definition sem_blocks (s : sem_h) : list nat := [sem_node s; sem_name s; sem_wchan s].
Definition lock_blocks (l : lock_h) : list nat := lk_node l :: lk_name l :: sem_blocks (lk_sem l).
Definition cv_blocks (c : cv_h) : list nat := [cv_node c; cv_name c; cv_wchan c].

(** The heap can serve [n] allocations in a row. *)
Fixpoint room (n : nat) (h : heap) : bool :=
  match n with
  | O => true
  | S n => match kmalloc h with Some (_, h) => room n h | None => false end
  end.

(** [h'] has room for [n] blocks less than [h]. *)
Definition spent (n : nat) (h h' : heap) : Prop := forall m, room (n + m) h = room m h'.

(** No live block is lost. *)
Definition grows (h h' : heap) : Prop := forall q, heap_live h q -> heap_live h' q.

Lemma grows_trans h1 h2 h3 : grows h1 h2 -> grows h2 h3 -> grows h1 h3.
Proof. unfold grows. auto. Qed.

(** [k'] is [k] up to the heap, whose live blocks are those of [k] and [bs]. *)
Definition heap_plus (bs : list nat) (k k' : kernel) : Prop :=
  (exists h, k' = set_heap h k) /\
  NoDup bs /\ (forall q, q ∈ bs -> ~ heap_live (k_heap k) q) /\
  forall q, heap_live (k_heap k') q <-> q ∈ bs \/ heap_live (k_heap k) q.

(** [k'] is [k] with the blocks [bs] given back. *)
Definition heap_minus (bs : list nat) (k k' : kernel) : Prop :=
  (exists h, k' = set_heap h k) /\
  forall q, heap_live (k_heap k') q <-> (q ∉ bs) /\ heap_live (k_heap k) q.
End Objects.

Section Theorems.
Context {P : Platform} {L : PlatformLaws P}.
Implicit Types (k : kernel).

Lemma heap_plus_refl k : heap_plus [] k k.
Proof.
  split; [|split; [|split]].
  - exists (k_heap k). by destruct k.
  - constructor.
  - intros q Hq. by apply not_elem_of_nil in Hq.
  - intros q. split; [by right | intros [Hq|]; [by apply not_elem_of_nil in Hq | done]].
Qed.

(** ** Room in the heap *)

Lemma room_le n m h : (m <= n)%nat -> room n h = true -> room m h = true.
Proof.
  revert n h. induction m as [|m IH]; intros [|n] h Hm; cbn; try done; [lia|].
  destruct (kmalloc h) as [[p h']|]; [|done]. apply IH. lia.
Qed.

Lemma no_room_le n m h : (m <= n)%nat -> room m h = false -> room n h = false.
Proof. intros Hm Hr. apply not_true_is_false. intros H. by rewrite (room_le n m h Hm H) in Hr. Qed.

Lemma spent_0 h : spent 0 h h.
Proof. by intros m. Qed.

Lemma spent_add n m h h1 h2 : spent n h h1 -> spent m h1 h2 -> spent (n + m) h h2.
Proof. intros H1 H2 r. by rewrite <- Nat.add_assoc, H1, H2. Qed.

Lemma spent_kmalloc h p h' : kmalloc h = Some (p, h') -> spent 1 h h'.
Proof. intros E m. cbn. by rewrite E. Qed.

(** What is left after an allocation that there was room for. *)
Lemma spent_room n m h h' : spent n h h' -> room (n + m) h = true -> room m h' = true.
Proof. intros Hs. by rewrite Hs. Qed.

Lemma grows_refl h : grows h h.
Proof. by intros q. Qed.

Lemma grows_kmalloc h p h' : kmalloc h = Some (p, h') -> grows h h'.
Proof. intros E q Hq. apply (kmalloc_live _ _ _ _ E). by right. Qed.

(** An allocation succeeds exactly when there is room for a block. *)
Lemma wp_kmalloc_room k (Q : option nat -> kernel -> Prop) :
  (room 1 (k_heap k) = false -> Q None k) ->
  (forall p h, kmalloc (k_heap k) = Some (p, h) -> spent 1 (k_heap k) h -> grows (k_heap k) h -> Q (Some p) (set_heap h k)) ->
  wp kmallocM Q k.
Proof.
  intros HN HS. unfold wp, kmallocM. cbn in HN. destruct (kmalloc (k_heap k)) as [[p h]|] eqn:E; [|by apply HN].
  apply HS; [done | by eapply spent_kmalloc | by eapply grows_kmalloc].
Qed.

(** A constructor that takes [n] blocks succeeds exactly when there is room
    for them, and only adds to the heap. *)
Definition takes {A} (n : nat) (o : option A) (k k' : kernel) : Prop :=
  exists h, k' = set_heap h k /\ grows (k_heap k) h /\
    match o with Some _ => spent n (k_heap k) h | None => room n (k_heap k) = false end.

Lemma wp_kmalloc bs k0 k (Q : option nat -> kernel -> Prop) :
  heap_plus bs k0 k ->
  Q None k -> (forall p k', heap_plus (p :: bs) k0 k' -> Q (Some p) k') ->
  wp kmallocM Q k.
Proof.
  intros ([h ->] & Hnd & Hfr & Hl) HN HS. unfold wp, kmallocM.
  destruct (kmalloc _) as [[p h']|] eqn:E; [|done].
  pose proof (kmalloc_fresh _ _ _ E) as Hp. pose proof (fun q => kmalloc_live _ _ _ q E) as Hq.
  rewrite Hl in Hp. apply HS. split; [by exists h'|]. split; [|split].
  - constructor; [tauto | done].
  - intros q [->|Hin]%elem_of_cons; [tauto | by apply Hfr].
  - intros q. cbn. rewrite Hq, Hl, elem_of_cons. tauto.
Qed.

Lemma wp_kmalloc_full bs k0 k (Q : option nat -> kernel -> Prop) :
  heap_plus bs k0 k -> (room 1 (k_heap k) = false -> Q None k) ->
  (forall p k', heap_plus (p :: bs) k0 k' -> spent 1 (k_heap k) (k_heap k') -> Q (Some p) k') -> wp kmallocM Q k.
Proof.
  intros Hp HN HS. eapply wp_mono; [apply (wp_conj kmallocM
    (fun o k' => match o with Some p => heap_plus (p :: bs) k0 k' | None => k' = k end)
    (fun o k' => match o with Some _ => spent 1 (k_heap k) (k_heap k') | None => room 1 (k_heap k) = false end))|].
  - by apply (wp_kmalloc bs k0).
  - by apply wp_kmalloc_room.
  - intros [p|] k' [H1 H2]; [by apply HS | subst; by apply HN].
Qed.

Lemma wp_kfree p bs k0 k (Q : unit -> kernel -> Prop) :
  heap_plus (p :: bs) k0 k -> (forall k', heap_plus bs k0 k' -> Q tt k') -> wp (kfreeM p) Q k.
Proof.
  intros ([h ->] & Hnd & Hfr & Hl) HQ. apply wp_modify, HQ.
  apply NoDup_cons in Hnd as [Hp Hnd]. split; [by eexists|]. split; [done|]. split.
  - intros q Hin. apply Hfr. by right.
  - intros q. cbn. rewrite kfree_live. cbn in Hl. rewrite Hl, elem_of_cons. split.
    + intros [? [[->|?]|?]]; tauto.
    + intros [Hin|Hlive]; (split; [|tauto]).
      * by intros ->.
      * intros ->. apply (Hfr p); [by left | done].
Qed.

Lemma heap_plus_perm bs bs' k k' : bs ≡ₚ bs' -> heap_plus bs k k' -> heap_plus bs' k k'.
Proof.
  intros Hp (He & Hnd & Hfr & Hl). split; [done|]. split; [by rewrite <- Hp|].
  split; intros q; rewrite <- Hp; auto.
Qed.

(** [allocs] runs a constructor: every allocation may fail, every block taken
    so far is in the list, and the cleanup paths give back the last one first. *)
Ltac allocs :=
  repeat first
    [ step
    | lazymatch goal with
      | H : heap_plus _ ?k0 ?k |- wp kstrdupM _ ?k => change kstrdupM with kmallocM
      | H : heap_plus _ ?k0 ?k |- wp wchan_create _ ?k => unfold wchan_create
      | H : heap_plus _ ?k0 ?k |- wp kmallocM _ ?k =>
          apply (wp_kmalloc _ _ _ _ H); [|clear H; intros ? ? H]
      | H : heap_plus (?p :: _) ?k0 ?k |- wp (kfreeM ?p) _ ?k =>
          apply (wp_kfree _ _ _ _ _ H); clear H; intros ? H
      end ]; auto.

Definition create_spec {A} (blocks : A -> list nat) (bs : list nat) (k0 : kernel)
    (o : option A) (k' : kernel) : Prop :=
  match o with
  | Some x => heap_plus (blocks x ++ bs) k0 k'
  | None => heap_plus bs k0 k'
  end.

Lemma sem_create_spec bs k0 k :
  heap_plus bs k0 k -> wp sem_create (create_spec sem_blocks bs k0) k.
Proof.
  intros H. unfold sem_create. allocs.
  eapply heap_plus_perm, H. unfold sem_blocks. cbn. solve_Permutation.
Qed.

Lemma cv_create_spec bs k0 k :
  heap_plus bs k0 k -> wp cv_create (create_spec cv_blocks bs k0) k.
Proof.
  intros H. unfold cv_create. allocs.
  eapply heap_plus_perm, H. unfold cv_blocks. cbn. solve_Permutation.
Qed.

Lemma lock_create_spec bs k0 k :
  heap_plus bs k0 k -> wp lock_create (create_spec lock_blocks bs k0) k.
Proof.
  intros H. unfold lock_create. allocs.
  eapply wp_mono; [by apply sem_create_spec|]. clear H; intros [s|] k2 H'; cbn in H'; allocs.
  eapply heap_plus_perm, H'. unfold lock_blocks. cbn. solve_Permutation.
Qed.

(** The live blocks of a kernel that differs in its heap. *)
Lemma heap_plus_takes {A} (blocks : A -> list nat) n o k k' :
  create_spec blocks [] k o k' ->
  match o with Some _ => spent n (k_heap k) (k_heap k') | None => room n (k_heap k) = false end -> takes n o k k'.
Proof.
  assert (H : forall bs, heap_plus bs k k' -> exists h, k' = set_heap h k /\ grows (k_heap k) h).
  { intros bs ([h ->] & _ & _ & Hl). exists h. split; [done|]. intros q Hq. apply Hl. by right. }
  intros Hc Ho. assert (exists h, k' = set_heap h k /\ grows (k_heap k) h) as (h & -> & Hg) by (destruct o; by eapply H).
  by exists h.
Qed.

(** How many blocks the constructors take. *)
Ltac count_blocks :=
  cbn; repeat match goal with
  | |- context [match kmalloc ?h with _ => _ end] => destruct (kmalloc h) as [[? ?]|] eqn:?; cbn
  end; try (intros ?; cbn); repeat match goal with H : kmalloc _ = _ |- _ => rewrite H end; try done.

Lemma sem_create_takes k : wp sem_create (fun o k' => takes 3 o k k') k.
Proof.
  eapply wp_mono; [apply (wp_conj _ _ (fun o k' => match o with Some _ => spent 3 (k_heap k) (k_heap k') | None => room 3 (k_heap k) = false end) _
    (sem_create_spec [] k k (heap_plus_refl k)))|].
  - unfold wp, sem_create, kstrdupM, wchan_create, kmallocM, kfreeM, modify, bind, ret. count_blocks.
  - intros o k' [H1 H2]. by eapply heap_plus_takes.
Qed.

Lemma lock_create_takes k : wp lock_create (fun o k' => takes 5 o k k') k.
Proof.
  eapply wp_mono; [apply (wp_conj _ _ (fun o k' => match o with Some _ => spent 5 (k_heap k) (k_heap k') | None => room 5 (k_heap k) = false end) _
    (lock_create_spec [] k k (heap_plus_refl k)))|].
  - unfold wp, lock_create, sem_create, kstrdupM, wchan_create, kmallocM, kfreeM, modify, bind, ret. count_blocks.
  - intros o k' [H1 H2]. by eapply heap_plus_takes.
Qed.

Lemma heap_minus_kfree p bs k0 k (Q : unit -> kernel -> Prop) :
  heap_minus bs k0 k -> (forall k', heap_minus (p :: bs) k0 k' -> Q tt k') -> wp (kfreeM p) Q k.
Proof.
  intros [[h ->] Hl] HQ. apply wp_modify, HQ. split; [by eexists|].
  intros q. cbn in *. rewrite kfree_live, Hl, not_elem_of_cons. tauto.
Qed.

Lemma heap_minus_refl k : heap_minus [] k k.
Proof.
  split; [exists (k_heap k); by destruct k|].
  intros q. split; [split; [apply not_elem_of_nil | done] | tauto].
Qed.

Lemma heap_minus_perm bs bs' k k' : bs ≡ₚ bs' -> heap_minus bs k k' -> heap_minus bs' k k'.
Proof. intros Hp [He Hl]. split; [done|]. intros q. rewrite <- Hp. apply Hl. Qed.

Ltac frees :=
  repeat first
    [ step
    | lazymatch goal with
      | H : heap_minus _ ?k0 ?k |- wp (kfreeM ?p) _ ?k =>
          apply (heap_minus_kfree p _ _ _ _ H); clear H; intros ? H
      | |- wp (wchan_destroy _) _ _ => unfold wchan_destroy
      end ].

Lemma sem_destroy_spec s bs k0 k :
  heap_minus bs k0 k -> wp (sem_destroy s) (fun _ => heap_minus (sem_blocks s ++ bs) k0) k.
Proof. intros H. unfold sem_destroy. frees. exact H. Qed.

Lemma cv_destroy_spec c bs k0 k :
  heap_minus bs k0 k -> wp (cv_destroy c) (fun _ => heap_minus (cv_blocks c ++ bs) k0) k.
Proof. intros H. unfold cv_destroy. frees. exact H. Qed.

Lemma lock_destroy_spec l bs k0 k :
  heap_minus bs k0 k -> wp (lock_destroy l) (fun _ => heap_minus (lock_blocks l ++ bs) k0) k.
Proof.
  intros H. unfold lock_destroy. step. eapply wp_mono; [by apply sem_destroy_spec|].
  intros [] k' H'. frees. exact H'.
Qed.

(** The same kernel, the same live blocks. *)
Definition heap_same (k k' : kernel) : Prop :=
  (exists h, k' = set_heap h k) /\
  forall q, heap_live (k_heap k') q <-> heap_live (k_heap k) q.

Lemma heap_plus_minus bs k k1 k2 :
  heap_plus (bs ++ []) k k1 -> heap_minus (bs ++ []) k1 k2 -> heap_same k k2.
Proof.
  rewrite app_nil_r. intros ([h1 ->] & _ & Hfr & H1) ([h2 ->] & H2). split; [by exists h2|].
  intros q. cbn in *. rewrite H2, H1. split; [tauto|].
  intros Hl. split; [|by right]. intros Hin. by apply (Hfr q).
Qed.

Lemma heap_plus_nil k k' : heap_plus [] k k' -> heap_same k k'.
Proof.
  intros (He & _ & _ & Hl). split; [done|]. intros q. rewrite Hl.
  split; [intros [Hq|]; [by apply not_elem_of_nil in Hq | done] | by right].
Qed.

(** Creating a semaphore, a lock or a condition variable and destroying
    it again leaves the live heap blocks as they were, and a creation that
    runs out of memory on the way has given back what it took; nothing else
    of the kernel changes. *)
Lemma synch_objects_balanced k :
  let cycle {A} (create : M kernel (option A)) (destroy : A -> M kernel unit) :=
    let* o := create in match o with Some x => destroy x | None => ret tt end in
  wp (cycle sem_create sem_destroy) (fun _ => heap_same k) k /\
  wp (cycle lock_create lock_destroy) (fun _ => heap_same k) k /\
  wp (cycle cv_create cv_destroy) (fun _ => heap_same k) k.
Proof.
  intros cycle. unfold cycle. split; [|split]; step.
  - eapply wp_mono; [apply sem_create_spec, heap_plus_refl|].
    intros [s|] k1 H1; [|by apply heap_plus_nil].
    eapply wp_mono; [apply sem_destroy_spec, heap_minus_refl|].
    intros [] k2 H2. by eapply heap_plus_minus.
  - eapply wp_mono; [apply lock_create_spec, heap_plus_refl|].
    intros [s|] k1 H1; [|by apply heap_plus_nil].
    eapply wp_mono; [apply lock_destroy_spec, heap_minus_refl|].
    intros [] k2 H2. by eapply heap_plus_minus.
  - eapply wp_mono; [apply cv_create_spec, heap_plus_refl|].
    intros [s|] k1 H1; [|by apply heap_plus_nil].
    eapply wp_mono; [apply cv_destroy_spec, heap_minus_refl|].
    intros [] k2 H2. by eapply heap_plus_minus.
Qed.
End Theorems.
