(* ===== verification/Locks.v ===== *)
(** Semaphores, locks and condition variables as interleaved code
    ([thread/synch.c], [wchan_sleep] and the wake-ups of [thread/thread.c]).

    Each function is the list of its steps; a step touches shared data at
    most once.  Threads run such code in any interleaving: [step t] performs
    the next step of thread [t].  The shared data are one lock with its
    semaphore, and one condition variable used with it.

    A thread that waits for a spinlock stays at the same step.
    [thread_switch] is one step here: it puts the thread on the wait channel,
    releases the spinlock of the channel and puts the thread to sleep under
    the run queue lock, which [thread_make_runnable] needs to wake it.

    The threads are not interrupt handlers: [Kassert_may_block], the
    assertions on [t_in_interrupt], marks where the code may not be called
    from one and always passes here.

    The discipline the code follows is checked by [absint], which computes
    what a thread holds before each of its steps; the invariant says that the
    shared data agree with what the threads hold.  Mutual exclusion, the
    absence of failed assertions and of lost wake-ups follow. *)

From Stdlib Require Import ZArith Lia.
From stdpp Require Import base list gmap strings.
From S2P Require Import Prelude.
Local Open Scope Z_scope.

(** The spinlocks: [sem_lock], [lk_lock], [cv_lock]; the wait channels. *)
Inductive spin := Sem | Lk | Cv.
Inductive chan := SemChan | CvChan.

#[export] Instance spin_eq_dec : EqDecision spin.
Proof. solve_decision. Defined.
#[export] Instance chan_eq_dec : EqDecision chan.
Proof. solve_decision. Defined.

Inductive stmt :=
  | Kassert_may_block
  | Spinlock_acquire (l : spin)
  | Spinlock_release (l : spin)
  | While_sem_zero_sleep
  | Kassert_sem_count
  | Sem_dec
  | Sem_inc
  | Test_owner
  | Kassert_result (b : bool)
  | Kassert_owner_null
  | Set_owner
  | Clear_owner
  | Kassert_hold (l : spin)
  | Kassert_one_spinlock
  | Switch_sleep (c : chan) (l : spin)
  | Wakeone (c : chan)
  | Wakeall (c : chan).

#[export] Instance stmt_eq_dec : EqDecision stmt.
Proof. solve_decision. Defined.

(** ** The functions *)

Definition wchan_sleep (c : chan) (l : spin) : list stmt :=
  [Kassert_may_block; Kassert_hold l; Kassert_one_spinlock; Switch_sleep c l; Spinlock_acquire l].

Definition wchan_wakeone (c : chan) (l : spin) : list stmt := [Kassert_hold l; Wakeone c].
Definition wchan_wakeall (c : chan) (l : spin) : list stmt := [Kassert_hold l; Wakeall c].

(** [While_sem_zero_sleep] is the loop [while (sem_count == 0) wchan_sleep]. *)
Definition P : list stmt :=
  [Kassert_may_block; Spinlock_acquire Sem; While_sem_zero_sleep; Kassert_sem_count; Sem_dec;
   Spinlock_release Sem].

Definition V : list stmt :=
  [Spinlock_acquire Sem; Sem_inc; Kassert_sem_count] ++ wchan_wakeone SemChan Sem ++ [Spinlock_release Sem].

(** The result is left in the thread's [res]. *)
Definition lock_do_i_hold : list stmt := [Spinlock_acquire Lk; Test_owner; Spinlock_release Lk].

Definition lock_acquire : list stmt :=
  lock_do_i_hold ++ lock_do_i_hold ++ [Kassert_result false; Kassert_may_block] ++ P ++
  [Spinlock_acquire Lk; Kassert_owner_null; Set_owner; Spinlock_release Lk].

Definition lock_release : list stmt :=
  lock_do_i_hold ++ [Kassert_result true; Spinlock_acquire Lk; Clear_owner] ++ V ++ [Spinlock_release Lk].

Definition cv_wait : list stmt :=
  lock_do_i_hold ++ [Kassert_result true; Spinlock_acquire Cv] ++ lock_release ++
  wchan_sleep CvChan Cv ++ [Spinlock_release Cv] ++ lock_acquire.

Definition cv_signal : list stmt :=
  lock_do_i_hold ++ [Kassert_result true; Spinlock_acquire Cv] ++ wchan_wakeone CvChan Cv ++
  [Spinlock_release Cv].

Definition cv_broadcast : list stmt :=
  lock_do_i_hold ++ [Kassert_result true; Spinlock_acquire Cv] ++ wchan_wakeall CvChan Cv ++
  [Spinlock_release Cv].

(** ** The shared data and the threads *)

Record shared := mk_shared {
  sem_lock : option nat;
  lk_lock : option nat;
  cv_lock : option nat;
  sem_count : Z;
  lk_owner : option nat;
  sem_wchan : list nat;
  cv_wchan : list nat;
}.

Record thread := mk_thread {
  code : list stmt;
  res : bool;
  asleep : option chan;
}.

Record sys := mk_sys { sh : shared; pool : gmap nat thread }.

Definition spin_of (l : spin) (s : shared) : option nat :=
  match l with Sem => sem_lock s | Lk => lk_lock s | Cv => cv_lock s end.
Definition set_spin (l : spin) (o : option nat) (s : shared) : shared :=
  match l with
  | Sem => mk_shared o (lk_lock s) (cv_lock s) (sem_count s) (lk_owner s) (sem_wchan s) (cv_wchan s)
  | Lk => mk_shared (sem_lock s) o (cv_lock s) (sem_count s) (lk_owner s) (sem_wchan s) (cv_wchan s)
  | Cv => mk_shared (sem_lock s) (lk_lock s) o (sem_count s) (lk_owner s) (sem_wchan s) (cv_wchan s)
  end.
Definition set_count (n : Z) (s : shared) : shared :=
  mk_shared (sem_lock s) (lk_lock s) (cv_lock s) n (lk_owner s) (sem_wchan s) (cv_wchan s).
Definition set_owner (o : option nat) (s : shared) : shared :=
  mk_shared (sem_lock s) (lk_lock s) (cv_lock s) (sem_count s) o (sem_wchan s) (cv_wchan s).
Definition wchan_of (c : chan) (s : shared) : list nat :=
  match c with SemChan => sem_wchan s | CvChan => cv_wchan s end.
Definition set_wchan (c : chan) (l : list nat) (s : shared) : shared :=
  match c with
  | SemChan => mk_shared (sem_lock s) (lk_lock s) (cv_lock s) (sem_count s) (lk_owner s) l (cv_wchan s)
  | CvChan => mk_shared (sem_lock s) (lk_lock s) (cv_lock s) (sem_count s) (lk_owner s) (sem_wchan s) l
  end.

(** [curcpu->c_spinlocks]: the spinlocks the thread holds. *)
Definition spinlocks_held (t : nat) (s : shared) : nat :=
  length (filter (fun l => spin_of l s = Some t) [Sem; Lk; Cv]).

Inductive verdict :=
  | Moved (s : sys)
  | Spins
  | Sleeping
  | Finished
  | Failed (what : string).

Definition wake (t : nat) (m : gmap nat thread) : gmap nat thread :=
  alter (fun th => mk_thread (code th) (res th) None) t m.

(** The next step of thread [t]. *)
Definition exec (t : nat) (x : stmt) (k : list stmt) (th : thread) (s : sys) : verdict :=
  let goto k s' := Moved (mk_sys s' (<[t := mk_thread k (res th) (asleep th)]> (pool s))) in
  match x with
  | Kassert_may_block => goto k (sh s)
  | Spinlock_acquire l =>
      match spin_of l (sh s) with
      | None => goto k (set_spin l (Some t) (sh s))
      | Some t' => if (t' =? t)%nat then Failed "Deadlock on spinlock" else Spins
      end
  | Spinlock_release l =>
      if decide (spin_of l (sh s) = Some t) then goto k (set_spin l None (sh s))
      else Failed "spinlock_release"
  | While_sem_zero_sleep =>
      if sem_count (sh s) =? 0 then goto (wchan_sleep SemChan Sem ++ While_sem_zero_sleep :: k) (sh s)
      else goto k (sh s)
  | Kassert_sem_count => if 0 <? sem_count (sh s) then goto k (sh s) else Failed "sem_count > 0"
  | Sem_dec => goto k (set_count (u32 (sem_count (sh s) - 1)) (sh s))
  | Sem_inc => goto k (set_count (u32 (sem_count (sh s) + 1)) (sh s))
  | Test_owner =>
      Moved (mk_sys (sh s) (<[t := mk_thread k (bool_decide (lk_owner (sh s) = Some t)) (asleep th)]> (pool s)))
  | Kassert_result b => if Bool.eqb (res th) b then goto k (sh s) else Failed "lock_do_i_hold"
  | Kassert_owner_null => if decide (lk_owner (sh s) = None) then goto k (sh s) else Failed "lk_owner == NULL"
  | Set_owner => goto k (set_owner (Some t) (sh s))
  | Clear_owner => goto k (set_owner None (sh s))
  | Kassert_hold l => if decide (spin_of l (sh s) = Some t) then goto k (sh s) else Failed "spinlock_do_i_hold"
  | Kassert_one_spinlock =>
      if (spinlocks_held t (sh s) =? 1)%nat then goto k (sh s) else Failed "c_spinlocks == 1"
  | Switch_sleep c l =>
      if decide (spin_of l (sh s) = Some t) then
        Moved (mk_sys (set_spin l None (set_wchan c (wchan_of c (sh s) ++ [t]) (sh s)))
                 (<[t := mk_thread k (res th) (Some c)]> (pool s)))
      else Failed "spinlock_release"
  | Wakeone c =>
      match wchan_of c (sh s) with
      | [] => goto k (sh s)
      | t' :: q => Moved (mk_sys (set_wchan c q (sh s))
                     (wake t' (<[t := mk_thread k (res th) (asleep th)]> (pool s))))
      end
  | Wakeall c =>
      Moved (mk_sys (set_wchan c [] (sh s))
        (foldr wake (<[t := mk_thread k (res th) (asleep th)]> (pool s)) (wchan_of c (sh s))))
  end.

Definition step (t : nat) (s : sys) : verdict :=
  match pool s !! t with
  | None => Finished
  | Some th =>
      match asleep th with
      | Some _ => Sleeping
      | None => match code th with [] => Finished | x :: k => exec t x k th s end
      end
  end.

Inductive reachable (s0 : sys) : sys -> Prop :=
  | reach_refl : reachable s0 s0
  | reach_step s t s' : reachable s0 s -> step t s = Moved s' -> reachable s0 s'.

(** ** Clients

    A client is a list of calls; [held] says whether it has the lock. *)
Inductive call := Acquire | Release | Wait | Signal | Broadcast | DoIHold.

Definition call_code (c : call) : list stmt :=
  match c with
  | Acquire => lock_acquire
  | Release => lock_release
  | Wait => cv_wait
  | Signal => cv_signal
  | Broadcast => cv_broadcast
  | DoIHold => lock_do_i_hold
  end.

Fixpoint script_ok (held : bool) (cs : list call) : bool :=
  match cs with
  | [] => negb held
  | Acquire :: cs => negb held && script_ok true cs
  | Release :: cs => held && script_ok false cs
  | DoIHold :: cs => script_ok held cs
  | _ :: cs => held && script_ok held cs
  end.

Definition script_code (cs : list call) : list stmt := cs ≫= call_code.

Definition initial (scripts : gmap nat (list call)) : sys :=
  mk_sys (mk_shared None None None 1 None [] [])
    ((fun cs => mk_thread (script_code cs) false None) <$> scripts).

(** The thread is between two calls and has the lock. *)
Definition critical (s : sys) (t : nat) : Prop :=
  exists th cs, pool s !! t = Some th /\ code th = script_code cs /\ script_ok true cs = true.

(** ** What a thread holds

    [tok] says that the thread has taken the semaphore of the lock and not
    given it back, [own] that it is the owner, [pos] that it holds the
    semaphore's spinlock and has seen or made the count positive, [zero] that
    it holds it and has seen the count zero, and
    [known] that [res] is the answer to whether it is the owner. *)
Record ctx := mk_ctx {
  held_sem : bool; held_lk : bool; held_cv : bool;
  tok : bool; own : bool; pos : bool; zero : bool; known : bool }.

Definition empty : ctx := mk_ctx false false false false false false false false.

Definition held (c : ctx) (l : spin) : bool :=
  match l with Sem => held_sem c | Lk => held_lk c | Cv => held_cv c end.

Definition hold (l : spin) (b : bool) (c : ctx) : ctx :=
  match l with
  | Sem => mk_ctx b (held_lk c) (held_cv c) (tok c) (own c) (pos c) (zero c) (known c)
  | Lk => mk_ctx (held_sem c) b (held_cv c) (tok c) (own c) (pos c) (zero c) (known c)
  | Cv => mk_ctx (held_sem c) (held_lk c) b (tok c) (own c) (pos c) (zero c) (known c)
  end.

Definition with_flags (tk ow ps z kn : bool) (c : ctx) : ctx :=
  mk_ctx (held_sem c) (held_lk c) (held_cv c) tk ow ps z kn.

(** The order in which spinlocks may be taken: [Cv], [Lk], [Sem]. *)
Definition may_take (l : spin) (c : ctx) : bool :=
  match l with
  | Sem => negb (held c Sem)
  | Lk => negb (held c Sem) && negb (held c Lk)
  | Cv => negb (held c Sem) && negb (held c Lk) && negb (held c Cv)
  end.

Definition only (l : spin) (c : ctx) : bool :=
  held c l && match l with
              | Sem => negb (held c Lk) && negb (held c Cv)
              | Lk => negb (held c Sem) && negb (held c Cv)
              | Cv => negb (held c Sem) && negb (held c Lk)
              end.

Definition chan_lock (c : chan) : spin := match c with SemChan => Sem | CvChan => Cv end.

Definition guard (b : bool) (c : ctx) : option ctx := if b then Some c else None.

Definition absstep (c : ctx) (x : stmt) : option ctx :=
  match x with
  | Kassert_may_block => Some c
  | Spinlock_acquire l => guard (may_take l c) (hold l true c)
  | Spinlock_release l => guard (held c l && negb (pos c) && negb (zero c)) (hold l false c)
  | While_sem_zero_sleep =>
      guard (only Sem c && negb (tok c) && negb (own c) && negb (pos c) && negb (zero c))
        (with_flags (tok c) (own c) true false (known c) c)
  | Kassert_sem_count => guard (pos c) c
  | Sem_dec => guard (pos c && negb (tok c) && negb (own c)) (with_flags true (own c) false false (known c) c)
  | Sem_inc => guard (held c Sem && tok c && negb (own c) && negb (zero c)) (with_flags false (own c) true false (known c) c)
  | Test_owner => guard (held c Lk) (with_flags (tok c) (own c) (pos c) (zero c) true c)
  | Kassert_result b => guard (known c && Bool.eqb (own c) b) c
  | Kassert_owner_null => guard (tok c && negb (own c)) c
  | Set_owner => guard (held c Lk && tok c && negb (own c)) (with_flags (tok c) true (pos c) (zero c) false c)
  | Clear_owner => guard (held c Lk && own c) (with_flags (tok c) false (pos c) (zero c) false c)
  | Kassert_hold l => guard (held c l) c
  | Kassert_one_spinlock => guard (only Sem c || only Lk c || only Cv c) c
  | Switch_sleep ch l =>
      guard (bool_decide (l = chan_lock ch) && only l c && negb (tok c) && negb (own c) && negb (pos c) &&
             match ch with SemChan => zero c | CvChan => negb (zero c) end)
        (hold l false (with_flags (tok c) (own c) (pos c) false (known c) c))
  | Wakeone SemChan => guard (pos c) (with_flags (tok c) (own c) false false (known c) c)
  | Wakeone CvChan => guard (held c Cv) c
  | Wakeall SemChan => None
  | Wakeall CvChan => guard (held c Cv) c
  end.

Fixpoint absint (c : ctx) (k : list stmt) : option ctx :=
  match k with
  | [] => Some c
  | x :: k => absstep c x ≫= fun c' => absint c' k
  end.

(** A thread on its way to sleep on the condition variable. *)
Fixpoint going_to_wait (k : list stmt) : bool :=
  match k with
  | [] => false
  | Switch_sleep CvChan _ :: _ => true
  | Set_owner :: _ => false
  | Spinlock_release Cv :: _ => false
  | _ :: k => going_to_wait k
  end.

(** It gives up the lock before it sleeps or takes the lock. *)
Fixpoint clears (k : list stmt) : bool :=
  match k with
  | [] => false
  | Clear_owner :: _ => true
  | Switch_sleep CvChan _ :: _ => false
  | Set_owner :: _ => false
  | _ :: k => clears k
  end.

(** Nothing held at the end; a thread goes to sleep only where it will take
    the spinlock again, and for the semaphore test the count again; it takes
    the spinlock of the condition variable in order to wait only while it has
    the lock. *)
Definition at_rest (c : ctx) : bool :=
  negb (held c Sem) && negb (held c Lk) && negb (held c Cv) && negb (tok c) && negb (own c) && negb (pos c) && negb (zero c).

Definition resumes (ch : chan) (k : list stmt) : bool :=
  match ch, k with
  | SemChan, Spinlock_acquire Sem :: While_sem_zero_sleep :: _ => true
  | CvChan, Spinlock_acquire Cv :: _ => true
  | _, _ => false
  end.

Fixpoint sleeps_ok (k : list stmt) : bool :=
  match k with
  | [] => true
  | Switch_sleep ch _ :: k => resumes ch k && sleeps_ok k
  | Spinlock_acquire Cv :: k => implb (going_to_wait k) (clears k) && sleeps_ok k
  | _ :: k => sleeps_ok k
  end.

Definition safe (c : ctx) (k : list stmt) : Prop :=
  sleeps_ok k = true /\ exists c', absint c k = Some c' /\ at_rest c' = true.

(** The shared data agree with what the threads hold. *)
Record agrees (s : sys) (g : nat -> ctx) : Prop := {
  ag_safe : forall t th, pool s !! t = Some th -> safe (g t) (code th);
  ag_none : forall t, pool s !! t = None -> g t = empty;
  ag_spin : forall l t, spin_of l (sh s) = Some t <-> held (g t) l = true;
  ag_count : (sem_count (sh s) = 1 /\ forall t, tok (g t) = false) \/
    (sem_count (sh s) = 0 /\ exists t, tok (g t) = true /\ forall t', tok (g t') = true -> t' = t);
  ag_owner : forall t, lk_owner (sh s) = Some t <-> own (g t) = true;
  ag_tok : forall t, own (g t) = true -> tok (g t) = true;
  ag_pos : forall t, pos (g t) = true -> sem_count (sh s) = 1 /\ held (g t) Sem = true;
  ag_zero : forall t, zero (g t) = true -> sem_count (sh s) = 0 /\ held (g t) Sem = true;
  ag_known : forall t th, pool s !! t = Some th -> known (g t) = true -> res th = own (g t);
  ag_chan : forall c t, t ∈ wchan_of c (sh s) <-> exists th, pool s !! t = Some th /\ asleep th = Some c;
  ag_nodup : forall c, NoDup (wchan_of c (sh s));
  ag_asleep : forall t th c, pool s !! t = Some th -> asleep th = Some c ->
    resumes c (code th) = true /\ at_rest (g t) = true;
  ag_wakes : sem_count (sh s) = 1 -> sem_wchan (sh s) <> [] ->
    exists t th, pool s !! t = Some th /\ asleep th = None /\
      (pos (g t) = true \/ resumes SemChan (code th) = true \/ exists k, code th = While_sem_zero_sleep :: k);
}.

(** * Theorems *)

(** ** The code follows the discipline *)

(** What a client holds between two calls. *)
Definition between (b kn : bool) : ctx := mk_ctx false false false b b false false kn.

Lemma call_absint c b kn k : (match c with Acquire => negb b | DoIHold => true | _ => b end) = true ->
  absint (between b kn) (call_code c ++ k) =
  absint (between (match c with Acquire => true | Release => false | _ => b end)
            (match c with Signal | Broadcast | DoIHold => true | _ => false end)) k.
Proof. intros H. destruct c, b; try discriminate H; vm_compute; reflexivity. Qed.

Lemma call_sleeps c k : sleeps_ok (call_code c ++ k) = sleeps_ok k.
Proof. by destruct c. Qed.

Lemma script_safe cs b kn : script_ok b cs = true -> safe (between b kn) (script_code cs).
Proof.
  revert b kn. induction cs as [|c cs IH]; intros b kn H; unfold script_code; cbn [mbind list_bind].
  - split; [done|]. exists (between b kn). split; [done|]. by destruct b.
  - assert (Hc : (match c with Acquire => negb b | DoIHold => true | _ => b end) = true /\
      script_ok (match c with Acquire => true | Release => false | _ => b end) cs = true)
      by (destruct c; cbn in H; split; by try (apply andb_true_iff in H as [? ?])).
    destruct Hc as [Hc Hcs]. pose proof (call_absint c b kn (script_code cs) Hc) as E.
    destruct (IH _ (match c with Signal | Broadcast | DoIHold => true | _ => false end) Hcs) as [Hs Ha]. split; [by rewrite call_sleeps|].
    destruct Ha as (c' & Ha & Hr). exists c'. split; [|done]. etransitivity; [exact E | exact Ha].
Qed.

Lemma initial_agrees scripts : (forall t cs, scripts !! t = Some cs -> script_ok false cs = true) ->
  agrees (initial scripts) (fun _ => empty).
Proof.
  intros H. assert (Hp : forall t th, pool (initial scripts) !! t = Some th ->
    exists cs, scripts !! t = Some cs /\ th = mk_thread (script_code cs) false None).
  { intros t th Ht. cbn in Ht. apply lookup_fmap_Some in Ht as (cs & <- & Hcs). eauto. }
  split; try done; cbn.
  - intros t th (cs & Hcs & ->)%Hp. by apply script_safe, (H t).
  - by intros [] t.
  - by left.
  - intros c t. split; [by destruct c; intros ?%not_elem_of_nil|].
    intros (th & (cs & _ & ->)%Hp & [=]).
  - intros []; constructor.
  - intros t th c (cs & _ & ->)%Hp [=].
Qed.

(** ** One step keeps the agreement *)

Definition upd (g : nat -> ctx) (t : nat) (c : ctx) : nat -> ctx := fun u => if decide (u = t) then c else g u.

Lemma upd_eq g t c : upd g t c t = c.
Proof. unfold upd. by rewrite decide_True. Qed.
Lemma upd_ne g t c u : u <> t -> upd g t c u = g u.
Proof. intros H. unfold upd. by rewrite decide_False. Qed.

Definition helper (c : ctx) (k : list stmt) : Prop :=
  pos c = true \/ resumes SemChan k = true \/ exists k', k = While_sem_zero_sleep :: k'.

Lemma safe_cons c x k : safe c (x :: k) -> exists c1, absstep c x = Some c1 /\ safe c1 k.
Proof.
  intros [Hs (c' & Ha & Hr)]. cbn in Ha. destruct (absstep c x) as [c1|]; [|done]. exists c1.
  split; [done|]. split; [|by exists c'].
  destruct x; try destruct l; cbn in Hs; try done; by apply andb_true_iff in Hs as [_ Hs].
Qed.

(** A thread moves on, awake as before, and the wait channels stay. *)
Lemma agrees_move s g t th k r s' c1 :
  agrees s g -> pool s !! t = Some th -> asleep th = None -> safe c1 k ->
  (forall c, wchan_of c s' = wchan_of c (sh s)) ->
  (forall l u, spin_of l s' = Some u <-> held (upd g t c1 u) l = true) ->
  ((sem_count s' = 1 /\ forall u, tok (upd g t c1 u) = false) \/
   (sem_count s' = 0 /\ exists u, tok (upd g t c1 u) = true /\ forall u', tok (upd g t c1 u') = true -> u' = u)) ->
  (forall u, lk_owner s' = Some u <-> own (upd g t c1 u) = true) ->
  (own c1 = true -> tok c1 = true) ->
  (forall u, pos (upd g t c1 u) = true -> sem_count s' = 1 /\ held (upd g t c1 u) Sem = true) ->
  (forall u, zero (upd g t c1 u) = true -> sem_count s' = 0 /\ held (upd g t c1 u) Sem = true) ->
  (known c1 = true -> r = own c1) ->
  (sem_count s' = 1 -> sem_wchan s' <> [] -> pos c1 = true \/
     (sem_count (sh s) = 1 /\ (helper (g t) (code th) -> helper c1 k)) \/
     (exists u th', u <> t /\ pool s !! u = Some th' /\ asleep th' = None /\ helper (g u) (code th'))) ->
  agrees (mk_sys s' (<[t := mk_thread k r None]> (pool s))) (upd g t c1).
Proof.
  intros [A1 A2 A3 A4 A5 A6 A7 Az A8 A9 A10 A11 A12] Ht Hsl Hsafe Hw Hspin Hcount Hown Htok Hpos Hzero Hkn Hhelp.
  split; cbn [sh pool]; auto.
  - intros u th' Hu. rewrite lookup_insert in Hu. case_decide as E.
    + injection Hu as <-. subst. by rewrite upd_eq.
    + rewrite upd_ne by done. eauto.
  - intros u Hu. rewrite lookup_insert in Hu. case_decide; [done|]. rewrite upd_ne by done. auto.
  - intros u. destruct (decide (u = t)) as [->|]; [by rewrite upd_eq | rewrite upd_ne by done; auto].
  - intros u th' Hu. rewrite lookup_insert in Hu. case_decide as E.
    + injection Hu as <-. subst. rewrite upd_eq. auto.
    + rewrite upd_ne by done. eauto.
  - intros c u. rewrite Hw, A9. split; intros (th' & Hu & Hc).
    + exists th'. split; [|done]. rewrite lookup_insert_ne; [done|]. intros ->. congruence.
    + rewrite lookup_insert in Hu. case_decide; [injection Hu as <-; done|]. by exists th'.
  - intros c. rewrite Hw. auto.
  - intros u th' c Hu Hc. rewrite lookup_insert in Hu. case_decide as E; [by injection Hu as <-|].
    rewrite upd_ne by done. eauto.
  - intros H1 H2. destruct (Hhelp H1 H2) as [Hp|[[Hc Hh]|(u & th' & Hne & Hu & Hua & Huh)]].
    + eexists t, _. rewrite lookup_insert_eq, upd_eq. auto.
    + destruct (A12 Hc) as (u & th' & Hu & Hua & Huh); [by rewrite <- (Hw SemChan : sem_wchan s' = sem_wchan (sh s))|].
      destruct (decide (u = t)) as [->|Hne].
      * rewrite Ht in Hu. injection Hu as <-. eexists t, _. rewrite lookup_insert_eq, upd_eq.
        split; [done|]. split; [done|]. by apply Hh.
      * exists u, th'. rewrite lookup_insert_ne, upd_ne by done. done.
    + exists u, th'. rewrite lookup_insert_ne, upd_ne by done. done.
Qed.

(** The cases of a property of [upd g t c1]. *)
Ltac upd_cases u :=
  let E := fresh "E" in
  unfold upd in *; destruct (decide (u = _)) as [E|E]; [subst u|].

(** Only flags of the thread change. *)
Lemma agrees_flags s g t th k r c1 :
  agrees s g -> pool s !! t = Some th -> asleep th = None -> safe c1 k ->
  (forall l, held c1 l = held (g t) l) -> tok c1 = tok (g t) -> own c1 = own (g t) ->
  (known c1 = true -> r = own c1) ->
  (pos c1 = true -> sem_count (sh s) = 1 /\ held (g t) Sem = true) ->
  (zero c1 = true -> sem_count (sh s) = 0 /\ held (g t) Sem = true) ->
  (sem_count (sh s) = 1 -> sem_wchan (sh s) <> [] -> (helper (g t) (code th) -> helper c1 k) \/
     (exists u th', u <> t /\ pool s !! u = Some th' /\ asleep th' = None /\ helper (g u) (code th'))) ->
  agrees (mk_sys (sh s) (<[t := mk_thread k r None]> (pool s))) (upd g t c1).
Proof.
  intros A Ht Hsl Hsafe Hh Htk Hown Hkn Hps Hz Hhelp. pose proof A as [A1 A2 A3 A4 A5 A6 A7 Az A8 A9 A10 A11 A12].
  assert (Hu : forall u, (forall l, held (upd g t c1 u) l = held (g u) l) /\ tok (upd g t c1 u) = tok (g u) /\
    own (upd g t c1 u) = own (g u)) by (intros u; upd_cases u; auto).
  eapply agrees_move; eauto.
  - intros l u. rewrite A3. by rewrite (proj1 (Hu u)).
  - destruct A4 as [[Hc Hf]|(Hc & u & Hu1 & Hu2)]; [left|right]; (split; [done|]).
    + intros u. destruct (Hu u) as (_ & -> & _). auto.
    + exists u. destruct (Hu u) as (_ & -> & _). split; [done|]. intros u'. destruct (Hu u') as (_ & -> & _). auto.
  - intros u. rewrite A5. destruct (Hu u) as (_ & _ & ->). done.
  - intros u. rewrite (proj1 (Hu u)). upd_cases u; auto.
  - intros u. rewrite (proj1 (Hu u)). upd_cases u; auto.
  - intros Hc Hq. destruct (Hhelp Hc Hq); auto.
Qed.

(** Taking and releasing a spinlock. *)
Lemma agrees_spin s g t th k l o c1 :
  agrees s g -> pool s !! t = Some th -> asleep th = None -> safe c1 k ->
  c1 = hold l (bool_decide (o = Some t)) (g t) ->
  (o = None /\ spin_of l (sh s) = Some t /\ pos (g t) = false /\ zero (g t) = false \/ o = Some t /\ spin_of l (sh s) = None) ->
  (helper (g t) (code th) -> helper c1 k) ->
  agrees (mk_sys (set_spin l o (sh s)) (<[t := mk_thread k (res th) None]> (pool s))) (upd g t c1).
Proof.
  intros A Ht Hsl Hsafe Hc1 Ho Hhelp. pose proof A as [A1 A2 A3 A4 A5 A6 A7 Az A8 A9 A10 A11 A12].
  assert (Hu : forall u, tok (upd g t c1 u) = tok (g u) /\ own (upd g t c1 u) = own (g u) /\
     pos (upd g t c1 u) = pos (g u) /\ zero (upd g t c1 u) = zero (g u)) by (intros u; upd_cases u; [by rewrite Hc1; destruct l | done]).
  assert (Hk : known c1 = known (g t) /\ tok c1 = tok (g t) /\ own c1 = own (g t)) by (by rewrite Hc1; destruct l).
  destruct Hk as (Hk1 & Hk2 & Hk3).
  assert (Hsame : forall l', spin_of l' (set_spin l o (sh s)) = if decide (l' = l) then o else spin_of l' (sh s))
    by (intros l'; by destruct l, l').
  assert (Hheld : forall l', held c1 l' = if decide (l' = l) then bool_decide (o = Some t) else held (g t) l')
    by (intros l'; rewrite Hc1; by destruct l, l').
  assert (Hcnt : sem_count (set_spin l o (sh s)) = sem_count (sh s)) by by destruct l.
  assert (How : lk_owner (set_spin l o (sh s)) = lk_owner (sh s)) by by destruct l.
  eapply agrees_move; eauto.
  - intros []; by destruct l.
  - intros l' u. rewrite Hsame. upd_cases u.
    + rewrite Hheld. destruct (decide (l' = l)); [by rewrite bool_decide_eq_true | auto].
    + rewrite <- A3. destruct (decide (l' = l)) as [->|]; [|done].
      destruct Ho as [(-> & Hs & _)|[-> Hs]]; rewrite Hs; split; congruence.
  - rewrite Hcnt. destruct A4 as [[Hc Hf]|(Hc & u & Hu1 & Hu2)]; [left|right]; (split; [done|]).
    + intros u. destruct (Hu u) as (-> & _ & _). auto.
    + exists u. destruct (Hu u) as (-> & _ & _). split; [done|]. intros u'. destruct (Hu u') as (-> & _ & _). auto.
  - intros u. rewrite How, A5. destruct (Hu u) as (_ & -> & _). done.
  - intros u Hp. rewrite Hcnt. destruct (Hu u) as (_ & _ & Hpu & _). rewrite Hpu in Hp.
    destruct (A7 u Hp) as [H1 H2]. split; [done|]. upd_cases u; [|done]. rewrite Hheld.
    destruct (decide (Sem = l)) as [<-|]; [|done].
    destruct Ho as [(_ & _ & Hn & _)|[-> _]]; [congruence | by rewrite bool_decide_true].
  - intros u Hp. rewrite Hcnt. destruct (Hu u) as (_ & _ & _ & Hpu). rewrite Hpu in Hp.
    destruct (Az u Hp) as [H1 H2]. split; [done|]. upd_cases u; [|done]. rewrite Hheld.
    destruct (decide (Sem = l)) as [<-|]; [|done].
    destruct Ho as [(_ & _ & _ & Hn)|[-> _]]; [congruence | by rewrite bool_decide_true].
  - rewrite Hcnt. auto.
Qed.

(** At most one thread has the semaphore's spinlock. *)
Lemma sem_holder s g t u : agrees s g -> held (g t) Sem = true -> held (g u) Sem = true -> u = t.
Proof. intros A Ht Hu. apply (ag_spin _ _ A) in Ht, Hu. congruence. Qed.

(** [sem_count--] takes the token, [sem_count++] returns it. *)
Lemma agrees_dec s g t th k c1 :
  agrees s g -> pool s !! t = Some th -> asleep th = None -> safe c1 k ->
  pos (g t) = true -> tok (g t) = false -> own (g t) = false ->
  c1 = with_flags true (own (g t)) false false (known (g t)) (g t) ->
  agrees (mk_sys (set_count (u32 (sem_count (sh s) - 1)) (sh s)) (<[t := mk_thread k (res th) None]> (pool s)))
    (upd g t c1).
Proof.
  intros A Ht Hsl Hsafe Hp Htk How ->. pose proof A as [A1 A2 A3 A4 A5 A6 A7 Az A8 A9 A10 A11 A12].
  destruct (A7 t Hp) as [Hc Hh]. rewrite Hc.
  destruct A4 as [[_ Hno]|[? _]]; [|congruence].
  eapply agrees_move; try done.
  - intros l u. change (spin_of l (set_count (u32 (1 - 1)) (sh s))) with (spin_of l (sh s)).
    rewrite A3. upd_cases u; [|done]. by destruct l.
  - right. split; [done|]. exists t. rewrite upd_eq. split; [done|]. intros u. upd_cases u; [done|].
    by rewrite Hno.
  - intros u. cbn. rewrite A5. by upd_cases u.
  - intros u. upd_cases u; [done|]. intros Hu. by destruct E; apply (sem_holder s g t u A Hh), A7.
  - intros u. upd_cases u; [done|]. intros Hu. by destruct E; apply (sem_holder s g t u A Hh), Az.
  - cbn. eauto.
Qed.

Lemma agrees_inc s g t th k c1 :
  agrees s g -> pool s !! t = Some th -> asleep th = None -> safe c1 k ->
  held (g t) Sem = true -> tok (g t) = true -> own (g t) = false -> zero (g t) = false ->
  c1 = with_flags false (own (g t)) true false (known (g t)) (g t) ->
  agrees (mk_sys (set_count (u32 (sem_count (sh s) + 1)) (sh s)) (<[t := mk_thread k (res th) None]> (pool s)))
    (upd g t c1).
Proof.
  intros A Ht Hsl Hsafe Hh Htk How Hz ->. pose proof A as [A1 A2 A3 A4 A5 A6 A7 Az A8 A9 A10 A11 A12].
  destruct A4 as [[_ Hno]|(Hc & w & Hw & Huniq)]; [rewrite Hno in Htk; done|]. rewrite Hc.
  eapply agrees_move; try done.
  - intros l u. change (spin_of l (set_count (u32 (0 + 1)) (sh s))) with (spin_of l (sh s)).
    rewrite A3. upd_cases u; [|done]. by destruct l.
  - left. split; [done|]. intros u. upd_cases u; [done|]. apply not_true_is_false. intros Hu.
    apply E. rewrite (Huniq u Hu). symmetry. by apply Huniq.
  - intros u. cbn. rewrite A5. by upd_cases u.
  - cbn. by rewrite How.
  - intros u. upd_cases u; [done|]. intros Hu. by destruct E; apply (sem_holder s g t u A Hh), A7.
  - intros u. upd_cases u; [done|]. intros Hu. by destruct E; apply (sem_holder s g t u A Hh), Az.
  - cbn. eauto.
  - by left.
Qed.

(** [lk_owner] is set and cleared by the thread with the token. *)
Lemma agrees_own s g t th k (b : bool) c1 :
  agrees s g -> pool s !! t = Some th -> asleep th = None -> safe c1 k ->
  tok (g t) = true -> own (g t) = negb b ->
  c1 = with_flags (tok (g t)) b (pos (g t)) (zero (g t)) false (g t) ->
  (forall h, code th <> Spinlock_acquire h :: k) -> code th <> While_sem_zero_sleep :: k ->
  (exists x, code th = x :: k) ->
  agrees (mk_sys (set_owner (if b then Some t else None) (sh s)) (<[t := mk_thread k (res th) None]> (pool s)))
    (upd g t c1).
Proof.
  intros A Ht Hsl Hsafe Htk How -> Hx1 Hx2 [x Hx]. pose proof A as [A1 A2 A3 A4 A5 A6 A7 Az A8 A9 A10 A11 A12].
  assert (Huniq : forall u, tok (g u) = true -> u = t).
  { destruct A4 as [[_ Hno]|(_ & w & Hw & Hq)]; [intros u; by rewrite Hno|].
    intros u Hu. rewrite (Hq u Hu). symmetry. by apply Hq. }
  eapply agrees_move; try done.
  - intros l u. change (spin_of l (set_owner (if b then Some t else None) (sh s))) with (spin_of l (sh s)).
    rewrite A3. upd_cases u; [|done]. by destruct l.
  - cbn. destruct A4 as [[_ Hno]|(Hc & _)]; [by rewrite Hno in Htk|]. right. split; [done|]. exists t.
    rewrite upd_eq. split; [done|]. intros u. upd_cases u; [done|]. apply Huniq.
  - intros u. cbn. upd_cases u; [cbn; by destruct b|]. split; [destruct b; congruence|].
    intros Hu. by destruct E; apply Huniq, A6.
  - intros u. upd_cases u; [|apply A7]. apply (A7 t).
  - intros u. upd_cases u; [|apply Az]. apply (Az t).
  - intros Hc Hq. right. left. split; [done|]. intros [Hp|[Hr|[k' Hk]]]; [by left|..]; exfalso.
    + rewrite Hx in *. destruct x; try done. by apply (Hx1 l).
    + apply Hx2. by rewrite Hk in *; simplify_eq.
Qed.

(** ** Sleeping and waking *)

Lemma at_rest_spec c : at_rest c = true <->
  (forall l, held c l = false) /\ tok c = false /\ own c = false /\ pos c = false /\ zero c = false.
Proof.
  unfold at_rest. rewrite !andb_true_iff, !negb_true_iff. split.
  - intros H. destruct_and! H. split; [by intros []|]. done.
  - intros (H & ? & ? & ? & ?). rewrite !(H _). done.
Qed.

Lemma agrees_sleep s g t th k c c1 :
  agrees s g -> pool s !! t = Some th -> asleep th = None -> safe c1 k -> at_rest c1 = true ->
  resumes c k = true -> held (g t) (chan_lock c) = true -> (forall l, l <> chan_lock c -> held (g t) l = false) ->
  tok (g t) = false -> own (g t) = false -> pos (g t) = false -> known c1 = known (g t) ->
  (c = SemChan -> zero (g t) = true) -> (exists x, code th = Switch_sleep c x :: k) ->
  agrees (mk_sys (set_spin (chan_lock c) None (set_wchan c (wchan_of c (sh s) ++ [t]) (sh s)))
            (<[t := mk_thread k (res th) (Some c)]> (pool s))) (upd g t c1).
Proof.
  intros A Ht Hsl Hsafe Hrest Hres Hh Hoth Htk How Hps Hkn Hz [x Hx].
  pose proof A as [A1 A2 A3 A4 A5 A6 A7 Az A8 A9 A10 A11 A12].
  destruct (proj1 (at_rest_spec c1) Hrest) as (R1 & R2 & R3 & R4 & R5).
  set (s' := set_spin (chan_lock c) None (set_wchan c (wchan_of c (sh s) ++ [t]) (sh s))).
  assert (Es : forall l, spin_of l s' = if decide (l = chan_lock c) then None else spin_of l (sh s))
    by (intros []; by destruct c).
  assert (Ew : forall d, wchan_of d s' = if decide (d = c) then wchan_of c (sh s) ++ [t] else wchan_of d (sh s))
    by (intros []; by destruct c).
  assert (Ec : sem_count s' = sem_count (sh s)) by by destruct c.
  assert (Eo : lk_owner s' = lk_owner (sh s)) by by destruct c.
  assert (Hnt : forall d, t ∉ wchan_of d (sh s)) by (intros d (th' & ? & ?)%A9; congruence).
  assert (Htok : forall u, tok (upd g t c1 u) = tok (g u)) by (intros u; upd_cases u; congruence).
  split; cbn [sh pool].
  - intros u th' Hu. rewrite lookup_insert in Hu. upd_cases u; [|rewrite decide_False in Hu by done; eauto].
    rewrite decide_True in Hu by done. by injection Hu as <-.
  - intros u Hu. rewrite lookup_insert in Hu. case_decide; [done|]. rewrite upd_ne by done. auto.
  - intros l u. rewrite Es. upd_cases u.
    + rewrite R1. split; [|done]. case_decide as El; [done|]. rewrite A3. by rewrite Hoth.
    + rewrite <- A3. case_decide as El; [|done]. subst l. split; [done|]. apply (A3 _ t) in Hh. congruence.
  - rewrite Ec. destruct A4 as [[? Hno]|(? & u & Hu & Hq)]; [left|right]; (split; [done|]).
    + intros u. by rewrite Htok.
    + exists u. rewrite Htok. split; [done|]. intros u'. rewrite Htok. auto.
  - intros u. rewrite Eo, A5. upd_cases u; [|done]. by rewrite R3, How.
  - intros u. rewrite Htok. upd_cases u; [by rewrite R3 | auto].
  - intros u. rewrite Ec. upd_cases u; [by rewrite R4 | auto].
  - intros u. rewrite Ec. upd_cases u; [by rewrite R5 | auto].
  - intros u th' Hu. rewrite lookup_insert in Hu. upd_cases u; [|rewrite decide_False in Hu by done; eauto].
    rewrite decide_True in Hu by done. injection Hu as <-. rewrite Hkn, R3. cbn. rewrite <- How. eauto.
  - intros d u. rewrite Ew, lookup_insert. destruct (decide (t = u)) as [<-|Hne].
    + split; [|intros (th' & [= <-] & [= ->]); rewrite decide_True by done; set_solver].
      case_decide; [intros _; subst; by eexists|]. by intros ?%Hnt.
    + rewrite <- A9. case_decide; [subst; set_solver | done].
  - intros d. rewrite Ew. case_decide; [|auto]. subst. apply NoDup_app. split; [auto|]. split; [|apply NoDup_singleton].
    intros u Hu ->%list_elem_of_singleton. by apply (Hnt c).
  - intros u th' d Hu Hd. rewrite lookup_insert in Hu. upd_cases u; [|rewrite decide_False in Hu by done; eauto].
    rewrite decide_True in Hu by done. injection Hu as <-. cbn in *. by simplify_eq.
  - rewrite Ec. intros H1 H2. destruct c; [by destruct (Az t (Hz eq_refl)) as [? _]; congruence|].
    destruct (A12 H1 H2) as (u & th' & Hu & Hua & Huh). destruct (decide (u = t)) as [->|Hne].
    + exfalso. rewrite Ht in Hu. injection Hu as <-. rewrite Hx in Huh.
      destruct Huh as [?|[?|[? ?]]]; [congruence | done..].
    + exists u, th'. rewrite lookup_insert_ne, upd_ne by done. done.
Qed.

Lemma agrees_wake s g c ws q m :
  agrees s g -> wchan_of c (sh s) = ws ++ q ->
  (forall u, m !! u = if decide (u ∈ ws) then (fun th => mk_thread (code th) (res th) None) <$> pool s !! u
                      else pool s !! u) ->
  agrees (mk_sys (set_wchan c q (sh s)) m) g.
Proof.
  intros [A1 A2 A3 A4 A5 A6 A7 Az A8 A9 A10 A11 A12] Hw Hm.
  assert (Ew : forall d, wchan_of d (set_wchan c q (sh s)) = if decide (d = c) then q else wchan_of d (sh s))
    by (intros []; by destruct c).
  assert (Es : forall l, spin_of l (set_wchan c q (sh s)) = spin_of l (sh s)) by (intros []; by destruct c).
  assert (Ec : sem_count (set_wchan c q (sh s)) = sem_count (sh s)) by by destruct c.
  assert (Eo : lk_owner (set_wchan c q (sh s)) = lk_owner (sh s)) by by destruct c.
  assert (Hnd : NoDup (ws ++ q)) by (rewrite <- Hw; auto). apply NoDup_app in Hnd as (_ & Hdis & Hq).
  assert (Hm1 : forall u th', m !! u = Some th' -> exists th, pool s !! u = Some th /\ code th' = code th /\
    res th' = res th /\ ((u ∈ ws) /\ asleep th' = None \/ (u ∉ ws) /\ th' = th)).
  { intros u th'. rewrite Hm. case_decide; [|intros H'; exists th'; tauto].
    destruct (pool s !! u) as [th|]; [|done]. intros [= <-]. exists th. cbn. tauto. }
  split; cbn [sh pool]; auto.
  - intros u th' (th & Hu & -> & _)%Hm1. eauto.
  - intros u. rewrite Hm. case_decide; [|auto]. destruct (pool s !! u) eqn:E; [done | auto].
  - intros l u. rewrite Es. auto.
  - by rewrite Ec.
  - intros u. rewrite Eo. auto.
  - intros u. rewrite Ec. auto.
  - intros u. rewrite Ec. auto.
  - intros u th' (th & Hu & _ & -> & _)%Hm1. eauto.
  - intros d u. rewrite Ew. split.
    + intros Hin. assert (Hd : u ∈ wchan_of d (sh s)) by (case_decide; [subst; rewrite Hw; set_solver | done]).
      apply A9 in Hd as (th & Hu & Hd). exists th. split; [|done]. rewrite Hm, decide_False; [done|].
      intros Hws. assert (u ∈ wchan_of c (sh s)) as (th2 & Hu2 & Hc2)%A9 by (rewrite Hw; set_solver).
      assert (d = c) as -> by congruence. rewrite decide_True in Hin by done. by apply (Hdis u).
    + intros (th' & (th & Hu & _ & _ & [[_ Ha]|[Hn ->]])%Hm1 & Hd); [congruence|].
      assert (Hin : u ∈ wchan_of d (sh s)) by (apply A9; eauto). case_decide; [|done]. subst.
      rewrite Hw in Hin. set_solver.
  - intros d. rewrite Ew. case_decide; auto.
  - intros u th' d (th & Hu & -> & _ & [[_ Ha]|[Hn ->]])%Hm1 Hd; [congruence | eauto].
  - rewrite Ec. intros H1 H2. assert (H3 : sem_wchan (sh s) <> []).
    { intros E. destruct c; cbn in *; [|done]. rewrite E in Hw. destruct ws; [|done]. cbn in Hw. congruence. }
    destruct (A12 H1 H3) as (u & th & Hu & Hua & Huh). exists u, th. split; [|done].
    rewrite Hm, Hu. case_decide; [|done]. destruct th; cbn in *. by subst.
Qed.

Lemma guard_Some b c c1 : guard b c = Some c1 -> b = true /\ c1 = c.
Proof. unfold guard. destruct b; [|done]. by intros [= <-]. Qed.

Lemma only_spec l c : only l c = true <-> forall l', held c l' = bool_decide (l' = l).
Proof.
  unfold only. rewrite andb_true_iff. split.
  - intros [H1 H2] l'. destruct l, l'; cbn in *; rewrite ?andb_true_iff, ?negb_true_iff in H2; tauto.
  - intros H. rewrite !(H _). by destruct l.
Qed.

Lemma not_helper c th x k : code th = x :: k -> (forall h, x <> Spinlock_acquire h) -> x <> While_sem_zero_sleep ->
  helper c (code th) -> pos c = true.
Proof.
  intros Hx H1 H2 [Hp|[Hr|[k' Hk]]]; [done|..]; rewrite Hx in *.
  - destruct x; try done. by destruct (H1 l).
  - by injection Hk as -> ->.
Qed.

Lemma spinlocks_held_only s g t l : agrees s g -> only l (g t) = true -> spinlocks_held t (sh s) = 1%nat.
Proof.
  intros A Ho. assert (H : forall l', spin_of l' (sh s) = Some t <-> l' = l).
  { intros l'. rewrite (ag_spin _ _ A), (proj1 (only_spec l (g t)) Ho l'). apply bool_decide_eq_true. }
  unfold spinlocks_held. cbn [filter list_filter].
  destruct (decide (spin_of Sem (sh s) = Some t)) as [D1|D1], (decide (spin_of Lk (sh s) = Some t)) as [D2|D2],
    (decide (spin_of Cv (sh s) = Some t)) as [D3|D3]; rewrite H in D1, D2, D3; by destruct l.
Qed.

(** The thread at its next step. *)
Inductive stepping (s : sys) (t : nat) : verdict -> Prop :=
  | stepping_done : stepping s t Finished
  | stepping_asleep : stepping s t Sleeping
  | stepping_exec th x k : pool s !! t = Some th -> asleep th = None -> code th = x :: k ->
      stepping s t (exec t x k th s).

Lemma step_cases s t : stepping s t (step t s).
Proof.
  unfold step. destruct (pool s !! t) as [th|] eqn:Ht; [|constructor].
  destruct (asleep th) eqn:Hs; [constructor|]. destruct (code th) as [|x k] eqn:Hc; [constructor|].
  by constructor.
Qed.

(** No assertion of [synch.c] fails and no spinlock is misused. *)
Lemma exec_no_failure s g t th x k w :
  agrees s g -> pool s !! t = Some th -> code th = x :: k -> exec t x k th s <> Failed w.
Proof.
  intros A Ht Hc. pose proof (ag_safe _ _ A t th Ht) as Hs. rewrite Hc in Hs.
  destruct (safe_cons _ _ _ Hs) as (c1 & Hx & _).
  destruct x; cbn [exec absstep] in *; try done.
  - apply guard_Some in Hx as [Hm _]. destruct (spin_of l (sh s)) as [u|] eqn:E; [|done].
    destruct (Nat.eqb_spec u t) as [->|]; [|done]. apply (ag_spin _ _ A) in E.
    unfold may_take in Hm. destruct l; rewrite E in Hm; by rewrite ?andb_false_r in Hm.
  - apply guard_Some in Hx as [[[Hh _]%andb_true_iff _]%andb_true_iff _]. apply (ag_spin _ _ A) in Hh.
    by rewrite decide_True.
  - by destruct (sem_count (sh s) =? 0).
  - apply guard_Some in Hx as [[-> _]%(ag_pos _ _ A) _]. done.
  - apply guard_Some in Hx as [[Hk Ho]%andb_true_iff _]. rewrite (ag_known _ _ A t th Ht Hk).
    by rewrite Ho.
  - apply guard_Some in Hx as [[Htk Ho]%andb_true_iff _]. rewrite decide_True; [done|].
    destruct (lk_owner (sh s)) as [u|] eqn:E; [|done]. exfalso. apply (ag_owner _ _ A) in E.
    destruct (ag_count _ _ A) as [[_ Hn]|(_ & v & _ & Hq)]; [by rewrite Hn in Htk|].
    assert (u = t) as -> by (rewrite (Hq u), (Hq t); auto; by apply (ag_tok _ _ A)).
    by rewrite E in Ho.
  - apply guard_Some in Hx as [Hh%(ag_spin _ _ A) _]. by rewrite decide_True.
  - apply guard_Some in Hx as [[[Ho|Ho]%orb_true_iff|Ho]%orb_true_iff _];
      by rewrite (spinlocks_held_only s g t _ A Ho).
  - apply guard_Some in Hx as [Hg _]. rewrite decide_True; [done|]. apply (ag_spin _ _ A).
    rewrite !andb_true_iff in Hg. destruct_and! Hg. rewrite (proj1 (only_spec _ _) ltac:(eassumption)).
    by rewrite bool_decide_true.
  - by destruct (wchan_of c (sh s)).
Qed.

Lemma lookup_foldr_wake ws m u : foldr wake m ws !! u =
  if decide (u ∈ ws) then (fun th => mk_thread (code th) (res th) None) <$> m !! u else m !! u.
Proof.
  induction ws as [|w ws IH]; [by rewrite decide_False by apply not_elem_of_nil|]. cbn [foldr]. unfold wake at 1.
  destruct (decide (u = w)) as [->|Hne].
  - rewrite lookup_alter_eq, IH. rewrite (decide_True (P := w ∈ w :: ws)) by left.
    case_decide; by destruct (m !! w).
  - rewrite lookup_alter_ne, IH by done. destruct (decide (u ∈ ws)) as [Hin|Hin].
    + by rewrite decide_True by by right.
    + rewrite decide_False; [done|]. by intros [?|?]%elem_of_cons.
Qed.

(** Waking other threads and moving on. *)
Lemma agrees_wake_move s g t th c ws q k c1 :
  agrees s g -> pool s !! t = Some th -> asleep th = None -> wchan_of c (sh s) = ws ++ q -> safe c1 k ->
  (forall l, held c1 l = held (g t) l) -> tok c1 = tok (g t) -> own c1 = own (g t) ->
  known c1 = known (g t) -> (pos c1 = true -> pos (g t) = true) -> (zero c1 = true -> zero (g t) = true) ->
  (c = SemChan -> ws <> [] \/ q = []) -> (c = CvChan -> helper (g t) (code th) -> helper c1 k) ->
  agrees (mk_sys (set_wchan c q (sh s)) (foldr wake (<[t := mk_thread k (res th) (asleep th)]> (pool s)) ws))
    (upd g t c1).
Proof.
  intros A Ht Hsl Hw Hsafe H1 H2 H3 H4 H5 H6 Hsem Hcv.
  assert (Hnt : t ∉ ws).
  { intros Hin. destruct (proj1 (ag_chan _ _ A c t)) as (th' & Ht' & Hs'); [rewrite Hw; set_solver | congruence]. }
  pose proof (agrees_wake s g c ws q _ A Hw (lookup_foldr_wake ws (pool s))) as A'.
  assert (Em : foldr wake (<[t := mk_thread k (res th) (asleep th)]> (pool s)) ws =
               <[t := mk_thread k (res th) None]> (foldr wake (pool s) ws)).
  { apply map_eq. intros u. rewrite lookup_foldr_wake, !lookup_insert, lookup_foldr_wake, Hsl.
    destruct (decide (t = u)) as [<-|]; [by rewrite decide_False | done]. }
  assert (Htw : foldr wake (pool s) ws !! t = Some th) by (by rewrite lookup_foldr_wake, decide_False).
  rewrite Em. eapply (agrees_flags (mk_sys (set_wchan c q (sh s)) (foldr wake (pool s) ws)) g t th); try done.
  - intros Hk. rewrite H3. apply (ag_known _ _ A t th Ht). congruence.
  - intros Hp. apply (ag_pos _ _ A'). auto.
  - intros Hp. apply (ag_zero _ _ A'). auto.
  - cbn [sh pool]. intros _ Hq. destruct c; [|left; auto]. destruct (Hsem eq_refl) as [Hne|Hq0]; [|by destruct Hq].
    right. destruct ws as [|u ws]; [done|].
    destruct (proj1 (ag_chan _ _ A SemChan u)) as (th' & Hu & Hs'); [rewrite Hw; set_solver|].
    eexists u, _. split; [intros ->; set_solver|]. rewrite lookup_foldr_wake, decide_True, Hu by left.
    split; [done|]. split; [done|]. right. left. by destruct (ag_asleep _ _ A u th' SemChan Hu Hs').
Qed.

(** The statements that only test. *)
Lemma exec_skip s g t th x k :
  agrees s g -> pool s !! t = Some th -> asleep th = None -> code th = x :: k -> safe (g t) k ->
  (forall h, x <> Spinlock_acquire h) -> x <> While_sem_zero_sleep ->
  exists g', agrees (mk_sys (sh s) (<[t := mk_thread k (res th) (asleep th)]> (pool s))) g'.
Proof.
  intros A Ht Hsl Hc Hsafe Hn1 Hn2. rewrite Hsl. eexists. eapply agrees_flags; try done.
  - apply (ag_known _ _ A t th Ht).
  - apply (ag_pos _ _ A).
  - apply (ag_zero _ _ A).
  - intros _ _. left. intros Hh. left. by eapply not_helper.
Qed.

(** One statement [x] of the running thread [t], by kind of statement. *)
Section Exec.
Context (s : sys) (g : nat -> ctx) (t : nat) (th : thread) (x : stmt) (k : list stmt) (c1 : ctx) (s' : sys).
Context (A : agrees s g) (Ht : pool s !! t = Some th) (Hsl : asleep th = None) (Hc : code th = x :: k).
Context (Hs : safe (g t) (x :: k)) (Hx : absstep (g t) x = Some c1) (Hsafe : safe c1 k).

Lemma exec_spin l : x = Spinlock_acquire l \/ x = Spinlock_release l -> exec t x k th s = Moved s' -> exists g', agrees s' g'.
Proof.
  intros [-> | ->]; cbn [exec absstep] in *.
  - apply guard_Some in Hx as [Hm ->]. destruct (spin_of l (sh s)) as [u|] eqn:E.
    { by destruct (u =? t)%nat. } intros [= <-]. rewrite Hsl. eexists.
    eapply (agrees_spin s g t th k l (Some t)); try done; [by rewrite bool_decide_true | by right |].
    intros [Hp|[Hr|[? Hk]]]; [left; by destruct l | | by rewrite Hc in Hk].
    rewrite Hc in Hr. right. right. destruct l, k as [|[] k']; try done. by eexists.
  - apply guard_Some in Hx as [Hg ->]. rewrite !andb_true_iff, !negb_true_iff in Hg. destruct_and! Hg.
    case_decide as E; [|done]. intros [= <-]. rewrite Hsl. eexists.
    eapply (agrees_spin s g t th k l None); try done; [by left|].
    intros Hh. assert (Hp : pos (g t) = true) by by eapply not_helper. congruence.
Qed.

Lemma exec_while : x = While_sem_zero_sleep -> exec t x k th s = Moved s' -> exists g', agrees s' g'.
Proof.
  intros ->. cbn [exec absstep] in *. apply guard_Some in Hx as [Hg ->].
  rewrite !andb_true_iff, !negb_true_iff in Hg. destruct_and! Hg.
  pose proof (proj1 (only_spec _ _) ltac:(eassumption)) as Ho.
  destruct (Z.eqb_spec (sem_count (sh s)) 0) as [E|E]; intros [= <-]; rewrite Hsl; eexists.
  - eapply (agrees_flags s g t th _ _ (with_flags (tok (g t)) (own (g t)) (pos (g t)) true (known (g t)) (g t))); try done.
    + split; [apply (proj1 Hs)|]. destruct Hs as (_ & c' & Ha & Hr). exists c'. split; [|done]. rewrite <- Ha.
      pose proof (Ho Lk) as O1; pose proof (Ho Cv) as O2; pose proof (Ho Sem) as O3. cbn in O1, O2, O3.
      destruct (g t) as [b1 b2 b3 b4 b5 b6 b7 b8]. cbn in *. by subst.
    + apply (ag_known _ _ A t th Ht).
    + intros Hp. cbn in Hp. congruence.
    + intros Hc1 _. congruence.
  - eapply (agrees_flags s g t th _ _ _); try done.
    + apply (ag_known _ _ A t th Ht).
    + intros _. split; [|apply (Ho Sem)]. destruct (ag_count _ _ A) as [[? _]|[? _]]; congruence.
    + intros _ _. left. intros _. by left.
Qed.

Lemma exec_owner : x = Test_owner \/ x = Set_owner \/ x = Clear_owner -> exec t x k th s = Moved s' -> exists g', agrees s' g'.
Proof.
  intros [->|[->| ->]]; cbn [exec absstep] in *; apply guard_Some in Hx as [Hg ->]; intros [= <-]; rewrite Hsl; eexists.
  - eapply agrees_flags; try done.
    + intros _. cbn. apply Bool.eq_iff_eq_true. rewrite bool_decide_eq_true. apply (ag_owner _ _ A).
    + apply (ag_pos _ _ A).
    + apply (ag_zero _ _ A).
    + intros _ _. left. intros Hh. left. by eapply (not_helper (g t)).
  - rewrite !andb_true_iff, !negb_true_iff in Hg. destruct_and! Hg.
    eapply (agrees_own s g t th k true); try done; rewrite ?Hc; try done. eauto.
  - rewrite !andb_true_iff in Hg. destruct_and! Hg.
    eapply (agrees_own s g t th k false); try done; rewrite ?Hc; try done; [by apply (ag_tok _ _ A) | eauto].
Qed.

Lemma exec_sleep c l : x = Switch_sleep c l -> exec t x k th s = Moved s' -> exists g', agrees s' g'.
Proof.
  intros ->. cbn [exec absstep] in *. apply guard_Some in Hx as [Hg ->].
  rewrite !andb_true_iff, !negb_true_iff in Hg. destruct_and! Hg.
  destruct (decide (spin_of l (sh s) = Some t)); [|done]. intros [= <-]. eexists.
  destruct Hs as [Hss _]. cbn in Hss. apply andb_true_iff in Hss as [Hr _].
  assert (l = chan_lock c) as -> by (by eapply bool_decide_eq_true).
  pose proof (proj1 (only_spec _ _) ltac:(eassumption)) as Ho. eapply agrees_sleep; try done.
  - apply at_rest_spec. split; [|by destruct c].
    intros l. pose proof (Ho Sem); pose proof (Ho Lk); pose proof (Ho Cv). by destruct c, l.
  - by rewrite Ho, bool_decide_true.
  - intros l Hl. by rewrite Ho, bool_decide_false.
  - by destruct c.
  - by intros ->.
  - rewrite Hc. eauto.
Qed.

Lemma exec_wake c : x = Wakeone c \/ x = Wakeall c -> exec t x k th s = Moved s' -> exists g', agrees s' g'.
Proof.
  intros [-> | ->]; cbn [exec absstep] in *.
  - destruct c; apply guard_Some in Hx as [Hg ->].
    + destruct (wchan_of SemChan (sh s)) as [|u q] eqn:E; intros [= <-]; eexists.
      * rewrite Hsl. eapply agrees_flags; try done. apply (ag_known _ _ A t th Ht).
      * eapply (agrees_wake_move s g t th SemChan [u] q); try done; by left.
    + destruct (wchan_of CvChan (sh s)) as [|u q] eqn:E; intros [= <-]; [by eapply exec_skip|].
      eexists. eapply (agrees_wake_move s g t th CvChan [u] q); try done. intros _ Hh. left. by eapply not_helper.
  - destruct c; [done|]. apply guard_Some in Hx as [Hg ->]. intros [= <-]. eexists.
    eapply (agrees_wake_move s g t th CvChan _ []); try done; [by rewrite app_nil_r|].
    intros _ Hh. left. by eapply not_helper.
Qed.
End Exec.

Lemma exec_agrees s g t th x k s' :
  agrees s g -> pool s !! t = Some th -> asleep th = None -> code th = x :: k ->
  exec t x k th s = Moved s' -> exists g', agrees s' g'.
Proof.
  intros A Ht Hsl Hc. pose proof (ag_safe _ _ A t th Ht) as Hs. rewrite Hc in Hs.
  destruct (safe_cons _ _ _ Hs) as (c1 & Hx & Hsafe).
  destruct x; try (by eapply exec_spin; eauto); try (by eapply exec_while; eauto); try (by eapply exec_owner; eauto);
    try (by eapply exec_sleep; eauto); try (by eapply exec_wake; eauto); cbn [exec absstep] in *.
  - injection Hx as <-. intros [= <-]. by eapply exec_skip.
  - apply guard_Some in Hx as [Hg ->]. destruct (0 <? sem_count (sh s)); [|done]. intros [= <-]. by eapply exec_skip.
  - apply guard_Some in Hx as [Hg ->]. rewrite !andb_true_iff, !negb_true_iff in Hg. destruct_and! Hg.
    intros [= <-]. rewrite Hsl. eexists. by eapply agrees_dec.
  - apply guard_Some in Hx as [Hg ->]. rewrite !andb_true_iff, !negb_true_iff in Hg. destruct_and! Hg.
    intros [= <-]. rewrite Hsl. eexists. by eapply agrees_inc.
  - apply guard_Some in Hx as [Hg ->]. destruct (Bool.eqb (res th) b); [|done]. intros [= <-]. by eapply exec_skip.
  - apply guard_Some in Hx as [Hg ->]. case_decide; [|done]. intros [= <-]. by eapply exec_skip.
  - apply guard_Some in Hx as [Hg ->]. case_decide; [|done]. intros [= <-]. by eapply exec_skip.
  - apply guard_Some in Hx as [Hg ->]. destruct (_ =? 1)%nat; [|done]. intros [= <-]. by eapply exec_skip.
Qed.

(** ** Reachable states *)

Section Reachable.
Context (scripts : gmap nat (list call)).
Context (scripts_ok : forall t cs, scripts !! t = Some cs -> script_ok false cs = true).

Lemma reachable_agrees s : reachable (initial scripts) s -> exists g, agrees s g.
Proof.
  induction 1 as [|s t s' _ [g A] Hst]; [eexists; by apply initial_agrees|].
  pose proof (step_cases s t) as Hc. rewrite Hst in Hc. inversion Hc as [| |th x k Ht Hsl Hcd Hx].
  by eapply exec_agrees.
Qed.

End Reachable.

Arguments guard : simpl never.

Lemma absint_app c k1 k2 : absint c (k1 ++ k2) = absint c k1 ≫= fun d => absint d k2.
Proof. revert c. induction k1 as [|x k1 IH]; intros c; [done|]. cbn. destruct (absstep c x); [apply IH | done]. Qed.

Lemma do_i_hold_own c d : absint c lock_do_i_hold = Some d -> own d = own c.
Proof.
  cbn. destruct (guard _ _) as [c1|] eqn:E1; [|done]. apply guard_Some in E1 as [_ ->]. cbn.
  destruct (guard _ _) as [c2|] eqn:E2; [|done]. apply guard_Some in E2 as [_ ->]. cbn.
  destruct (guard _ _) as [c3|] eqn:E3; [|done]. apply guard_Some in E3 as [_ ->]. by intros [= <-].
Qed.

Lemma tested_own c k c' : absint c (lock_do_i_hold ++ Kassert_result true :: k) = Some c' -> own c = true.
Proof.
  rewrite absint_app. destruct (absint c lock_do_i_hold) as [d|] eqn:E; [|done]. cbn.
  destruct (guard _ _) as [e|] eqn:G; [|done]. apply guard_Some in G as [[_ H]%andb_true_iff _].
  rewrite <- (do_i_hold_own _ _ E). by destruct (own d).
Qed.

(** A client that is about to make a call for which it needs the lock is its
    owner. *)
Lemma script_owner cs c : script_ok true cs = true -> safe c (script_code cs) -> own c = true.
Proof.
  intros Hok [_ (c' & Ha & _)]. revert c Ha. induction cs as [|x cs IH]; intros c Ha; [done|].
  change (script_code (x :: cs)) with (call_code x ++ script_code cs) in Ha.
  destruct x; try done; try exact (tested_own _ _ _ Ha).
  cbn [call_code] in Ha. rewrite absint_app in Ha. destruct (absint c lock_do_i_hold) as [d|] eqn:E; [|done].
  rewrite <- (do_i_hold_own _ _ E). by apply IH.
Qed.

(** ** Progress *)

Definition can_move (s : sys) : Prop := exists t s', step t s = Moved s'.

Lemma step_exec s t th x k : pool s !! t = Some th -> asleep th = None -> code th = x :: k ->
  step t s = exec t x k th s.
Proof. intros Ht Hs Hc. unfold step. by rewrite Ht, Hs, Hc. Qed.

(** An awake thread with something left to do moves, or waits for a spinlock
    that another thread holds. *)
Lemma exec_moves_or_spins s g t th x k :
  agrees s g -> pool s !! t = Some th -> asleep th = None -> code th = x :: k ->
  can_move s \/ exists l u, x = Spinlock_acquire l /\ held (g u) l = true.
Proof.
  intros A Ht Hs Hc. pose proof (fun w => exec_no_failure s g t th x k w A Ht Hc) as Hf.
  pose proof (step_exec s t th x k Ht Hs Hc) as He.
  destruct (exec t x k th s) as [s'| | | |w] eqn:E.
  - left. by exists t, s'.
  - right. destruct x; cbn in E; repeat case_match; try done. subst. exists l, n.
    split; [done|]. by apply (ag_spin _ _ A).
  - destruct x; cbn in E; repeat case_match; done.
  - destruct x; cbn in E; repeat case_match; done.
  - by destruct (Hf w).
Qed.

(** A thread that holds anything is awake and has something left to do. *)
Lemma holder_active s g u : agrees s g -> at_rest (g u) = false ->
  exists th x k, pool s !! u = Some th /\ asleep th = None /\ code th = x :: k.
Proof.
  intros A Hr. destruct (pool s !! u) as [th|] eqn:Hu; [|by rewrite (ag_none _ _ A u Hu) in Hr].
  destruct (asleep th) as [c|] eqn:Hs; [by rewrite (proj2 (ag_asleep _ _ A u th c Hu Hs)) in Hr|].
  destruct (code th) as [|x k] eqn:Hc; [|by eauto 10].
  destruct (ag_safe _ _ A u th Hu) as [_ (c' & Ha & Hr')]. rewrite Hc in Ha. injection Ha as <-. congruence.
Qed.

Lemma held_not_at_rest c l : held c l = true -> at_rest c = false.
Proof.
  intros H. apply not_true_is_false. intros (Hn & _)%at_rest_spec. by rewrite Hn in H.
Qed.

(** The order of the spinlocks: who holds one waits at most for a later one. *)
Definition rank (l : spin) : nat := match l with Sem => 0 | Lk => 1 | Cv => 2 end.

Lemma holder_moves s g n : agrees s g -> forall l u, (rank l < n)%nat -> held (g u) l = true -> can_move s.
Proof.
  intros A. induction n as [|n IH]; intros l u Hn Hh; [lia|].
  destruct (holder_active s g u A (held_not_at_rest _ _ Hh)) as (th & x & k & Hu & Hs & Hc).
  destruct (exec_moves_or_spins s g u th x k A Hu Hs Hc) as [|(l' & w & -> & Hw)]; [done|].
  apply (IH l' w); [|done]. pose proof (ag_safe _ _ A u th Hu) as Hsafe. rewrite Hc in Hsafe.
  destruct (safe_cons _ _ _ Hsafe) as (c1 & [Hm _]%guard_Some & _). unfold may_take in Hm.
  destruct l, l'; cbn in *; rewrite ?Hh in Hm; cbn in Hm; rewrite ?andb_false_r in Hm; try done; lia.
Qed.

Lemma active_moves s g t th x k : agrees s g -> pool s !! t = Some th -> asleep th = None -> code th = x :: k ->
  can_move s.
Proof.
  intros A Ht Hs Hc. destruct (exec_moves_or_spins s g t th x k A Ht Hs Hc) as [|(l & u & _ & Hh)]; [done|].
  by apply (holder_moves s g (S (rank l)) A l u); [lia|].
Qed.

(** A thread asleep on the semaphore leaves somebody to wake it. *)
Lemma sleeper_moves s g t th : agrees s g -> pool s !! t = Some th -> asleep th = Some SemChan -> can_move s.
Proof.
  intros A Ht Hs. destruct (ag_count _ _ A) as [[Hc _]|(_ & u & Hu & _)].
  - assert (Hin : t ∈ wchan_of SemChan (sh s)) by (apply (ag_chan _ _ A); eauto).
    destruct (ag_wakes _ _ A Hc) as (u & th' & Hu & Hua & Hh).
    { intros E. cbn in Hin. rewrite E in Hin. by apply not_elem_of_nil in Hin. }
    destruct (code th') as [|x k] eqn:Hcd; [|by eapply active_moves].
    destruct Hh as [Hp|[?|[? ?]]]; [|done..].
    assert (Hr : at_rest (g u) = false) by (eapply held_not_at_rest, (ag_pos _ _ A u Hp)).
    destruct (holder_active s g u A Hr) as (th2 & x & k & Hu2 & _ & Hc2). congruence.
  - assert (Hr : at_rest (g u) = false).
    { apply not_true_is_false. intros (_ & Hn & _)%at_rest_spec. congruence. }
    destruct (holder_active s g u A Hr) as (th2 & x & k & Hu2 & Hs2 & Hc2). by eapply active_moves.
Qed.

(** What gives up ownership needs it. *)
Lemma absstep_own c x c1 : absstep c x = Some c1 -> x <> Set_owner -> own c1 = true -> own c = true.
Proof.
  intros Hx Hn Ho. destruct x; try (destruct c0); cbn in Hx; try (apply guard_Some in Hx as [_ ->]); try done; try (by destruct l).
  by injection Hx as <-.
Qed.

Lemma clears_own k c : safe c k -> clears k = true -> own c = true.
Proof.
  revert c. induction k as [|x k IH]; intros c Hs Hg; [done|].
  destruct (safe_cons _ _ _ Hs) as (c1 & Hx & Hs1). destruct (decide (x = Clear_owner)) as [->|Hne].
  - cbn in Hx. apply guard_Some in Hx as [Hx _]. by apply andb_true_iff in Hx as [_ ?].
  - eapply absstep_own; [exact Hx | by intros -> | apply IH; [done|]]. destruct x; try done. by destruct c0.
Qed.

Lemma absstep_keeps c x c1 : absstep c x = Some c1 -> x <> Set_owner -> own c = false ->
  own c1 = false /\ (held c1 Cv = true -> x <> Spinlock_acquire Cv -> held c Cv = true).
Proof.
  intros Hx Hn Ho. split.
  - apply not_true_is_false. intros H. by rewrite (absstep_own _ _ _ Hx Hn H) in Ho.
  - intros Hh Hna. destruct x; try (destruct c0); cbn in Hx; try (apply guard_Some in Hx as [_ ->]); try done; try (by destruct l).
    by injection Hx as <-.
Qed.

(** A thread that is not the owner and goes to wait holds the spinlock of the
    condition variable. *)
Lemma going_to_wait_held k c : safe c k -> own c = false -> going_to_wait k = true -> held c Cv = true.
Proof.
  revert c. induction k as [|x k IH]; intros c Hs Ho Hg; [done|].
  destruct (safe_cons _ _ _ Hs) as (c1 & Hx & Hs1). destruct (decide (x = Set_owner)) as [->|Hne]; [done|].
  destruct (absstep_keeps _ _ _ Hx Hne Ho) as [Ho1 Hh1]. destruct (decide (x = Spinlock_acquire Cv)) as [->|Hna].
  - destruct Hs as [Hsl _]. cbn [sleeps_ok going_to_wait] in Hsl, Hg. rewrite Hg in Hsl. apply andb_true_iff in Hsl as [Hcl _].
    by rewrite (clears_own k c1 Hs1 Hcl) in Ho1.
  - destruct (going_to_wait k) eqn:Hk; [apply Hh1; [by apply IH | done]|].
    destruct x; try destruct c0; cbn [going_to_wait] in Hg; try congruence; try (destruct l; congruence).
    cbn in Hx. apply guard_Some in Hx as [Hg' _]. rewrite !andb_true_iff in Hg'. destruct_and! Hg'.
    assert (l = Cv) as -> by (by eapply bool_decide_eq_true).
    by match goal with H : only _ _ = true |- _ => rewrite (proj1 (only_spec _ _) H) end.
Qed.

(** ** The properties *)

Section Properties.
Context (scripts : gmap nat (list call)).
Context (scripts_ok : forall t cs, scripts !! t = Some cs -> script_ok false cs = true).


(** C10. Mutual exclusion: two threads that both are inside the critical
    section of the lock are the same thread, and the lock records it as its
    owner. *)
Theorem lock_mutual_exclusion s t u :
  reachable (initial scripts) s -> critical s t -> critical s u -> t = u /\ lk_owner (sh s) = Some t.
Proof.
  intros [g A]%reachable_agrees (th1 & cs1 & H1 & E1 & O1) (th2 & cs2 & H2 & E2 & O2); [|done].
  pose proof (ag_safe _ _ A _ _ H1) as S1. pose proof (ag_safe _ _ A _ _ H2) as S2. rewrite E1 in S1. rewrite E2 in S2.
  apply (script_owner _ _ O1), (ag_owner _ _ A) in S1. apply (script_owner _ _ O2), (ag_owner _ _ A) in S2.
  split; congruence.
Qed.

(** C11. No deadlock: if some thread has work left and is not asleep on the
    condition variable, then some thread can move; in particular there is
    always a thread to move while one is asleep in [lock_acquire].  (A thread
    alone in [cv_wait] does wait for ever: nobody is left to signal.) *)
Theorem lock_no_deadlock s t th :
  reachable (initial scripts) s -> pool s !! t = Some th -> code th <> [] -> asleep th <> Some CvChan ->
  exists u s', step u s = Moved s'.
Proof.
  intros [g A]%reachable_agrees Ht Hc Hs; [|done]. destruct (asleep th) as [[]|] eqn:E; [|done|].
  - by eapply sleeper_moves.
  - destruct (code th) as [|x k] eqn:Hcd; [done|]. by eapply active_moves.
Qed.

(** C12. [cv_wait] gives up the lock and goes to sleep atomically for
    [cv_signal] and [cv_broadcast]: when one of them wakes sleepers, no other
    thread has given up the lock in order to wait and is not yet on the wait
    channel, so that every waiter is there to be woken. *)
Theorem cv_wait_atomic s t th x k u th' :
  reachable (initial scripts) s -> pool s !! t = Some th -> asleep th = None -> code th = x :: k ->
  x = Wakeone CvChan \/ x = Wakeall CvChan -> pool s !! u = Some th' -> u <> t -> lk_owner (sh s) <> Some u ->
  going_to_wait (code th') = false.
Proof.
  intros [g A]%reachable_agrees Ht Hs Hc Hx Hu Hne Hown; [|done].
  pose proof (ag_safe _ _ A t th Ht) as Hsafe. rewrite Hc in Hsafe.
  assert (Hh : held (g t) Cv = true).
  { destruct (safe_cons _ _ _ Hsafe) as (c1 & Ha & _). by destruct Hx; subst x; apply guard_Some in Ha as [Ha _]. }
  assert (Ho : own (g u) = false) by (apply not_true_is_false; by rewrite <- (ag_owner _ _ A)).
  apply not_true_is_false. intros Hg. apply (going_to_wait_held _ (g u)) in Hg; [|eapply (ag_safe _ _ A); eauto | done].
  apply Hne. apply (ag_spin _ _ A) in Hh, Hg. congruence.
Qed.
End Properties.
