(* ===== verification/LockSpec.v ===== *)
(** The lock of [thread/synch.c] against an abstract lock.

    The abstract lock has an owner, and every call of a client is one step of
    it: a free lock is acquired, its owner releases it, its owner waits, which
    frees the lock and leaves it to be acquired again.  [lock_refines_spec]
    relates every execution of the code, in any interleaving, to a run of the
    abstract lock in which each client has made exactly the calls that have
    returned. *)

From Stdlib Require Import ZArith Lia.
From stdpp Require Import base list gmap strings.
From S2P Require Import Prelude Locks.
Local Open Scope Z_scope.

(** ** The abstract lock *)

Record spec := mk_spec { sp_owner : option nat; sp_calls : gmap nat (list call) }.

Inductive spec_step : spec -> spec -> Prop :=
  | spec_acquire t cs m : m !! t = Some (Acquire :: cs) -> spec_step (mk_spec None m) (mk_spec (Some t) (<[t := cs]> m))
  | spec_release t cs m : m !! t = Some (Release :: cs) -> spec_step (mk_spec (Some t) m) (mk_spec None (<[t := cs]> m))
  | spec_wait t cs m : m !! t = Some (Wait :: cs) ->
      spec_step (mk_spec (Some t) m) (mk_spec None (<[t := Acquire :: cs]> m))
  | spec_wake t c cs m : c = Signal \/ c = Broadcast -> m !! t = Some (c :: cs) ->
      spec_step (mk_spec (Some t) m) (mk_spec (Some t) (<[t := cs]> m))
  | spec_do_i_hold t o cs m : m !! t = Some (DoIHold :: cs) -> spec_step (mk_spec o m) (mk_spec o (<[t := cs]> m)).

(** ** The calls a thread has still to make

    [(k, pre)] is a phase: a thread with [k] left to execute before the code
    of its other calls has, for the abstract lock, [pre] left to do.  The
    abstract step happens where the owner changes, where the caller is seen
    to have the lock, or at the end of the call. *)

Definition after (pre : list call) (x : stmt) (k : list stmt) : list call :=
  match x, pre with
  | Set_owner, _ => []
  | Clear_owner, [Wait] => [Acquire]
  | Clear_owner, _ => []
  | Kassert_result _, [Signal] | Kassert_result _, [Broadcast] => []
  | _, _ => match k with [] => [] | _ => pre end
  end.

Fixpoint walk (pre : list call) (k : list stmt) : list (list stmt * list call) :=
  (k, pre) :: match k with
              | [] => []
              | x :: k' =>
                  (if decide (x = While_sem_zero_sleep)
                   then (fun j => (drop j (wchan_sleep SemChan Sem) ++ k, pre)) <$> seq 0 5 else [])
                  ++ walk (after pre x k') k'
              end.

Definition calls : list call := [Acquire; Release; Wait; Signal; Broadcast; DoIHold].
Definition phases : list (list stmt * list call) := calls ≫= fun c => walk [c] (call_code c).

#[export] Instance call_eq_dec : EqDecision call.
Proof. solve_decision. Defined.

Lemma elem_of_calls c : c ∈ calls.
Proof. destruct c; unfold calls; repeat first [left | right]. Qed.

(** What [after] means for the abstract lock. *)
Definition after_ok (pre : list call) (x : stmt) (pre' : list call) : bool :=
  match x with
  | Set_owner => bool_decide (pre = [Acquire] /\ pre' = [])
  | Clear_owner => bool_decide (pre = [Release] /\ pre' = [] \/ pre = [Wait] /\ pre' = [Acquire])
  | Kassert_result true => bool_decide (pre' = pre \/ pre' = [] /\ (pre = [Signal] \/ pre = [Broadcast]))
  | _ => bool_decide (pre' = pre \/ pre' = [] /\ pre = [DoIHold])
  end.

Definition phase_ok (e : list stmt * list call) : bool :=
  match e with
  | ([], pre) => bool_decide (pre = [])
  | (x :: k, pre) =>
      bool_decide ((k, after pre x k) ∈ phases) && after_ok pre x (after pre x k) &&
      implb (bool_decide (x = While_sem_zero_sleep)) (bool_decide ((wchan_sleep SemChan Sem ++ x :: k, pre) ∈ phases))
  end.

Lemma phases_ok e : e ∈ phases -> phase_ok e = true.
Proof.
  assert (H : forallb phase_ok phases = true) by (vm_compute; reflexivity).
  rewrite forallb_forall in H. intros He. by apply H, list_elem_of_In.
Qed.

(** ** Code is read back in one way only *)

Fixpoint clash (l l' : list stmt) : bool :=
  match l, l' with
  | x :: l, x' :: l' => if decide (x = x') then clash l l' else true
  | _, _ => false
  end.

Fixpoint strip (l l' : list stmt) : option (list stmt) :=
  match l, l' with
  | [], _ => Some l'
  | x :: l, x' :: l' => if decide (x = x') then strip l l' else None
  | _ :: _, [] => None
  end.

Lemma clash_app l l' r r' : clash l l' = true -> l ++ r <> l' ++ r'.
Proof.
  revert l'. induction l as [|x l IH]; intros [|x' l']; cbn; try done.
  case_decide as E; [intros H [= _ Hr]; by apply (IH l') | intros _ [= ? _]; done].
Qed.

Lemma strip_app l l' r : strip l l' = Some r -> l' = l ++ r.
Proof.
  revert l'. induction l as [|x l IH]; intros [|x' l']; cbn; try done; [by intros [= <-].. |].
  case_decide; [|done]. subst. intros H. by rewrite (IH _ H).
Qed.

(** No continuation of [k] is the code of a list of calls. *)
Fixpoint rejects (n : nat) (k : list stmt) : bool :=
  match n with
  | O => false
  | S n => bool_decide (k <> []) && forallb (fun c =>
      clash k (call_code c) || match strip (call_code c) k with Some r => rejects n r | None => false end) calls
  end.

Lemma script_code_cons c cs : script_code (c :: cs) = call_code c ++ script_code cs.
Proof. done. Qed.

Lemma rejects_spec n k r cs : rejects n k = true -> k ++ r <> script_code cs.
Proof.
  revert k cs. induction n as [|n IH]; intros k cs; cbn [rejects]; [done|].
  rewrite andb_true_iff, bool_decide_eq_true, forallb_forall. intros [Hne Hall] E.
  destruct cs as [|c cs]; [by destruct k|]. rewrite script_code_cons in E.
  specialize (Hall c). rewrite <- list_elem_of_In in Hall. specialize (Hall (elem_of_calls c)).
  apply orb_true_iff in Hall as [Hc|Hs]; [by apply (clash_app _ _ r (script_code cs) Hc)|].
  destruct (strip (call_code c) k) as [k1|] eqn:Es; [|done]. apply strip_app in Es as ->.
  rewrite <- app_assoc in E. apply app_inv_head in E. by apply (IH k1 cs).
Qed.

Definition apart (c c' : call) : bool :=
  bool_decide (c = c') || clash (call_code c) (call_code c') ||
  match strip (call_code c) (call_code c') with Some r => rejects 4 r | None => false end ||
  match strip (call_code c') (call_code c) with Some r => rejects 4 r | None => false end.

Lemma calls_apart c c' r r' : call_code c ++ script_code r = call_code c' ++ script_code r' -> c = c'.
Proof.
  assert (H : apart c c' = true) by (destruct c, c'; vm_compute; reflexivity). unfold apart in H.
  rewrite !orb_true_iff, bool_decide_eq_true in H. intros E. destruct H as [[[H|H]|H]|H]; [done|..]; exfalso.
  - by apply (clash_app _ _ _ _ H E).
  - destruct (strip _ _) as [k|] eqn:Es; [|done]. apply strip_app in Es. rewrite Es, <- app_assoc in E.
    apply app_inv_head in E. by apply (rejects_spec _ _ (script_code r') r H).
  - destruct (strip _ _) as [k|] eqn:Es; [|done]. apply strip_app in Es. rewrite Es, <- app_assoc in E.
    apply app_inv_head in E. by apply (rejects_spec _ _ (script_code r) r' H).
Qed.

Lemma script_code_inj cs cs' : script_code cs = script_code cs' -> cs = cs'.
Proof.
  revert cs'. induction cs as [|c cs IH]; intros [|c' cs']; rewrite ?script_code_cons; [done|..].
  - by destruct c'.
  - by destruct c.
  - intros E. pose proof (calls_apart _ _ _ _ E) as ->. apply app_inv_head in E. by rewrite (IH _ E).
Qed.

(** A thread whose code is that of some calls has just these left. *)
Definition readable (e : list stmt * list call) : bool :=
  rejects 4 e.1 || bool_decide (e = ([], [])) || bool_decide (e ∈ (fun c => (call_code c, [c])) <$> calls).

Lemma phase_calls k pre rest cs : (k, pre) ∈ phases -> k ++ script_code rest = script_code cs -> pre ++ rest = cs.
Proof.
  intros He E. assert (H : forallb readable phases = true) by (vm_compute; reflexivity).
  rewrite forallb_forall in H. apply list_elem_of_In, H in He. unfold readable in He.
  rewrite !orb_true_iff, !bool_decide_eq_true in He. destruct He as [[Hr|He]|He].
  - by destruct (rejects_spec _ _ (script_code rest) cs Hr).
  - injection He as -> ->. by apply script_code_inj.
  - apply list_elem_of_fmap in He as (c & [= -> ->] & _). apply (script_code_inj (c :: rest)). exact E.
Qed.

(** ** The effect of one step on the owner and on the code *)

Definition owner_after (t : nat) (x : stmt) (o : option nat) : option nat :=
  match x with Set_owner => Some t | Clear_owner => None | _ => o end.

Lemma code_wake t m u : code <$> wake t m !! u = code <$> m !! u.
Proof. unfold wake. rewrite lookup_alter. case_decide; [subst|done]. by destruct (m !! u). Qed.

Lemma code_foldr_wake ws m u : code <$> foldr wake m ws !! u = code <$> m !! u.
Proof. induction ws as [|w ws IH]; [done|]. cbn [foldr]. by rewrite code_wake. Qed.

Lemma code_insert t th k r o (m : gmap nat thread) u :
  m !! t = Some th -> code <$> <[t := mk_thread k r o]> m !! u = if decide (u = t) then Some k else code <$> m !! u.
Proof. intros Ht. rewrite lookup_insert. by repeat case_decide; simplify_eq. Qed.

Lemma exec_effect s t th x k s' : pool s !! t = Some th -> exec t x k th s = Moved s' ->
  lk_owner (sh s') = owner_after t x (lk_owner (sh s)) /\
  exists k', (k' = k \/ x = While_sem_zero_sleep /\ k' = wchan_sleep SemChan Sem ++ x :: k) /\
    forall u, code <$> pool s' !! u = if decide (u = t) then Some k' else code <$> pool s !! u.
Proof.
  intros Ht. destruct x; try destruct l; try destruct c; cbn; repeat case_match; try done; intros [= <-]; cbn; (split; [done|]);
    first [exists k; split; [by left|]; intros u; rewrite ?code_wake, ?code_foldr_wake; by eapply code_insert
          | eexists; split; [by right|]; intros u; by eapply code_insert].
Qed.

(** What the owner is where the abstract lock makes a step. *)
Lemma owner_before s g t th x k : agrees s g -> pool s !! t = Some th -> code th = x :: k ->
  (x = Set_owner -> lk_owner (sh s) = None) /\
  (x = Clear_owner \/ x = Kassert_result true -> lk_owner (sh s) = Some t).
Proof.
  intros A Ht Hc. pose proof (ag_safe _ _ A t th Ht) as Hs. rewrite Hc in Hs.
  destruct (safe_cons _ _ _ Hs) as (c1 & Hx & _). split.
  - intros ->. apply guard_Some in Hx as [Hg _]. rewrite !andb_true_iff, negb_true_iff in Hg. destruct Hg as [[_ Htk] Ho].
    destruct (lk_owner (sh s)) as [u|] eqn:E; [|done]. apply (ag_owner _ _ A) in E.
    destruct (ag_count _ _ A) as [[_ Hno]|(_ & w & _ & Hq)]; [by rewrite Hno in Htk|].
    rewrite (Hq u (ag_tok _ _ A u E)), <- (Hq t Htk) in E. congruence.
  - intros [-> | ->]; apply guard_Some in Hx as [Hg _]; rewrite andb_true_iff in Hg; apply (ag_owner _ _ A).
    + apply Hg.
    + destruct Hg as [_ Hg]. by destruct (own (g t)).
Qed.

(** ** The simulation *)

Record sim (s : sys) (a : spec) : Prop := {
  sim_owner : sp_owner a = lk_owner (sh s);
  sim_calls : forall u k, code <$> pool s !! u = Some k -> exists k0 pre rest,
    (k0, pre) ∈ phases /\ k = k0 ++ script_code rest /\ sp_calls a !! u = Some (pre ++ rest);
}.

Lemma call_phase c : (call_code c, [c]) ∈ phases.
Proof. unfold phases. apply list_elem_of_bind. exists c. split; [destruct c; left | apply elem_of_calls]. Qed.

(** A thread with code left is inside a call. *)
Lemma sim_cons s a u x k : sim s a -> code <$> pool s !! u = Some (x :: k) -> exists k0 pre rest,
  (x :: k0, pre) ∈ phases /\ k = k0 ++ script_code rest /\ sp_calls a !! u = Some (pre ++ rest).
Proof.
  intros S Hk. destruct (sim_calls _ _ S u _ Hk) as ([|y k0] & pre & rest & Hp & E & Ha).
  - pose proof (phases_ok _ Hp) as Hpre. cbn in Hpre. apply bool_decide_eq_true in Hpre as ->.
    destruct rest as [|c rest]; [done|]. cbn [app] in E. rewrite script_code_cons in E.
    destruct (call_code c) as [|y k0] eqn:Ec; [by destruct c|]. injection E as -> ->.
    exists k0, [c], rest. by rewrite <- Ec; split; [apply call_phase|].
  - injection E as -> ->. eauto 10.
Qed.

(** The steps of the abstract lock at a statement. *)
Lemma spec_after a t pre rest x pre' :
  after_ok pre x pre' = true -> sp_calls a !! t = Some (pre ++ rest) ->
  (x = Set_owner -> sp_owner a = None) -> (x = Clear_owner \/ x = Kassert_result true -> sp_owner a = Some t) ->
  exists a', rtc spec_step a a' /\ sp_owner a' = owner_after t x (sp_owner a) /\
    sp_calls a' = <[t := pre' ++ rest]> (sp_calls a).
Proof.
  intros Hok Ha Hn Ho.
  assert (Hsame : forall o, o = sp_owner a -> pre' = pre -> exists a', rtc spec_step a a' /\ sp_owner a' = o /\
    sp_calls a' = <[t := pre' ++ rest]> (sp_calls a)).
  { intros ? -> ->. exists a. split; [done|]. by rewrite insert_id. }
  destruct a as [o m]. cbn in *.
  assert (Hone : forall a', spec_step (mk_spec o m) a' -> sp_owner a' = owner_after t x o ->
    sp_calls a' = <[t := pre' ++ rest]> m -> exists a', rtc spec_step (mk_spec o m) a' /\
    sp_owner a' = owner_after t x o /\ sp_calls a' = <[t := pre' ++ rest]> m).
  { intros a' Hst H1 H2. exists a'. split; [by apply rtc_once | done]. }
  destruct x; try destruct b; cbn in Hok; apply bool_decide_eq_true in Hok;
    try (destruct Hok as [->|[-> ->]]; [by apply Hsame | eapply Hone; [by apply spec_do_i_hold | done..]]).
  - specialize (Ho (or_intror eq_refl)) as ->. destruct Hok as [->|[-> [-> | ->]]]; [by apply Hsame|..];
      (eapply Hone; [eapply spec_wake; [|exact Ha]; auto | done..]).
  - specialize (Hn eq_refl) as ->. destruct Hok as [-> ->]. eapply Hone; [by apply spec_acquire | done..].
  - specialize (Ho (or_introl eq_refl)) as ->. destruct Hok as [[-> ->]|[-> ->]].
    + eapply Hone; [by apply spec_release | done..].
    + eapply Hone; [by apply spec_wait | done..].
Qed.

Lemma exec_sim s g a t th x k s' :
  agrees s g -> sim s a -> pool s !! t = Some th -> code th = x :: k -> exec t x k th s = Moved s' ->
  exists a', rtc spec_step a a' /\ sim s' a'.
Proof.
  intros A S Ht Hc Hx. destruct (exec_effect _ _ _ _ _ _ Ht Hx) as (Hown & k' & Hk' & Hcode).
  destruct (owner_before s g t th x k A Ht Hc) as [Hn Ho]. rewrite <- (sim_owner _ _ S) in Hn, Ho, Hown.
  destruct (sim_cons s a t x k S) as (k0 & pre & rest & Hp & -> & Ha); [by rewrite Ht; cbn; rewrite Hc|].
  pose proof (phases_ok _ Hp) as Hok. cbn in Hok. rewrite !andb_true_iff, bool_decide_eq_true in Hok.
  destruct Hok as [[Hp' Haft] Hloop].
  assert (Hgo : exists a' k1 pre1, rtc spec_step a a' /\ sp_owner a' = owner_after t x (sp_owner a) /\
    sp_calls a' = <[t := pre1 ++ rest]> (sp_calls a) /\ (k1, pre1) ∈ phases /\ k' = k1 ++ script_code rest).
  { destruct Hk' as [-> | [-> ->]].
    - destruct (spec_after a t pre rest x _ Haft Ha Hn Ho) as (a' & Hst & Hoa & Hca). eauto 10.
    - exists a, (wchan_sleep SemChan Sem ++ While_sem_zero_sleep :: k0), pre. rewrite insert_id by done.
      rewrite (bool_decide_eq_true_2 (_ = _)) in Hloop by done. split_and!; [done..| |done].
      exact (bool_decide_eq_true_1 _ Hloop). }
  destruct Hgo as (a' & k1 & pre1 & Hst & Hoa & Hca & Hp1 & ->). exists a'. split; [done|].
  split; [by rewrite Hown|]. intros u ku. rewrite Hcode, Hca. destruct (decide (u = t)) as [->|Hne].
  - rewrite lookup_insert_eq. intros [= <-]. exists k1, pre1, rest. by split.
  - rewrite lookup_insert_ne by (intros ->; by apply Hne). intros Hu. exact (sim_calls _ _ S u ku Hu).
Qed.

(** ** The property *)

(** A client that has taken the semaphore between two calls is the owner. *)
Lemma do_i_hold_flags c d : absint c lock_do_i_hold = Some d -> own d = own c /\ tok d = tok c.
Proof. destruct c as [[] [] [] tk ow ps z kn]; cbn; try discriminate; destruct ps, z; cbn; intros [= <-]; done. Qed.

Lemma acquire_untaken c k c' : absint c (lock_acquire ++ k) = Some c' -> tok c = false.
Proof.
  destruct c as [b1 b2 b3 tk ow ps z kn]. destruct tk; [|done]. intros H. exfalso. revert H.
  destruct b1, b2, b3, ow, ps, z, kn; vm_compute; discriminate.
Qed.

Lemma script_taken cs c : safe c (script_code cs) -> tok c = true -> own c = true.
Proof.
  intros [_ (c' & Ha & Hr)]. revert c Ha. induction cs as [|x cs IH]; intros c Ha Ht.
  - injection Ha as ->. apply at_rest_spec in Hr as (_ & Hr & _). congruence.
  - rewrite script_code_cons in Ha. destruct x; try exact (tested_own _ _ _ Ha).
    + by rewrite (acquire_untaken _ _ _ Ha) in Ht.
    + cbn [call_code] in Ha. rewrite absint_app in Ha. destruct (absint c lock_do_i_hold) as [d|] eqn:E; [|done].
      destruct (do_i_hold_flags _ _ E) as [<- Hd]. apply IH; [done | by rewrite Hd].
Qed.

(** Every thread is between two calls. *)
Definition quiescent (s : sys) : Prop := forall t th, pool s !! t = Some th -> exists cs, code th = script_code cs.

Lemma quiescent_count s g : agrees s g -> quiescent s -> lk_owner (sh s) = None <-> sem_count (sh s) = 1.
Proof.
  intros A Q. destruct (ag_count _ _ A) as [[-> Hno]|(-> & t & Ht & _)]; split; try done.
  - intros _. destruct (lk_owner (sh s)) as [t|] eqn:E; [|done]. apply (ag_owner _ _ A), (ag_tok _ _ A) in E. by rewrite Hno in E.
  - intros Hn. destruct (pool s !! t) as [th|] eqn:Hp; [|by rewrite (ag_none _ _ A t Hp) in Ht].
    destruct (Q t th Hp) as [cs Hc]. pose proof (ag_safe _ _ A t th Hp) as Hs. rewrite Hc in Hs.
    apply (script_taken cs _ Hs), (ag_owner _ _ A) in Ht. congruence.
Qed.

Section Refinement.
Context (scripts : gmap nat (list call)).
Context (scripts_ok : forall t cs, scripts !! t = Some cs -> script_ok false cs = true).

Lemma initial_sim : sim (initial scripts) (mk_spec None scripts).
Proof.
  split; [done|]. intros u k Hu. cbn in Hu. rewrite lookup_fmap in Hu. destruct (scripts !! u) as [cs|] eqn:E; [|done].
  injection Hu as <-. exists [], [], cs. split; [|by split].
  assert (H : bool_decide (([], []) ∈ phases) = true) by (vm_compute; reflexivity). exact (bool_decide_eq_true_1 _ H).
Qed.

Lemma reachable_sim s : reachable (initial scripts) s -> exists a, rtc spec_step (mk_spec None scripts) a /\ sim s a.
Proof.
  induction 1 as [|s t s' Hr (a & Ha & S) Hst]; [eexists; split; [done | exact initial_sim]|].
  destruct (reachable_agrees scripts scripts_ok s Hr) as [g A].
  pose proof (step_cases s t) as Hc. rewrite Hst in Hc. inversion Hc as [| |th x k Ht Hsl Hcd Hx].
  destruct (exec_sim s g a t th x k s' A S Ht Hcd Hx) as (a' & Ha' & S'). exists a'. split; [by etransitivity | done].
Qed.

(** C9. The lock refines the abstract lock.  Whatever the interleaving, the
    state reached is that of a run of the abstract lock in which a client
    between two calls has made exactly the calls that have returned: a
    completed [lock_acquire] took a free lock, a completed [lock_release] was
    its owner's and freed it, [cv_wait] freed the lock and took it again, and
    [cv_signal] and [cv_broadcast] were the owner's.  [lk_owner] is the owner
    of the abstract lock; no thread can fail an assertion; and when no call is
    under way the semaphore's count is 1 exactly when the lock is free. *)
Theorem lock_refines_spec s : reachable (initial scripts) s ->
  exists a, rtc spec_step (mk_spec None scripts) a /\ sp_owner a = lk_owner (sh s) /\
    (forall t th cs, pool s !! t = Some th -> code th = script_code cs -> sp_calls a !! t = Some cs) /\
    (forall t w, step t s <> Failed w) /\
    (quiescent s -> lk_owner (sh s) = None <-> sem_count (sh s) = 1).
Proof.
  intros Hr. destruct (reachable_sim s Hr) as (a & Ha & S). destruct (reachable_agrees scripts scripts_ok s Hr) as [g A].
  exists a. split; [done|]. split; [exact (sim_owner _ _ S)|]. split; [|split].
  - intros t th cs Ht Hc. destruct (sim_calls _ _ S t (code th)) as (k0 & pre & rest & Hp & E & ->); [by rewrite Ht|].
    rewrite Hc in E. by rewrite (phase_calls _ _ _ _ Hp (eq_sym E)).
  - intros t w. destruct (step_cases s t); [done..|]. by eapply exec_no_failure.
  - by apply (quiescent_count s g).
Qed.
End Refinement.
