(* ===== verification/LockDemo.v ===== *)
(** Two threads, a lock and a condition variable: an execution of the code of
    [Locks.v] in which one thread waits for the signal of the other, and the
    conditions of the theorems checked along it. *)

From Stdlib Require Import ZArith Lia.
From stdpp Require Import base list gmap strings.
From S2P Require Import Prelude Locks LockSpec.
Local Open Scope Z_scope.

(** Run the threads in the given order; a thread that cannot move is skipped. *)
Fixpoint run_sched (ts : list nat) (s : sys) : sys :=
  match ts with
  | [] => s
  | t :: ts => run_sched ts (match step t s with Moved s' => s' | _ => s end)
  end.

Lemma run_sched_reachable ts s0 s : reachable s0 s -> reachable s0 (run_sched ts s).
Proof.
  revert s. induction ts as [|t ts IH]; intros s H; [done|]. cbn. apply IH.
  destruct (step t s) eqn:E; [by eapply reach_step | done..].
Qed.

Definition two : gmap nat (list call) :=
  <[0%nat := [Acquire; Wait; Release]]> {[1%nat := [Acquire; DoIHold; Signal; Broadcast; Release]]}.

Lemma two_ok t cs : two !! t = Some cs -> script_ok false cs = true.
Proof.
  unfold two. rewrite lookup_insert. case_decide; [by intros [= <-]|].
  intros [_ <-]%lookup_singleton_Some. done.
Qed.

Definition at_step (ts : list nat) : sys := run_sched ts (initial two).

Lemma at_step_reachable ts : reachable (initial two) (at_step ts).
Proof. apply run_sched_reachable. constructor. Qed.

(** Thread 0 has the lock, thread 1 asks for it and goes to sleep. *)
Definition owned : list nat := replicate 18 0%nat.
Definition contended : list nat := owned ++ replicate 15 1%nat.

(** Thread 0 waits for the condition, thread 1 gets the lock and signals. *)
Definition waiting : list nat := contended ++ replicate 22 0%nat ++ replicate 18 1%nat.

Definition thread_at (t : nat) (s : sys) : thread := default (mk_thread [] false None) (pool s !! t).


Lemma owned_critical : critical (at_step owned) 0.
Proof. exists (thread_at 0 (at_step owned)), [Wait; Release]. split; [|split]; vm_compute; reflexivity. Qed.

Lemma lock_mutual_exclusion_witness :
  critical (at_step owned) 0 /\ (0%nat = 0%nat /\ lk_owner (sh (at_step owned)) = Some 0%nat).
Proof.
  split; [exact owned_critical|].
  apply (lock_mutual_exclusion two two_ok); [apply at_step_reachable | exact owned_critical..].
Defined.

(** Thread 0 has acquired the lock and thread 1 has made no call: so has the
    abstract lock. *)
Lemma lock_refines_spec_witness :
  code (thread_at 0 (at_step owned)) = script_code [Wait; Release] /\
  exists a, rtc spec_step (mk_spec None two) a /\ sp_owner a = lk_owner (sh (at_step owned)) /\
    (forall t th cs, pool (at_step owned) !! t = Some th -> code th = script_code cs -> sp_calls a !! t = Some cs) /\
    (forall t w, step t (at_step owned) <> Failed w) /\
    (quiescent (at_step owned) -> lk_owner (sh (at_step owned)) = None <-> sem_count (sh (at_step owned)) = 1).
Proof.
  split; [vm_compute; reflexivity|]. apply (lock_refines_spec two two_ok). apply at_step_reachable.
Defined.

(** Thread 1 sleeps on the semaphore of the lock. *)
Lemma lock_no_deadlock_witness : asleep (thread_at 1 (at_step contended)) = Some SemChan /\
  exists u s', step u (at_step contended) = Moved s'.
Proof.
  split; [vm_compute; reflexivity|].
  apply (lock_no_deadlock two two_ok (at_step contended) 1 (thread_at 1 (at_step contended)));
    [apply at_step_reachable | vm_compute; reflexivity | vm_compute; discriminate..].
Defined.

(** Thread 1 is about to signal, thread 0 is on the wait channel. *)
Lemma cv_wait_atomic_witness : asleep (thread_at 0 (at_step waiting)) = Some CvChan /\
  going_to_wait (code (thread_at 0 (at_step waiting))) = false.
Proof.
  split; [vm_compute; reflexivity|].
  apply (cv_wait_atomic two two_ok (at_step waiting) 1 (thread_at 1 (at_step waiting)) (Wakeone CvChan)
           (tail (code (thread_at 1 (at_step waiting)))) 0);
    [apply at_step_reachable | vm_compute; reflexivity | vm_compute; reflexivity | vm_compute; reflexivity
    | left; reflexivity | vm_compute; reflexivity | discriminate | vm_compute; discriminate].
Defined.

(** The same run to its end: both threads finish and the lock is free. *)
Example two_finish : let s := at_step (waiting ++ replicate 40 1%nat ++ replicate 40 0%nat) in
  code (thread_at 0 s) = [] /\ code (thread_at 1 s) = [] /\ lk_owner (sh s) = None /\ sem_count (sh s) = 1.
Proof. vm_compute. done. Qed.
