(* ===== verification/VmStats.v ===== *)
(** The paging statistics ([vm/vmstats.c], [include/vmstats.h]).

    [counters] is the array of ten [unsigned] counters; what
    [vm_stats_print] writes is modelled as the list of its lines.  The file
    ends with the accounting discipline of the fault handler: which events
    have to be counted together so that the printed report carries no
    INCONSISTENCY line. *)

From Stdlib Require Import ZArith Lia.
From stdpp Require Import base list gmap strings.
From S2P Require Import Prelude Platform State Synch.
Local Open Scope Z_scope.

Inductive stat :=
  | TLB_FAULT | TLB_FAULT_WITH_FREE | TLB_FAULT_WITH_REPLACE | TLB_INVALIDATION | TLB_RELOAD
  | PAGE_FAULT_ZEROED | PAGE_FAULT_DISK | ELF_READ | SWAP_READ | SWAP_WRITE.

#[export] Instance stat_eq_dec : EqDecision stat.
Proof. solve_decision. Defined.

(** The enumeration constants of [vmstats.h]. *)
Definition stat_index (x : stat) : nat :=
  match x with
  | TLB_FAULT => 0 | TLB_FAULT_WITH_FREE => 1 | TLB_FAULT_WITH_REPLACE => 2
  | TLB_INVALIDATION => 3 | TLB_RELOAD => 4 | PAGE_FAULT_ZEROED => 5 | PAGE_FAULT_DISK => 6
  | ELF_READ => 7 | SWAP_READ => 8 | SWAP_WRITE => 9
  end.

Definition STATS_TOT : nat := 10.

Definition names : list string :=
  [ "TLB Faults"; "TLB Faults with Free"; "TLB Faults with Replace"; "TLB Invalidations";
    "TLB Reloads"; "Page Faults (Zeroed)"; "Page Faults (Disk)"; "Page Faults from ELF";
    "Page Faults from Swapfile"; "Swapfile Writes" ]%string.

(** The lines of the report. *)
Inductive line :=
  | Title                                        (** "Statistics:" *)
  | Counter (name : string) (n : Z)              (** name = n *)
  | SumOf (parts : list string) (n : Z)          (** a + b = n *)
  | INCONSISTENCY (name : string) (n : Z) (parts : list string) (sum : Z).

Section VmStats.
Context {P : Platform}.

Definition vm_stats_init : M kernel unit :=
  modify (set_stats (with_counters (replicate STATS_TOT 0))) ;;
  let* l := lock_create in
  match l with
  | None => halt (Panic "Stats lock was not created succesfully")
  | Some l => modify (set_stats (fun s => mk_stats (counters s) None (Some l)))
  end.

Definition _vm_stats_inc (index : nat) : M kernel unit :=
  kassert (index <? STATS_TOT)%nat "index < STATS_TOT" ;;
  modify (set_stats (fun s =>
    with_counters (alter (fun n => u32 (n + 1)) index (counters s)) s)).

Definition vm_stats_inc (x : stat) : M kernel unit :=
  let* l := checkcanLock in
  if l =? 0 then
    acquire_stats_lock ;; _vm_stats_inc (stat_index x) ;; release_stats_lock
  else _vm_stats_inc (stat_index x).

(** [counters[x]]; the array has a value for every index of the enumeration. *)
Definition counter (s : stats_st) (x : stat) : Z := default 0 (counters s !! stat_index x).

Definition name (x : stat) : string := default ""%string (names !! stat_index x).

Definition report (s : stats_st) : list line :=
  let faults := counter s TLB_FAULT in
  let tot_tlb := u32 (counter s TLB_FAULT_WITH_FREE + counter s TLB_FAULT_WITH_REPLACE) in
  let dzr_sum := u32 (counter s PAGE_FAULT_DISK + counter s PAGE_FAULT_ZEROED
                      + counter s TLB_RELOAD) in
  let disk_sum := u32 (counter s ELF_READ + counter s SWAP_READ) in
  let disk := counter s PAGE_FAULT_DISK in
  let tlb_parts := [name TLB_FAULT_WITH_FREE; name TLB_FAULT_WITH_REPLACE] in
  let dzr_parts := [name PAGE_FAULT_DISK; name PAGE_FAULT_ZEROED; name TLB_RELOAD] in
  let disk_parts := [name ELF_READ; name SWAP_READ] in
  [Title] ++ zip_with Counter names (counters s) ++
  [SumOf tlb_parts tot_tlb] ++
  (if faults =? tot_tlb then [] else [INCONSISTENCY (name TLB_FAULT) faults tlb_parts tot_tlb]) ++
  [SumOf dzr_parts dzr_sum] ++
  (if faults =? dzr_sum then [] else [INCONSISTENCY (name TLB_FAULT) faults dzr_parts dzr_sum]) ++
  [SumOf disk_parts disk_sum] ++
  (if disk =? disk_sum then []
   else [INCONSISTENCY (name PAGE_FAULT_DISK) disk disk_parts disk_sum]).

Definition vm_stats_print : M kernel (list line) :=
  acquire_stats_lock ;;
  let* out := gets (fun k => report (k_stats k)) in
  release_stats_lock ;;
  let* l := gets (fun k => stats_lock_h (k_stats k)) in
  match l with
  | None => halt (Kassert "lock != NULL")
  | Some l => lock_destroy l ;; ret out
  end.

(** ** The accounting discipline *)

Definition bump (x : stat) (s : stats_st) : stats_st :=
  with_counters (alter (fun n => u32 (n + 1)) (stat_index x) (counters s)) s.

Fixpoint bumps (xs : list stat) (s : stats_st) : stats_st :=
  match xs with [] => s | x :: xs => bumps xs (bump x s) end.

(** The events of one completed fault: how the page was found, and how its TLB
    entry was placed. *)
Inductive page_event := Reload | Zeroed | FromElf | FromSwap.
Definition page_stats (e : page_event) : list stat :=
  match e with
  | Reload => [TLB_RELOAD]
  | Zeroed => [PAGE_FAULT_ZEROED]
  | FromElf => [ELF_READ; PAGE_FAULT_DISK]
  | FromSwap => [SWAP_READ; PAGE_FAULT_DISK]
  end.

(** What the report checks: no line of it is an INCONSISTENCY. *)
Definition consistent (s : stats_st) : Prop :=
  counter s TLB_FAULT = u32 (counter s TLB_FAULT_WITH_FREE + counter s TLB_FAULT_WITH_REPLACE) /\
  counter s TLB_FAULT = u32 (counter s PAGE_FAULT_DISK + counter s PAGE_FAULT_ZEROED
                             + counter s TLB_RELOAD) /\
  counter s PAGE_FAULT_DISK = u32 (counter s ELF_READ + counter s SWAP_READ).

Definition stats_wf (s : stats_st) : Prop := length (counters s) = STATS_TOT.

(** Locks may be taken: no spinlock is held and this is no interrupt. *)
Definition can_lock (k : kernel) : Prop :=
  curcpu_exists (k_cpu k) = true /\ c_spinlocks (k_cpu k) = 0 /\ t_in_interrupt (k_cpu k) = false.
End VmStats.

Section Theorems.
Context {P : Platform}.
Implicit Types (k : kernel) (s : stats_st).

Lemma stat_index_lt x : (stat_index x < STATS_TOT)%nat.
Proof. destruct x; cbn; unfold STATS_TOT; lia. Qed.

Lemma stat_index_inj x y : stat_index x = stat_index y -> x = y.
Proof. by destruct x, y. Qed.

Lemma set_stats_id k : set_stats (fun s => s) k = k.
Proof. by destruct k. Qed.

(** An increment takes and releases the lock when it may, and either way just
    counts the event. *)
Lemma vm_stats_inc_ok x k :
  stats_lock (k_stats k) = None -> vm_stats_inc x k = Done tt (set_stats (bump x) k).
Proof.
  intros Hl. unfold vm_stats_inc, checkcanLock, _vm_stats_inc, kassert.
  rewrite (proj2 (Nat.ltb_lt _ _)) by apply stat_index_lt.
  destruct k as [? ? ? [cs lk lh] [ce cs' ti ct]]; cbn in *; subst lk.
  unfold bind, gets, ret, modify; cbn.
  destruct ce; [|done]; cbn. destruct (cs' =? 0); [|done]; cbn. destruct ti; [done|]; cbn.
  unfold acquire_stats_lock, release_stats_lock, lock_acquire, lock_release; cbn.
  by rewrite Nat.eqb_refl.
Qed.

Lemma wp_vm_stats_inc x k (Q : unit -> kernel -> Prop) :
  stats_lock (k_stats k) = None -> Q tt (set_stats (bump x) k) -> wp (vm_stats_inc x) Q k.
Proof. intros Hl HQ. eapply wp_eq; [by apply vm_stats_inc_ok | done]. Qed.

Lemma stats_wf_bump x s : stats_wf (bump x s) <-> stats_wf s.
Proof. unfold stats_wf. cbn. by rewrite length_alter. Qed.

Lemma counter_bump x y s : stats_wf s ->
  counter (bump x s) y = if decide (x = y) then u32 (counter s y + 1) else counter s y.
Proof.
  intros Hwf. unfold counter, bump. cbn [counters with_counters]. case_decide as E.
  - subst y. rewrite list_lookup_alter_eq.
    assert (is_Some (counters s !! stat_index x)) as [n ->].
    { apply lookup_lt_is_Some. rewrite Hwf. apply stat_index_lt. }
    done.
  - rewrite list_lookup_alter_ne; [done|]. intros H. by apply E, stat_index_inj.
Qed.

Lemma stats_wf_bumps xs s : stats_wf (bumps xs s) <-> stats_wf s.
Proof. revert s. induction xs as [|x xs IH]; intros s; cbn; [done|]. by rewrite IH, stats_wf_bump. Qed.

Lemma bumps_app xs ys s : bumps (xs ++ ys) s = bumps ys (bumps xs s).
Proof. revert s. induction xs as [|x xs IH]; intros s; cbn; auto. Qed.

(** How often an event occurs. *)
Definition occ (xs : list stat) (y : stat) : Z := Z.of_nat (count_occ stat_eq_dec xs y).

(** The value of a counter after a list of events, modulo the word size. *)
Lemma counter_bumps xs y s : stats_wf s -> u32 (counter s y) = counter s y ->
  counter (bumps xs s) y = u32 (counter s y + occ xs y).
Proof.
  revert s. induction xs as [|x xs IH]; intros s Hwf Hr; cbn [bumps].
  - unfold occ. cbn. by rewrite Z.add_0_r.
  - assert (Hb : u32 (counter (bump x s) y) = counter (bump x s) y).
    { rewrite counter_bump by done. case_decide; [|done]. unfold u32. by rewrite Zmod_mod. }
    rewrite IH by (rewrite ?stats_wf_bump; done).
    rewrite counter_bump by done. unfold occ. cbn [count_occ].
    destruct (stat_eq_dec x y) as [->|Hne]; [rewrite decide_True by done | by rewrite decide_False].
    rewrite u32_add_l. f_equal. lia.
Qed.

Definition counters_u32 s : Prop := forall x, u32 (counter s x) = counter s x.

Lemma counters_u32_bump x s : stats_wf s -> counters_u32 s -> counters_u32 (bump x s).
Proof.
  intros Hwf Hr y. rewrite counter_bump by done. case_decide; [|done].
  unfold u32. by rewrite Zmod_mod.
Qed.

Lemma counters_u32_bumps xs s : stats_wf s -> counters_u32 s -> counters_u32 (bumps xs s).
Proof.
  revert s. induction xs as [|x xs IH]; intros s Hwf Hr; cbn; [done|].
  apply IH; [by rewrite stats_wf_bump | by apply counters_u32_bump].
Qed.

(** Events that balance keep the books. *)
Lemma consistent_bumps xs s :
  stats_wf s -> counters_u32 s -> consistent s ->
  occ xs TLB_FAULT = occ xs TLB_FAULT_WITH_FREE + occ xs TLB_FAULT_WITH_REPLACE ->
  occ xs TLB_FAULT = occ xs PAGE_FAULT_DISK + occ xs PAGE_FAULT_ZEROED + occ xs TLB_RELOAD ->
  occ xs PAGE_FAULT_DISK = occ xs ELF_READ + occ xs SWAP_READ ->
  consistent (bumps xs s).
Proof.
  intros Hwf Hr (H1 & H2 & H3) E1 E2 E3. unfold consistent.
  rewrite !counter_bumps by auto. autorewrite with word.
  split; [|split].
  - rewrite H1, E1. autorewrite with word. f_equal. lia.
  - rewrite H2, E2. autorewrite with word. f_equal. lia.
  - rewrite H3, E3. autorewrite with word. f_equal. lia.
Qed.

(** The events of a fault, in the order in which the handler counts them. *)
Definition fault_stats (swapped : bool) (e : page_event) (free : bool) : list stat :=
  TLB_FAULT :: (if swapped then [SWAP_WRITE] else []) ++ page_stats e ++
  [if free then TLB_FAULT_WITH_FREE else TLB_FAULT_WITH_REPLACE].

Lemma consistent_fault w e free s :
  stats_wf s -> counters_u32 s -> consistent s -> consistent (bumps (fault_stats w e free) s).
Proof. intros Hwf Hr Hc. apply consistent_bumps; auto; by destruct w, e, free. Qed.

(** Is this line a complaint? *)
Definition is_inconsistency (l : line) : bool :=
  match l with INCONSISTENCY _ _ _ _ => true | _ => false end.

Lemma filter_counters ns cs : filter (fun l => is_inconsistency l = true) (zip_with Counter ns cs) = [].
Proof. revert cs. induction ns as [|n ns IH]; intros [|c cs]; cbn; [done..|]. apply IH. Qed.

Lemma consistent_report s :
  consistent s <-> filter (fun l => is_inconsistency l = true) (report s) = [].
Proof.
  unfold consistent, report. rewrite !filter_app, filter_counters. cbn.
  repeat match goal with |- context [Z.eqb ?a ?b] => destruct (Z.eqb_spec a b) end;
    cbn; split; intros; destruct_and?; try done; tauto.
Qed.
End Theorems.
