(* ===== verification/Tlb.v ===== *)
(** The software side of the TLB ([vm/vm_tlb.c]).

    [tlb_loadentry] takes the first invalid slot until it has once found
    none, and from then on replaces entries in rotation.  The invariant
    [tlb_wf] is what the rest of the system needs of the TLB: a valid entry
    translates a user page, no page is translated twice, and an invalid slot
    carries the page number reserved for it. *)

From Stdlib Require Import ZArith Lia.
From stdpp Require Import base list gmap strings.
From S2P Require Import Prelude Platform State Synch VmStats.
Local Open Scope Z_scope.

Section Tlb.
Context {P : Platform}.

Definition with_tlb_full (b : bool) (w : tlb_st) : tlb_st := mk_tlb (tlb w) b (next_victim w).
Definition with_next_victim (n : Z) (w : tlb_st) : tlb_st := mk_tlb (tlb w) (tlb_full w) n.

Definition tlb_get_rr_victim : M kernel Z :=
  let* victim := gets (fun k => next_victim (k_tlb k)) in
  modify (set_tlb (fun w => with_next_victim ((next_victim w + 1) mod Z.of_nat NUM_TLB) w)) ;;
  ret victim.

Definition tlb_writeM (hi lo : Z) (i : nat) : M kernel unit :=
  modify (set_tlb (fun w => with_tlb (tlb_write hi lo i (tlb w)) w)).

Definition tlb_loadentry (faultaddress paddr : Z) (readOnly : bool) : M kernel rc :=
  let* full := gets (fun k => tlb_full (k_tlb k)) in
  let* slot :=
    (if full : bool then ret None
     else for_break (seq 0 NUM_TLB) (fun i =>
            let* t := gets (fun k => tlb (k_tlb k)) in
            ret (negb (is_valid (tlb_read t i).2)))) in
  match slot with
  | Some i =>
      tlb_writeM faultaddress (elo_of paddr readOnly) i ;;
      vm_stats_inc TLB_FAULT_WITH_FREE ;;
      ret OK
  | None =>
      (if full : bool then ret tt else modify (set_tlb (with_tlb_full true))) ;;
      let* full' := gets (fun k => tlb_full (k_tlb k)) in
      if full' : bool then
        let* k := tlb_get_rr_victim in
        tlb_writeM faultaddress (elo_of paddr readOnly) (Z.to_nat k) ;;
        vm_stats_inc TLB_FAULT_WITH_REPLACE ;;
        ret OK
      else ret (Err ENOMEM)
  end.

Definition vm_tlbshootdown : M kernel unit := halt (Panic "dumbvm tried to do tlb shootdown?!").

Definition tlb_invalidate : M kernel unit :=
  for_each (seq 0 NUM_TLB) (fun i => tlb_writeM (TLBHI_INVALID i) TLBLO_INVALID i) ;;
  vm_stats_inc TLB_INVALIDATION.

Definition tlb_invalidate_vaddr (vaddr : Z) : M kernel unit :=
  let* t := gets (fun k => tlb (k_tlb k)) in
  let i := tlb_probe (Z.land vaddr PAGE_FRAME) t in
  if 0 <=? i then tlb_writeM (TLBHI_INVALID (Z.to_nat i)) TLBLO_INVALID (Z.to_nat i) else ret tt.

(** ** The invariant and the mapping a TLB stands for *)

Definition slot_valid (t : tlb_hw) (i : nat) : bool := is_valid (tlb_read t i).2.

Definition slot_wf (t : tlb_hw) (i : nat) : Prop :=
  if slot_valid t i then tlb_vpage t i < MIPS_KSEG0 else tlb_vpage t i = TLBHI_INVALID i.

Record tlb_wf (t : tlb_hw) : Prop := {
  tlb_slots : forall i, (i < NUM_TLB)%nat -> slot_wf t i;
  tlb_unique : forall i j, (i < NUM_TLB)%nat -> (j < NUM_TLB)%nat ->
    tlb_vpage t i = tlb_vpage t j -> i = j;
}.

Definition rr_wf (w : tlb_st) : Prop := 0 <= next_victim w < Z.of_nat NUM_TLB.

(** Page [v] is translated to the frame at [p], writable when [d]. *)
Definition tlb_maps (t : tlb_hw) (v p : Z) (d : bool) : Prop :=
  exists i, (i < NUM_TLB)%nat /\ slot_valid t i = true /\ tlb_vpage t i = v /\
    Z.land (tlb_read t i).2 PAGE_FRAME = p /\ is_dirty (tlb_read t i).2 = d.

(** No slot, valid or not, carries page [v]: what makes an access fault. *)
Definition tlb_misses (t : tlb_hw) (v : Z) : Prop :=
  forall i, (i < NUM_TLB)%nat -> tlb_vpage t i <> v.
End Tlb.

Section Theorems.
Context {P : Platform} {L : PlatformLaws P}.
Implicit Types (k : kernel) (t : tlb_hw).

Lemma tlb_read_write_eq t hi lo i : (i < NUM_TLB)%nat -> tlb_read (tlb_write hi lo i t) i = (hi, lo).
Proof. intros Hi. rewrite tlb_read_write by done. by rewrite decide_True. Qed.

Lemma tlb_read_write_ne t hi lo i j : (i < NUM_TLB)%nat -> (j < NUM_TLB)%nat -> j <> i ->
  tlb_read (tlb_write hi lo i t) j = tlb_read t j.
Proof. intros Hi Hj Hne. rewrite tlb_read_write by done. by rewrite decide_False. Qed.

Lemma tlb_vpage_write_eq t hi lo i : (i < NUM_TLB)%nat ->
  tlb_vpage (tlb_write hi lo i t) i = Z.land hi PAGE_FRAME.
Proof. intros Hi. unfold tlb_vpage. by rewrite tlb_read_write_eq. Qed.

Lemma tlb_vpage_write_ne t hi lo i j : (i < NUM_TLB)%nat -> (j < NUM_TLB)%nat -> j <> i ->
  tlb_vpage (tlb_write hi lo i t) j = tlb_vpage t j.
Proof. intros. unfold tlb_vpage. by rewrite tlb_read_write_ne. Qed.

Lemma slot_wf_write_ne t hi lo i j : (i < NUM_TLB)%nat -> (j < NUM_TLB)%nat -> j <> i ->
  slot_wf (tlb_write hi lo i t) j <-> slot_wf t j.
Proof.
  intros. unfold slot_wf, slot_valid. rewrite tlb_read_write_ne, tlb_vpage_write_ne by done. done.
Qed.

(** Entering a page the TLB does not carry yet keeps it well formed. *)
Lemma tlb_wf_insert t v p ro i :
  tlb_wf t -> (i < NUM_TLB)%nat -> Z.land v PAGE_FRAME = v -> v < MIPS_KSEG0 -> tlb_misses t v ->
  tlb_wf (tlb_write v (elo_of p ro) i t).
Proof.
  intros [Hs Hu] Hi Hv Hk Hm. split.
  - intros j Hj. destruct (decide (j = i)) as [->|Hne].
    + unfold slot_wf, slot_valid. rewrite tlb_read_write_eq, tlb_vpage_write_eq by done.
      cbn. by rewrite elo_of_valid, Hv.
    + rewrite slot_wf_write_ne by done. auto.
  - intros j l Hj Hl. destruct (decide (j = i)) as [->|Hji], (decide (l = i)) as [->|Hli]; [done|..].
    + rewrite tlb_vpage_write_eq, tlb_vpage_write_ne, Hv by done. intros E. by destruct (Hm l Hl).
    + rewrite tlb_vpage_write_eq, tlb_vpage_write_ne, Hv by done. intros E. by destruct (Hm j Hj).
    + rewrite !tlb_vpage_write_ne by done. auto.
Qed.

(** So does dropping a slot. *)
Lemma tlb_wf_kill t i : tlb_wf t -> (i < NUM_TLB)%nat ->
  tlb_wf (tlb_write (TLBHI_INVALID i) TLBLO_INVALID i t).
Proof.
  intros [Hs Hu] Hi. destruct (tlbhi_invalid_page i Hi) as [Hp Hk].
  assert (Hno : forall j, (j < NUM_TLB)%nat -> j <> i -> tlb_vpage t j <> TLBHI_INVALID i).
  { intros j Hj Hne E. specialize (Hs j Hj). unfold slot_wf in Hs. destruct (slot_valid t j).
    - lia.
    - rewrite E in Hs. apply tlbhi_invalid_inj in Hs; auto. }
  split.
  - intros j Hj. destruct (decide (j = i)) as [->|Hne].
    + unfold slot_wf, slot_valid. rewrite tlb_read_write_eq, tlb_vpage_write_eq by done.
      cbn. by rewrite tlblo_invalid_not_valid.
    + rewrite slot_wf_write_ne by done. auto.
  - intros j l Hj Hl. destruct (decide (j = i)) as [->|Hji], (decide (l = i)) as [->|Hli]; [done|..].
    + rewrite tlb_vpage_write_eq, tlb_vpage_write_ne, Hp by done. intros E. by destruct (Hno l Hl Hli).
    + rewrite tlb_vpage_write_eq, tlb_vpage_write_ne, Hp by done. intros E. by destruct (Hno j Hj Hji).
    + rewrite !tlb_vpage_write_ne by done. auto.
Qed.

(** The mappings after a write to slot [i]. *)
Lemma tlb_maps_write t hi lo i v p d : (i < NUM_TLB)%nat ->
  tlb_maps (tlb_write hi lo i t) v p d ->
  (is_valid lo = true /\ v = Z.land hi PAGE_FRAME /\ p = Z.land lo PAGE_FRAME /\ d = is_dirty lo) \/
  tlb_maps t v p d.
Proof.
  intros Hi (j & Hj & Hvj & Hpj & Hfj & Hdj). unfold slot_valid in *.
  destruct (decide (j = i)) as [->|Hne].
  - rewrite tlb_vpage_write_eq in Hpj by done. rewrite tlb_read_write_eq in * by done. by left.
  - right. exists j. unfold slot_valid. rewrite tlb_read_write_ne in * by done.
    rewrite tlb_vpage_write_ne in * by done. auto.
Qed.

Lemma tlb_misses_kill t i v : tlb_misses t v -> (i < NUM_TLB)%nat -> v < MIPS_KSEG0 ->
  tlb_misses (tlb_write (TLBHI_INVALID i) TLBLO_INVALID i t) v.
Proof.
  intros Hm Hi Hv j Hj. destruct (tlbhi_invalid_page i Hi) as [Hp Hk].
  destruct (decide (j = i)) as [->|Hne].
  - rewrite tlb_vpage_write_eq, Hp by done. lia.
  - rewrite tlb_vpage_write_ne by done. auto.
Qed.

Lemma set_tlb_with k : set_tlb (with_tlb (tlb (k_tlb k))) k = k.
Proof. by destruct k as [? ? []]. Qed.

(** Dropping a page: afterwards the TLB misses it and has no new mapping. *)
Lemma tlb_invalidate_vaddr_spec v k :
  tlb_wf (tlb (k_tlb k)) -> Z.land v PAGE_FRAME = v -> v < MIPS_KSEG0 ->
  wp (tlb_invalidate_vaddr v) (fun _ k' => exists t',
    k' = set_tlb (with_tlb t') k /\ tlb_wf t' /\ tlb_misses t' v /\
    (forall u, u < MIPS_KSEG0 -> tlb_misses (tlb (k_tlb k)) u -> tlb_misses t' u) /\
    (forall u p d, tlb_maps t' u p d -> tlb_maps (tlb (k_tlb k)) u p d)) k.
Proof.
  intros Hwf Hv Hk. unfold tlb_invalidate_vaddr. steps. rewrite Hv.
  set (t := tlb (k_tlb k)) in *. destruct (Z.leb_spec 0 (tlb_probe v t)) as [Hi|Hi].
  - destruct (tlb_probe_hit t v Hi) as [Hlt Hp]. rewrite Hv in Hp.
    set (i := Z.to_nat (tlb_probe v t)) in *.
    apply wp_modify. eexists. split; [done|]. fold t. split; [by apply tlb_wf_kill|].
    destruct (tlbhi_invalid_page i Hlt) as [Hpi Hki]. split; [|split].
    + intros j Hj. destruct (decide (j = i)) as [->|Hne].
      * rewrite tlb_vpage_write_eq, Hpi by done. lia.
      * rewrite tlb_vpage_write_ne, <- Hp by done. intros E. apply (tlb_unique t Hwf) in E; auto.
    + intros u Hu Hm. by apply tlb_misses_kill.
    + intros u p d [(Hval & _)|?]%tlb_maps_write; [|done..].
      by rewrite tlblo_invalid_not_valid in Hval.
  - apply wp_ret. exists t. split; [unfold t; by rewrite set_tlb_with|].
    split; [done|]. split; [|done].
    intros i Hlt. rewrite <- Hv. by apply tlb_probe_miss.
Qed.

(** The whole TLB is dropped, whatever it held before. *)
Lemma tlb_invalidate_spec k :
  stats_lock (k_stats k) = None ->
  wp tlb_invalidate (fun _ k' => exists t',
    k' = set_stats (bump TLB_INVALIDATION) (set_tlb (with_tlb t') k) /\ tlb_wf t' /\
    (forall i, (i < NUM_TLB)%nat -> slot_valid t' i = false)) k.
Proof.
  intros Hl. unfold tlb_invalidate. step.
  apply (wp_for_each (fun idx k' => (forall i, i ∈ idx -> (i < NUM_TLB)%nat) /\ exists t',
    k' = set_tlb (with_tlb t') k /\ forall i, (i < NUM_TLB)%nat -> i ∉ idx ->
      tlb_read t' i = (TLBHI_INVALID i, TLBLO_INVALID))).
  - split; [intros i; rewrite elem_of_seq; lia|].
    exists (tlb (k_tlb k)). split; [by rewrite set_tlb_with|].
    intros i Hi []. apply elem_of_seq. lia.
  - intros i idx k' (Hin & t' & -> & Ht). apply wp_modify.
    assert (Hi : (i < NUM_TLB)%nat) by (apply Hin; by left).
    split; [intros j Hj; apply Hin; by right|].
    eexists. split; [done|]. intros j Hj Hnot. rewrite tlb_read_write by done.
    case_decide as E; [by subst|]. apply Ht; [done|]. rewrite elem_of_cons. tauto.
  - intros k' (_ & t' & -> & Ht). apply wp_vm_stats_inc; [done|].
    exists t'. split; [done|].
    assert (Hr : forall i, (i < NUM_TLB)%nat -> tlb_read t' i = (TLBHI_INVALID i, TLBLO_INVALID))
      by (intros i Hi; apply Ht; [done | apply not_elem_of_nil]).
    assert (Hv : forall i, (i < NUM_TLB)%nat -> slot_valid t' i = false).
    { intros i Hi. unfold slot_valid. rewrite Hr by done. apply tlblo_invalid_not_valid. }
    assert (Hp : forall i, (i < NUM_TLB)%nat -> tlb_vpage t' i = TLBHI_INVALID i).
    { intros i Hi. unfold tlb_vpage. rewrite Hr by done. by apply tlbhi_invalid_page. }
    split; [|done]. split.
    + intros i Hi. unfold slot_wf. by rewrite Hv, Hp.
    + intros i j Hi Hj. rewrite !Hp by done. by apply tlbhi_invalid_inj.
Qed.

(** The state after an entry has been written to slot [i]. *)
Definition loaded (v p : Z) (ro free : bool) (i : nat) (w w' : tlb_st) : Prop :=
  (i < NUM_TLB)%nat /\ tlb w' = tlb_write v (elo_of p ro) i (tlb w) /\ rr_wf w' /\
  (if free then slot_valid (tlb w) i = false /\ tlb_full w = false /\
     (forall j, (j < i)%nat -> slot_valid (tlb w) j = true)
   else i = Z.to_nat (next_victim w) /\ tlb_full w' = true /\
     (tlb_full w = false -> forall j, (j < NUM_TLB)%nat -> slot_valid (tlb w) j = true)).

Lemma tlb_loadentry_run v p ro k :
  rr_wf (k_tlb k) -> stats_lock (k_stats k) = None ->
  wp (tlb_loadentry v p ro) (fun r k' => r = OK /\ exists (i : nat) (free : bool) w',
    k' = set_stats (bump (if free then TLB_FAULT_WITH_FREE else TLB_FAULT_WITH_REPLACE))
           (set_tlb (fun _ => w') k) /\
    loaded v p ro free i (k_tlb k) w') k.
Proof.
  intros Hrr Hl. pose proof num_tlb_pos. unfold tlb_loadentry. steps.
  set (slot := if tlb_full (k_tlb k) then @None nat else
    list_find (fun i => negb (slot_valid (tlb (k_tlb k)) i) = true) (seq 0 NUM_TLB)
      ≫= fun q => Some q.2).
  apply (wp_eq _ _ _ slot k).
  { unfold slot. destruct (tlb_full (k_tlb k)); [done|].
    by apply (for_break_search _ _ (fun i => negb (slot_valid (tlb (k_tlb k)) i))). }
  unfold slot. clear slot. destruct (tlb_full (k_tlb k)) eqn:Ef.
  2: destruct (list_find _ _ ≫= _) as [i|] eqn:E.
  - (* already full *)
    steps. rewrite Ef. unfold tlb_get_rr_victim, tlb_writeM. steps.
    apply wp_vm_stats_inc; [done|]. steps. split; [done|].
    eexists _, false, (mk_tlb _ _ _). split; [reflexivity|].
    unfold loaded, rr_wf in *. cbn. repeat split; try lia; try done.
    + apply Z.mod_pos_bound. lia.
    + apply Z.mod_pos_bound. lia.
    + congruence.
  - (* a free slot *)
    rewrite (list_find_seq_Some (fun i => negb (slot_valid (tlb (k_tlb k)) i))) in E.
    destruct E as (Hi & Hv & Hmin). apply negb_true_iff in Hv.
    unfold tlb_writeM. steps. apply wp_vm_stats_inc; [done|]. steps. split; [done|].
    eexists i, true, (mk_tlb _ _ _). split; [done|].
    unfold loaded, rr_wf in *. cbn. repeat split; try lia; try done.
    intros j Hj. specialize (Hmin j ltac:(lia)). by apply negb_false_iff in Hmin.
  - (* found full now *)
    rewrite (list_find_seq_None (fun i => negb (slot_valid (tlb (k_tlb k)) i))) in E.
    steps. cbn. unfold tlb_get_rr_victim, tlb_writeM. steps.
    apply wp_vm_stats_inc; [done|]. steps. split; [done|].
    eexists _, false, (mk_tlb _ true _). split; [reflexivity|].
    unfold loaded, rr_wf in *. cbn. repeat split; try lia; try done.
    + apply Z.mod_pos_bound. lia.
    + apply Z.mod_pos_bound. lia.
    + intros _ j Hj. specialize (E j ltac:(lia)). by apply negb_false_iff in E.
Qed.

(** What one needs of a loaded entry: the page is translated as asked, the
    invariant holds, and no other mapping appeared. *)
Lemma loaded_spec v p ro free i w w' :
  loaded v p ro free i w w' -> tlb_wf (tlb w) ->
  Z.land v PAGE_FRAME = v -> v < MIPS_KSEG0 -> tlb_misses (tlb w) v ->
  0 <= p < 2 ^ 32 -> p mod PAGE_SIZE = 0 ->
  tlb_wf (tlb w') /\ tlb_maps (tlb w') v p (negb ro) /\
  (forall u q d, tlb_maps (tlb w') u q d ->
     (u = v /\ q = p /\ d = negb ro) \/ tlb_maps (tlb w) u q d).
Proof.
  intros (Hi & -> & _ & _) Hwf Hv Hk Hm Hp Ha. split; [by apply tlb_wf_insert|]. split.
  - exists i. unfold slot_valid. rewrite tlb_vpage_write_eq, tlb_read_write_eq by done. cbn.
    rewrite elo_of_valid, elo_of_frame, elo_of_dirty by done. auto.
  - intros u q d [(_ & -> & -> & ->)|?]%tlb_maps_write; [left | by right | done].
    rewrite elo_of_frame, elo_of_dirty by done. auto.
Qed.
End Theorems.
