(* ===== verification/LoadSegment.v ===== *)
(** Reading a piece of a file into physical memory ([load_segment] and
    [load_elf_ondemand] of [syscall/loadelf.c]).  The swap code reads its
    pages with [load_segment], the fault handler the pages of a program with
    [load_elf_ondemand]. *)

From Stdlib Require Import ZArith Lia.
From stdpp Require Import base list gmap strings.
From S2P Require Import Prelude Platform State.
Local Open Scope Z_scope.

Section LoadSegment.
Context {P : Platform}.

(** [filesize] bytes at [offset] of [v] are read to [paddr]; what a failing or
    short read delivered has been stored when the error is returned. *)
Definition load_segment (v : vnode) (offset paddr memsize filesize : Z) : M kernel rc :=
  let filesize := if memsize <? filesize then memsize else filesize in
  let* d := gets k_disk in
  match VOP_READ v offset filesize d with
  | inl e =>
      modify (set_mem (fun m => mem_write m paddr (VOP_READ_partial v offset filesize d))) ;;
      ret (Err e)
  | inr bs =>
      modify (set_mem (fun m => mem_write m paddr bs)) ;;
      let uio_resid := filesize - Z.of_nat (length bs) in
      if uio_resid =? 0 then ret OK else ret (Err ENOEXEC)
  end.

(** What [load_elf_ondemand] reads for the page at [vaddr]: where in the file,
    how many bytes of memory and of file, and where in the page they go. *)
Definition ondemand_span (seg : segment_t) (vaddr : Z) : Z * Z * Z * Z :=
  let vpn := Z.land vaddr PAGE_FRAME in
  let amt := Z.land (u32 (vpn - seg_start seg)) PAGE_FRAME in
  let filesize := if seg_filesize seg <? amt then 0
                  else if PAGE_SIZE <? u32 (seg_filesize seg - amt) then PAGE_SIZE
                  else u32 (seg_filesize seg - amt) in
  let memsize := if PAGE_SIZE <? u32 (seg_size seg - amt) then PAGE_SIZE
                 else u32 (seg_size seg - amt) in
  let offset := seg_offset seg + amt in
  if amt =? 0 then
    (offset, u32 (memsize - seg_initoffset seg), u32 (memsize - seg_initoffset seg),
     seg_initoffset seg)
  else (offset, memsize, filesize, 0).

Definition load_elf_ondemand (seg : segment_t) (paddr vaddr : Z) : M kernel rc :=
  let* o := proc_getas in
  match o with
  | None => halt (Undef "as->v")
  | Some a =>
      let* A := as_get a in
      let '(offset, memsize, filesize, inpage) := ondemand_span seg vaddr in
      load_segment (as_v A) offset (u32 (paddr + inpage)) memsize filesize
  end.
End LoadSegment.

Section Theorems.
Context {P : Platform}.

(** A read that delivers everything. *)
Lemma load_segment_full v offset paddr memsize bs (k : kernel) :
  VOP_READ v offset memsize (k_disk k) = inr bs -> Z.of_nat (length bs) = memsize ->
  load_segment v offset paddr memsize memsize k
  = Done OK (set_mem (fun m => mem_write m paddr bs) k).
Proof.
  intros Hr Hn. unfold load_segment, bind, gets, modify, ret. rewrite Z.ltb_irrefl, Hr.
  by rewrite Hn, Z.sub_diag.
Qed.

(** It touches nothing but memory, and that only inside the segment. *)
Lemma load_segment_frame {L : PlatformLaws P} v offset paddr memsize filesize (k : kernel) :
  0 <= memsize -> 0 <= filesize ->
  wp (load_segment v offset paddr memsize filesize) (fun _ k' => exists m,
    k' = set_mem (fun _ => m) k /\
    forall x, x < paddr \/ paddr + memsize <= x -> m x = k_mem k x) k.
Proof.
  intros Hm Hf. unfold load_segment. steps.
  set (n := if memsize <? filesize then memsize else filesize).
  assert (Hn : 0 <= n <= memsize) by (unfold n; destruct (Z.ltb_spec memsize filesize); lia).
  destruct (VOP_READ _ _ _ _) as [e|bs] eqn:E.
  - steps. eexists. split; [reflexivity|]. intros x Hx. apply mem_write_other.
    pose proof (vop_read_partial_length v offset n (k_disk k)). lia.
  - apply vop_read_length in E; [|lia]. steps.
    assert (Hmem : forall x, x < paddr \/ paddr + memsize <= x ->
      mem_write (k_mem k) paddr bs x = k_mem k x) by (intros; apply mem_write_other; lia).
    destruct (_ =? 0); apply wp_ret; eexists; (split; [reflexivity | done]).
Qed.
End Theorems.
