(* ===== verification/Swap.v ===== *)
(** The swap file ([vm/swapfile.c]).

    A slot of the swap file holds one page; [swapMap] has a bit per slot and
    [used] counts the slots taken.  [swap_refines] relates the variables and
    the device to an abstract store, a finite map from slots to page
    contents: [swap_out] is an insertion at a fresh slot, [swap_in] a lookup
    (with a deletion when the slot is given up), [clear_swap] a deletion. *)

From Stdlib Require Import ZArith Lia.
From stdpp Require Import base list gmap strings.
From S2P Require Import Prelude Platform State Synch LoadSegment.
Local Open Scope Z_scope.

(** The contents of a page. *)
Abbreviation page := (list Z) (only parsing).

Section Swap.
Context {P : Platform}.

Definition swapname : string := "lhd2".

(** The swap vnode is NULL until [open_swapfile] has run. *)
Definition swap_vnode : M kernel vnode :=
  fun k => match swapFile (k_swap k) with
           | Some v => Done v k
           | None => Stop (Undef "swapFile") k
           end.
Definition swap_map : M kernel bitmap :=
  fun k => match swapMap (k_swap k) with
           | Some b => Done b k
           | None => Stop (Undef "swapMap") k
           end.

Definition open_swapfile : M kernel unit :=
  let* d := gets k_disk in
  match vfs_swapon swapname d with
  | inl _ => halt (Kassert "result == 0 && swapFile != NULL")
  | inr (v, d) =>
      modify (set_disk d) ;;
      modify (set_swap (fun w => mk_swap (Some v) (swapFileSize w) (swapMap w) (used w)
                                   (swap_lock w) (swap_lock_h w))) ;;
      match VOP_STAT_size v d with
      | inl _ => halt (Kassert "result == 0 && stats.st_size % PAGE_SIZE == 0")
      | inr sz =>
          kassert (sz mod PAGE_SIZE =? 0) "result == 0 && stats.st_size % PAGE_SIZE == 0" ;;
          modify (set_swap (fun w => mk_swap (swapFile w) sz (swapMap w) (used w)
                                       (swap_lock w) (swap_lock_h w)))
      end
  end.

Definition swapmap_init : M kernel unit :=
  open_swapfile ;;
  let* sz := gets (fun k => swapFileSize (k_swap k)) in
  match bitmap_create (sz / PAGE_SIZE) with
  | None => halt (Kassert "swapMap!=NULL")
  | Some b =>
      modify (set_swap (fun w => with_swapMap b (used w) w)) ;;
      let* l := lock_create in
      match l with
      | None => halt (Panic "Swap lock was not created succesfully")
      | Some l => modify (set_swap (fun w => mk_swap (swapFile w) (swapFileSize w) (swapMap w)
                                              (used w) None (Some l)))
      end
  end.

Definition close_swapfile : M kernel unit :=
  acquire_swap_lock ;;
  let* d := gets k_disk in
  match vfs_swapoff swapname d with
  | inl _ => halt (Kassert "result == 0")
  | inr d =>
      modify (set_disk d) ;;
      modify (set_swap (fun w => mk_swap (swapFile w) (swapFileSize w) None (used w)
                                   (swap_lock w) (swap_lock_h w))) ;;
      release_swap_lock
  end.

(** [bitmap_unmark] followed by [used -= 1]. *)
Definition give_slot (slot : Z) : M kernel unit :=
  let* b := swap_map in
  match bitmap_unmark b slot with
  | None => halt (Kassert "bitmap_unmark")
  | Some b => modify (set_swap (fun w => with_swapMap b (u16 (used w - 1)) w))
  end.

(** [swap_paddr] points to a slot number and is overwritten with the frame;
    the result is the return code and the value left behind the pointer. *)
Definition swap_in (swap_paddr ram_paddr : Z) (toRemove : bool) : M kernel (rc * Z) :=
  acquire_swap_lock ;;
  let* v := swap_vnode in
  let* result := load_segment v (u32 (swap_paddr * PAGE_SIZE)) ram_paddr PAGE_SIZE PAGE_SIZE in
  match result with
  | Err e => ret (Err e, swap_paddr)
  | OK =>
      let* b := swap_map in
      kassert (bitmap_isset b swap_paddr) "bitmap_isset(swapMap, *swap_paddr) != 0" ;;
      (if toRemove then give_slot swap_paddr else ret tt) ;;
      release_swap_lock ;;
      ret (OK, ram_paddr)
  end.

(** [paddr] points to the address of a frame and is overwritten with the slot. *)
Definition swap_out (paddr : Z) : M kernel (rc * Z) :=
  acquire_swap_lock ;;
  let* w := gets k_swap in
  if used w =? swapFileSize w then ret (Err ENOMEM, paddr)
  else
    let* b := swap_map in
    match bitmap_alloc b with
    | inl err => release_swap_lock ;; ret (Err err, paddr)
    | inr (b, i) =>
        modify (set_swap (fun w => with_swapMap b (used w) w)) ;;
        let* v := swap_vnode in
        let* page := gets (fun k => mem_read (k_mem k) paddr (Z.to_nat PAGE_SIZE)) in
        let* d := gets k_disk in
        match VOP_WRITE v (u32 (i * PAGE_SIZE)) page d with
        | inl _ => halt (Kassert "result == 0")
        | inr d =>
            modify (set_disk d) ;;
            modify (set_swap (fun w => with_swapMap b (u16 (used w + 1)) w)) ;;
            release_swap_lock ;;
            ret (OK, i)
        end
    end.

Definition clear_swap (paddr : Z) : M kernel unit :=
  acquire_swap_lock ;; give_slot paddr ;; release_swap_lock.

Definition getAvailableSwap : M kernel Z :=
  acquire_swap_lock ;;
  let* sz := gets (fun k => u32 (swapFileSize (k_swap k) - used (k_swap k))) in
  release_swap_lock ;;
  ret sz.

(** ** The abstract store *)

Record swap_refines (w : swap_st) (d : disk) (b : bitmap) (v : vnode) (st : gmap Z page) : Prop := {
  sr_map : swapMap w = Some b;
  sr_file : swapFile w = Some v;
  sr_size : swapFileSize w = bitmap_nbits b * PAGE_SIZE;
  sr_slots : 0 < bitmap_nbits b < 2 ^ 16;
  sr_offsets : bitmap_nbits b * PAGE_SIZE < 2 ^ 32;
  sr_used : used w = Z.of_nat (size st);
  sr_bits : forall i, bitmap_isset b i = true <-> is_Some (st !! i);
  sr_pages : forall i bs, st !! i = Some bs ->
    Z.of_nat (length bs) = PAGE_SIZE /\ VOP_READ v (i * PAGE_SIZE) PAGE_SIZE d = inr bs;
}.

(** The device takes every page-sized write inside the swap file. *)
Definition swap_writes_ok (v : vnode) (n : Z) : Prop :=
  forall d i bs, 0 <= i < n -> Z.of_nat (length bs) = PAGE_SIZE ->
    exists d', VOP_WRITE v (i * PAGE_SIZE) bs d = inr d'.

Definition lockable (k : kernel) : Prop := t_in_interrupt (k_cpu k) = false.

(** [k] with another swap state and device. *)
Definition upd_swap (w : swap_st) (d : disk) (k : kernel) : kernel :=
  set_swap (fun _ => w) (set_disk d k).
End Swap.

Section Theorems.
Context {P : Platform} {L : PlatformLaws P}.
Implicit Types (k : kernel) (st : gmap Z page).

Lemma with_swap_lock_id w o : swap_lock w = o -> with_swap_lock o w = w.
Proof. intros <-. by destruct w. Qed.

Lemma swap_refines_lock w d b v st o :
  swap_refines w d b v st -> swap_refines (with_swap_lock o w) d b v st.
Proof. intros []; by split. Qed.

Lemma swap_slot_range w d b v st i : swap_refines w d b v st -> is_Some (st !! i) ->
  0 <= i < bitmap_nbits b.
Proof. intros H Hi. apply bitmap_isset_range. by apply (sr_bits _ _ _ _ _ H). Qed.

(** The number of slots is that of the file. *)
Lemma swap_refines_nbits w w' d d' b b' v v' st st' :
  swap_refines w' d' b' v' st' -> swap_refines w d b v st -> swapFileSize w' = swapFileSize w ->
  bitmap_nbits b' = bitmap_nbits b.
Proof.
  intros H' H E. rewrite (sr_size _ _ _ _ _ H'), (sr_size _ _ _ _ _ H) in E.
  pose proof page_size_pos. nia.
Qed.

(** There are at most as many pages in the store as slots. *)
Lemma swap_store_size w d b v st : swap_refines w d b v st -> Z.of_nat (size st) <= bitmap_nbits b.
Proof.
  intros H. pose proof (sr_slots _ _ _ _ _ H).
  assert (Hsub : dom st ⊆ list_to_set (seqZ 0 (bitmap_nbits b))).
  { intros i Hi%elem_of_dom. apply elem_of_list_to_set, elem_of_seqZ.
    eapply swap_slot_range in Hi; [|done]. lia. }
  apply subseteq_size in Hsub. rewrite size_dom in Hsub.
  rewrite size_list_to_set in Hsub by apply NoDup_seqZ. rewrite length_seqZ in Hsub. lia.
Qed.

(** A slot can be had exactly when the store does not fill the device. *)
Lemma swap_alloc_free w d b v st : swap_refines w d b v st ->
  Z.of_nat (size st) < bitmap_nbits b -> exists b' i, bitmap_alloc b = inr (b', i).
Proof.
  intros H Hlt. destruct (bitmap_alloc b) as [e|[b' i]] eqn:E; [|eauto]. exfalso.
  pose proof (sr_slots _ _ _ _ _ H).
  assert (Hsub : list_to_set (seqZ 0 (bitmap_nbits b)) ⊆ dom st).
  { intros i Hi%elem_of_list_to_set%elem_of_seqZ. apply elem_of_dom, (sr_bits _ _ _ _ _ H).
    apply (bitmap_alloc_full _ _ E). lia. }
  apply subseteq_size in Hsub. rewrite size_dom in Hsub.
  rewrite size_list_to_set in Hsub by apply NoDup_seqZ. rewrite length_seqZ in Hsub. lia.
Qed.

Lemma swap_offset_u32 w d b v st i : swap_refines w d b v st -> 0 <= i < bitmap_nbits b ->
  u32 (i * PAGE_SIZE) = i * PAGE_SIZE.
Proof.
  intros H Hi. pose proof (sr_offsets _ _ _ _ _ H). pose proof page_size_pos.
  apply u32_small. nia.
Qed.

(** Taking a slot: the store grows by the page written. *)
Lemma swap_refines_insert w d b v st b' i bs d' :
  swap_refines w d b v st -> bitmap_alloc b = inr (b', i) ->
  Z.of_nat (length bs) = PAGE_SIZE -> VOP_WRITE v (i * PAGE_SIZE) bs d = inr d' ->
  st !! i = None /\ 0 <= i < bitmap_nbits b /\
  swap_refines (with_swapMap b' (u16 (used w + 1)) w) d' b' v (<[i := bs]> st).
Proof.
  intros H Ha Hlen Hw. destruct (bitmap_alloc_ok _ _ _ Ha) as (Hi & Hclear & Hn & Hbits).
  assert (Hfree : st !! i = None).
  { destruct (st !! i) eqn:E; [|done].
    assert (bitmap_isset b i = true) by (apply (sr_bits _ _ _ _ _ H); by eexists). congruence. }
  split; [done|]. split; [done|].
  assert (Hsz : Z.of_nat (size (<[i:=bs]> st)) = Z.of_nat (size st) + 1)
    by (rewrite map_size_insert_None by done; lia).
  assert (Hle : Z.of_nat (size st) + 1 <= bitmap_nbits b).
  { assert (Z.of_nat (size st) <> bitmap_nbits b); [|pose proof (swap_store_size _ _ _ _ _ H); lia].
    intros E. assert (Hsub : dom st ⊆ list_to_set (seqZ 0 (bitmap_nbits b)) ∖ {[i]}).
    { intros j Hj%elem_of_dom. apply elem_of_difference. split.
      - apply elem_of_list_to_set, elem_of_seqZ. eapply swap_slot_range in Hj; [|done]. lia.
      - rewrite elem_of_singleton. intros ->. rewrite Hfree in Hj. by destruct Hj. }
    apply subseteq_size in Hsub. rewrite size_dom, size_difference in Hsub.
    2: { intros j ->%elem_of_singleton. apply elem_of_list_to_set, elem_of_seqZ. lia. }
    rewrite size_list_to_set, size_singleton, length_seqZ in Hsub by apply NoDup_seqZ. lia. }
  pose proof (sr_slots _ _ _ _ _ H). destruct H as [H1 H2 H3 H4 H5 H6 H7 H8].
  split; cbn; rewrite ?Hn; auto.
  - rewrite H6, Hsz. apply u16_small. lia.
  - intros j. rewrite Hbits, orb_true_iff, Z.eqb_eq, H7, lookup_insert. case_decide as E.
    + split; [by eexists | by left].
    + split; [intros [?|?]; [congruence | done] | by right].
  - intros j bs'. rewrite lookup_insert. case_decide as E.
    + intros [= <-]. subst j. split; [done|]. 
      pose proof (vop_write_read _ _ _ _ _ Hw) as Hrd. by rewrite Hlen in Hrd.
    + intros Hj. destruct (H8 _ _ Hj) as [Hl Hr]. split; [done|]. rewrite <- Hr.
      eapply vop_write_disjoint; [done|]. pose proof page_size_pos. nia.
Qed.

(** Giving a slot back: the store loses its page. *)
Lemma swap_refines_delete w d b v st i :
  swap_refines w d b v st -> is_Some (st !! i) ->
  exists b', bitmap_unmark b i = Some b' /\
    swap_refines (with_swapMap b' (u16 (used w - 1)) w) d b' v (delete i st).
Proof.
  intros H [bs Hi]. pose proof (swap_store_size _ _ _ _ _ H) as Hle.
  assert (Hset : bitmap_isset b i = true) by (apply (sr_bits _ _ _ _ _ H); by eexists).
  destruct (bitmap_unmark_ok b i Hset) as (b' & Hb & Hn & Hbits). exists b'. split; [done|].
  assert (Hsz : Z.of_nat (size st) = Z.of_nat (size (delete i st)) + 1).
  { assert (is_Some (st !! i)) as Hs by by eexists.
    rewrite (map_size_delete_Some _ _ Hs). assert (size st ≠ 0%nat); [|lia].
    rewrite map_size_ne_0_lookup. eauto. }
  pose proof (sr_slots _ _ _ _ _ H). destruct H as [H1 H2 H3 H4 H5 H6 H7 H8].
  split; cbn; rewrite ?Hn; auto.
  - rewrite H6. rewrite u16_small by lia. lia.
  - intros j. rewrite Hbits, andb_true_iff, negb_true_iff, Z.eqb_neq, H7, lookup_delete.
    case_decide as E; [subst; split; [by intros [? _] | by intros []]|]. intuition congruence.
  - intros j bs'. rewrite lookup_delete. case_decide; [done|]. auto.
Qed.

(** [getAvailableSwap] gives the size of the file in bytes less the slots
    taken, and leaves the state alone. *)
Lemma getAvailableSwap_spec k (Q : Z -> kernel -> Prop) :
  swap_lock (k_swap k) = None -> lockable k ->
  Q (u32 (swapFileSize (k_swap k) - used (k_swap k))) k -> wp getAvailableSwap Q k.
Proof.
  intros Hl Ht HQ. unfold getAvailableSwap. step. apply wp_lock_acquire; [done..|]. steps.
  apply wp_lock_release; [done|]. steps.
  destruct k as [? []]. cbn in *. subst. exact HQ.
Qed.

Lemma wp_swap_vnode v k (Q : vnode -> kernel -> Prop) :
  swapFile (k_swap k) = Some v -> Q v k -> wp swap_vnode Q k.
Proof. intros Hv HQ. unfold wp, swap_vnode. by rewrite Hv. Qed.

Lemma wp_swap_map b k (Q : bitmap -> kernel -> Prop) :
  swapMap (k_swap k) = Some b -> Q b k -> wp swap_map Q k.
Proof. intros Hb HQ. unfold wp, swap_map. by rewrite Hb. Qed.

Lemma wp_give_slot b v st slot k (Q : unit -> kernel -> Prop) :
  swap_refines (k_swap k) (k_disk k) b v st -> is_Some (st !! slot) ->
  (forall b', swap_refines (with_swapMap b' (u16 (used (k_swap k) - 1)) (k_swap k)) (k_disk k) b' v
                (delete slot st) ->
     Q tt (set_swap (fun w => with_swapMap b' (u16 (used w - 1)) w) k)) ->
  wp (give_slot slot) Q k.
Proof.
  intros Hr Hs HQ. unfold give_slot. step. eapply wp_swap_map; [apply Hr|].
  destruct (swap_refines_delete _ _ _ _ _ _ Hr Hs) as (b' & -> & Hr'). apply wp_modify. auto.
Qed.

(** Writing a page out: it goes to a slot that was free, and the store holds
    what the frame held. *)
Lemma swap_out_spec paddr b v st k :
  swap_refines (k_swap k) (k_disk k) b v st -> swap_lock (k_swap k) = None -> lockable k ->
  Z.of_nat (size st) < bitmap_nbits b -> swap_writes_ok v (bitmap_nbits b) ->
  wp (swap_out paddr) (fun r k' => exists slot b' w' d',
    r = (OK, slot) /\ st !! slot = None /\ 0 <= slot < bitmap_nbits b /\
    k' = upd_swap w' d' k /\ swap_lock w' = None /\ bitmap_nbits b' = bitmap_nbits b /\
    (forall u off n, u <> v -> VOP_READ u off n d' = VOP_READ u off n (k_disk k)) /\
    swap_refines w' d' b' v (<[slot := mem_read (k_mem k) paddr (Z.to_nat PAGE_SIZE)]> st)) k.
Proof.
  intros Hr Hl Ht Hsz Hw. pose proof page_size_range. unfold swap_out.
  step. apply wp_lock_acquire; [done..|]. steps. kred.
  destruct (Z.eqb_spec (used (k_swap k)) (swapFileSize (k_swap k))) as [E|_].
  { exfalso. rewrite (sr_used _ _ _ _ _ Hr), (sr_size _ _ _ _ _ Hr) in E.
    pose proof (sr_slots _ _ _ _ _ Hr). nia. }
  step. eapply wp_swap_map; [apply Hr|].
  destruct (swap_alloc_free _ _ _ _ _ Hr Hsz) as (b' & i & Ha). rewrite Ha.
  destruct (bitmap_alloc_ok _ _ _ Ha) as (Hi & _ & Hn & _).
  steps. eapply wp_swap_vnode; [apply Hr|]. steps.
  rewrite (swap_offset_u32 _ _ _ _ _ i Hr Hi). kred.
  set (bs := mem_read (k_mem k) paddr (Z.to_nat PAGE_SIZE)).
  assert (Hbs : Z.of_nat (length bs) = PAGE_SIZE) by (unfold bs; rewrite length_mem_read; lia).
  destruct (Hw (k_disk k) i bs Hi Hbs) as [d' Hd]. rewrite Hd. steps. kred.
  destruct (swap_refines_insert _ _ _ _ _ _ _ _ _ Hr Ha Hbs Hd) as (Hfree & _ & Hr').
  apply wp_lock_release; [done|]. steps. kred.
  eexists i, b', (mk_swap _ _ _ _ _ _), d'. do 3 (split; [done|]).
  split; [reflexivity|]. split; [done|]. split; [done|]. split.
  - intros u off n Hu. eapply vop_write_other; [done|]. congruence.
  - destruct Hr'; by split.
Qed.

(** Reading a page back, with or without giving up its slot. *)
Lemma swap_in_spec slot ram_paddr toRemove bs b v st k :
  swap_refines (k_swap k) (k_disk k) b v st -> swap_lock (k_swap k) = None -> lockable k ->
  st !! slot = Some bs ->
  wp (swap_in slot ram_paddr toRemove) (fun r k' => exists b' w',
    r = (OK, ram_paddr) /\
    k' = set_mem (fun m => mem_write m ram_paddr bs) (set_swap (fun _ => w') k) /\
    swap_lock w' = None /\ bitmap_nbits b' = bitmap_nbits b /\
    swap_refines w' (k_disk k) b' v (if toRemove then delete slot st else st)) k.
Proof.
  intros Hr Hl Ht Hs. unfold swap_in.
  step. apply wp_lock_acquire; [done..|]. step. eapply wp_swap_vnode; [apply Hr|]. step.
  assert (Hi : 0 <= slot < bitmap_nbits b) by (eapply swap_slot_range; eauto).
  destruct (sr_pages _ _ _ _ _ Hr _ _ Hs) as [Hlen Hread].
  rewrite (swap_offset_u32 _ _ _ _ _ slot Hr Hi).
  eapply wp_eq; [by apply load_segment_full|]. cbv beta iota.
  step. eapply wp_swap_map; [apply Hr|]. step.
  apply wp_kassert; [apply (sr_bits _ _ _ _ _ Hr); eauto|]. step.
  destruct toRemove.
  - eapply (wp_give_slot b v st); [by apply swap_refines_lock | eauto |]. intros b' Hr'. kred.
    step. apply wp_lock_release; [done|]. steps. kred.
    eexists b', (mk_swap _ _ _ _ _ _). split; [done|]. split; [reflexivity|]. split; [done|].
    split; [by eapply swap_refines_nbits; [exact Hr' | exact Hr|] | destruct Hr'; by split].
  - steps. apply wp_lock_release; [done|]. steps. kred.
    eexists b, (mk_swap _ _ _ _ _ _). split; [done|]. split; [reflexivity|].
    split; [done|]. split; [done|]. destruct Hr; by split.
Qed.

Lemma clear_swap_spec slot b v st k :
  swap_refines (k_swap k) (k_disk k) b v st -> swap_lock (k_swap k) = None -> lockable k ->
  is_Some (st !! slot) ->
  wp (clear_swap slot) (fun _ k' => exists b' w',
    k' = set_swap (fun _ => w') k /\ swap_lock w' = None /\ bitmap_nbits b' = bitmap_nbits b /\
    swap_refines w' (k_disk k) b' v (delete slot st)) k.
Proof.
  intros Hr Hl Ht Hs. unfold clear_swap. step. apply wp_lock_acquire; [done..|]. step.
  eapply (wp_give_slot b v st); [by apply swap_refines_lock | done |]. intros b' Hr'. kred.
  apply wp_lock_release; [done|]. kred.
  eexists b', (mk_swap _ _ _ _ _ _). split; [reflexivity|]. split; [done|].
  split; [by eapply swap_refines_nbits; [exact Hr' | exact Hr|]|]. destruct Hr'; by split.
Qed.
End Theorems.
