(* ===== verification/Coremap.v ===== *)
(** The frame allocator ([vm/coremap.c], [include/coremap.h]).

    [coremap] has one entry per managed frame.  Bit 1 of an entry's [vaddr]
    marks it as used, bit 0 as reserved; [as] is the owning address space of
    a page and NULL for kernel memory; [allocpages] is stored in the first
    frame of an allocation.  [getPage] takes the lowest free frame or evicts
    a page of the same address space, chosen in rotation by [swapvictim]. *)

From Stdlib Require Import ZArith Lia.
From stdpp Require Import base list gmap strings.
From S2P Require Import Prelude Platform State Synch VmStats Tlb LoadSegment Swap.
Local Open Scope Z_scope.

(** The macros of [coremap.h] on an entry: any of the two low bits, bit 1. *)
Definition CRES (e : c_entry) : bool := negb (Z.land (ce_vaddr e) 3 =? 0).
Definition CUSED (e : c_entry) : bool := negb (Z.land (ce_vaddr e) 2 =? 0).
Definition avail (e : c_entry) : bool := negb (CUSED e) && negb (CRES e).

(** [coremap[i]] after [set_coreentry] and [set_empty]. *)
Definition core_entry (vaddr : Z) (is_reserved : bool) (as_ : option asid) (e : c_entry) : c_entry :=
  mk_c_entry (Z.lor vaddr (if is_reserved then 3 else 2))
    (if is_reserved then None else as_) (ce_allocpages e).
Definition empty_entry (e : c_entry) : c_entry := mk_c_entry 0 None (ce_allocpages e).
Definition with_allocpages (n : Z) (e : c_entry) : c_entry := mk_c_entry (ce_vaddr e) (ce_as e) n.

Section Coremap.
Context {P : Platform}.

(** [coremap[i]], read and updated; an index outside the array is undefined. *)
Definition cm_get (i : nat) : M kernel c_entry :=
  fun k => match coremap (k_cm k) !! i with
           | Some e => Done e k
           | None => Stop (Undef "coremap[i]") k
           end.
Definition cm_upd (i : nat) (f : c_entry -> c_entry) : M kernel unit :=
  let* e := cm_get i in
  modify (set_cm (fun c => with_coremap (<[i := f e]> (coremap c)) c)).

(** The index range of the [for] loops over the coremap. *)
Definition cm_indices : M kernel (list nat) :=
  gets (fun k => seq 0 (Z.to_nat (coremapSize (k_cm k)))).

Definition swapvictim : M kernel nat :=
  let* c := gets k_cm in
  if coremapSize c =? 0 then halt (Undef "modulo zero")
  else modify (set_cm (with_next_svic (u32 (next_svic c + 1) mod coremapSize c))) ;;
       ret (Z.to_nat (next_svic c)).

Definition isCoremapActive : M kernel bool :=
  acquire_coremap_lock ;;
  let* active := gets (fun k => coremapActive (k_cm k)) in
  release_coremap_lock ;;
  ret active.

(** [ALLIGN_NEXT_ADDR] of [addrspace.h]. *)
Definition ALLIGN_NEXT_ADDR (paddr : Z) : Z :=
  if paddr mod PAGE_SIZE =? 0 then paddr else u32 ((paddr / PAGE_SIZE + 1) * PAGE_SIZE).

Definition coremap_init : M kernel unit :=
  let* r := gets k_ram in
  let lastp := ram_getsize r in
  let firstp := ALLIGN_NEXT_ADDR (ram_getfirstfree r).1 in
  let size0 := u32 (lastp - firstp) / PAGE_SIZE in
  let csize := DIVROUNDUP (u32 (size0 * sizeof_c_entry)) PAGE_SIZE in
  let size1 := u32 (size0 - csize) in
  modify (set_ram (ram_getfirstfree r).2) ;;
  modify (set_cm (fun c =>
    mk_coremap (replicate (Z.to_nat size1) (mk_c_entry 0 None 0)) size1 (ram_used c)
      (u32 (firstp + csize * PAGE_SIZE)) lastp (coremapActive c) (next_svic c) (coremap_lock c))) ;;
  acquire_coremap_lock ;;
  modify (set_cm (fun c => mk_coremap (coremap c) (coremapSize c) (ram_used c) (firstpaddr c)
    (lastpaddr c) true (next_svic c) (coremap_lock c))) ;;
  release_coremap_lock.

Definition set_coreentry (i : nat) (vaddr : Z) (is_reserved : bool) (as_ : option asid)
    : M kernel unit := cm_upd i (core_entry vaddr is_reserved as_).

Definition set_empty (i : nat) : M kernel unit := cm_upd i empty_entry.

Definition freeAs (a : asid) : M kernel unit :=
  acquire_coremap_lock ;;
  let* idx := cm_indices in
  for_each idx (fun i =>
    let* e := cm_get i in
    if decide (ce_as e = Some a) then set_empty i else ret tt) ;;
  release_coremap_lock.

(** [i * PAGE_SIZE + firstpaddr] *)
Definition frame_paddr (c : coremap_st) (i : nat) : Z := u32 (Z.of_nat i * PAGE_SIZE + firstpaddr c).

(** The search of [getPage] for a free frame. *)
Definition find_free : M kernel (option nat) :=
  let* idx := cm_indices in
  for_break idx (fun i => let* e := cm_get i in ret (avail e)).

(** The [while(1)] loop of [getPage].  It is left at the first frame in
    rotation that is not reserved and belongs to [a]; the fuel is one whole
    round over the coremap. *)
Fixpoint find_victim (fuel : nat) (a : asid) : M kernel nat :=
  match fuel with
  | O => halt (Loops "getPage: no frame to evict")
  | S fuel =>
      let* i := swapvictim in
      let* e := cm_get i in
      if (Z.land (ce_vaddr e) 1 =? 0) && bool_decide (ce_as e = Some a) then ret i
      else find_victim fuel a
  end.

(** The loop over the page table that unmaps the victim: a writable page is
    written to swap, a read-only one is just forgotten. *)
Definition evict_page (a : asid) (i j : nat) : M kernel bool :=
  let* e := pt_get a j in
  let* c := gets k_cm in
  if pte_paddr e =? frame_paddr c i then
    (if negb (Z.land (pte_rwx e) 2 =? 0) then
       let* r := swap_out (pte_paddr e) in
       pt_set a j (with_paddr r.2 e) ;;
       kassert (bool_decide (r.1 = OK)) "swap_out(&pt[j].paddr) == 0" ;;
       vm_stats_inc SWAP_WRITE ;;
       let* e := pt_get a j in
       pt_set a j (with_in_swap true e)
     else pt_set a j (with_paddr 0 e)) ;;
    let* e := pt_get a j in
    pt_set a j (with_in_mem false e) ;;
    tlb_invalidate_vaddr (pte_vaddr e) ;;
    ret true
  else ret false.

Definition getPage (is_reserved : bool) (vaddr : Z) (as_ : option asid) : M kernel Z :=
  acquire_coremap_lock ;;
  let* active := gets (fun k => coremapActive (k_cm k)) in
  if negb active then release_coremap_lock ;; ret 0
  else
    let* slot := find_free in
    let* addr :=
      match slot with
      | Some i =>
          set_coreentry i vaddr is_reserved as_ ;;
          cm_upd i (with_allocpages 1) ;;
          release_coremap_lock ;;
          ret i
      | None =>
          match as_ with
          | None => ret 0%nat
          | Some a =>
              let* sz := getAvailableSwap in
              if sz =? 0 then halt (Panic "Not enough memory in Swap File")
              else
                let* _A := as_get a in
                let* c := gets k_cm in
                let* i := find_victim (Z.to_nat (coremapSize c)) a in
                release_coremap_lock ;;
                acquire_pt_lock a ;;
                let* A := as_get a in
                let* hit := for_break (seq 0 (Z.to_nat (npages A))) (evict_page a i) in
                release_pt_lock a ;;
                ret (match hit with Some _ => i | None => 0%nat end)
          end
      end in
    gets (fun k => frame_paddr (k_cm k) addr).

(** The search of [getMultiplePages] for a run of [n] free frames. *)
Fixpoint find_run (n : Z) (idx : list nat) (first : nat) : M kernel (option nat) :=
  match idx with
  | [] => ret None
  | i :: idx =>
      let* e := cm_get i in
      if avail e then
        let* start := (if (i =? 0)%nat then ret true
                       else let* p := cm_get (i - 1) in ret (CUSED p || CRES p)) in
        let first := if start : bool then i else first in
        if n <=? Z.of_nat i - Z.of_nat first + 1 then ret (Some first)
        else find_run n idx first
      else find_run n idx first
  end.

Definition getMultiplePages (n : Z) (is_reserved : bool) (as_ : option asid) : M kernel Z :=
  acquire_coremap_lock ;;
  let* active := gets (fun k => coremapActive (k_cm k)) in
  if negb active then release_coremap_lock ;; ret 0
  else
    let* idx := cm_indices in
    let* found := find_run n idx 0 in
    match found with
    | None => halt (Panic "Multiple page swapping is not required for on demand page loading")
    | Some first =>
        cm_upd first (with_allocpages n) ;;
        for_each (seq first (Z.to_nat n)) (fun i =>
          let* c := gets k_cm in
          set_coreentry i (PADDR_TO_KVADDR (frame_paddr c i)) is_reserved as_) ;;
        release_coremap_lock ;;
        gets (fun k => frame_paddr (k_cm k) first)
    end.

Definition getPages (n : Z) (vaddr : Z) (as_ : option asid) : M kernel Z :=
  if 1 <? n then getMultiplePages n false as_ else getPage false vaddr as_.

Definition freepages (paddr : Z) : M kernel unit :=
  let* c := gets k_cm in
  if paddr <? firstpaddr c then ret tt
  else
    let i := Z.to_nat (u32 (paddr - firstpaddr c) / PAGE_SIZE) in
    acquire_coremap_lock ;;
    let* e := cm_get i in
    cm_upd i (with_allocpages 0) ;;
    for_each (seq i (Z.to_nat (ce_allocpages e))) set_empty ;;
    release_coremap_lock.

Definition getAvailableRam : M kernel Z :=
  acquire_coremap_lock ;;
  let* r := gets (fun k => u32 (coremapSize (k_cm k) - ram_used (k_cm k))) in
  release_coremap_lock ;;
  ret r.

Definition ptAlloc (n : Z) : M kernel Z :=
  let numpages := DIVROUNDUP (u32 (sizeof_pt_entry * n)) PAGE_SIZE in
  let* free := getAvailableRam in
  if numpages <? free then
    if 1 <? numpages then getMultiplePages numpages true None else getPage true 0 None
  else halt (Panic "No available space for pageTable in RAM").

(** ** Well-formed coremaps *)

Record cm_wf (c : coremap_st) : Prop := {
  cm_length : Z.of_nat (length (coremap c)) = coremapSize c;
  cm_base : 0 < firstpaddr c;
  cm_aligned : firstpaddr c mod PAGE_SIZE = 0;
  cm_top : firstpaddr c + coremapSize c * PAGE_SIZE <= 2 ^ 32;
  cm_svic : 0 <= next_svic c /\ (0 < coremapSize c -> next_svic c < coremapSize c);
}.

(** The frame at index [i] is free. *)
Definition frame_free (c : coremap_st) (i : nat) : Prop :=
  exists e, coremap c !! i = Some e /\ avail e = true.

(** It can be evicted for [a]. *)
Definition evictable (c : coremap_st) (a : asid) (i : nat) : Prop :=
  exists e, coremap c !! i = Some e /\ Z.land (ce_vaddr e) 1 = 0 /\ ce_as e = Some a.

(** The coremap is usable by the running thread. *)
Definition cm_ready (k : kernel) : Prop :=
  cm_wf (k_cm k) /\ coremapActive (k_cm k) = true /\ coremap_lock (k_cm k) = false.

(** [k] with other coremap entries. *)
Definition upd_entries (f : list c_entry -> list c_entry) (k : kernel) : kernel :=
  set_cm (fun c => with_coremap (f (coremap c)) c) k.
End Coremap.

Section Theorems.
Context {P : Platform} {L : PlatformLaws P}.
Implicit Types (k : kernel) (c : coremap_st).

(** ** Frames *)

Lemma frame_paddr_eq c i : cm_wf c -> (i < length (coremap c))%nat ->
  frame_paddr c i = firstpaddr c + Z.of_nat i * PAGE_SIZE.
Proof.
  intros H Hi. unfold frame_paddr. pose proof page_size_pos. destruct H.
  rewrite u32_small; [lia|]. nia.
Qed.

Lemma frame_paddr_range c i : cm_wf c -> (i < length (coremap c))%nat ->
  firstpaddr c <= frame_paddr c i /\ frame_paddr c i + PAGE_SIZE <= 2 ^ 32.
Proof.
  intros H Hi. rewrite frame_paddr_eq by done. pose proof page_size_pos. destruct H. nia.
Qed.

Lemma frame_paddr_aligned c i : cm_wf c -> (i < length (coremap c))%nat ->
  frame_paddr c i mod PAGE_SIZE = 0.
Proof.
  intros H Hi. rewrite frame_paddr_eq by done. pose proof page_size_pos.
  rewrite Z_mod_plus_full. apply H.
Qed.

Lemma frame_paddr_inj c i j : cm_wf c -> (i < length (coremap c))%nat -> (j < length (coremap c))%nat ->
  frame_paddr c i = frame_paddr c j -> i = j.
Proof. intros H Hi Hj. rewrite !frame_paddr_eq by done. pose proof page_size_pos. nia. Qed.

(** Distinct frames do not overlap. *)
Lemma frame_paddr_disjoint c i j : cm_wf c -> (i < length (coremap c))%nat ->
  (j < length (coremap c))%nat -> i <> j ->
  frame_paddr c i + PAGE_SIZE <= frame_paddr c j \/ frame_paddr c j + PAGE_SIZE <= frame_paddr c i.
Proof. intros H Hi Hj Hne. rewrite !frame_paddr_eq by done. pose proof page_size_pos. nia. Qed.

Lemma avail_core_entry va res as_ e : avail (core_entry va res as_ e) = false.
Proof.
  unfold avail, CUSED, CRES. cbn. replace (Z.land _ 2 =? 0) with false; [done|].
  symmetry. apply Z.eqb_neq. change 2 with (2 ^ 1) at 2.
  intros E. assert (F : Z.testbit (Z.land (Z.lor va (if res then 3 else 2)) (2 ^ 1)) 1 = false)
    by (rewrite E; apply Z.bits_0).
  rewrite Z.land_spec, Z.lor_spec in F. by destruct res; rewrite orb_true_r in F.
Qed.

Lemma core_entry_unreserved va as_ e : Z.land va 1 = 0 ->
  Z.land (ce_vaddr (core_entry va false as_ e)) 1 = 0.
Proof. intros H. cbn. by rewrite Z.land_lor_distr_l, H. Qed.

Lemma avail_empty_entry e : avail (empty_entry e) = true.
Proof. done. Qed.

(** ** Reading and writing entries *)

Lemma wp_cm_get i e k (Q : c_entry -> kernel -> Prop) :
  coremap (k_cm k) !! i = Some e -> Q e k -> wp (cm_get i) Q k.
Proof. intros Hi HQ. unfold wp, cm_get. by rewrite Hi. Qed.

Lemma wp_cm_upd i e f k (Q : unit -> kernel -> Prop) :
  coremap (k_cm k) !! i = Some e -> Q tt (upd_entries (<[i := f e]>) k) -> wp (cm_upd i f) Q k.
Proof. intros Hi HQ. unfold cm_upd. apply wp_bind. eapply wp_cm_get; [done|]. by apply wp_modify. Qed.

Lemma cm_indices_range c i : cm_wf c -> i ∈ seq 0 (Z.to_nat (coremapSize c)) ->
  exists e, coremap c !! i = Some e.
Proof.
  intros H Hi%elem_of_seq. apply lookup_lt_is_Some. pose proof (cm_length _ H). lia.
Qed.

(** The search for a free frame finds the lowest one. *)
Lemma find_free_spec k (Q : option nat -> kernel -> Prop) :
  cm_wf (k_cm k) ->
  (forall i e, coremap (k_cm k) !! i = Some e -> avail e = true ->
     (forall j, (j < i)%nat -> ~ frame_free (k_cm k) j) -> Q (Some i) k) ->
  ((forall j, ~ frame_free (k_cm k) j) -> Q None k) ->
  wp find_free Q k.
Proof.
  intros Hwf HS HN. unfold find_free, cm_indices. steps.
  set (t i := match coremap (k_cm k) !! i with Some e => avail e | None => false end).
  assert (Ht : forall j, t j = false <-> ~ frame_free (k_cm k) j).
  { intros j. unfold t, frame_free. destruct (coremap (k_cm k) !! j) as [e|] eqn:E.
    - split; [intros H (e' & [= <-] & H'); congruence |].
      intros H. destruct (avail e) eqn:E'; [exfalso; eauto | done].
    - split; [by intros _ (e' & [=] & _) | done]. }
  eapply wp_eq.
  { apply (for_break_search _ _ t). intros i Hi.
    destruct (cm_indices_range _ _ Hwf Hi) as [e He].
    unfold bind, cm_get, ret, t. by rewrite He. }
  destruct (list_find _ _ ≫= _) as [i|] eqn:E.
  - rewrite (list_find_seq_Some t) in E. destruct E as (Hi & Hti & Hmin).
    unfold t in Hti. destruct (coremap (k_cm k) !! i) as [e|] eqn:He; [|done].
    apply (HS i e); auto. intros j Hj. apply Ht, Hmin. lia.
  - rewrite (list_find_seq_None t) in E. apply HN. intros j.
    destruct (decide (j < Z.to_nat (coremapSize (k_cm k)))%nat).
    + apply Ht, E. lia.
    + intros (e & He & _). apply lookup_lt_Some in He. pose proof (cm_length _ Hwf). lia.
Qed.

(** ** [getPage] when a frame is free *)

Lemma getPage_free va res as_ k :
  cm_ready k -> (exists i, frame_free (k_cm k) i) ->
  wp (getPage res va as_) (fun r k' => exists i e,
    coremap (k_cm k) !! i = Some e /\ avail e = true /\
    (forall j, (j < i)%nat -> ~ frame_free (k_cm k) j) /\
    r = frame_paddr (k_cm k) i /\
    k' = upd_entries (<[i := with_allocpages 1 (core_entry va res as_ e)]>) k) k.
Proof.
  intros (Hwf & Hact & Hlk) [i0 Hi0]. unfold getPage. step.
  apply wp_acquire_coremap_lock; [done|]. steps. kred. rewrite Hact. cbn [negb]. step.
  apply find_free_spec; [destruct Hwf; by split| |].
  - intros i e Hi He Hmin. kred. step. unfold set_coreentry. step.
    eapply wp_cm_upd; [done|]. step. eapply wp_cm_upd.
    { apply list_lookup_insert_eq. by eapply lookup_lt_Some. }
    steps. exists i, e. repeat split; auto.
    unfold upd_entries. kernel_eq k.
  - intros Hno. by destruct (Hno i0).
Qed.

(** ** The eviction loop *)

(** The test of the loop. *)
Definition evictable_b c (a : asid) (i : nat) : bool :=
  match coremap c !! i with
  | Some e => (Z.land (ce_vaddr e) 1 =? 0) && bool_decide (ce_as e = Some a)
  | None => false
  end.

Lemma evictable_b_spec c a i : evictable_b c a i = true <-> evictable c a i.
Proof.
  unfold evictable_b, evictable. destruct (coremap c !! i) as [e|].
  - rewrite andb_true_iff, Z.eqb_eq, bool_decide_eq_true. split; [eauto|].
    intros (e' & [= <-] & ? & ?). auto.
  - split; [done | by intros (e' & [=] & _)].
Qed.

Lemma swapvictim_spec k (Q : nat -> kernel -> Prop) :
  cm_wf (k_cm k) -> 0 < coremapSize (k_cm k) ->
  Q (Z.to_nat (next_svic (k_cm k)))
    (set_cm (with_next_svic ((next_svic (k_cm k) + 1) mod coremapSize (k_cm k))) k) ->
  wp swapvictim Q k.
Proof.
  intros H Hn HQ. unfold swapvictim. steps.
  rewrite (proj2 (Z.eqb_neq _ _)) by lia. steps.
  rewrite u32_small in *; [done|]. destruct H. pose proof page_size_range. nia.
Qed.

(** Position [d] of the rotation that starts at the current victim. *)
Definition rotation c (d : Z) : nat := Z.to_nat ((next_svic c + d) mod coremapSize c).

Lemma rotation_next c d : 0 < coremapSize c ->
  rotation (with_next_svic ((next_svic c + 1) mod coremapSize c) c) d = rotation c (d + 1).
Proof. intros Hn. unfold rotation. cbn. rewrite Zplus_mod_idemp_l. f_equal. f_equal. lia. Qed.

Lemma rotation_0 c : cm_wf c -> 0 < coremapSize c -> rotation c 0 = Z.to_nat (next_svic c).
Proof.
  intros H Hn. unfold rotation. rewrite Z.add_0_r, Z.mod_small; [done|]. destruct H. lia.
Qed.

Lemma cm_wf_next_svic c n : cm_wf c -> 0 < coremapSize c ->
  cm_wf (with_next_svic (n mod coremapSize c) c).
Proof.
  intros [] Hn. split; cbn; auto. pose proof (Z.mod_pos_bound n _ Hn). lia.
Qed.

Lemma rotation_lookup c d : cm_wf c -> 0 < coremapSize c -> is_Some (coremap c !! rotation c d).
Proof.
  intros H Hn. apply lookup_lt_is_Some. unfold rotation. destruct H.
  pose proof (Z.mod_pos_bound (next_svic c + d) _ Hn). lia.
Qed.

(** The loop stops at the first evictable frame of the rotation. *)
Lemma find_victim_spec fuel a d k :
  cm_wf (k_cm k) -> 0 < coremapSize (k_cm k) -> 0 <= d < Z.of_nat fuel ->
  evictable (k_cm k) a (rotation (k_cm k) d) ->
  wp (find_victim fuel a) (fun i k' => exists d', 0 <= d' <= d /\
    i = rotation (k_cm k) d' /\ evictable (k_cm k) a i /\
    (forall d'', 0 <= d'' < d' -> ~ evictable (k_cm k) a (rotation (k_cm k) d'')) /\
    k' = set_cm (with_next_svic ((Z.of_nat i + 1) mod coremapSize (k_cm k))) k) k.
Proof.
  revert d k. induction fuel as [|fuel IH]; intros d k Hwf Hn Hd Hev; [lia|].
  cbn [find_victim]. step. apply swapvictim_spec; [done..|]. step.
  destruct (rotation_lookup (k_cm k) 0 Hwf Hn) as [e He].
  pose proof (rotation_0 _ Hwf Hn) as R0. rewrite R0 in He.
  eapply wp_cm_get; [exact He|].
  assert (Hb : (Z.land (ce_vaddr e) 1 =? 0) && bool_decide (ce_as e = Some a)
               = evictable_b (k_cm k) a (Z.to_nat (next_svic (k_cm k))))
    by (unfold evictable_b; by rewrite He).
  rewrite Hb. destruct (evictable_b (k_cm k) a _) eqn:E.
  - apply wp_ret. exists 0. split; [lia|]. rewrite R0. split; [done|].
    split; [by apply evictable_b_spec|]. split; [intros; lia|].
    rewrite Z2Nat.id by apply Hwf. done.
  - assert (Hd0 : d <> 0).
    { intros ->. rewrite R0 in Hev. apply evictable_b_spec in Hev. congruence. }
    set (k1 := set_cm _ k).
    assert (Hrot : forall x, rotation (k_cm k1) x = rotation (k_cm k) (x + 1))
      by (intros x; unfold k1; kred; by apply rotation_next).
    assert (Hev1 : forall x, evictable (k_cm k1) a x <-> evictable (k_cm k) a x) by done.
    eapply wp_mono; [apply (IH (d - 1) k1)|].
    + unfold k1. kred. by apply cm_wf_next_svic.
    + done.
    + lia.
    + rewrite Hrot, Hev1. by replace (d - 1 + 1) with d by lia.
    + intros i k' (d' & Hd' & Hi & Hevi & Hmin & ->). exists (d' + 1).
      split; [lia|]. rewrite Hi, Hrot. split; [done|].
      split; [by rewrite <- Hrot, <- Hi, <- Hev1|]. split; [|done].
      intros d'' Hd''. destruct (decide (d'' = 0)) as [->|].
      * rewrite R0. intros F%evictable_b_spec. congruence.
      * specialize (Hmin (d'' - 1) ltac:(lia)). rewrite Hrot, Hev1 in Hmin.
        by replace (d'' - 1 + 1) with d'' in Hmin by lia.
Qed.

(** Every frame comes up within one round, so one round is enough fuel. *)
Lemma rotation_covers c i : cm_wf c -> (i < length (coremap c))%nat ->
  exists d, 0 <= d < coremapSize c /\ rotation c d = i.
Proof.
  intros H Hi. pose proof (cm_length _ H). exists ((Z.of_nat i - next_svic c) mod coremapSize c).
  split; [apply Z.mod_pos_bound; lia|]. unfold rotation.
  rewrite Zplus_mod_idemp_r. replace (next_svic c + _) with (Z.of_nat i) by lia.
  rewrite Z.mod_small by lia. lia.
Qed.

(** With nothing to evict the loop runs for ever: no amount of fuel ends it. *)
Lemma find_victim_diverges fuel a k :
  cm_wf (k_cm k) -> 0 < coremapSize (k_cm k) -> (forall i, ~ evictable (k_cm k) a i) ->
  exists k', find_victim fuel a k = Stop (Loops "getPage: no frame to evict") k'.
Proof.
  revert k. induction fuel as [|fuel IH]; intros k Hwf Hn Hno; [by eexists|].
  cbn [find_victim].
  assert (Hsv : swapvictim k = Done (Z.to_nat (next_svic (k_cm k)))
    (set_cm (with_next_svic ((next_svic (k_cm k) + 1) mod coremapSize (k_cm k))) k)).
  { pose proof (swapvictim_spec k (fun a s => Done a s = Done (Z.to_nat (next_svic (k_cm k)))
      (set_cm (with_next_svic ((next_svic (k_cm k) + 1) mod coremapSize (k_cm k))) k)) Hwf Hn eq_refl)
      as Hw. unfold wp in Hw. by destruct (swapvictim k). }
  rewrite (bind_Done _ _ _ _ _ Hsv).
  destruct (rotation_lookup (k_cm k) 0 Hwf Hn) as [e He]. rewrite rotation_0 in He by done.
  rewrite (bind_Done _ _ _ e (set_cm (with_next_svic ((next_svic (k_cm k) + 1)
    mod coremapSize (k_cm k))) k)) by (unfold cm_get; kred; by rewrite He).
  assert (Hb : (Z.land (ce_vaddr e) 1 =? 0) && bool_decide (ce_as e = Some a) = false).
  { apply not_true_is_false. intros Ht. apply (Hno (Z.to_nat (next_svic (k_cm k)))).
    apply evictable_b_spec. unfold evictable_b. by rewrite He. }
  rewrite Hb. apply IH; kred; [by apply cm_wf_next_svic | done | done].
Qed.

(** ** Runs of free frames *)

(** [n] free frames from [f] on. *)
Definition free_run c (f n : nat) : Prop := forall j, (f <= j < f + n)%nat -> frame_free c j.

Lemma frame_free_dec c j : frame_free c j \/ ~ frame_free c j.
Proof.
  unfold frame_free. destruct (coremap c !! j) as [e|]; [destruct (avail e) eqn:E|].
  - left; eauto.
  - right. intros (e' & [= <-] & ?). congruence.
  - right. by intros (e' & [=] & _).
Qed.

(** [first] is where the run of free frames that ends before [i] starts. *)
Definition run_start c (i first : nat) : Prop :=
  (0 < i)%nat -> frame_free c (i - 1) ->
  (first < i)%nat /\ free_run c first (i - first) /\
  ((0 < first)%nat -> ~ frame_free c (first - 1)).

(** Frame [i] is free: the run that ends at it starts at [i] or where the
    previous one did. *)
Lemma run_extends c i first : (i < length (coremap c))%nat -> frame_free c i -> run_start c i first ->
  let started := bool_decide (i = 0%nat) || negb (bool_decide (i = 0%nat)) &&
    match coremap c !! (i - 1)%nat with Some p => CUSED p || CRES p | None => false end in
  exists first', (if started then i else first) = first' /\
    (first' <= i)%nat /\ free_run c first' (i + 1 - first') /\
    ((0 < first')%nat -> ~ frame_free c (first' - 1)).
Proof.
  intros Hi Hfi Hst started.
  destruct (decide (i = 0%nat)) as [->|Hne].
  - exists 0%nat. unfold started. rewrite bool_decide_eq_true_2 by done.
    split; [done|]. split; [lia|]. split; [|lia].
    intros j Hj. by replace j with 0%nat by lia.
  - unfold started. rewrite bool_decide_eq_false_2 by done. cbn [orb negb andb].
    destruct (lookup_lt_is_Some_2 (coremap c) (i - 1) ltac:(lia)) as [p Hp].
    rewrite Hp. destruct (CUSED p || CRES p) eqn:Hu.
    + exists i. split; [done|]. split; [lia|]. split.
      * intros j Hj. by replace j with i by lia.
      * intros _ (p' & Hp' & Ha). rewrite Hp in Hp'. injection Hp' as <-.
        unfold avail in Ha. by destruct (CUSED p), (CRES p).
    + exists first. assert (Hfp : frame_free c (i - 1)).
      { exists p. split; [done|]. unfold avail. by destruct (CUSED p), (CRES p). }
      destruct (Hst ltac:(lia) Hfp) as (Hlt & Hrun & Hb). split; [done|]. split; [lia|].
      split; [|done]. intros j Hj. destruct (decide (j = i)) as [->|]; [done|].
      apply Hrun. lia.
Qed.

Lemma find_run_spec n i first k :
  cm_wf (k_cm k) -> (0 < n)%nat -> (i <= length (coremap (k_cm k)))%nat ->
  run_start (k_cm k) i first ->
  (forall f, free_run (k_cm k) f n -> (i < f + n)%nat) ->
  wp (find_run (Z.of_nat n) (seq i (length (coremap (k_cm k)) - i)) first)
    (fun r k' => k' = k /\
      match r with
      | Some f => free_run (k_cm k) f n /\ forall f', free_run (k_cm k) f' n -> (f <= f')%nat
      | None => forall f, ~ free_run (k_cm k) f n
      end) k.
Proof.
  intros Hwf Hn. remember (length (coremap (k_cm k)) - i)%nat as m eqn:Em.
  revert i first Em. induction m as [|m IH]; intros i first Em Hi Hst Hno.
  - apply wp_ret. split; [done|]. intros f Hf. specialize (Hno f Hf).
    destruct (Hf (f + n - 1)%nat ltac:(lia)) as (e & He & _). apply lookup_lt_Some in He. lia.
  - cbn [seq find_run]. step.
    destruct (lookup_lt_is_Some_2 (coremap (k_cm k)) i ltac:(lia)) as [e He].
    eapply wp_cm_get; [done|].
    destruct (avail e) eqn:Hav.
    + assert (Hfi : frame_free (k_cm k) i) by (by exists e).
      step. set (started := bool_decide (i = 0%nat) || negb (bool_decide (i = 0%nat)) &&
        match coremap (k_cm k) !! (i - 1)%nat with Some p => CUSED p || CRES p | None => false end).
      apply (wp_eq _ _ _ started k).
      { unfold started. destruct (Nat.eqb_spec i 0) as [->|Hne]; [done|].
        rewrite bool_decide_eq_false_2 by done. cbn.
        destruct (lookup_lt_is_Some_2 (coremap (k_cm k)) (i - 1) ltac:(lia)) as [p Hp].
        unfold bind, cm_get, ret. by rewrite Hp. }
      pose proof (run_extends (k_cm k) i first ltac:(lia) Hfi Hst) as Hs'. fold started in Hs'.
      destruct Hs' as (first' & -> & Hle & Hrun & Hb).
      destruct (Z.leb_spec (Z.of_nat n) (Z.of_nat i - Z.of_nat first' + 1)) as [Hfound|Hshort].
      * apply wp_ret. split; [done|].
        assert (Hr : free_run (k_cm k) first' n) by (intros j Hj; apply Hrun; lia).
        pose proof (Hno _ Hr). split; [done|]. intros f' Hf'. specialize (Hno f' Hf'). lia.
      * apply IH; try lia.
        -- intros _ _. split; [lia|]. split; [|done].
           by replace (S i - first')%nat with (i + 1 - first')%nat by lia.
        -- intros f Hf. pose proof (Hno f Hf). destruct (decide (f + n = S i)%nat); [|lia].
           exfalso. apply (Hb ltac:(lia)). apply Hf. lia.
    + apply IH; try lia.
      * intros _ (e' & He' & Ha). replace (S i - 1)%nat with i in He' by lia. congruence.
      * intros f Hf. pose proof (Hno f Hf). destruct (decide (f + n = S i)%nat); [|lia].
        exfalso. destruct (Hf i ltac:(lia)) as (e' & He' & Ha). congruence.
Qed.

(** ** Loops over a range of entries *)

Lemma upd_entries_fuse f g k : upd_entries f (upd_entries g k) = upd_entries (fun l => f (g l)) k.
Proof. done. Qed.

Lemma upd_entries_const l k : l = coremap (k_cm k) -> upd_entries (fun _ => l) k = k.
Proof. intros ->. unfold upd_entries. kernel_eq k. Qed.

Lemma upd_entries_insert_id i e k :
  coremap (k_cm k) !! i = Some e -> upd_entries (<[i := e]>) k = k.
Proof.
  intros H. rewrite <- (upd_entries_const (<[i := e]> (coremap (k_cm k))) k) at 2; [done|].
  by apply list_insert_id.
Qed.

Lemma wp_entries_loop (g : nat -> c_entry -> c_entry) (body : nat -> M kernel unit) f n k
    (Q : unit -> kernel -> Prop) :
  (f + n <= length (coremap (k_cm k)))%nat ->
  (forall i e k' (Q' : unit -> kernel -> Prop), firstpaddr (k_cm k') = firstpaddr (k_cm k) ->
     coremap (k_cm k') !! i = Some e -> Q' tt (upd_entries (<[i := g i e]>) k') ->
     wp (body i) Q' k') ->
  (forall l, (forall j, l !! j = if decide (f <= j < f + n)%nat then g j <$> coremap (k_cm k) !! j
                                 else coremap (k_cm k) !! j) ->
     Q tt (upd_entries (fun _ => l) k)) ->
  wp (for_each (seq f n) body) Q k.
Proof.
  revert f k. induction n as [|n IH]; intros f k Hlen Hb HQ; cbn [seq for_each].
  - apply wp_ret. rewrite <- (upd_entries_const (coremap (k_cm k)) k) by done. apply HQ.
    intros j. by rewrite decide_False by lia.
  - step. destruct (lookup_lt_is_Some_2 (coremap (k_cm k)) f ltac:(lia)) as [e He].
    eapply Hb; [done..|]. apply IH.
    + unfold upd_entries. kred. rewrite length_insert. lia.
    + intros i e' k' Q' Hf. apply Hb. done.
    + intros l Hl. rewrite upd_entries_fuse. apply HQ. intros j. rewrite Hl.
      unfold upd_entries. kred.
      destruct (decide (j = f)) as [->|Hne].
      * rewrite decide_False, decide_True by lia. rewrite list_lookup_insert_eq, He; [done|].
        by eapply lookup_lt_Some.
      * rewrite list_lookup_insert_ne by done. repeat case_decide; try done; lia.
Qed.

Lemma wp_set_coreentry i va res as_ e k (Q : unit -> kernel -> Prop) :
  coremap (k_cm k) !! i = Some e -> Q tt (upd_entries (<[i := core_entry va res as_ e]>) k) ->
  wp (set_coreentry i va res as_) Q k.
Proof. apply wp_cm_upd. Qed.

(** The entries of the run after [getMultiplePages]. *)
Definition run_entry c (first : nat) (n : Z) res as_ (j : nat) (e : c_entry) : c_entry :=
  core_entry (PADDR_TO_KVADDR (frame_paddr c j)) res as_
    (if decide (j = first) then with_allocpages n e else e).

Lemma cm_wf_lock c b : cm_wf c -> cm_wf (with_coremap_lock b c).
Proof. intros []; by split. Qed.

Lemma find_run_all n k : cm_wf (k_cm k) -> (0 < n)%nat ->
  wp (let* idx := cm_indices in find_run (Z.of_nat n) idx 0) (fun r k' => k' = k /\
    match r with
    | Some f => free_run (k_cm k) f n /\ forall f', free_run (k_cm k) f' n -> (f <= f')%nat
    | None => forall f, ~ free_run (k_cm k) f n
    end) k.
Proof.
  intros Hwf Hn. unfold cm_indices. steps.
  replace (Z.to_nat (coremapSize (k_cm k))) with (length (coremap (k_cm k)) - 0)%nat
    by (pose proof (cm_length _ Hwf); lia).
  apply find_run_spec; [done | done | lia | |].
  - intros Hlt. lia.
  - intros f Hf. lia.
Qed.

Lemma getMultiplePages_spec n res as_ k :
  cm_ready k -> (0 < n)%nat -> (exists f, free_run (k_cm k) f n) ->
  wp (getMultiplePages (Z.of_nat n) res as_) (fun r k' => exists f l,
    free_run (k_cm k) f n /\ (forall f', free_run (k_cm k) f' n -> (f <= f')%nat) /\
    r = frame_paddr (k_cm k) f /\ k' = upd_entries (fun _ => l) k /\
    forall j, l !! j = if decide (f <= j < f + n)%nat
                       then run_entry (k_cm k) f (Z.of_nat n) res as_ j <$> coremap (k_cm k) !! j
                       else coremap (k_cm k) !! j) k.
Proof.
  intros (Hwf & Hact & Hlk) Hn [f0 Hf0]. unfold getMultiplePages. step.
  apply wp_acquire_coremap_lock; [done|]. steps. kred. rewrite Hact. cbn [negb].
  set (k1 := set_cm _ _).
  assert (Hwf1 : cm_wf (k_cm k1)) by by apply cm_wf_lock.
  pose proof (find_run_all n k1 Hwf1 Hn) as Hfr. apply wp_Done in Hfr as (r & k2 & Hrun & -> & Hr).
  unfold bind at 1 in Hrun. unfold cm_indices, gets in Hrun. cbv beta iota in Hrun.
  step. eapply wp_eq; [reflexivity|]. cbv beta. step. eapply wp_eq; [exact Hrun|].
  destruct r as [f|]; [|by destruct (Hr f0)]. destruct Hr as [Hfree Hmin].
  destruct (Hfree f ltac:(lia)) as (e & He & Hav).
  step. eapply wp_cm_upd; [exact He|]. step.
  assert (Hlen : (f + n <= length (coremap (k_cm k)))%nat).
  { destruct (Hfree (f + n - 1)%nat ltac:(lia)) as (e' & He' & _).
    apply lookup_lt_Some in He'. cbn in He'. lia. }
  rewrite Nat2Z.id.
  apply (wp_entries_loop (fun j e => core_entry (PADDR_TO_KVADDR (frame_paddr (k_cm k) j)) res as_ e)).
  - unfold upd_entries, k1. kred. by rewrite length_insert.
  - intros i e' k' Q' Hfp He' HQ'. steps. eapply wp_set_coreentry; [done|].
    unfold frame_paddr in *. rewrite Hfp. exact HQ'.
  - intros l Hl. steps. unfold gets. exists f, l. split; [done|]. split; [done|].
    split; [done|]. split; [unfold upd_entries, k1; kernel_eq k|].
    intros j. rewrite Hl. unfold upd_entries, k1, run_entry. kred.
    case_decide as Hj; [|destruct (decide (j = f)); [lia | by rewrite list_lookup_insert_ne]].
    destruct (decide (j = f)) as [->|Hne].
    + cbn in He. rewrite list_lookup_insert_eq, He by (by eapply lookup_lt_Some). done.
    + by rewrite list_lookup_insert_ne.
Qed.

(** Without such a run the kernel panics. *)
Lemma getMultiplePages_none n res as_ k :
  cm_ready k -> (0 < n)%nat -> (forall f, ~ free_run (k_cm k) f n) ->
  exists k', getMultiplePages (Z.of_nat n) res as_ k
    = Stop (Panic "Multiple page swapping is not required for on demand page loading") k'.
Proof.
  intros (Hwf & Hact & Hlk) Hn Hno. unfold getMultiplePages.
  unfold bind at 1, acquire_coremap_lock, spinlock_acquire. rewrite Hlk.
  set (k1 := set_cm _ _). unfold bind at 1, gets at 1.
  replace (coremapActive (k_cm k1)) with true by done. cbn [negb].
  assert (Hwf1 : cm_wf (k_cm k1)) by by apply cm_wf_lock.
  pose proof (find_run_all n k1 Hwf1 Hn) as Hfr. apply wp_Done in Hfr as (r & k2 & Hrun & -> & Hr).
  unfold bind at 1 in Hrun. unfold bind at 1. unfold cm_indices, gets in *.
  rewrite (bind_Done _ _ _ _ _ Hrun).
  destruct r as [f|]; [by destruct (Hno f); destruct Hr | by eexists].
Qed.

(** ** Giving frames back *)

Lemma freepages_spec i e k :
  cm_wf (k_cm k) -> coremap_lock (k_cm k) = false ->
  coremap (k_cm k) !! i = Some e -> 0 <= ce_allocpages e ->
  (i + Z.to_nat (ce_allocpages e) <= length (coremap (k_cm k)))%nat ->
  wp (freepages (frame_paddr (k_cm k) i)) (fun _ k' => exists l,
    k' = upd_entries (fun _ => l) k /\
    forall j, l !! j =
      if decide (i <= j < i + Z.to_nat (ce_allocpages e))%nat
      then (fun x => empty_entry (if decide (j = i) then with_allocpages 0 x else x))
             <$> coremap (k_cm k) !! j
      else (fun x => if decide (j = i) then with_allocpages 0 x else x) <$> coremap (k_cm k) !! j) k.
Proof.
  intros Hwf Hlk Hi Hn Hlen. pose proof page_size_pos.
  assert (Hlt : (i < length (coremap (k_cm k)))%nat) by (by eapply lookup_lt_Some).
  pose proof (frame_paddr_range _ _ Hwf Hlt). unfold freepages. steps.
  rewrite (proj2 (Z.ltb_ge _ _)) by lia.
  replace (Z.to_nat (u32 (frame_paddr (k_cm k) i - firstpaddr (k_cm k)) / PAGE_SIZE)) with i; cycle 1.
  { rewrite frame_paddr_eq in * by done. pose proof (cm_base _ Hwf).
    rewrite u32_small by lia. replace (_ - _) with (Z.of_nat i * PAGE_SIZE) by lia.
    rewrite Z.div_mul by lia. lia. }
  step. apply wp_acquire_coremap_lock; [done|]. step. eapply wp_cm_get; [exact Hi|]. step.
  eapply wp_cm_upd; [exact Hi|]. step.
  apply (wp_entries_loop (fun _ => empty_entry)).
  - unfold upd_entries. kred. by rewrite length_insert.
  - intros j e' k' Q' _ He' HQ'. unfold set_empty. by eapply wp_cm_upd.
  - intros l Hl. apply wp_modify. exists l. split; [unfold upd_entries; kernel_eq k|].
    intros j. rewrite Hl. unfold upd_entries. kred. destruct (decide (j = i)) as [->|Hne].
    + rewrite list_lookup_insert_eq, Hi by done. case_decide; done.
    + rewrite list_lookup_insert_ne by done. case_decide; [done|]. by rewrite list_fmap_id || by destruct (_ !! j).
Qed.

(** Dropping the frames of an address space: those it owns and no others. *)
Lemma freeAs_spec a k :
  cm_wf (k_cm k) -> coremap_lock (k_cm k) = false ->
  wp (freeAs a) (fun _ k' =>
    k' = upd_entries (fmap (fun e => if decide (ce_as e = Some a) then empty_entry e else e)) k) k.
Proof.
  intros Hwf Hlk. unfold freeAs, cm_indices. step. apply wp_acquire_coremap_lock; [done|]. steps. kred.
  apply (wp_entries_loop (fun _ e => if decide (ce_as e = Some a) then empty_entry e else e)).
  - kred. pose proof (cm_length _ Hwf). lia.
  - intros i e k' Q' _ He HQ'. step. eapply wp_cm_get; [done|]. case_decide.
    + unfold set_empty. by eapply wp_cm_upd.
    + apply wp_ret. by rewrite upd_entries_insert_id in HQ'.
  - intros l Hl. apply wp_modify.
    assert (l = (fun e => if decide (ce_as e = Some a) then empty_entry e else e)
                  <$> coremap (k_cm k)) as ->.
    { apply list_eq. intros j. rewrite Hl, list_lookup_fmap. kred. case_decide as Hj; [done|].
      rewrite lookup_ge_None_2; [done|]. pose proof (cm_length _ Hwf). lia. }
    unfold upd_entries. kernel_eq k.
Qed.

(** ** Page tables *)

Lemma getAvailableRam_spec k (Q : Z -> kernel -> Prop) :
  coremap_lock (k_cm k) = false ->
  Q (u32 (coremapSize (k_cm k) - ram_used (k_cm k))) k -> wp getAvailableRam Q k.
Proof.
  intros Hlk HQ. unfold getAvailableRam. step. apply wp_acquire_coremap_lock; [done|]. steps.
  apply wp_modify. apply wp_ret. kred.
  match goal with |- Q _ ?k' => replace k' with k by (symmetry; kernel_eq k) end. exact HQ.
Qed.

(** ** Initialisation *)

Lemma allign_next_addr p : 0 <= p -> p + PAGE_SIZE <= 2 ^ 32 ->
  ALLIGN_NEXT_ADDR p mod PAGE_SIZE = 0 /\ p <= ALLIGN_NEXT_ADDR p < p + PAGE_SIZE.
Proof.
  intros Hp Ht. pose proof page_size_pos as Hps. assert (Hps' : PAGE_SIZE <> 0) by lia.
  unfold ALLIGN_NEXT_ADDR.
  pose proof (Z.div_mod p PAGE_SIZE Hps'). pose proof (Z.mod_pos_bound p PAGE_SIZE Hps).
  destruct (Z.eqb_spec (p mod PAGE_SIZE) 0); [split; [done|]; lia|].
  assert (E : (p / PAGE_SIZE + 1) * PAGE_SIZE = PAGE_SIZE * (p / PAGE_SIZE) + PAGE_SIZE) by ring.
  pose proof (Z.div_pos p PAGE_SIZE Hp Hps).
  rewrite u32_small by (rewrite E; nia). split; [apply Z_mod_mult | lia].
Qed.

Lemma coremap_init_spec k :
  let firstp := (ram_getfirstfree (k_ram k)).1 in let lastp := ram_getsize (k_ram k) in
  coremap_lock (k_cm k) = false -> next_svic (k_cm k) = 0 ->
  0 < firstp -> firstp + PAGE_SIZE <= lastp -> lastp < 2 ^ 32 ->
  (lastp / PAGE_SIZE) * sizeof_c_entry < 2 ^ 32 ->
  wp coremap_init (fun _ k' =>
    cm_ready k' /\ (forall e, e ∈ coremap (k_cm k') -> e = mk_c_entry 0 None 0) /\
    (* the array lies between the first free address and the first frame, and fits *)
    ALLIGN_NEXT_ADDR firstp + coremapSize (k_cm k') * sizeof_c_entry <= firstpaddr (k_cm k') /\
    (* the frames lie in memory *)
    firstpaddr (k_cm k') + coremapSize (k_cm k') * PAGE_SIZE <= lastp /\
    (* nothing else changes *)
    coremap_lock (k_cm k') = false /\ coremapActive (k_cm k') = true /\
    k' = set_ram (ram_getfirstfree (k_ram k)).2 (set_cm (fun _ => k_cm k') k)) k.
Proof.
  intros firstp lastp Hlk Hsv Hf Hlt Htop Hover. pose proof page_size_range. pose proof page_size_pos as Hps.
  assert (Hps' : PAGE_SIZE <> 0) by lia.
  destruct sizeof_c_entry_range as [Hs0 Hs1].
  destruct (allign_next_addr firstp ltac:(lia) ltac:(lia)) as [Hal Har].
  set (af := ALLIGN_NEXT_ADDR firstp) in *.
  set (n0 := (lastp - af) / PAGE_SIZE).
  assert (Hn0 : 0 <= n0 /\ n0 * PAGE_SIZE <= lastp - af).
  { unfold n0. split; [apply Z.div_pos; lia|]. pose proof (Z.mul_div_le (lastp - af) PAGE_SIZE). lia. }
  assert (Hn1 : n0 <= lastp / PAGE_SIZE) by (apply Z.div_le_mono; lia).
  set (cs := (n0 * sizeof_c_entry + PAGE_SIZE - 1) / PAGE_SIZE).
  assert (Hc : n0 * sizeof_c_entry <= cs * PAGE_SIZE).
  { unfold cs. pose proof (Z.div_mod (n0 * sizeof_c_entry + PAGE_SIZE - 1) PAGE_SIZE Hps').
    pose proof (Z.mod_pos_bound (n0 * sizeof_c_entry + PAGE_SIZE - 1) PAGE_SIZE Hps). lia. }
  assert (Hc' : 0 <= cs <= n0).
  { split; [apply Z.div_pos; nia|]. unfold cs.
    apply Z.lt_succ_r, Z.div_lt_upper_bound; [lia|]. nia. }
  unfold coremap_init. steps. kred. fold firstp lastp af.
  rewrite (u32_small (lastp - af)) by lia. fold n0.
  rewrite (u32_small (n0 * sizeof_c_entry)) by nia.
  rewrite divroundup by nia. fold cs.
  rewrite (u32_small (n0 - cs)) by nia. rewrite (u32_small (af + cs * PAGE_SIZE)) by nia.
  apply wp_acquire_coremap_lock; [done|]. steps. apply wp_modify. unfold cm_ready. kred.
  split; [|split; [|split; [|split; [|split; [done|split; [done|]]]]]].
  - split; [|done]. split; cbn; try lia.
    + rewrite length_replicate. lia.
    + rewrite Z_mod_plus_full. done.
  - intros e He. by apply elem_of_replicate_inv in He.
  - nia.
  - nia.
  - kernel_eq k.
Qed.
End Theorems.
