(* ===== verification/Frames.v ===== *)
(** Who owns which frame and which swap slot.

    [frames_ok] ties the coremap, the page tables of all address spaces and
    the swap store together: a resident page sits in a frame the coremap
    marks as owned by its address space, a swapped page has a slot of the
    store, no two pages share a frame or a slot, every frame owned by an
    address space backs one of its pages, and every slot in use holds a page.  [ex] names a frame that has just
    been granted and is not mapped yet.  The file proves how the invariant
    moves along the four elementary steps of demand paging: taking a free
    frame, evicting a clean page, evicting a dirty page and mapping a page. *)

From Stdlib Require Import ZArith Lia.
From stdpp Require Import base list gmap strings.
From S2P Require Import Prelude Platform State Synch VmStats Tlb LoadSegment Swap Coremap.
Local Open Scope Z_scope.

(** The page tables of the system and one entry of them. *)
Abbreviation tables := (gmap asid (list pt_entry)) (only parsing).

Definition pte_at (tb : tables) (a : asid) (j : nat) : option pt_entry := tb !! a ≫= lookup j.

Definition upd_pte (a : asid) (j : nat) (e : pt_entry) (tb : tables) : tables :=
  alter (<[j := e]>) a tb.

Lemma pte_at_upd tb a j e a' j' : is_Some (pte_at tb a j) ->
  pte_at (upd_pte a j e tb) a' j' = if decide (a' = a /\ j' = j) then Some e else pte_at tb a' j'.
Proof.
  unfold pte_at, upd_pte. intros [e0 H]. destruct (tb !! a) as [l|] eqn:Ha; [|done]. cbn in H.
  destruct (decide (a' = a)) as [->|Hne].
  - rewrite lookup_alter_eq, Ha. cbn. destruct (decide (j' = j)) as [->|Hj].
    + rewrite decide_True by done. apply list_lookup_insert_eq. by eapply lookup_lt_Some.
    + rewrite decide_False by tauto. by apply list_lookup_insert_ne.
  - rewrite lookup_alter_ne by done. by rewrite decide_False by tauto.
Qed.

Lemma pte_at_upd_eq tb a j e : is_Some (pte_at tb a j) -> pte_at (upd_pte a j e tb) a j = Some e.
Proof. intros H. rewrite pte_at_upd by done. by rewrite decide_True. Qed.

Section Frames.
Context {P : Platform}.

(** Frame [i] belongs to a page of [a]. *)
Definition owned_by (c : coremap_st) (a : asid) (i : nat) : Prop :=
  exists x, coremap c !! i = Some x /\ ce_as x = Some a.

Definition pte_ok (c : coremap_st) (st : gmap Z page) (ex : option nat) (a : asid) (e : pt_entry)
    : Prop :=
  (0 <= pte_vaddr e < MIPS_KSEG0 /\ pte_vaddr e mod PAGE_SIZE = 0) /\
  if pte_in_mem e then
    pte_in_swap e = false /\
    exists i, owned_by c a i /\ pte_paddr e = frame_paddr c i /\ ex <> Some i
  else if pte_in_swap e then is_Some (st !! pte_paddr e)
  else pte_paddr e = 0.

Record frames_ok (c : coremap_st) (tb : tables) (st : gmap Z page) (nslots : Z) (ex : option nat)
    : Prop := {
  fo_cm : cm_wf c;
  fo_pte : forall a j e, pte_at tb a j = Some e -> pte_ok c st ex a e;
  fo_inj : forall a j e a' j' e', pte_at tb a j = Some e -> pte_at tb a' j' = Some e' ->
    pte_in_mem e = true -> pte_in_mem e' = true -> pte_paddr e = pte_paddr e' -> a = a' /\ j = j';
  fo_slots : forall a j e a' j' e', pte_at tb a j = Some e -> pte_at tb a' j' = Some e' ->
    pte_in_swap e = true -> pte_in_swap e' = true -> pte_paddr e = pte_paddr e' -> a = a' /\ j = j';
  fo_owned : forall a i, owned_by c a i -> ex <> Some i ->
    exists j e, pte_at tb a j = Some e /\ pte_in_mem e = true /\ pte_paddr e = frame_paddr c i;
  fo_flags : forall a i x, coremap c !! i = Some x -> ce_as x = Some a ->
    Z.land (ce_vaddr x) 1 = 0 /\ avail x = false;
  fo_low : nslots <= firstpaddr c;
  fo_store : forall s, is_Some (st !! s) -> 0 <= s < nslots;
  fo_exact : forall s, is_Some (st !! s) -> exists a j e, pte_at tb a j = Some e /\
    pte_in_swap e = true /\ pte_paddr e = s;
}.

(** The entry of an evicted page: in swap at [slot], or forgotten. *)
Definition evicted (slot : option Z) (e : pt_entry) : pt_entry :=
  match slot with
  | Some s => mk_pt_entry s (pte_vaddr e) false true (pte_rwx e)
  | None => mk_pt_entry 0 (pte_vaddr e) false (pte_in_swap e) (pte_rwx e)
  end.

(** The entry of a page that has been brought into the frame at [p]. *)
Definition resident (p : Z) (e : pt_entry) : pt_entry :=
  mk_pt_entry p (pte_vaddr e) true false (pte_rwx e).
End Frames.

Section Theorems.
Context {P : Platform} {L : PlatformLaws P}.
Implicit Types (c : coremap_st) (tb : tables) (st : gmap Z page).

Lemma owned_lt c a i : owned_by c a i -> (i < length (coremap c))%nat.
Proof. intros (x & Hx & _). by eapply lookup_lt_Some. Qed.

Lemma evictable_owned c tb st n ex a i : frames_ok c tb st n ex ->
  evictable c a i <-> owned_by c a i.
Proof.
  intros H. split.
  - intros (x & Hx & _ & Ha). by exists x.
  - intros (x & Hx & Ha). exists x. split; [done|]. split; [|done].
    by eapply (fo_flags _ _ _ _ _ H).
Qed.

(** A resident page is never in swap, and its address is that of a frame. *)
Lemma resident_frame c tb st n ex a j e : frames_ok c tb st n ex -> pte_at tb a j = Some e ->
  pte_in_mem e = true -> exists i, owned_by c a i /\ pte_paddr e = frame_paddr c i /\ ex <> Some i.
Proof.
  intros H Hp Hm. destruct (fo_pte _ _ _ _ _ H _ _ _ Hp) as [_ Hok]. rewrite Hm in Hok. tauto.
Qed.

Lemma resident_not_swapped c tb st n ex a j e : frames_ok c tb st n ex -> pte_at tb a j = Some e ->
  pte_in_mem e = true -> pte_in_swap e = false.
Proof.
  intros H Hp Hm. destruct (fo_pte _ _ _ _ _ H _ _ _ Hp) as [_ Hok]. rewrite Hm in Hok. tauto.
Qed.

(** An entry that carries a frame address is resident: swap slots are too
    small to be one, and 0 is below the first frame. *)
Lemma frame_addr_resident c tb st n ex a j e i : frames_ok c tb st n ex -> pte_at tb a j = Some e ->
  (i < length (coremap c))%nat -> pte_paddr e = frame_paddr c i -> pte_in_mem e = true.
Proof.
  intros H Hp Hi Ha. destruct (pte_in_mem e) eqn:Hm; [done|].
  destruct (fo_pte _ _ _ _ _ H _ _ _ Hp) as [_ Hok]. rewrite Hm in Hok.
  pose proof (frame_paddr_range _ _ (fo_cm _ _ _ _ _ H) Hi).
  pose proof (cm_base _ (fo_cm _ _ _ _ _ H)). pose proof (fo_low _ _ _ _ _ H).
  destruct (pte_in_swap e).
  - apply (fo_store _ _ _ _ _ H) in Hok. lia.
  - lia.
Qed.

(** Nothing of the invariant depends on the locks, the victim counter or the
    extent of use of the coremap. *)
Lemma frames_ok_coremap c c' tb st n ex :
  coremap c' = coremap c -> firstpaddr c' = firstpaddr c -> cm_wf c' ->
  frames_ok c tb st n ex -> frames_ok c' tb st n ex.
Proof.
  intros E1 E2 Hwf H. assert (Ef : forall i, frame_paddr c' i = frame_paddr c i)
    by (intros i; unfold frame_paddr; by rewrite E2).
  assert (Eo : forall a i, owned_by c' a i <-> owned_by c a i)
    by (intros; unfold owned_by; by rewrite E1).
  destruct H as [H1 H2 H3 H4 H5 H6 H7 H8 H9]. split; auto.
  - intros a j e Hp. destruct (H2 _ _ _ Hp) as [Hu Hok]. split; [done|].
    destruct (pte_in_mem e); [|done]. destruct Hok as [? (i & ? & ? & ?)]. split; [done|].
    exists i. rewrite Ef, Eo. auto.
  - intros a i Hi Hex. rewrite Ef. apply H5; [|done]. by apply Eo.
  - rewrite E1. auto.
  - by rewrite E2.
Qed.

(** Step 1: a free frame is granted to [a]. *)
Lemma frames_ok_take c tb st n a i x va l :
  frames_ok c tb st n None -> coremap c !! i = Some x -> avail x = true -> Z.land va 1 = 0 ->
  l = <[i := with_allocpages 1 (core_entry va false (Some a) x)]> (coremap c) ->
  frames_ok (with_coremap l c) tb st n (Some i) /\ owned_by (with_coremap l c) a i.
Proof.
  intros H Hx Hav Hva ->. pose proof (lookup_lt_Some _ _ _ Hx) as Hlt.
  set (c' := with_coremap _ c).
  assert (Hfree : forall a', ~ owned_by c a' i).
  { intros a' (x' & Hx' & Ha'). destruct (fo_flags _ _ _ _ _ H _ _ _ Hx' Ha'). congruence. }
  assert (Hown : forall a' i', owned_by c a' i' -> owned_by c' a' i' /\ i' <> i).
  { intros a' i' Ho. assert (i' <> i) by (intros ->; by apply (Hfree a')). split; [|done].
    destruct Ho as (x' & Hx' & Ha'). exists x'. split; [|done]. cbn. by rewrite list_lookup_insert_ne. }
  split; [|exists (with_allocpages 1 (core_entry va false (Some a) x)); split; [|done];
           by apply list_lookup_insert_eq].
  destruct H as [H1 H2 H3 H4 H5 H6 H7 H8 H9]. split; auto.
  - destruct H1. split; auto. cbn. by rewrite length_insert.
  - intros a' j e Hp. destruct (H2 _ _ _ Hp) as [Hu Hok]. split; [done|].
    destruct (pte_in_mem e); [|done]. destruct Hok as [? (i' & Ho & ? & _)]. split; [done|].
    exists i'. destruct (Hown _ _ Ho) as [Ho' Hne]. split; [done|]. split; [done|]. congruence.
  - intros a' i' (x' & Hx' & Ha') Hex. apply H5; [|done]. exists x'. split; [|done].
    cbn in Hx'. rewrite list_lookup_insert_ne in Hx'; [done|]. congruence.
  - intros a' i' x' Hx' Ha'. cbn in Hx'. destruct (decide (i' = i)) as [->|Hne].
    + rewrite list_lookup_insert_eq in Hx' by done. injection Hx' as <-. split.
      * by apply core_entry_unreserved.
      * apply (avail_core_entry va false (Some a) x).
    + rewrite list_lookup_insert_ne in Hx' by done. eauto.
Qed.

(** Step 2: the page in frame [i] is evicted, to a fresh slot or to nowhere. *)
(** No page is in a slot that is not in use. *)
Lemma slot_unused c tb st n ex a j e s : frames_ok c tb st n ex -> pte_at tb a j = Some e -> pte_in_swap e = true ->
  st !! s = None -> pte_paddr e <> s.
Proof.
  intros H Hp Hs Hn Es. destruct (fo_pte _ _ _ _ _ H _ _ _ Hp) as [_ Hok]. unfold pte_ok in Hok.
  destruct (pte_in_mem e); [destruct Hok; congruence|]. rewrite Hs, Es, Hn in Hok. by destruct Hok.
Qed.

Lemma frames_ok_evict c tb st n a j e i slot pg :
  frames_ok c tb st n None -> pte_at tb a j = Some e -> owned_by c a i ->
  pte_paddr e = frame_paddr c i ->
  match slot with Some s => st !! s = None /\ 0 <= s < n | None => True end ->
  frames_ok c (upd_pte a j (evicted slot e) tb)
    (match slot with Some s => <[s := pg]> st | None => st end) n (Some i).
Proof.
  intros H Hp Ho Hi Hslot. pose proof (owned_lt _ _ _ Ho) as Hlt.
  pose proof (frame_addr_resident _ _ _ _ _ _ _ _ _ H Hp Hlt Hi) as Hm.
  pose proof (resident_not_swapped _ _ _ _ _ _ _ _ H Hp Hm) as Hs.
  assert (Hsome : is_Some (pte_at tb a j)) by by eexists.
  set (st' := match slot with Some s => <[s := pg]> st | None => st end).
  assert (Hst : forall s, is_Some (st !! s) -> is_Some (st' !! s)).
  { intros s [p Hsp]. unfold st'. destruct slot as [s0|]; [|by eexists].
    rewrite lookup_insert. case_decide; by eexists. }
  assert (Hevm : pte_in_mem (evicted slot e) = false) by by destruct slot.
  assert (Hold : forall a' j' e', pte_at (upd_pte a j (evicted slot e) tb) a' j' = Some e' ->
    (a' = a /\ j' = j /\ e' = evicted slot e) \/
    (~ (a' = a /\ j' = j) /\ pte_at tb a' j' = Some e')).
  { intros a' j' e'. rewrite pte_at_upd by done. case_decide as E; [|by right].
    intros [= <-]. left. tauto. }
  assert (Hfree : forall s a' j' e', slot = Some s -> pte_at tb a' j' = Some e' -> pte_in_swap e' = true -> pte_paddr e' <> s).
  { intros s a' j' e' -> Hp' Hs'. by eapply slot_unused, Hslot. }
  destruct H as [H1 H2 H3 H4 H5 H6 H7 H8 H9]. split; auto.
  - intros a' j' e' [(-> & -> & ->)|[Hne Hp']]%Hold.
    + destruct (H2 _ _ _ Hp) as [Hu _]. unfold pte_ok. rewrite Hevm.
      destruct slot as [s|]; cbn; (split; [done|]).
      * unfold st'. rewrite lookup_insert_eq. by eexists.
      * by rewrite Hs.
    + destruct (H2 _ _ _ Hp') as [Hu Hok]. split; [done|]. destruct (pte_in_mem e') eqn:Hm'.
      * destruct Hok as [Hs' (i' & Ho' & Hi' & _)]. split; [done|]. exists i'. split; [done|].
        split; [done|]. intros [= ->]. apply Hne. eapply H3; eauto. congruence.
      * destruct (pte_in_swap e'); auto.
  - intros a1 j1 e1 a2 j2 e2 [(-> & -> & ->)|[_ P1]]%Hold [(-> & -> & ->)|[_ P2]]%Hold; eauto; congruence.
  - intros a1 j1 e1 a2 j2 e2 [(-> & -> & ->)|[_ P1]]%Hold [(-> & -> & ->)|[_ P2]]%Hold; eauto.
    + destruct slot as [s|]; cbn; [|congruence]. intros _ Hs2 Hps. by destruct (Hfree s a2 j2 e2 eq_refl P2 Hs2).
    + destruct slot as [s|]; cbn; [|congruence]. intros Hs1 _ Hps. by destruct (Hfree s a1 j1 e1 eq_refl P1 Hs1).
  - intros a' i' Ho' Hex. destruct (H5 a' i' Ho' ltac:(done)) as (j' & e' & Hp' & Hm' & Hi').
    exists j', e'. split; [|done]. rewrite pte_at_upd by done. rewrite decide_False; [done|].
    intros [-> ->]. rewrite Hp in Hp'. injection Hp' as <-. apply Hex. f_equal.
    eapply frame_paddr_inj; eauto using owned_lt. congruence.
  - intros s Hss. unfold st' in Hss. destruct slot as [s0|]; [|auto].
    rewrite lookup_insert in Hss. case_decide; [subst; tauto | auto].
  - intros s Hss. assert (Hs0 : (exists s0, slot = Some s0 /\ s = s0) \/ is_Some (st !! s)).
    { unfold st' in Hss. destruct slot as [s0|]; [|by right]. rewrite lookup_insert in Hss.
      case_decide; [left; eauto | by right]. }
    destruct Hs0 as [(s0 & -> & ->)|Hs0].
    + exists a, j, (evicted (Some s0) e). split; [by apply pte_at_upd_eq | done].
    + destruct (H9 _ Hs0) as (a' & j' & e' & Hp' & Hs' & Ha'). exists a', j', e'. split; [|done].
      rewrite pte_at_upd by done. rewrite decide_False; [done|]. intros [-> ->]. congruence.
Qed.

(** Step 3: the granted frame is given to a page that is not resident; its
    swap slot, if it had one, is free again. *)
Lemma frames_ok_map c tb st n a j e i :
  frames_ok c tb st n (Some i) -> pte_at tb a j = Some e -> pte_in_mem e = false -> owned_by c a i ->
  frames_ok c (upd_pte a j (resident (frame_paddr c i) e) tb)
    (if pte_in_swap e then delete (pte_paddr e) st else st) n None.
Proof.
  intros H Hp Hm Ho. pose proof (owned_lt _ _ _ Ho) as Hlt.
  assert (Hsome : is_Some (pte_at tb a j)) by by eexists.
  set (st' := if pte_in_swap e then delete (pte_paddr e) st else st).
  assert (Hst : forall s, is_Some (st' !! s) -> is_Some (st !! s)).
  { intros s. unfold st'. destruct (pte_in_swap e); [|done].
    rewrite lookup_delete. case_decide; [by intros [] | done]. }
  assert (Hold : forall a' j' e', pte_at (upd_pte a j (resident (frame_paddr c i) e) tb) a' j' = Some e' ->
    (a' = a /\ j' = j /\ e' = resident (frame_paddr c i) e) \/
    (~ (a' = a /\ j' = j) /\ pte_at tb a' j' = Some e')).
  { intros a' j' e'. rewrite pte_at_upd by done. case_decide as E; [|by right].
    intros [= <-]. left. tauto. }
  assert (Hnew : forall a' j' e', pte_at tb a' j' = Some e' -> pte_in_mem e' = true ->
    pte_paddr e' <> frame_paddr c i).
  { intros a' j' e' Hp' Hm' E. destruct (resident_frame _ _ _ _ _ _ _ _ H Hp' Hm') as (i' & Ho' & Hi' & Hex).
    apply Hex. f_equal. eapply frame_paddr_inj; eauto using owned_lt, fo_cm. congruence. }
  destruct H as [H1 H2 H3 H4 H5 H6 H7 H8 H9]. split; auto.
  - intros a' j' e' [(-> & -> & ->)|[Hne Hp']]%Hold.
    + destruct (H2 _ _ _ Hp) as [Hu _]. split; [done|]. cbn. split; [done|]. exists i. done.
    + destruct (H2 _ _ _ Hp') as [Hu Hok]. split; [done|]. destruct (pte_in_mem e') eqn:Hm'.
      * destruct Hok as [Hs' (i' & Ho' & Hi' & _)]. split; [done|]. by exists i'.
      * destruct (pte_in_swap e') eqn:Hs'; [|done]. unfold st'. destruct (pte_in_swap e) eqn:Hs; [|done].
        rewrite lookup_delete_ne; [done|]. intros E. apply Hne. eapply H4; eauto.
  - intros a1 j1 e1 a2 j2 e2 [(-> & -> & ->)|[_ P1]]%Hold [(-> & -> & ->)|[_ P2]]%Hold; eauto; cbn.
    + intros _ Hm2 E. by destruct (Hnew _ _ _ P2 Hm2).
    + intros Hm1 _ E. by destruct (Hnew _ _ _ P1 Hm1).
  - intros a1 j1 e1 a2 j2 e2 [(-> & -> & ->)|[_ P1]]%Hold [(-> & -> & ->)|[_ P2]]%Hold; eauto; done.
  - intros a' i' Ho' _. destruct (decide (i' = i)) as [->|Hne].
    + exists j, (resident (frame_paddr c i) e). split; [|done].
      destruct Ho as (x & Hx & Hxa), Ho' as (x' & Hx' & Hxa').
      rewrite Hx in Hx'. injection Hx' as <-. rewrite Hxa in Hxa'. injection Hxa' as <-.
      by apply pte_at_upd_eq.
    + destruct (H5 a' i' Ho' ltac:(congruence)) as (j' & e' & Hp' & Hm' & Hi').
      exists j', e'. split; [|done]. rewrite pte_at_upd by done. rewrite decide_False; [done|].
      intros [-> ->]. congruence.
  - intros s Hss. destruct (H9 _ (Hst _ Hss)) as (a' & j' & e' & Hp' & Hs' & Ha').
    exists a', j', e'. split; [|done]. rewrite pte_at_upd by done. rewrite decide_False; [done|].
    intros [-> ->]. rewrite Hp in Hp'. injection Hp' as <-. unfold st' in Hss.
    rewrite Hs', Ha', lookup_delete_eq in Hss. by destruct Hss.
Qed.
End Theorems.
