(* ===== verification/Paging.v ===== *)
(** Granting a frame: [getPage] against the invariant of the whole system.

    [vm_inv] collects what holds of the paging system between operations:
    the frame and slot discipline of [Frames.v], the swap refinement of
    [Swap.v], the TLB invariant of [Tlb.v], and that every translation in the
    TLB is that of a resident page of the current address space.  [granted]
    states what a caller of [getPages(1, vaddr, as)] gets: a frame nobody
    else uses, no page contents lost, all locks as they were.  The lemma
    [getPage_granted] discharges it for both ways [getPage] finds a frame. *)

From Stdlib Require Import ZArith Lia.
From stdpp Require Import base list gmap strings.
From S2P Require Import Prelude Platform State Synch VmStats Tlb LoadSegment Swap Coremap Frames.
Local Open Scope Z_scope.

Definition writable (e : pt_entry) : bool := negb (Z.land (pte_rwx e) 2 =? 0).

Section Paging.
Context {P : Platform}.

Definition tables_of (k : kernel) : tables := pt <$> k_as k.

(** The contents of a page: in its frame, in its slot, or nowhere yet. *)
Definition page_data (m : pmem) (st : gmap Z page) (e : pt_entry) : option page :=
  if pte_in_mem e then Some (mem_read m (pte_paddr e) (Z.to_nat PAGE_SIZE))
  else if pte_in_swap e then st !! pte_paddr e
  else None.

(** What other activity may do to a page: move it, or drop a read-only page
    that can be loaded again; never change what it holds. *)
Definition page_kept (m : pmem) (st : gmap Z page) (m' : pmem) (st' : gmap Z page)
    (e e' : pt_entry) : Prop :=
  pte_vaddr e' = pte_vaddr e /\ pte_rwx e' = pte_rwx e /\
  (pte_in_mem e = false -> e' = e) /\
  (page_data m' st' e' = page_data m st e \/
   writable e = false /\ pte_in_mem e = true /\ page_data m' st' e' = None).

Definition tlb_coherent (k : kernel) : Prop :=
  forall a, k_curproc k = Some (Some a) ->
  forall u p d, tlb_maps (tlb (k_tlb k)) u p d ->
  exists j e, pte_at (tables_of k) a j = Some e /\ pte_vaddr e = u /\ pte_in_mem e = true /\
    pte_paddr e = p /\ d = writable e.

(** Once there is a page table, [npages] is its length; before, the field is
    not initialised. *)
Definition table_ok (A : addrspace) : Prop := pt A <> [] -> npages A = Z.of_nat (length (pt A)).

Record vm_inv (k : kernel) (b : bitmap) (v : vnode) (st : gmap Z page) (ex : option nat) : Prop := {
  vi_frames : frames_ok (k_cm k) (tables_of k) st (bitmap_nbits b) ex;
  vi_swap : swap_refines (k_swap k) (k_disk k) b v st;
  vi_npages : forall a A, k_as k !! a = Some A -> table_ok A;
  vi_tlb : tlb_wf (tlb (k_tlb k));
  vi_rr : rr_wf (k_tlb k);
  vi_coherent : tlb_coherent k;
}.

(** No lock of the paging code is held and the thread may sleep. *)
Record quiet (k : kernel) : Prop := {
  q_coremap : coremap_lock (k_cm k) = false;
  q_active : coremapActive (k_cm k) = true;
  q_swap : swap_lock (k_swap k) = None;
  q_stats : stats_lock (k_stats k) = None;
  q_lockable : lockable k;
}.

(** A frame can be had for [a]: one is free, or one of its own pages can make
    room and the swap file has a slot left. *)
Definition frame_available (k : kernel) (b : bitmap) (st : gmap Z page) (a : asid) : Prop :=
  (exists i, frame_free (k_cm k) i) \/
  ((exists i, owned_by (k_cm k) a i) /\ Z.of_nat (size st) < bitmap_nbits b).

Record granted (k : kernel) (b : bitmap) (v : vnode) (st : gmap Z page) (a : asid)
    (k' : kernel) (b' : bitmap) (st' : gmap Z page) (i : nat) (swapped : bool) : Prop := {
  gr_inv : vm_inv k' b' v st' (Some i);
  gr_own : owned_by (k_cm k') a i;
  gr_quiet : quiet k';
  gr_mem : k_mem k' = k_mem k;
  gr_cpu : k_cpu k' = k_cpu k;
  gr_curproc : k_curproc k' = k_curproc k;
  gr_stats : k_stats k' = bumps (if swapped then [SWAP_WRITE] else []) (k_stats k);
  gr_nbits : bitmap_nbits b' = bitmap_nbits b;
  gr_disk : forall u off n, u <> v -> VOP_READ u off n (k_disk k') = VOP_READ u off n (k_disk k);
  gr_others : forall a', a' <> a -> k_as k' !! a' = k_as k !! a';
  gr_self : forall A, k_as k !! a = Some A -> exists l, k_as k' !! a = Some (with_pt l A);
  gr_pages : forall a' j e, pte_at (tables_of k) a' j = Some e ->
    exists e', pte_at (tables_of k') a' j = Some e' /\ page_kept (k_mem k) st (k_mem k') st' e e';
  gr_misses : forall u, u < MIPS_KSEG0 -> tlb_misses (tlb (k_tlb k)) u -> tlb_misses (tlb (k_tlb k')) u;
}.
End Paging.

Section Theorems.
Context {P : Platform} {L : PlatformLaws P}.
Implicit Types (k : kernel).

Lemma tables_of_lookup k a A : k_as k !! a = Some A -> tables_of k !! a = Some (pt A).
Proof. intros H. unfold tables_of. by rewrite lookup_fmap, H. Qed.

Lemma pte_at_tables k a j e : pte_at (tables_of k) a j = Some e <->
  exists A, k_as k !! a = Some A /\ pt A !! j = Some e.
Proof.
  unfold pte_at, tables_of. rewrite lookup_fmap. destruct (k_as k !! a) as [A|]; cbn.
  - split; [eauto | by intros (A' & [= <-] & ?)].
  - split; [done | by intros (A' & [=] & _)].
Qed.

(** Writing one entry of one table. *)
Lemma tables_insert (m : gmap asid addrspace) a A j e : m !! a = Some A ->
  pt <$> <[a := with_pt (<[j := e]> (pt A)) A]> m = upd_pte a j e (pt <$> m).
Proof.
  intros H. apply map_eq. intros a'. unfold upd_pte. rewrite lookup_fmap, lookup_insert.
  destruct (decide (a = a')) as [<-|Hne].
  - by rewrite lookup_alter_eq, lookup_fmap, H.
  - by rewrite lookup_alter_ne, lookup_fmap by done.
Qed.

Lemma tables_same (m : gmap asid addrspace) a A A' : m !! a = Some A -> pt A' = pt A ->
  pt <$> <[a := A']> m = pt <$> m.
Proof.
  intros H E. apply map_eq. intros a'. rewrite !lookup_fmap, lookup_insert.
  case_decide as Ha; [|done]. subst a'. rewrite H. cbn. by rewrite E.
Qed.

Lemma table_ok_insert A j e : table_ok A -> table_ok (with_pt (<[j := e]> (pt A)) A).
Proof.
  unfold table_ok. cbn. rewrite length_insert. intros H Hne. apply H. intros E. apply Hne.
  by rewrite E.
Qed.

(** The table of an address space that has a page. *)
Lemma table_ok_npages A j e : table_ok A -> pt A !! j = Some e -> npages A = Z.of_nat (length (pt A)).
Proof. intros H He. apply H. intros E. by rewrite E in He. Qed.

Lemma quiet_stats k f : quiet k -> stats_lock (f (k_stats k)) = None -> quiet (set_stats f k).
Proof. intros [] ?; by split. Qed.

Lemma stats_lock_bump x s : stats_lock (bump x s) = stats_lock s.
Proof. done. Qed.

(** A page that is in swap stays as it is when the store grows. *)
Lemma page_kept_refl m st st' e :
  (forall s p, st !! s = Some p -> st' !! s = Some p) ->
  (pte_in_mem e = false -> pte_in_swap e = true -> is_Some (st !! pte_paddr e)) ->
  page_kept m st m st' e e.
Proof.
  intros Hst Hin. split; [done|]. split; [done|]. split; [done|]. left. unfold page_data.
  destruct (pte_in_mem e); [done|]. destruct (pte_in_swap e); [|done].
  destruct (Hin eq_refl eq_refl) as [p Hp]. by rewrite Hp, (Hst _ _ Hp).
Qed.

(** The kernel after an eviction. *)
Definition after_eviction k (a : asid) (A : addrspace) (j : nat) (e : pt_entry) (slot : option Z)
    (w : swap_st) (d : disk) (t : tlb_hw) (nsvic : Z) : kernel :=
  set_tlb (with_tlb t)
    (set_ases (<[a := with_pt (<[j := evicted slot e]> (pt A)) A]>)
      (set_stats (bumps (match slot with Some _ => [SWAP_WRITE] | None => [] end))
        (upd_swap w d (set_cm (with_next_svic nsvic) k)))).

Lemma wp_tlb_invalidate_vaddr v k (Q : unit -> kernel -> Prop) :
  tlb_wf (tlb (k_tlb k)) -> 0 <= v < MIPS_KSEG0 -> v mod PAGE_SIZE = 0 ->
  (forall t', tlb_wf t' -> tlb_misses t' v ->
    (forall u, u < MIPS_KSEG0 -> tlb_misses (tlb (k_tlb k)) u -> tlb_misses t' u) ->
    (forall u p d, tlb_maps t' u p d -> tlb_maps (tlb (k_tlb k)) u p d) ->
    Q tt (set_tlb (with_tlb t') k)) ->
  wp (tlb_invalidate_vaddr v) Q k.
Proof.
  intros Hwf Hv Ha HQ. pose proof kseg0_range.
  eapply wp_mono; [apply tlb_invalidate_vaddr_spec; auto|].
  - apply land_page_frame_aligned; [lia | done].
  - lia.
  - intros [] k' (t' & -> & ? & ? & ? & ?). auto.
Qed.

Lemma with_next_svic_id c : with_next_svic (next_svic c) c = c.
Proof. by destruct c. Qed.

Lemma after_eviction_dirty k a A j e s w d t :
  set_tlb (with_tlb t)
    (set_ases (<[a := with_pt (<[j := evicted (Some s) e]> (pt A)) A]>)
      (set_stats (bump SWAP_WRITE) (upd_swap w d k)))
  = after_eviction k a A j e (Some s) w d t (next_svic (k_cm k)).
Proof.
  lazy [after_eviction upd_swap set_tlb set_ases set_stats set_swap set_disk set_cm
    k_cm k_swap k_tlb k_stats k_cpu k_as k_curproc k_mem k_disk k_heap k_ram k_stealmem_lock].
  by rewrite with_next_svic_id.
Qed.

Lemma after_eviction_clean k a A j e t :
  set_tlb (with_tlb t) (set_ases (<[a := with_pt (<[j := evicted None e]> (pt A)) A]>) k)
  = after_eviction k a A j e None (k_swap k) (k_disk k) t (next_svic (k_cm k)).
Proof.
  lazy [after_eviction upd_swap set_tlb set_ases set_stats set_swap set_disk set_cm
    k_cm k_swap k_tlb k_stats k_cpu k_as k_curproc k_mem k_disk k_heap k_ram k_stealmem_lock].
  by rewrite with_next_svic_id.
Qed.

(** Two writes to the same table in a row. *)
Lemma set_ases_twice a x y k : set_ases (<[a := y]>) (set_ases (<[a := x]>) k) = set_ases (<[a := y]>) k.
Proof. unfold set_ases. cbn [k_cm k_swap k_tlb k_stats k_cpu k_as k_curproc k_mem k_disk k_heap k_ram
  k_stealmem_lock]. by rewrite insert_insert_eq. Qed.

Lemma with_pt_twice l l' A : with_pt l (with_pt l' A) = with_pt l A.
Proof. done. Qed.

Lemma set_ases_stats f g k : set_stats f (set_ases g k) = set_ases g (set_stats f k).
Proof. done. Qed.

(** The page table writes of the loop body add up to one. *)
Ltac fold_writes :=
  rewrite ?set_ases_stats, ?set_ases_twice; cbn [pt with_pt];
  rewrite ?with_pt_twice, ?list_insert_insert_eq.

(** The body of the eviction loop at the page that is in the victim frame. *)
Lemma evict_page_hit a A i j e b v st k :
  k_as k !! a = Some A -> pt A !! j = Some e -> pte_paddr e = frame_paddr (k_cm k) i ->
  0 <= pte_vaddr e < MIPS_KSEG0 -> pte_vaddr e mod PAGE_SIZE = 0 ->
  swap_refines (k_swap k) (k_disk k) b v st -> swap_lock (k_swap k) = None ->
  stats_lock (k_stats k) = None -> lockable k -> tlb_wf (tlb (k_tlb k)) ->
  Z.of_nat (size st) < bitmap_nbits b -> swap_writes_ok v (bitmap_nbits b) ->
  pte_in_mem e = true -> pte_in_swap e = false ->
  wp (evict_page a i j) (fun hit k' => hit = true /\ exists slot b' w d t,
    k' = after_eviction k a A j e slot w d t (next_svic (k_cm k)) /\
    swap_lock w = None /\ bitmap_nbits b' = bitmap_nbits b /\
    (forall u off n, u <> v -> VOP_READ u off n d = VOP_READ u off n (k_disk k)) /\
    swap_refines w d b' v (match slot with
      | Some s => <[s := mem_read (k_mem k) (pte_paddr e) (Z.to_nat PAGE_SIZE)]> st
      | None => st end) /\
    match slot with
    | Some s => st !! s = None /\ 0 <= s < bitmap_nbits b /\ writable e = true
    | None => writable e = false
    end /\
    tlb_wf t /\ tlb_misses t (pte_vaddr e) /\
    (forall u, u < MIPS_KSEG0 -> tlb_misses (tlb (k_tlb k)) u -> tlb_misses t u) /\
    (forall u p d, tlb_maps t u p d -> tlb_maps (tlb (k_tlb k)) u p d)) k.
Proof.
  intros Ha He Hp Hv Hal Hr Hsl Hstl Hlk Htlb Hroom Hw Hm Hs. unfold evict_page.
  step. eapply wp_pt_get; [done..|]. steps. rewrite (proj2 (Z.eqb_eq _ _) Hp). step.
  assert (Hj : (j < length (pt A))%nat) by (by eapply lookup_lt_Some).
  fold (writable e). destruct (writable e) eqn:Hwr.
  - step. eapply wp_mono; [by eapply swap_out_spec|].
    intros r k1 (slot & b' & w' & d' & -> & Hfree & Hrange & -> & Hl' & Hn & Hd & Hr'). cbn [fst snd].
    step. eapply wp_pt_set; [done..|]. step. apply wp_kassert; [done|]. step.
    apply wp_vm_stats_inc; [done|]. step.
    eapply wp_pt_get; [kred; apply lookup_insert_eq | kred; by apply list_lookup_insert_eq |].
    eapply wp_pt_set; [kred; apply lookup_insert_eq | kred; by apply list_lookup_insert_eq |].
    step. eapply wp_pt_get; [kred; apply lookup_insert_eq | kred; apply list_lookup_insert_eq; by rewrite length_insert |].
    step. eapply wp_pt_set; [kred; apply lookup_insert_eq | kred; apply list_lookup_insert_eq; by rewrite length_insert |].
    step. apply wp_tlb_invalidate_vaddr; [done..|].
    intros t' Ht1 Ht2 Ht3 Ht4. apply wp_ret. split; [done|].
    exists (Some slot), b', w', d', t'. split.
    { fold_writes. rewrite <- after_eviction_dirty. reflexivity. }
    split_and!; auto; lia.
  - eapply wp_pt_set; [done..|]. step.
    eapply wp_pt_get; [kred; apply lookup_insert_eq | kred; by apply list_lookup_insert_eq |].
    step. eapply wp_pt_set; [kred; apply lookup_insert_eq | kred; by apply list_lookup_insert_eq |].
    step. apply wp_tlb_invalidate_vaddr; [done..|].
    intros t' Ht1 Ht2 Ht3 Ht4. apply wp_ret. split; [done|].
    exists None, b, (k_swap k), (k_disk k), t'. split.
    { fold_writes. rewrite <- after_eviction_clean. reflexivity. }
    split_and!; auto.
Qed.

Lemma tlb_maps_misses t u p d : tlb_maps t u p d -> tlb_misses t u -> False.
Proof. intros (i & Hi & _ & Hv & _) Hm. by apply (Hm i). Qed.

(** Growing the store keeps every page that is not moved. *)
Lemma page_kept_grow m c tb st n ex a j e (slot : option Z) pg :
  frames_ok c tb st n ex -> pte_at tb a j = Some e ->
  match slot with Some s => st !! s = None | None => True end ->
  page_kept m st m (match slot with Some s => <[s := pg]> st | None => st end) e e.
Proof.
  intros H Hp Hs. apply page_kept_refl.
  - intros s p Hsp. destruct slot as [s0|]; [|done].
    rewrite lookup_insert_ne; [done | congruence].
  - intros Hm Hsw. destruct (fo_pte _ _ _ _ _ H _ _ _ Hp) as [_ Hok]. by rewrite Hm, Hsw in Hok.
Qed.

(** The frame comes from the free ones. *)
Lemma granted_take k b v st a i x va :
  vm_inv k b v st None -> quiet k -> coremap (k_cm k) !! i = Some x -> avail x = true ->
  Z.land va 1 = 0 ->
  granted k b v st a
    (upd_entries (<[i := with_allocpages 1 (core_entry va false (Some a) x)]>) k) b st i false.
Proof.
  intros Hinv Hq Hx Hav Hva. destruct Hinv as [Hf Hsw Hn Ht Hrr Hc]. destruct Hq.
  destruct (frames_ok_take _ _ _ _ a i x va _ Hf Hx Hav Hva eq_refl) as [Hf' Ho'].
  split; try done.
  - intros A HA. exists (pt A). cbn. rewrite HA. by destruct A.
  - intros a' j e Hp. exists e. split; [done|]. by apply (page_kept_grow _ _ _ _ _ _ _ _ _ None [] Hf Hp).
Qed.

(** It comes from a page of the same address space. *)
Lemma granted_evict k b v st a A i j e slot b' w d t nv :
  vm_inv k b v st None -> quiet k -> k_as k !! a = Some A -> pt A !! j = Some e ->
  pte_paddr e = frame_paddr (k_cm k) i -> owned_by (k_cm k) a i ->
  cm_wf (with_next_svic nv (k_cm k)) ->
  swap_lock w = None -> bitmap_nbits b' = bitmap_nbits b ->
  (forall u off n, u <> v -> VOP_READ u off n d = VOP_READ u off n (k_disk k)) ->
  swap_refines w d b' v (match slot with
      | Some s => <[s := mem_read (k_mem k) (pte_paddr e) (Z.to_nat PAGE_SIZE)]> st
      | None => st end) ->
  match slot with
  | Some s => st !! s = None /\ 0 <= s < bitmap_nbits b /\ writable e = true
  | None => writable e = false
  end ->
  tlb_wf t -> tlb_misses t (pte_vaddr e) ->
  (forall u, u < MIPS_KSEG0 -> tlb_misses (tlb (k_tlb k)) u -> tlb_misses t u) ->
  (forall u p d, tlb_maps t u p d -> tlb_maps (tlb (k_tlb k)) u p d) ->
  granted k b v st a (after_eviction k a A j e slot w d t nv) b'
    (match slot with
     | Some s => <[s := mem_read (k_mem k) (pte_paddr e) (Z.to_nat PAGE_SIZE)]> st
     | None => st end) i (match slot with Some _ => true | None => false end).
Proof.
  intros Hinv Hq Ha He Hp Ho Hwf Hl Hnb Hd Hr Hslot Ht1 Ht2 Ht3 Ht4.
  destruct Hinv as [Hf Hsw Hn Ht Hrr Hc]. destruct Hq as [Q1 Q2 Q3 Q4 Q5].
  set (k' := after_eviction k a A j e slot w d t nv).
  assert (Hpe : pte_at (tables_of k) a j = Some e) by (apply pte_at_tables; eauto).
  assert (Hlt : (i < length (coremap (k_cm k)))%nat) by by eapply owned_lt.
  pose proof (frame_addr_resident _ _ _ _ _ _ _ _ _ Hf Hpe Hlt Hp) as Hm.
  pose proof (resident_not_swapped _ _ _ _ _ _ _ _ Hf Hpe Hm) as Hs.
  assert (Htb : tables_of k' = upd_pte a j (evicted slot e) (tables_of k))
    by by apply tables_insert.
  assert (Hat : forall a' j', pte_at (tables_of k') a' j' =
    if decide (a' = a /\ j' = j) then Some (evicted slot e) else pte_at (tables_of k) a' j')
    by (intros; rewrite Htb; apply pte_at_upd; eauto).
  assert (Hsl : match slot with Some s => st !! s = None /\ 0 <= s < bitmap_nbits b | None => True end)
    by (destruct slot; tauto).
  split; try done.
  - split; try done.
    + rewrite Htb, Hnb. eapply frames_ok_coremap; [..|by eapply frames_ok_evict]; done.
    + intros a' A'. cbn. rewrite lookup_insert. case_decide as E.
      * intros [= <-]. subst a'. by apply table_ok_insert, Hn with a.
      * by apply Hn.
    + intros a' Hcur u p d' Hmap. destruct (Hc a' Hcur u p d' (Ht4 _ _ _ Hmap)) as (j' & e' & Hj' & Hu & Hm').
      exists j', e'. split; [|done]. rewrite Hat, decide_False; [done|]. intros [-> ->].
      rewrite Hpe in Hj'. injection Hj' as <-. rewrite <- Hu in Hmap. by eapply tlb_maps_misses.
  - split; try done. cbn. destruct slot; done.
  - cbn. by destruct slot.
  - intros a' Hne. cbn. by rewrite lookup_insert_ne.
  - intros A' HA'. rewrite Ha in HA'. injection HA' as <-. eexists. cbn. by rewrite lookup_insert_eq.
  - intros a' j' e' Hp'. rewrite Hat. case_decide as E.
    + destruct E as [-> ->]. rewrite Hpe in Hp'. injection Hp' as <-. eexists. split; [done|].
      split; [by destruct slot|]. split; [by destruct slot|]. split; [congruence|].
      unfold page_data. rewrite Hm. destruct slot as [s|]; cbn.
      * left. apply lookup_insert_eq.
      * right. by rewrite Hs.
    + exists e'. split; [done|]. eapply (page_kept_grow _ _ _ _ _ _ _ _ _ slot); eauto.
      by destruct slot; [apply Hsl|].
Qed.

(** Taking and releasing the spinlock around the search leaves the victim
    counter. *)
Lemma search_unlocked nv k : coremap_lock (k_cm k) = false ->
  set_cm (with_coremap_lock false)
    (set_cpu (fun c => with_c_spinlocks (c_spinlocks c - 1) c)
      (set_cm (with_next_svic nv)
        (set_cm (with_coremap_lock true)
          (set_cpu (fun c => with_c_spinlocks (c_spinlocks c + 1) c) k))))
  = set_cm (with_next_svic nv) k.
Proof. intros H. kernel_eq k. Qed.

(** The page table lock is back where it was after the eviction. *)
Lemma eviction_unlocked k a A j e slot w d t nv o : pt_lock A = None ->
  set_ases (<[a := with_pt_lock None
      (with_pt (<[j := evicted slot e]> (pt A)) (with_pt_lock o A))]>)
    (after_eviction (set_ases (<[a := with_pt_lock o A]>) (set_cm (with_next_svic nv) k))
       a (with_pt_lock o A) j e slot w d t nv)
  = after_eviction k a A j e slot w d t nv.
Proof.
  intros Hl.
  lazy [after_eviction upd_swap set_tlb set_ases set_stats set_swap set_disk set_cm
    k_cm k_swap k_tlb k_stats k_cpu k_as k_curproc k_mem k_disk k_heap k_ram k_stealmem_lock].
  rewrite !insert_insert_eq. by destruct A; cbn in Hl; subst.
Qed.

(** What a caller of [getPages(1, va, as)] is promised. *)
Definition grant (k : kernel) (b : bitmap) (v : vnode) (st : gmap Z page) (a : asid)
    (p : Z) (k' : kernel) : Prop :=
  exists i b' st' swapped,
    p = frame_paddr (k_cm k') i /\ granted k b v st a k' b' st' i swapped.

(** The eviction itself, once the victim frame is chosen. *)
Lemma evict_granted k b v st a A i j e nv :
  vm_inv k b v st None -> quiet k -> k_as k !! a = Some A -> pt_lock A = None ->
  owned_by (k_cm k) a i -> pt A !! j = Some e -> pte_paddr e = frame_paddr (k_cm k) i ->
  cm_wf (with_next_svic nv (k_cm k)) ->
  Z.of_nat (size st) < bitmap_nbits b -> swap_writes_ok v (bitmap_nbits b) ->
  wp (acquire_pt_lock a ;;
      let* A := as_get a in
      let* hit := for_break (seq 0 (Z.to_nat (npages A))) (evict_page a i) in
      release_pt_lock a ;;
      ret (match hit with Some _ => i | None => 0%nat end))
    (fun i' k' => i' = i /\ frame_paddr (k_cm k') i = frame_paddr (k_cm k) i /\
      exists b' st' swapped, granted k b v st a k' b' st' i swapped)
    (set_cm (with_next_svic nv) k).
Proof.
  intros Hinv Hq Ha Hpl Ho He Hp Hwf Hroom Hw. pose proof Hinv as [Hf Hr Hn Ht _ _].
  pose proof Hq as [Q1 Q2 Q3 Q4 Q5].
  assert (Hpe : pte_at (tables_of k) a j = Some e) by (apply pte_at_tables; eauto).
  pose proof (owned_lt _ _ _ Ho) as Hlt.
  pose proof (frame_addr_resident _ _ _ _ _ _ _ _ _ Hf Hpe Hlt Hp) as Hm.
  pose proof (resident_not_swapped _ _ _ _ _ _ _ _ Hf Hpe Hm) as Hs.
  destruct (fo_pte _ _ _ _ _ Hf _ _ _ Hpe) as [[Hv Hal] _].
  step. eapply wp_acquire_pt_lock; [done..|]. step.
  eapply wp_as_get; [kred; apply lookup_insert_eq|]. step.
  set (me := Some (curthread _)). cbn [npages with_pt_lock].
  rewrite (table_ok_npages _ _ _ (Hn _ _ Ha) He), Nat2Z.id.
  assert (Hj : (j < length (pt A))%nat) by by eapply lookup_lt_Some.
  apply (wp_for_break_hit 0 _ j); [lia| |].
  - intros j' Hj'. destruct (lookup_lt_is_Some_2 (pt A) j' ltac:(lia)) as [e' He'].
    unfold evict_page, pt_get, as_get, bind, gets, ret. kred. rewrite lookup_insert_eq.
    cbn [pt with_pt_lock]. rewrite He'.
    destruct (pte_paddr e' =? _) eqn:E; [|done]. apply Z.eqb_eq in E.
    change (pte_paddr e' = frame_paddr (k_cm k) i) in E.
    exfalso. assert (Hpe' : pte_at (tables_of k) a j' = Some e') by (apply pte_at_tables; eauto).
    pose proof (frame_addr_resident _ _ _ _ _ _ _ _ _ Hf Hpe' Hlt E) as Hm'.
    destruct (fo_inj _ _ _ _ _ Hf _ _ _ _ _ _ Hpe Hpe' Hm Hm') as [_ ->]; [by rewrite Hp | lia].
  - eapply wp_mono.
    { eapply (evict_page_hit a (with_pt_lock me A) i j e b v st); try done. kred. apply lookup_insert_eq. }
    intros hit k' (-> & slot & b' & w & d & t & -> & Hl & Hnb & Hd & Hr' & Hsl & Ht1 & Ht2 & Ht3 & Ht4).
    split; [done|]. step. eapply wp_release_pt_lock; [kred; apply lookup_insert_eq | done |].
    apply wp_ret. split; [done|]. cbn [pt with_pt_lock next_svic set_ases set_cm k_cm with_next_svic].
    rewrite eviction_unlocked by done. split; [done|].
    eexists b', _, _. by apply granted_evict.
Qed.

(** A frame that can be had is granted. *)
Lemma getPage_granted k b v st a A va :
  vm_inv k b v st None -> quiet k -> k_as k !! a = Some A -> pt_lock A = None ->
  frame_available k b st a -> swap_writes_ok v (bitmap_nbits b) -> Z.land va 1 = 0 ->
  wp (getPage false va (Some a)) (grant k b v st a) k.
Proof.
  intros Hinv Hq Ha Hpl Hav Hw Hva. pose proof Hinv as [Hf Hr Hn Ht _ _].
  pose proof Hq as [Q1 Q2 Q3 Q4 Q5]. pose proof (fo_cm _ _ _ _ _ Hf) as Hwf.
  destruct (decide (Exists (fun x => avail x = true) (coremap (k_cm k)))) as [Hfree|Hfull];
    rewrite Exists_exists in *.
  - eapply wp_mono; [apply getPage_free; [by split_and!|]|].
    { destruct Hfree as (x & [i Hi]%list_elem_of_lookup & Hx). exists i. by exists x. }
    intros p k' (i & x & Hx & Hx' & _ & -> & ->). exists i, b, st, false. split; [done|].
    by apply granted_take.
  - assert (Hno : forall i, ~ frame_free (k_cm k) i).
    { intros i (x & Hx & Hx'). apply Hfull. exists x. split; [by eapply list_elem_of_lookup_2 | done]. }
    destruct Hav as [[i Hi]|[[i0 Ho0] Hroom]]; [by destruct (Hno i)|].
    assert (Hsz : 0 < coremapSize (k_cm k)).
    { pose proof (owned_lt _ _ _ Ho0). pose proof (cm_length _ Hwf). lia. }
    unfold getPage. step. apply wp_acquire_coremap_lock; [done|]. steps. kred. rewrite Q2. cbn [negb].
    step. apply find_free_spec; [by apply cm_wf_lock | |].
    { intros i x Hx Hx'. by destruct (Hno i); exists x. }
    intros _. step. step. apply getAvailableSwap_spec; [done..|].
    pose proof (sr_used _ _ _ _ _ Hr) as Eu. pose proof (sr_size _ _ _ _ _ Hr) as Es.
    pose proof (sr_offsets _ _ _ _ _ Hr). pose proof page_size_range.
    rewrite u32_small, (proj2 (Z.eqb_neq _ _)); [|kred; rewrite Eu, Es; nia..].
    step. eapply wp_as_get; [done|]. steps. kred.
    destruct (rotation_covers (k_cm k) i0 Hwf (owned_lt _ _ _ Ho0)) as (dd & Hdd & Hrot).
    eapply wp_mono; [eapply (find_victim_spec _ a dd)|].
    + by apply cm_wf_lock.
    + done.
    + lia.
    + change (evictable (k_cm k) a (rotation (k_cm k) dd)). rewrite Hrot.
      by eapply evictable_owned.
    + intros i k2 (d' & _ & _ & Hev & _ & ->).
      assert (Ho : owned_by (k_cm k) a i) by (eapply evictable_owned; [done | exact Hev]).
      destruct (fo_owned _ _ _ _ _ Hf a i Ho ltac:(done)) as (j & e & Hpe & _ & Hpa).
      apply pte_at_tables in Hpe as (A' & HA' & He). rewrite Ha in HA'. injection HA' as <-.
      step. apply wp_modify. kred. rewrite search_unlocked by done.
      eapply wp_mono; [eapply evict_granted; eauto; by apply cm_wf_next_svic|].
      intros i' k' (-> & Hfp & b' & st' & sw & Hg). exists i, b', st', sw. done.
Qed.
End Theorems.
