(* ===== verification/Segments.v ===== *)
(** Segments and the page table they describe ([include/segment.h], the
    search loops of [vm_fault] in [vm/addrspace.c]).

    The page table of an address space has the pages of its segments one
    segment after the other.  [layout] is that sequence; [segs_from] says the
    segments are in ascending order and apart from each other, which is what
    the search of [vm_fault] relies on.  [find_segment_spec] shows that the
    search then arrives at the segment of the faulting page. *)

From Stdlib Require Import ZArith Lia.
From stdpp Require Import base list gmap strings.
From S2P Require Import Prelude Platform State LoadSegment.
Local Open Scope Z_scope.

Section Segments.
Context {P : Platform}.

(** The [while (seg->next != NULL)] loop of [vm_fault]: the segment it stops
    at, whether that is the last one, and the number of pages before it.  A
    NULL list is dereferenced. *)
Fixpoint find_segment (faultaddress : Z) (l : list segment_t) (np : Z)
    : option (segment_t * bool * Z) :=
  match l with
  | [] => None
  | [s] => Some (s, true, np)
  | s :: (s' :: _) as next =>
      if faultaddress <? seg_start s' then Some (s, false, np)
      else find_segment faultaddress next (u32 (np + seg_npages s))
  end.

(** The pages of a segment, and of a list of them: address and permissions. *)
Definition pages_of (s : segment_t) : list (Z * Z) :=
  (fun i => (seg_start s + Z.of_nat i * PAGE_SIZE, seg_rwx s)) <$> seq 0 (Z.to_nat (seg_npages s)).

Definition layout (l : list segment_t) : list (Z * Z) := mjoin (pages_of <$> l).

Record seg_ok (s : segment_t) : Prop := {
  so_start : 0 <= seg_start s /\ seg_start s mod PAGE_SIZE = 0;
  so_npages : 0 <= seg_npages s;
  so_size : seg_size s = seg_npages s * PAGE_SIZE;
  so_end : seg_start s + seg_size s <= MIPS_KSEG0;
  so_filesize : 0 <= seg_filesize s < 2 ^ 32;
  so_initoffset : 0 <= seg_initoffset s < PAGE_SIZE;
}.

(** The segments lie in ascending order at or above [lo]. *)
Fixpoint segs_from (lo : Z) (l : list segment_t) : Prop :=
  match l with
  | [] => True
  | s :: l => lo <= seg_start s /\ seg_ok s /\ segs_from (seg_start s + seg_size s) l
  end.

(** An address space whose page table is that of its segments. *)
Record as_wf (A : addrspace) : Prop := {
  aw_segments : segs_from 0 (as_segment A);
  aw_layout : (fun e => (pte_vaddr e, pte_rwx e)) <$> pt A = layout (as_segment A);
  aw_small : Z.of_nat (length (pt A)) < 2 ^ 32;
}.
End Segments.

Section Theorems.
Context {P : Platform} {L : PlatformLaws P}.
Implicit Types (s : segment_t) (l : list segment_t).

Lemma length_pages_of s : length (pages_of s) = Z.to_nat (seg_npages s).
Proof. unfold pages_of. by rewrite length_fmap, length_seq. Qed.

Lemma pages_of_lookup s i : (i < Z.to_nat (seg_npages s))%nat ->
  pages_of s !! i = Some (seg_start s + Z.of_nat i * PAGE_SIZE, seg_rwx s).
Proof. intros H. unfold pages_of. by rewrite list_lookup_fmap, lookup_seq_lt. Qed.

Lemma pages_of_inv s i va rwx : pages_of s !! i = Some (va, rwx) ->
  (i < Z.to_nat (seg_npages s))%nat /\ va = seg_start s + Z.of_nat i * PAGE_SIZE /\ rwx = seg_rwx s.
Proof.
  intros H. pose proof (lookup_lt_Some _ _ _ H) as Hi. rewrite length_pages_of in Hi.
  rewrite pages_of_lookup in H by done. by injection H as <- <-.
Qed.

Lemma layout_app l l' : layout (l ++ l') = layout l ++ layout l'.
Proof. unfold layout. by rewrite fmap_app, join_app. Qed.

Lemma layout_cons s l : layout (s :: l) = pages_of s ++ layout l.
Proof. done. Qed.

(** A page of a segment list lies above its lower bound and below the kernel. *)
Lemma layout_range lo l j va rwx : segs_from lo l -> layout l !! j = Some (va, rwx) ->
  lo <= va < MIPS_KSEG0 /\ va mod PAGE_SIZE = 0.
Proof.
  pose proof page_size_pos as Hps. revert lo j.
  induction l as [|s l IH]; intros lo j; [done|]. intros (Hlo & Hs & Hl).
  rewrite layout_cons, lookup_app_Some. intros [Hj|[_ Hj]].
  - apply pages_of_inv in Hj as (Hi & -> & _). destruct Hs as [[? Ha] ? E ? ? ?]. split; [nia|].
    rewrite Z_mod_plus_full. done.
  - destruct (IH _ _ Hl Hj) as [[H1 H2] H3]. destruct Hs as [? ? E ? ? ?]. split; [nia | done].
Qed.

(** No address occurs twice. *)
Lemma layout_inj lo l j j' va rwx rwx' : segs_from lo l ->
  layout l !! j = Some (va, rwx) -> layout l !! j' = Some (va, rwx') -> j = j'.
Proof.
  pose proof page_size_pos as Hps. revert lo j j'.
  induction l as [|s l IH]; intros lo j j'; [done|]. intros (Hlo & Hs & Hl).
  assert (Hapart : forall i i' r r', pages_of s !! i = Some (va, r) -> layout l !! i' = Some (va, r') -> False).
  { intros i i' r r' (Hi & -> & _)%pages_of_inv Hi'. destruct (layout_range _ _ _ _ _ Hl Hi') as [[H1 _] _].
    pose proof (so_size _ Hs). nia. }
  rewrite layout_cons, !lookup_app_Some. intros [Hj|[Hge Hj]] [Hj'|[Hge' Hj']].
  - apply pages_of_inv in Hj as (Hi & -> & _). apply pages_of_inv in Hj' as (Hi' & E & _). nia.
  - exfalso. eauto.
  - exfalso. eauto.
  - specialize (IH _ _ _ Hl Hj Hj'). lia.
Qed.

(** The search stops at the segment of the page, with the number of pages in
    the segments before it. *)
Lemma find_segment_spec lo l np0 j fa rwx :
  segs_from lo l -> layout l !! j = Some (fa, rwx) ->
  0 <= np0 -> np0 + Z.of_nat (length (layout l)) < 2 ^ 32 ->
  exists s l1 l2, l = l1 ++ s :: l2 /\
    find_segment fa l np0 = Some (s, bool_decide (l2 = []), np0 + Z.of_nat (length (layout l1))) /\
    seg_ok s /\ (length (layout l1) <= j)%nat /\ (j - length (layout l1) < Z.to_nat (seg_npages s))%nat /\
    fa = seg_start s + Z.of_nat (j - length (layout l1)) * PAGE_SIZE.
Proof.
  pose proof page_size_pos as Hps. revert lo np0 j.
  induction l as [|s l IH]; intros lo np0 j; [done|]. intros (Hlo & Hs & Hl) Hj Hnp Hlen.
  rewrite layout_cons, length_app, length_pages_of in Hlen. pose proof (so_npages _ Hs).
  rewrite layout_cons in Hj. apply lookup_app_Some in Hj as [Hj|[Hge Hj]].
  - apply pages_of_inv in Hj as (Hi & -> & _). exists s, [], l. split; [done|]. split.
    + cbn [find_segment]. rewrite Z.add_0_r. destruct l as [|s' l]; [done|].
      destruct Hl as (Hle & _). rewrite (proj2 (Z.ltb_lt _ _)); [done|].
      rewrite (so_size _ Hs) in Hle. nia.
    + split; [done|]. cbn. split; [lia|]. rewrite Nat.sub_0_r. done.
  - rewrite length_pages_of in *. destruct l as [|s' l]; [done|].
    assert (Hfa : seg_start s' <= fa).
    { destruct Hl as (Hle & Hs' & Hl'). eapply (layout_range (seg_start s')) in Hj as [[? ?] ?]; [done|].
      split; [lia | done]. }
    destruct (IH _ (np0 + seg_npages s) _ Hl Hj ltac:(lia) ltac:(lia))
      as (s1 & l1 & l2 & E & Hfind & Hs1 & Hr).
    exists s1, (s :: l1), l2. split; [by rewrite E|].
    rewrite layout_cons, length_app, length_pages_of. split; [|split; [done|]].
    + change (find_segment fa (s :: s' :: l) np0) with
        (if fa <? seg_start s' then Some (s, false, np0)
         else find_segment fa (s' :: l) (u32 (np0 + seg_npages s))).
      rewrite (proj2 (Z.ltb_ge _ _)) by done. rewrite u32_small by lia. rewrite Hfind.
      do 2 f_equal. lia.
    + destruct Hr as (H1 & H2 & H3). split; [lia|].
      replace (j - (Z.to_nat (seg_npages s) + length (layout l1)))%nat
        with (j - Z.to_nat (seg_npages s) - length (layout l1))%nat by lia. done.
Qed.

(** On a list that is not empty the search always stops at some segment. *)
Lemma find_segment_total l np0 fa :
  l <> [] -> Forall (fun s => 0 <= seg_npages s) l ->
  0 <= np0 -> np0 + Z.of_nat (length (layout l)) < 2 ^ 32 ->
  exists s l1 l2, l = l1 ++ s :: l2 /\
    find_segment fa l np0 = Some (s, bool_decide (l2 = []), np0 + Z.of_nat (length (layout l1))).
Proof.
  revert np0. induction l as [|s l IH]; intros np0 Hne Hall Hnp Hlen; [done|].
  apply Forall_cons in Hall as [Hs Hall].
  rewrite layout_cons, length_app, length_pages_of in Hlen.
  destruct l as [|s' l]; [exists s, [], []; cbn; by rewrite Z.add_0_r|].
  cbn [find_segment]. destruct (fa <? seg_start s').
  - exists s, [], (s' :: l). cbn. by rewrite Z.add_0_r.
  - rewrite u32_small by lia.
    destruct (IH (np0 + seg_npages s)) as (s1 & l1 & l2 & E & Hf); [done | done | lia | lia |].
    exists s1, (s :: l1), l2. split; [by rewrite E|].
    rewrite layout_cons, length_app, length_pages_of. change (find_segment fa (s' :: l) (np0 + seg_npages s)
      = Some (s1, bool_decide (l2 = []), np0 + Z.of_nat (Z.to_nat (seg_npages s) + length (layout l1)))).
    rewrite Hf. do 2 f_equal. lia.
Qed.

Lemma segs_from_npages lo l : segs_from lo l -> Forall (fun s => 0 <= seg_npages s) l.
Proof.
  revert lo. induction l as [|s l IH]; intros lo; [by constructor|]. intros (_ & Hs & Hl).
  constructor; [apply Hs | by eapply IH].
Qed.

(** The entries of the page table that belong to a segment. *)
Lemma layout_segment l1 s l2 i : (i < Z.to_nat (seg_npages s))%nat ->
  layout (l1 ++ s :: l2) !! (length (layout l1) + i)%nat
  = Some (seg_start s + Z.of_nat i * PAGE_SIZE, seg_rwx s).
Proof.
  intros Hi. rewrite layout_app, layout_cons, lookup_app_r by lia.
  rewrite Nat.add_comm, Nat.add_sub. rewrite lookup_app_l by (rewrite length_pages_of; lia).
  by apply pages_of_lookup.
Qed.

(** Nothing of this depends on anything but addresses and permissions. *)
Lemma as_wf_same A es : as_wf A ->
  (fun e => (pte_vaddr e, pte_rwx e)) <$> es = (fun e => (pte_vaddr e, pte_rwx e)) <$> pt A ->
  as_wf (with_pt es A).
Proof.
  intros [H1 H2 H3] E. split; cbn; [done | by rewrite E |].
  apply (f_equal length) in E. rewrite !length_fmap in E. lia.
Qed.

(** ** The extent of a list of segments *)

Fixpoint seg_end (lo : Z) (l : list segment_t) : Z :=
  match l with [] => lo | s :: l => seg_end (seg_start s + seg_size s) l end.

Lemma segs_from_snoc lo l s :
  segs_from lo l -> seg_end lo l <= seg_start s -> seg_ok s -> segs_from lo (l ++ [s]).
Proof.
  revert lo. induction l as [|s' l IH]; intros lo; cbn [app seg_end]; [by cbn|].
  intros (Hlo & Hs & Hl) Hend Hok. split; [done|]. split; [done|]. by apply IH.
Qed.

Lemma seg_end_snoc lo l s : seg_end lo (l ++ [s]) = seg_start s + seg_size s.
Proof. revert lo. induction l as [|s' l IH]; intros lo; cbn; auto. Qed.

(** Pages take up room. *)
Lemma layout_length lo l : segs_from lo l ->
  Z.of_nat (length (layout l)) * PAGE_SIZE <= seg_end lo l - lo.
Proof.
  revert lo. induction l as [|s l IH]; intros lo; [cbn; lia|]. intros (Hlo & Hs & Hl).
  rewrite layout_cons, length_app, length_pages_of. cbn [seg_end]. specialize (IH _ Hl).
  destruct Hs as [? ? E ? ? ?]. pose proof page_size_pos. nia.
Qed.

Lemma segs_from_ok lo l1 s l2 : segs_from lo (l1 ++ s :: l2) -> seg_ok s.
Proof.
  revert lo. induction l1 as [|s' l1 IH]; intros lo; cbn [app segs_from]; [by intros (_ & H & _)|].
  intros (_ & _ & H). by eapply IH.
Qed.

(** ** Loading a page of a segment *)

(** The file offset, length and position in the page of what the code reads
    for page [x] of a segment: its formula without the machine arithmetic.
    What it should read is [file_backed] of [VmFault.v]. *)
Definition page_span (s : segment_t) (x : Z) : Z * Z * Z :=
  if x =? 0 then (seg_offset s, PAGE_SIZE - seg_initoffset s, seg_initoffset s)
  else (seg_offset s + x * PAGE_SIZE,
        Z.max 0 (Z.min PAGE_SIZE (seg_filesize s - x * PAGE_SIZE)), 0).

Lemma ondemand_span_ok s x : seg_ok s -> 0 <= x < seg_npages s ->
  exists mem, ondemand_span s (seg_start s + x * PAGE_SIZE)
    = ((page_span s x).1.1, mem, (page_span s x).1.2, (page_span s x).2) /\
  (page_span s x).1.2 <= mem /\ 0 <= (page_span s x).1.2 /\
  0 <= (page_span s x).2 < PAGE_SIZE /\ (page_span s x).2 + mem <= PAGE_SIZE.
Proof.
  intros [[H1 H1'] H2 H3 H4 H5 H6] Hx. pose proof page_size_range. pose proof kseg0_range.
  assert (Hx1 : x * PAGE_SIZE + PAGE_SIZE <= seg_size s) by nia.
  unfold ondemand_span, page_span.
  rewrite (land_page_frame_aligned (seg_start s + _)) by first [by rewrite Z_mod_plus_full | nia].
  replace (seg_start s + x * PAGE_SIZE - seg_start s) with (x * PAGE_SIZE) by lia.
  rewrite (u32_small (x * PAGE_SIZE)) by nia.
  rewrite (land_page_frame_aligned (x * PAGE_SIZE)) by first [apply Z_mod_mult | nia].
  rewrite (u32_small (seg_size s - _)) by nia.
  destruct (Z.eqb_spec x 0) as [->|Hne].
  - cbn [Z.mul]. rewrite Z.eqb_refl, Z.sub_0_r, Z.add_0_r.
    assert (E : (if PAGE_SIZE <? seg_size s then PAGE_SIZE else seg_size s) = PAGE_SIZE)
      by (destruct (Z.ltb_spec PAGE_SIZE (seg_size s)); nia).
    rewrite E, (u32_small (PAGE_SIZE - _)) by lia. eexists. split; [reflexivity|]. cbn. lia.
  - rewrite (proj2 (Z.eqb_neq (x * PAGE_SIZE) 0)) by nia.
    assert (E : (if seg_filesize s <? x * PAGE_SIZE then 0
                 else if PAGE_SIZE <? u32 (seg_filesize s - x * PAGE_SIZE) then PAGE_SIZE
                 else u32 (seg_filesize s - x * PAGE_SIZE))
                = Z.max 0 (Z.min PAGE_SIZE (seg_filesize s - x * PAGE_SIZE))).
    { destruct (Z.ltb_spec (seg_filesize s) (x * PAGE_SIZE)); [lia|].
      rewrite (u32_small (seg_filesize s - _)) by nia.
      destruct (Z.ltb_spec PAGE_SIZE (seg_filesize s - x * PAGE_SIZE)); lia. }
    rewrite E. eexists. split; [reflexivity|]. cbn.
    destruct (Z.ltb_spec PAGE_SIZE (seg_size s - x * PAGE_SIZE)); nia.
Qed.

(** On-demand loading writes inside the frame only, and what the file
    delivers arrives at its place in it. *)
Lemma load_elf_ondemand_spec s x p a A k :
  seg_ok s -> 0 <= x < seg_npages s -> 0 <= p -> p + PAGE_SIZE <= 2 ^ 32 ->
  k_curproc k = Some (Some a) -> k_as k !! a = Some A ->
  wp (load_elf_ondemand s p (seg_start s + x * PAGE_SIZE)) (fun _ k' => exists m,
    k' = set_mem (fun _ => m) k /\
    (forall y, y < p \/ p + PAGE_SIZE <= y -> m y = k_mem k y) /\
    (forall bs, VOP_READ (as_v A) (page_span s x).1.1 (page_span s x).1.2 (k_disk k) = inr bs ->
       m = mem_write (k_mem k) (p + (page_span s x).2) bs)) k.
Proof.
  intros Hs Hx Hp Hp' Hc HA. destruct (ondemand_span_ok s x Hs Hx) as (mem & E & Hm & Hf & Hi & Hin).
  unfold load_elf_ondemand, proc_getas. steps. rewrite Hc. cbn [mbind option_bind id]. step.
  eapply wp_as_get; [done|]. rewrite E. unfold load_segment. steps.
  destruct (Z.ltb_spec mem (page_span s x).1.2); [lia|].
  rewrite u32_small by lia.
  destruct (VOP_READ _ _ _ _) as [er|bs] eqn:Er.
  - steps. eexists. split; [reflexivity|]. split; [|done]. intros y Hy. apply mem_write_other.
    pose proof (vop_read_partial_length (as_v A) (page_span s x).1.1 (page_span s x).1.2 (k_disk k)). lia.
  - apply vop_read_length in Er as Hlen; [|lia]. steps.
    destruct (_ =? 0); apply wp_ret; eexists; (split; [reflexivity|]); (split; [|by intros ? [= <-]]);
      intros y Hy; apply mem_write_other; lia.
Qed.
End Theorems.
