(* ===== verification/VmFault.v ===== *)
(** The fault handler ([vm_fault] of [vm/addrspace.c]).

    The handler looks the page up, brings it into a frame if it is not
    resident (from the swap file, from the executable, or as a page of
    zeroes) and enters the translation into the TLB.  [paged_in] is what the
    middle part achieves; the theorems at the end put the parts together. *)

From Stdlib Require Import ZArith Lia.
From stdpp Require Import base list gmap strings.
From S2P Require Import Prelude Platform State Synch VmStats Tlb LoadSegment Swap Coremap Frames.
From S2P Require Import Paging Segments.
Local Open Scope Z_scope.

Section VmFault.
Context {P : Platform}.

(** The search for the page of the segment that starts at index [np] of the
    table: the index the [for] loop ends with. *)
Definition find_page (a : asid) (faultaddress np npages : Z) : M kernel Z :=
  let stop := u32 (np + npages) in
  let* hit := for_break (seq (Z.to_nat np) (Z.to_nat (stop - np))) (fun i =>
    let* e := pt_get a i in ret (pte_vaddr e =? faultaddress)) in
  ret (match hit with Some i => Z.of_nat i | None => Z.max np stop end).

(** The body of the cases VM_FAULT_READ and VM_FAULT_WRITE. *)
Definition fault_page_in (a : asid) (seg : segment_t) (last : bool) (i : nat) (faultaddress : Z)
    : M kernel unit :=
  let* e := pt_get a i in
  if negb (pte_in_mem e) then
    (if pte_in_swap e then
       release_pt_lock a ;;
       let* new_paddr := getPages 1 faultaddress (Some a) in
       acquire_pt_lock a ;;
       let* e := pt_get a i in
       let* r := swap_in (pte_paddr e) new_paddr true in
       let* e := pt_get a i in
       pt_set a i (with_paddr r.2 e) ;;
       let* e := pt_get a i in
       pt_set a i (with_in_swap false e) ;;
       vm_stats_inc SWAP_READ ;;
       vm_stats_inc PAGE_FAULT_DISK
     else
       (if pte_paddr e =? 0 then
          release_pt_lock a ;;
          let* new_paddr := getPages 1 faultaddress (Some a) in
          let* e := pt_get a i in
          pt_set a i (with_paddr new_paddr e) ;;
          acquire_pt_lock a
        else ret tt) ;;
       let* e := pt_get a i in
       if negb last then
         let* _r := load_elf_ondemand seg (pte_paddr e) faultaddress in
         vm_stats_inc ELF_READ ;;
         vm_stats_inc PAGE_FAULT_DISK
       else
         modify (set_mem (fun m => mem_write m (pte_paddr e) (replicate (Z.to_nat PAGE_SIZE) 0))) ;;
         vm_stats_inc PAGE_FAULT_ZEROED) ;;
    let* e := pt_get a i in
    pt_set a i (with_in_mem true e)
  else vm_stats_inc TLB_RELOAD.

Definition vm_fault (faulttype faultaddress : Z) : M kernel rc :=
  vm_stats_inc TLB_FAULT ;;
  let faultaddress := Z.land faultaddress PAGE_FRAME in
  let* curproc := gets k_curproc in
  match curproc with
  | None => ret (Err EFAULT)
  | Some _ =>
    let* o := proc_getas in
    match o with
    | None => ret (Err EFAULT)
    | Some a =>
      let* A := as_get a in
      match find_segment faultaddress (as_segment A) 0 with
      | None => halt (Undef "seg->next")
      | Some (seg, last, np) =>
        acquire_pt_lock a ;;
        let* i := find_page a faultaddress np (seg_npages seg) in
        if i =? u32 (np + seg_npages seg) then
          release_pt_lock a ;; halt (Panic "pt with addr not initialized!")
        else if faulttype =? VM_FAULT_READONLY then
          release_pt_lock a ;; halt (Panic "vm: got VM_FAULT_READONLY")
        else if (faulttype =? VM_FAULT_READ) || (faulttype =? VM_FAULT_WRITE) then
          fault_page_in a seg last (Z.to_nat i) faultaddress ;;
          let* e := pt_get a (Z.to_nat i) in
          let* result := tlb_loadentry faultaddress (pte_paddr e) (Z.land (pte_rwx e) 2 =? 0) in
          release_pt_lock a ;;
          ret result
        else release_pt_lock a ;; ret (Err EINVAL)
      end
    end
  end.

(** ** What the handler achieves *)

(** Where the contents of a page come from. *)
Definition event_of (last : bool) (e : pt_entry) : page_event :=
  if pte_in_mem e then Reload
  else if pte_in_swap e then FromSwap
  else if last then Zeroed else FromElf.

(** The contents [pg] of the page after the fault: unchanged, what the swap
    slot held, zeroes, or what the executable has for page [x] of [seg]. *)
Definition page_source (k : kernel) (st : gmap Z page) (f : vnode) (seg : segment_t) (x : Z)
    (e : pt_entry) (ev : page_event) (pg : page) : Prop :=
  match ev with
  | Reload => page_data (k_mem k) st e = Some pg
  | FromSwap => st !! pte_paddr e = Some pg
  | Zeroed => pg = replicate (Z.to_nat PAGE_SIZE) 0
  | FromElf => forall bs, VOP_READ f (page_span seg x).1.1 (page_span seg x).1.2 (k_disk k) = inr bs ->
      forall n c, bs !! n = Some c -> pg !! (Z.to_nat (page_span seg x).2 + n)%nat = Some c
  end.

(** [k'] is [k] with page [j] of [a] resident in the frame at [p]. *)
Record paged_in (k : kernel) (b : bitmap) (v : vnode) (st : gmap Z page) (a : asid) (j : nat)
    (e : pt_entry) (swapped : bool) (ev : page_event) (k' : kernel) (b' : bitmap)
    (st' : gmap Z page) (p : Z) : Prop := {
  pi_inv : vm_inv k' b' v st' None;
  pi_quiet : quiet k';
  pi_cpu : k_cpu k' = k_cpu k;
  pi_curproc : k_curproc k' = k_curproc k;
  pi_nbits : bitmap_nbits b' = bitmap_nbits b;
  pi_disk : forall u off n, u <> v -> VOP_READ u off n (k_disk k') = VOP_READ u off n (k_disk k);
  pi_stats : k_stats k' = bumps ((if swapped then [SWAP_WRITE] else []) ++ page_stats ev) (k_stats k);
  pi_page : pte_at (tables_of k') a j = Some (resident p e);
  pi_others : forall a' j' e0, ~ (a' = a /\ j' = j) -> pte_at (tables_of k) a' j' = Some e0 ->
    exists e', pte_at (tables_of k') a' j' = Some e' /\ page_kept (k_mem k) st (k_mem k') st' e0 e';
  pi_others_as : forall a', a' <> a -> k_as k' !! a' = k_as k !! a';
  pi_self : forall A, k_as k !! a = Some A -> exists l, k_as k' !! a = Some (with_pt l A);
  pi_misses : forall u, u < MIPS_KSEG0 -> tlb_misses (tlb (k_tlb k)) u -> tlb_misses (tlb (k_tlb k')) u;
}.

(** [k] with the page table lock of [a] held by the running thread. *)
Definition locked (a : asid) (A : addrspace) (k : kernel) : kernel :=
  set_ases (<[a := with_pt_lock (Some (curthread (k_cpu k))) A]>) k.
End VmFault.

Section Theorems.
Context {P : Platform} {L : PlatformLaws P}.
Implicit Types (k : kernel).

(** ** The page table lock *)

Lemma wp_lock a A k (Q : unit -> kernel -> Prop) :
  k_as k !! a = Some A -> pt_lock A = None -> lockable k -> Q tt (locked a A k) ->
  wp (acquire_pt_lock a) Q k.
Proof. intros HA Hl Ht HQ. by eapply wp_acquire_pt_lock. Qed.

Lemma with_pt_lock_back o A : pt_lock A = None -> with_pt_lock None (with_pt_lock o A) = A.
Proof. intros H. destruct A; cbn in *. by subst. Qed.

Lemma wp_unlock a A k (Q : unit -> kernel -> Prop) :
  pt_lock A = None -> Q tt (set_ases (<[a := A]>) k) -> wp (release_pt_lock a) Q (locked a A k).
Proof.
  intros Hl HQ. eapply wp_release_pt_lock; [unfold locked; kred; apply lookup_insert_eq | done |].
  unfold locked. rewrite set_ases_twice, with_pt_lock_back by done. done.
Qed.

Lemma set_ases_id a A k : k_as k !! a = Some A -> set_ases (<[a := A]>) k = k.
Proof.
  intros H. unfold set_ases. rewrite insert_id by done. by destruct k.
Qed.

Lemma locked_as a A k : k_as (locked a A k) !! a = Some (with_pt_lock (Some (curthread (k_cpu k))) A).
Proof. unfold locked. kred. apply lookup_insert_eq. Qed.

Lemma wp_locked_get a A j e k (Q : pt_entry -> kernel -> Prop) :
  pt A !! j = Some e -> Q e (locked a A k) -> wp (pt_get a j) Q (locked a A k).
Proof. intros He HQ. eapply wp_pt_get; [apply locked_as | done | done]. Qed.

Lemma wp_locked_set a A j e e' k (Q : unit -> kernel -> Prop) :
  pt A !! j = Some e -> Q tt (locked a (with_pt (<[j := e']> (pt A)) A) k) ->
  wp (pt_set a j e') Q (locked a A k).
Proof.
  intros He HQ. eapply wp_pt_set; [apply locked_as | done |]. unfold locked in *.
  rewrite set_ases_twice. exact HQ.
Qed.

Lemma locked_stats a A f k : set_stats f (locked a A k) = locked a A (set_stats f k).
Proof. done. Qed.

Lemma locked_mem a A f k : set_mem f (locked a A k) = locked a A (set_mem f k).
Proof. done. Qed.

Lemma locked_twice a A A' k : locked a A' (set_ases (<[a := A]>) k) = locked a A' k.
Proof. apply set_ases_twice. Qed.

(** Entries of a table that has just been written. *)
Ltac entry :=
  cbn [pt with_pt];
  first [done | apply list_lookup_insert_eq; rewrite ?length_insert; done].

(** ** A granted frame is filled and mapped *)

Lemma page_kept_trans m st m1 st1 m2 st2 e e1 :
  page_kept m st m1 st1 e e1 -> page_data m2 st2 e1 = page_data m1 st1 e1 ->
  page_kept m st m2 st2 e e1.
Proof. intros (H1 & H2 & H3 & H4) E. unfold page_kept. by rewrite E. Qed.

(** The frame being filled and the slot given up concern no other page. *)
Lemma other_page_data c tb m m' st n a j e i a' j' e' :
  frames_ok c tb st n (Some i) -> pte_at tb a j = Some e -> pte_in_mem e = false ->
  (i < length (coremap c))%nat ->
  (forall x, x < frame_paddr c i \/ frame_paddr c i + PAGE_SIZE <= x -> m' x = m x) ->
  pte_at tb a' j' = Some e' -> ~ (a' = a /\ j' = j) ->
  page_data m' (if pte_in_swap e then delete (pte_paddr e) st else st) e' = page_data m st e'.
Proof.
  intros H Hp Hm Hi Hmem Hp' Hne. pose proof page_size_pos. unfold page_data.
  destruct (pte_in_mem e') eqn:Hm'.
  - f_equal. apply mem_read_ext. intros x Hx. apply Hmem.
    destruct (resident_frame _ _ _ _ _ _ _ _ H Hp' Hm') as (i' & Ho' & Hpa & Hex).
    destruct (frame_paddr_disjoint c i i' (fo_cm _ _ _ _ _ H) Hi (owned_lt _ _ _ Ho')); [congruence|..];
      rewrite Hpa in Hx; lia.
  - destruct (pte_in_swap e') eqn:Hs'; [|done]. destruct (pte_in_swap e) eqn:Hs; [|done].
    rewrite lookup_delete_ne; [done|]. intros E. apply Hne.
    destruct (fo_slots _ _ _ _ _ H _ _ _ _ _ _ Hp Hp' Hs Hs' E) as [-> ->]. done.
Qed.

Lemma paged_in_map k b v st a A j e k1 b1 st1 i sw A1 m' w b2 ev :
  granted k b v st a k1 b1 st1 i sw -> k_as k !! a = Some A -> pt A !! j = Some e ->
  pte_in_mem e = false -> k_as k1 !! a = Some A1 ->
  (forall x, x < frame_paddr (k_cm k1) i \/ frame_paddr (k_cm k1) i + PAGE_SIZE <= x ->
     m' x = k_mem k1 x) ->
  swap_refines w (k_disk k1) b2 v (if pte_in_swap e then delete (pte_paddr e) st1 else st1) ->
  swap_lock w = None -> bitmap_nbits b2 = bitmap_nbits b1 ->
  paged_in k b v st a j e sw ev
    (set_ases (<[a := with_pt (<[j := resident (frame_paddr (k_cm k1) i) e]> (pt A1)) A1]>)
      (set_stats (bumps (page_stats ev)) (set_mem (fun _ => m') (set_swap (fun _ => w) k1))))
    b2 (if pte_in_swap e then delete (pte_paddr e) st1 else st1) (frame_paddr (k_cm k1) i).
Proof.
  intros Hg HA He Hm HA1 Hmem Hr Hl Hnb. pose proof (gr_inv _ _ _ _ _ _ _ _ _ _ Hg) as Hinv.
  pose proof Hinv as [Hf Hsw Hn Ht Hrr Hc]. pose proof (gr_own _ _ _ _ _ _ _ _ _ _ Hg) as Ho.
  pose proof (gr_quiet _ _ _ _ _ _ _ _ _ _ Hg) as [Q1 Q2 Q3 Q4 Q5].
  assert (Hpe : pte_at (tables_of k) a j = Some e) by (apply pte_at_tables; eauto).
  destruct (gr_pages _ _ _ _ _ _ _ _ _ _ Hg _ _ _ Hpe) as (e1 & Hpe1 & Hk1).
  assert (e1 = e) as -> by (by apply Hk1).
  set (p := frame_paddr (k_cm k1) i). set (st2 := if pte_in_swap e then _ else _) in *.
  set (k2 := set_ases _ _).
  assert (Htb : tables_of k2 = upd_pte a j (resident p e) (tables_of k1)) by by apply tables_insert.
  assert (Hat : forall a' j', pte_at (tables_of k2) a' j' =
    if decide (a' = a /\ j' = j) then Some (resident p e) else pte_at (tables_of k1) a' j')
    by (intros; rewrite Htb; apply pte_at_upd; eauto).
  split.
  - split; try done.
    + rewrite Htb, Hnb. by apply frames_ok_map.
    + intros a' A'. unfold k2. kred. rewrite lookup_insert. case_decide as E.
      * intros [= <-]. by apply table_ok_insert, Hn with a.
      * by apply Hn.
    + intros a' Hcur u q d Hmap. destruct (Hc a' Hcur u q d Hmap) as (j' & e' & Hj' & Hu & Hm' & Hrest).
      exists j', e'. split; [|done]. rewrite Hat, decide_False; [done|]. intros [-> ->]. congruence.
  - split; try done. cbn. by destruct ev.
  - apply (gr_cpu _ _ _ _ _ _ _ _ _ _ Hg).
  - apply (gr_curproc _ _ _ _ _ _ _ _ _ _ Hg).
  - rewrite Hnb. apply (gr_nbits _ _ _ _ _ _ _ _ _ _ Hg).
  - apply (gr_disk _ _ _ _ _ _ _ _ _ _ Hg).
  - rewrite bumps_app, <- (gr_stats _ _ _ _ _ _ _ _ _ _ Hg). done.
  - rewrite Hat. by rewrite decide_True.
  - intros a' j' e0 Hne Hp0. destruct (gr_pages _ _ _ _ _ _ _ _ _ _ Hg _ _ _ Hp0) as (e0' & Hp0' & Hk0).
    exists e0'. rewrite Hat, decide_False by done. split; [done|]. eapply page_kept_trans; [done|].
    eapply other_page_data; eauto using owned_lt.
  - intros a' Hne. unfold k2. kred. rewrite lookup_insert_ne by done.
    by apply (gr_others _ _ _ _ _ _ _ _ _ _ Hg).
  - intros A' HA'. rewrite HA in HA'. injection HA' as <-.
    destruct (gr_self _ _ _ _ _ _ _ _ _ _ Hg A HA) as [l Hl1]. rewrite HA1 in Hl1. injection Hl1 as ->.
    eexists. unfold k2. kred. by rewrite lookup_insert_eq.
  - apply (gr_misses _ _ _ _ _ _ _ _ _ _ Hg).
Qed.

(** ** Bringing a page in *)

(** What [fault_page_in] leaves, with the table lock still held. *)
Definition brought_in k b v st a A j e seg last x (K' : kernel) : Prop :=
  exists k' A' b' st' p sw pg, K' = locked a A' k' /\ k_as k' !! a = Some A' /\ pt_lock A' = None /\
    paged_in k b v st a j e sw (event_of last e) k' b' st' p /\
    page_data (k_mem k') st' (resident p e) = Some pg /\
    page_source k st (as_v A) seg x e (event_of last e) pg.

Section PageIn.
Context (k : kernel) (b : bitmap) (v : vnode) (st : gmap Z page) (a : asid) (A : addrspace)
  (j : nat) (e : pt_entry) (seg : segment_t) (last : bool) (x : Z).
Hypothesis (Hinv : vm_inv k b v st None) (Hq : quiet k) (HA : k_as k !! a = Some A)
  (Hpl : pt_lock A = None) (He : pt A !! j = Some e) (Hm : pte_in_mem e = false).

Lemma page_aligned : 0 <= pte_vaddr e < MIPS_KSEG0 /\ pte_vaddr e mod PAGE_SIZE = 0.
Proof using Hinv HA He. eapply (fo_pte _ _ _ _ _ (vi_frames _ _ _ _ _ Hinv)), pte_at_tables. eauto. Qed.

(** The frame is requested with the table lock given up. *)
Lemma wp_getPages {B} (f : Z -> M kernel B) (Q : B -> kernel -> Prop) :
  frame_available k b st a -> swap_writes_ok v (bitmap_nbits b) ->
  (forall k1 b1 st1 i sw l, granted k b v st a k1 b1 st1 i sw -> k_as k1 !! a = Some (with_pt l A) ->
     l !! j = Some e -> wp (f (frame_paddr (k_cm k1) i)) Q k1) ->
  wp (release_pt_lock a ;; let* p := getPages 1 (pte_vaddr e) (Some a) in f p) Q (locked a A k).
Proof using Hinv Hq HA Hpl He Hm L.
  intros Hav Hw HQ. step. apply wp_unlock; [done|]. rewrite set_ases_id by done. step.
  eapply wp_mono; [eapply getPage_granted; eauto; apply aligned_even, page_aligned|].
  intros p k1 (i & b1 & st1 & sw & -> & Hg).
  destruct (gr_self _ _ _ _ _ _ _ _ _ _ Hg A HA) as [l Hl]. eapply HQ; [done..|].
  assert (Hpe : pte_at (tables_of k) a j = Some e) by (apply pte_at_tables; eauto).
  destruct (gr_pages _ _ _ _ _ _ _ _ _ _ Hg _ _ _ Hpe) as (e1 & Hpe1 & Hk).
  apply pte_at_tables in Hpe1 as (A1 & HA1 & He1). rewrite Hl in HA1. injection HA1 as <-.
  cbn in He1. rewrite He1. f_equal. by apply Hk.
Qed.

(** The frame has been filled and the entry written. *)
Lemma brought_in_map k1 b1 st1 i sw l m' w b2 :
  granted k b v st a k1 b1 st1 i sw -> k_as k1 !! a = Some (with_pt l A) ->
  (forall y, y < frame_paddr (k_cm k1) i \/ frame_paddr (k_cm k1) i + PAGE_SIZE <= y ->
     m' y = k_mem k1 y) ->
  swap_refines w (k_disk k1) b2 v (if pte_in_swap e then delete (pte_paddr e) st1 else st1) ->
  swap_lock w = None -> bitmap_nbits b2 = bitmap_nbits b1 ->
  page_source k st (as_v A) seg x e (event_of last e)
    (mem_read m' (frame_paddr (k_cm k1) i) (Z.to_nat PAGE_SIZE)) ->
  brought_in k b v st a A j e seg last x
    (locked a (with_pt (<[j := resident (frame_paddr (k_cm k1) i) e]> l) A)
      (set_stats (bumps (page_stats (event_of last e)))
        (set_mem (fun _ => m') (set_swap (fun _ => w) k1)))).
Proof using HA Hpl He Hm L.
  intros Hg Hl Hmem Hr Hwl Hnb Hsrc. eexists _, _, _, _, _, _, _.
  split; [symmetry; apply locked_twice|]. split; [kred; apply lookup_insert_eq|].
  split; [done|]. split; [|split; [reflexivity | exact Hsrc]].
  exact (paged_in_map k b v st a A j e k1 b1 st1 i sw (with_pt l A) m' w b2 (event_of last e)
    Hg HA He Hm Hl Hmem Hr Hwl Hnb).
Qed.

(** The page is in the swap file. *)
Lemma page_in_swap : pte_in_swap e = true ->
  frame_available k b st a -> swap_writes_ok v (bitmap_nbits b) ->
  wp (fault_page_in a seg last j (pte_vaddr e)) (fun _ => brought_in k b v st a A j e seg last x)
    (locked a A k).
Proof using Hinv Hq HA Hpl He Hm L.
  intros Hs Hav Hw. unfold fault_page_in. step. eapply wp_locked_get; [done|].
  rewrite Hm, Hs. cbn [negb]. step. apply wp_getPages; [done..|].
  intros k1 b1 st1 i sw l Hg Hl Hj. pose proof (gr_inv _ _ _ _ _ _ _ _ _ _ Hg) as Hinv1.
  pose proof (gr_quiet _ _ _ _ _ _ _ _ _ _ Hg) as [Q1 Q2 Q3 Q4 Q5].
  assert (Hpe : pte_at (tables_of k) a j = Some e) by (apply pte_at_tables; eauto).
  destruct (fo_pte _ _ _ _ _ (vi_frames _ _ _ _ _ Hinv) _ _ _ Hpe) as [_ Hok]. rewrite Hm, Hs in Hok.
  destruct Hok as [pg Hpg].
  assert (Hpg1 : st1 !! pte_paddr e = Some pg).
  { destruct (gr_pages _ _ _ _ _ _ _ _ _ _ Hg _ _ _ Hpe) as (e1 & _ & _ & _ & Heq & Hd).
    rewrite (Heq Hm) in Hd. unfold page_data in Hd. rewrite Hm, Hs, Hpg in Hd.
    destruct Hd as [->|(_ & ? & _)]; [done | congruence]. }
  destruct (sr_pages _ _ _ _ _ (vi_swap _ _ _ _ _ Hinv1) _ _ Hpg1) as [Hlen _].
  step. eapply wp_lock; [done..|]. step. eapply wp_locked_get; [done|]. step.
  eapply wp_mono; [eapply (swap_in_spec _ _ true); [apply Hinv1 | done..]|].
  intros r k2 (b2 & w & -> & -> & Hwl & Hnb & Hr). cbn [snd].
  assert (Hlt : (j < length l)%nat) by by eapply lookup_lt_Some.
  change (set_mem ?f (set_swap ?g (locked ?a ?B k1))) with (locked a B (set_mem f (set_swap g k1))).
  step. eapply wp_locked_get; [entry|]. step. eapply wp_locked_set; [entry|]. step.
  eapply wp_locked_get; [entry|]. step. eapply wp_locked_set; [entry|]. step.
  apply wp_vm_stats_inc; [done|]. apply wp_vm_stats_inc; [done|]. rewrite !locked_stats. step.
  eapply wp_locked_get; [entry|]. eapply wp_locked_set; [entry|].
  cbn [pt with_pt]. rewrite !list_insert_insert_eq, !with_pt_twice.
  pose proof (brought_in_map k1 b1 st1 i sw l (mem_write (k_mem k1) (frame_paddr (k_cm k1) i) pg) w b2)
    as Hb. unfold event_of in Hb. rewrite Hm, Hs in Hb. apply Hb; try done.
  - intros y Hy. apply mem_write_other. lia.
  - cbn. rewrite <- Hlen, Nat2Z.id, mem_read_write_same. done.
Qed.

(** The page has never been loaded: the entry gets its frame first. *)
Lemma page_in_fresh : pte_in_swap e = false ->
  frame_available k b st a -> swap_writes_ok v (bitmap_nbits b) -> as_v A <> v ->
  k_curproc k = Some (Some a) ->
  seg_ok seg -> 0 <= x < seg_npages seg -> pte_vaddr e = seg_start seg + x * PAGE_SIZE ->
  wp (fault_page_in a seg last j (pte_vaddr e)) (fun _ => brought_in k b v st a A j e seg last x)
    (locked a A k).
Proof using Hinv Hq HA Hpl He Hm L.
  intros Hs Hav Hw Hv Hcur Hseg Hx Hva. unfold fault_page_in. step. eapply wp_locked_get; [done|].
  assert (Hpe : pte_at (tables_of k) a j = Some e) by (apply pte_at_tables; eauto).
  destruct (fo_pte _ _ _ _ _ (vi_frames _ _ _ _ _ Hinv) _ _ _ Hpe) as [_ Hok]. rewrite Hm, Hs in Hok.
  rewrite Hm, Hs, Hok. cbn [negb Z.eqb]. step. step. apply wp_getPages; [done..|].
  intros k1 b1 st1 i sw l Hg Hl Hj. pose proof (gr_inv _ _ _ _ _ _ _ _ _ _ Hg) as Hinv1.
  pose proof (gr_quiet _ _ _ _ _ _ _ _ _ _ Hg) as [Q1 Q2 Q3 Q4 Q5].
  set (p := frame_paddr (k_cm k1) i) in *.
  assert (Hlt : (j < length l)%nat) by by eapply lookup_lt_Some.
  step. eapply wp_pt_get; [done..|]. step. eapply wp_pt_set; [done..|].
  eapply wp_lock; [kred; apply lookup_insert_eq | done | done |]. rewrite locked_twice. cbn [pt with_pt].
  rewrite with_pt_twice. step. eapply wp_locked_get; [entry|].
  pose proof (vi_frames _ _ _ _ _ Hinv1) as Hf1. pose proof (owned_lt _ _ _ (gr_own _ _ _ _ _ _ _ _ _ _ Hg)) as Hi.
  destruct (frame_paddr_range _ i (fo_cm _ _ _ _ _ Hf1) Hi) as [Hlo Hhi].
  pose proof (cm_base _ (fo_cm _ _ _ _ _ Hf1)) as Hb0. fold p in Hlo, Hhi.
  assert (Eres : forall q, with_in_mem true (with_paddr q e) = resident q e)
    by (intros q; unfold resident, with_in_mem; cbn; by rewrite Hs).
  pose proof (fun m => brought_in_map k1 b1 st1 i sw l m (k_swap k1) b1 Hg Hl) as Hb.
  fold p in Hb. unfold event_of in Hb. rewrite Hm, Hs in Hb.
  destruct last; cbn [negb].
  - step. step. rewrite locked_mem. cbn [pte_paddr with_paddr].
    apply wp_vm_stats_inc; [done|]. rewrite locked_stats. step.
    eapply wp_locked_get; [entry|]. eapply wp_locked_set; [entry|].
    cbn [pt with_pt]. rewrite list_insert_insert_eq, with_pt_twice, Eres.
    apply Hb; try done; [|apply Hinv1|].
    + intros y Hy. apply mem_write_other. rewrite length_replicate. lia.
    + cbn. rewrite <- (length_replicate (Z.to_nat PAGE_SIZE) 0) at 2. apply mem_read_write_same.
  - step. rewrite Hva. cbn [pte_paddr with_paddr].
    eapply wp_mono; [eapply load_elf_ondemand_spec; try done|].
    + lia.
    + unfold locked. kred. by rewrite (gr_curproc _ _ _ _ _ _ _ _ _ _ Hg).
    + apply locked_as.
    + intros r k2 (m & -> & Hmem & Hread). rewrite locked_mem. step.
      apply wp_vm_stats_inc; [done|]. apply wp_vm_stats_inc; [done|]. rewrite !locked_stats. step.
      eapply wp_locked_get; [entry|]. eapply wp_locked_set; [entry|].
      cbn [pt with_pt]. rewrite list_insert_insert_eq, with_pt_twice, Eres.
      apply Hb; try done; [apply Hinv1|].
      intros bs Hbs n c Hn. cbn in Hread.
      rewrite <- (gr_disk _ _ _ _ _ _ _ _ _ _ Hg) in Hbs by done. rewrite (Hread _ Hbs).
      destruct (ondemand_span_ok seg x Hseg Hx) as (mem & _ & Hm1 & Hm2 & Hm3 & Hm4).
      apply vop_read_length in Hbs; [|done]. pose proof (lookup_lt_Some _ _ _ Hn).
      rewrite mem_read_lookup by lia. f_equal.
      replace (p + Z.of_nat _) with (p + (page_span seg x).2 + Z.of_nat n) by lia.
      by apply mem_write_at.
Qed.
End PageIn.

(** The page is resident: there is nothing to do but to count. *)
Lemma page_in_reload k b v st a A j e seg last x :
  vm_inv k b v st None -> quiet k -> k_as k !! a = Some A -> pt_lock A = None ->
  pt A !! j = Some e -> pte_in_mem e = true ->
  wp (fault_page_in a seg last j (pte_vaddr e)) (fun _ => brought_in k b v st a A j e seg last x)
    (locked a A k).
Proof.
  intros Hinv Hq HA Hpl He Hm. assert (Hpe : pte_at (tables_of k) a j = Some e) by (apply pte_at_tables; eauto).
  pose proof (vi_frames _ _ _ _ _ Hinv) as Hf. pose proof (resident_not_swapped _ _ _ _ _ _ _ _ Hf Hpe Hm) as Hs.
  unfold fault_page_in. step. eapply wp_locked_get; [done|]. rewrite Hm. cbn [negb].
  apply wp_vm_stats_inc; [apply Hq|]. rewrite locked_stats.
  assert (Er : resident (pte_paddr e) e = e) by (destruct e; cbn in *; by subst).
  exists (set_stats (bump TLB_RELOAD) k), A, b, st, (pte_paddr e), false.
  eexists. split; [done|]. split; [done|]. split; [done|].
  unfold event_of. rewrite Hm, Er. split; [|split; [|]].
  - split; try done; rewrite ?Er; try done.
    + by destruct Hinv.
    + by destruct Hq.
    + intros a' j' e0 _ Hp0. exists e0. split; [done|].
      by apply (page_kept_grow _ _ _ _ _ _ _ _ _ None [] Hf Hp0).
    + intros A' HA'. exists (pt A'). by destruct A'.
  - unfold page_data. by rewrite Hm.
  - cbn. unfold page_data. by rewrite Hm.
Qed.

(** ** Finding the page *)

Lemma as_wf_lookup A j e : as_wf A -> pt A !! j = Some e ->
  layout (as_segment A) !! j = Some (pte_vaddr e, pte_rwx e).
Proof. intros H He. rewrite <- (aw_layout _ H), list_lookup_fmap, He. done. Qed.

Lemma find_page_spec a A k j e s l1 l2 (Q : Z -> kernel -> Prop) :
  as_wf A -> pt A !! j = Some e -> as_segment A = l1 ++ s :: l2 -> 0 <= seg_npages s ->
  (length (layout l1) <= j)%nat -> (j - length (layout l1) < Z.to_nat (seg_npages s))%nat ->
  Q (Z.of_nat j) (locked a A k) ->
  wp (find_page a (pte_vaddr e) (Z.of_nat (length (layout l1))) (seg_npages s)) Q (locked a A k).
Proof.
  intros Hwf He El Hn Hj1 Hj2 HQ. pose proof page_size_pos. unfold find_page.
  assert (Hlay : forall i, (i < Z.to_nat (seg_npages s))%nat -> exists ei,
    pt A !! (length (layout l1) + i)%nat = Some ei /\
    pte_vaddr ei = seg_start s + Z.of_nat i * PAGE_SIZE).
  { intros i Hi. pose proof (layout_segment l1 s l2 i Hi) as Hl. rewrite <- El, <- (aw_layout _ Hwf) in Hl.
    apply list_lookup_fmap_Some in Hl as (ei & [= Hv _] & Hei). eauto. }
  assert (Hlen : Z.of_nat (length (layout l1)) + seg_npages s < 2 ^ 32).
  { destruct (decide (seg_npages s = 0)); [lia|].
    destruct (Hlay (Z.to_nat (seg_npages s) - 1)%nat ltac:(lia)) as (ei & Hei & _).
    apply lookup_lt_Some in Hei. pose proof (aw_small _ Hwf). lia. }
  rewrite u32_small by lia. rewrite Nat2Z.id. step.
  apply (wp_for_break_hit _ _ j).
  - lia.
  - intros i Hi. destruct (Hlay (i - length (layout l1))%nat ltac:(lia)) as (ei & Hei & Hvi).
    destruct (Hlay (j - length (layout l1))%nat ltac:(lia)) as (ej & Hej & Hvj).
    replace (length (layout l1) + (i - length (layout l1)))%nat with i in Hei by lia.
    replace (length (layout l1) + (j - length (layout l1)))%nat with j in Hej by lia.
    rewrite He in Hej. injection Hej as <-.
    unfold pt_get, bind, as_get, ret. rewrite locked_as. cbn [pt with_pt_lock]. rewrite Hei.
    rewrite (proj2 (Z.eqb_neq _ _)); [done|]. rewrite Hvi, Hvj. nia.
  - step. eapply wp_locked_get; [done|]. step. split; [apply Z.eqb_refl|]. by step.
Qed.

(** ** The handler *)

(** A fault the handler can serve: the invariant holds and no lock is held,
    the faulting page is page [j] of the current address space, the TLB
    misses it, and if it is not resident a frame can be had for it. *)
Record fault_ready (k : kernel) (b : bitmap) (v : vnode) (st : gmap Z page) (a : asid)
    (A : addrspace) (j : nat) (e : pt_entry) (faultaddress : Z) : Prop := {
  fr_inv : vm_inv k b v st None;
  fr_quiet : quiet k;
  fr_curproc : k_curproc k = Some (Some a);
  fr_as : k_as k !! a = Some A;
  fr_lock : pt_lock A = None;
  fr_wf : as_wf A;
  fr_file : as_v A <> v;
  fr_page : pt A !! j = Some e;
  fr_addr : Z.land faultaddress PAGE_FRAME = pte_vaddr e;
  fr_miss : tlb_misses (tlb (k_tlb k)) (pte_vaddr e);
  fr_frame : pte_in_mem e = false -> frame_available k b st a;
  fr_device : swap_writes_ok v (bitmap_nbits b);
}.

(** The segment of the page and its position in it. *)
Definition page_in_segment (A : addrspace) (j : nat) (seg : segment_t) (last : bool) (x : Z) : Prop :=
  exists l1 l2, as_segment A = l1 ++ seg :: l2 /\ last = bool_decide (l2 = []) /\
    Z.of_nat j = Z.of_nat (length (layout l1)) + x /\ 0 <= x < seg_npages seg.

(** What is true after a fault has been served. *)
Record served (k : kernel) (b : bitmap) (v : vnode) (st : gmap Z page) (a : asid) (A : addrspace)
    (j : nat) (e : pt_entry) (k' : kernel) (b' : bitmap) (st' : gmap Z page) (p : Z) (pg : page)
    (seg : segment_t) (last : bool) (x : Z) (swapped free : bool) : Prop := {
  sv_inv : vm_inv k' b' v st' None;
  sv_quiet : quiet k';
  sv_cpu : k_cpu k' = k_cpu k;
  sv_curproc : k_curproc k' = k_curproc k;
  sv_nbits : bitmap_nbits b' = bitmap_nbits b;
  sv_disk : forall u off n, u <> v -> VOP_READ u off n (k_disk k') = VOP_READ u off n (k_disk k);
  sv_others_as : forall a', a' <> a -> k_as k' !! a' = k_as k !! a';
  sv_self : exists l, k_as k' !! a = Some (with_pt l A);
  sv_page : pte_at (tables_of k') a j = Some (resident p e);
  sv_tlb : tlb_maps (tlb (k_tlb k')) (pte_vaddr e) p (writable e);
  sv_data : mem_read (k_mem k') p (Z.to_nat PAGE_SIZE) = pg;
  sv_segment : page_in_segment A j seg last x;
  sv_source : page_source k st (as_v A) seg x e (event_of last e) pg;
  sv_others : forall a' j' e0, ~ (a' = a /\ j' = j) -> pte_at (tables_of k) a' j' = Some e0 ->
    exists e', pte_at (tables_of k') a' j' = Some e' /\ page_kept (k_mem k) st (k_mem k') st' e0 e';
  sv_stats : k_stats k' = bumps (fault_stats swapped (event_of last e) free) (k_stats k);
}.

Lemma vm_inv_stats f k b v st ex : vm_inv k b v st ex -> vm_inv (set_stats f k) b v st ex.
Proof. by intros []. Qed.

(** Entering the translation of a resident page. *)
Lemma vm_inv_loaded k b v st a j e p x free i w' :
  vm_inv k b v st None -> k_curproc k = Some (Some a) ->
  pte_at (tables_of k) a j = Some (resident p e) -> tlb_misses (tlb (k_tlb k)) (pte_vaddr e) ->
  loaded (pte_vaddr e) p (negb (writable e)) free i (k_tlb k) w' ->
  vm_inv (set_stats (bump x) (set_tlb (fun _ => w') k)) b v st None /\
  tlb_maps (tlb w') (pte_vaddr e) p (writable e).
Proof.
  intros [Hf Hsw Hn Ht Hrr Hc] Hcur Hp Hm Hl.
  destruct (fo_pte _ _ _ _ _ Hf _ _ _ Hp) as [[Hv Hal] [_ (f & Ho & Hpa & _)]]. cbn in Hv, Hal, Hpa.
  pose proof (fo_cm _ _ _ _ _ Hf) as Hwf. pose proof (owned_lt _ _ _ Ho) as Hlt.
  pose proof (frame_paddr_range _ _ Hwf Hlt). pose proof (cm_base _ Hwf). pose proof kseg0_range.
  pose proof page_size_pos.
  destruct (loaded_spec _ _ _ _ _ _ _ Hl Ht) as (Ht' & Hmap & Hold); try done.
  - apply land_page_frame_aligned; [lia | done].
  - lia.
  - rewrite Hpa. lia.
  - rewrite Hpa. by apply frame_paddr_aligned.
  - rewrite negb_involutive in *. split; [|done]. split; try done; [apply Hl|].
    intros a' Hcur' u q d Hmapd. cbn in Hcur'. rewrite Hcur in Hcur'. injection Hcur' as <-.
    destruct (Hold u q d Hmapd) as [(-> & -> & ->)|Hmapd'].
    + exists j, (resident p e). by repeat split.
    + by apply Hc.
Qed.

(** The page is in memory and its translation loaded: the fault is served. *)
Lemma served_by k b v st a A j e seg last x k1 b1 st1 p sw pg free i w' fa :
  fault_ready k b v st a A j e fa -> page_in_segment A j seg last x ->
  paged_in (set_stats (bump TLB_FAULT) k) b v st a j e sw (event_of last e) k1 b1 st1 p ->
  page_data (k_mem k1) st1 (resident p e) = Some pg -> page_source k st (as_v A) seg x e (event_of last e) pg ->
  loaded (pte_vaddr e) p (negb (writable e)) free i (k_tlb k1) w' ->
  served k b v st a A j e
    (set_stats (bump (if free then TLB_FAULT_WITH_FREE else TLB_FAULT_WITH_REPLACE)) (set_tlb (fun _ => w') k1))
    b1 st1 p pg seg last x sw free.
Proof.
  intros [Hinv Hq Hcur HA Hpl Hwf Hv He Hfa Hmiss Hav Hw] Hseg [I1 I2 I3 I4 I5 I6 I7 I8 I9 I10 I11 I12] Hdata Hsrc Hld.
  assert (Hpe : pte_at (tables_of k) a j = Some e) by (apply pte_at_tables; eauto).
  destruct (vm_inv_loaded k1 b1 v st1 a j e p
    (if free then TLB_FAULT_WITH_FREE else TLB_FAULT_WITH_REPLACE) free i w' I1) as [Hinv2 Hmap]; try done.
  { by rewrite I4. }
  { apply I12; [|done]. apply (fo_pte _ _ _ _ _ (vi_frames _ _ _ _ _ Hinv) _ _ _ Hpe). }
  split; try done.
  - by destruct I2.
  - by apply I11.
  - unfold page_data in Hdata. cbn in Hdata. by injection Hdata.
  - unfold fault_stats. cbn [bumps k_stats set_stats set_tlb]. rewrite I7, app_assoc, (bumps_app (_ ++ _)). by destruct free.
Qed.

Lemma vm_fault_served k b v st a A j e ft fa :
  fault_ready k b v st a A j e fa -> ft = VM_FAULT_READ \/ ft = VM_FAULT_WRITE ->
  wp (vm_fault ft fa) (fun r k' => r = OK /\ exists b' st' p pg seg last x sw free,
    served k b v st a A j e k' b' st' p pg seg last x sw free) k.
Proof.
  intros [Hinv Hq Hcur HA Hpl Hwf Hv He Hfa Hmiss Hav Hw] Hft. destruct fault_types as [Hft1 Hft2].
  assert (Hpe : pte_at (tables_of k) a j = Some e) by (apply pte_at_tables; eauto).
  unfold vm_fault. step. apply wp_vm_stats_inc; [apply Hq|]. rewrite Hfa. steps. kred. rewrite Hcur.
  unfold proc_getas. steps. kred. rewrite Hcur. cbn [mbind option_bind id].
  set (k0 := set_stats (bump TLB_FAULT) k). step. eapply wp_as_get; [done|].
  destruct (find_segment_spec 0 _ 0 j (pte_vaddr e) (pte_rwx e) (aw_segments _ Hwf)
    (as_wf_lookup _ _ _ Hwf He)) as (seg & l1 & l2 & El & Hfind & Hseg & Hj1 & Hj2 & Hvj);
    [lia | rewrite <- (aw_layout _ Hwf), length_fmap; apply Hwf|].
  rewrite Hfind. cbn [Z.add]. set (last := bool_decide (l2 = [])) in *.
  set (x := Z.of_nat (j - length (layout l1))) in *.
  step. eapply wp_lock; [done | done | apply Hq |]. step.
  eapply find_page_spec; [done | done | done | apply Hseg | done | done |].
  assert (Hlen : Z.of_nat (length (layout l1)) + seg_npages seg < 2 ^ 32).
  { pose proof (aw_small _ Hwf) as Hs. pose proof (f_equal length (aw_layout _ Hwf)) as E.
    rewrite El, layout_app, layout_cons, length_fmap, !length_app, length_pages_of in E. lia. }
  rewrite u32_small by (pose proof (so_npages _ Hseg); lia).
  rewrite (proj2 (Z.eqb_neq (Z.of_nat j) _)) by lia.
  rewrite (proj2 (Z.eqb_neq ft VM_FAULT_READONLY)) by (destruct Hft; congruence).
  rewrite (proj2 (orb_true_iff _ _)) by (rewrite !Z.eqb_eq; tauto).
  rewrite Nat2Z.id. step.
  assert (Hinv0 : vm_inv k0 b v st None) by by apply vm_inv_stats.
  assert (Hq0 : quiet k0) by (apply quiet_stats; [done | apply Hq]).
  apply (wp_mono _ (fun _ => brought_in k0 b v st a A j e seg last x)).
  { destruct (pte_in_mem e) eqn:Hm; [by apply page_in_reload|].
    destruct (pte_in_swap e) eqn:Hs; [apply page_in_swap | apply page_in_fresh]; auto; lia. }
  intros [] K' (k1 & A1 & b1 & st1 & p & sw & pg & -> & HA1 & Hpl1 & Hpi & Hdata & Hsrc).
  pose proof (pi_page _ _ _ _ _ _ _ _ _ _ _ _ _ Hpi) as Hp1.
  pose proof (pi_inv _ _ _ _ _ _ _ _ _ _ _ _ _ Hpi) as Hinv1.
  pose proof (pi_quiet _ _ _ _ _ _ _ _ _ _ _ _ _ Hpi) as Hq1.
  assert (He1 : pt A1 !! j = Some (resident p e))
    by (apply pte_at_tables in Hp1 as (A1' & HA1' & ?); congruence).
  step. eapply wp_locked_get; [done|]. step. cbn [pte_paddr pte_rwx resident].
  replace (Z.land (pte_rwx e) 2 =? 0) with (negb (writable e)) by apply negb_involutive.
  eapply wp_mono; [apply tlb_loadentry_run; [apply Hinv1 | apply Hq1]|].
  intros r k2 (-> & i & free & w' & -> & Hld). step.
  change (set_stats ?f (set_tlb ?g (locked a A1 k1))) with (locked a A1 (set_stats f (set_tlb g k1))).
  apply wp_unlock; [done|]. rewrite set_ases_id by done. step. split; [done|].
  exists b1, st1, p, pg, seg, last, x, sw, free. eapply (served_by k b v st a A); [by split| |done..].
  exists l1, l2. repeat split; try done; lia.
Qed.

(** ** What the executable says

    [file_image f d img len]: file [f] has at least [len] bytes, which are
    [img 0], [img 1] and so on. *)
Definition file_image (f : vnode) (d : disk) (img : Z -> Z) (len : Z) : Prop := forall off n, 0 <= off -> 0 <= n ->
  exists bs, VOP_READ f off n d = inr bs /\ Z.min n (len - off) <= Z.of_nat (length bs) /\
    forall i c, bs !! i = Some c -> c = img (off + Z.of_nat i).

(** The program header of a segment: [p_vaddr], and the addresses that are
    backed by the file. *)
Definition p_vaddr (seg : segment_t) : Z := seg_start seg + seg_initoffset seg.
Definition file_backed (seg : segment_t) (va : Z) : Prop := p_vaddr seg <= va < p_vaddr seg + seg_filesize seg.

Definition page_meant (k : kernel) (st : gmap Z page) (img : Z -> Z) (len : Z) (seg : segment_t) (x : Z)
    (e : pt_entry) (ev : page_event) (pg : page) : Prop :=
  match ev with
  | Reload => page_data (k_mem k) st e = Some pg
  | FromSwap => st !! pte_paddr e = Some pg
  | Zeroed => pg = replicate (Z.to_nat PAGE_SIZE) 0
  | FromElf => 0 <= seg_offset seg -> seg_offset seg + seg_filesize seg <= len -> x = 0 \/ seg_initoffset seg = 0 ->
      forall va, seg_start seg + x * PAGE_SIZE <= va < seg_start seg + (x + 1) * PAGE_SIZE -> file_backed seg va ->
      pg !! Z.to_nat (va - (seg_start seg + x * PAGE_SIZE)) = Some (img (seg_offset seg + (va - p_vaddr seg)))
  end.

Lemma page_source_meant k st f img len seg x e ev pg :
  seg_ok seg -> 0 <= x -> file_image f (k_disk k) img len ->
  page_source k st f seg x e ev pg -> page_meant k st img len seg x e ev pg.
Proof.
  intros Hok Hx Hf. destruct ev; cbn; try done. intros Hs Hoff Hlen Hal va Hva Hb. unfold file_backed, p_vaddr in *.
  pose proof page_size_pos. pose proof (so_initoffset _ Hok).
  assert (Hspan : exists o n i, page_span seg x = (o, n, i) /\ 0 <= o /\ 0 <= n /\ 0 <= i /\
    i <= va - (seg_start seg + x * PAGE_SIZE) /\
    o + (va - (seg_start seg + x * PAGE_SIZE) - i) = seg_offset seg + (va - p_vaddr seg) /\
    va - (seg_start seg + x * PAGE_SIZE) - i < Z.min n (len - o)).
  { unfold page_span, p_vaddr. destruct (Z.eqb_spec x 0) as [->|Hne]; [|destruct Hal as [|Hal]; [done|]];
      eexists _, _, _; (split; [reflexivity|]); nia. }
  destruct Hspan as (o & n & i & E & Ho & Hn & Hi & Hle & Heq & Hlt). rewrite E in Hs. cbn [fst snd] in Hs. unfold p_vaddr in Heq.
  destruct (Hf o n Ho Hn) as (bs & Hr & Hl & Himg).
  destruct (lookup_lt_is_Some_2 bs (Z.to_nat (va - (seg_start seg + x * PAGE_SIZE) - i))) as [c Hc]; [lia|].
  specialize (Hs bs Hr _ c Hc). rewrite (Himg _ _ Hc) in Hs. rewrite Z2Nat.id, Heq in Hs by lia. rewrite <- Hs. f_equal. lia.
Qed.

(** ** Properties *)

(** C6. A read or write fault on a page of the current process is served: the
    handler returns 0 with every lock released, the page is resident in a
    frame that the TLB now translates it to, writable exactly when the page
    is, and the invariant of the paging system holds again. *)
Theorem vm_fault_resolves k b v st a A j e ft fa :
  fault_ready k b v st a A j e fa -> ft = VM_FAULT_READ \/ ft = VM_FAULT_WRITE ->
  wp (vm_fault ft fa) (fun r k' => r = OK /\ exists b' st' p,
    vm_inv k' b' v st' None /\ quiet k' /\ k_cpu k' = k_cpu k /\
    pte_at (tables_of k') a j = Some (resident p e) /\
    tlb_maps (tlb (k_tlb k')) (Z.land fa PAGE_FRAME) p (writable e)) k.
Proof.
  intros Hr Hft. rewrite (fr_addr _ _ _ _ _ _ _ _ _ Hr).
  eapply wp_mono; [by apply vm_fault_served|].
  intros r k' (-> & b' & st' & p & pg & seg & last & x & sw & free & []). eauto 10.
Qed.

(** C7. The page holds what it should.  A resident page is untouched, a swapped
    page is what its slot of the swap file held, and a page of the last (stack)
    segment that was never touched is all zeroes.  Any other page is read from
    the executable: let the file hold the bytes [img].  Then every address of
    the page that the program header backs by the file, that is, those from
    [p_vaddr] to [p_vaddr] + [p_filesz], holds the byte of the file at
    [p_offset] + (address - [p_vaddr]), if the page is the first of its
    segment or the segment starts at a page boundary.  (Otherwise the code
    reads from the wrong offset, and it does not zero what lies beyond
    [p_filesz]: see [load_elf_wrong_offset] and [load_elf_no_zero_fill] in
    [Scenario.v].) *)
Theorem vm_fault_contents k b v st a A j e ft fa img len :
  fault_ready k b v st a A j e fa -> ft = VM_FAULT_READ \/ ft = VM_FAULT_WRITE ->
  file_image (as_v A) (k_disk k) img len ->
  wp (vm_fault ft fa) (fun _ k' => exists p seg last x,
    pte_at (tables_of k') a j = Some (resident p e) /\ page_in_segment A j seg last x /\
    page_meant k st img len seg x e (event_of last e)
      (mem_read (k_mem k') p (Z.to_nat PAGE_SIZE))) k.
Proof.
  intros Hr Hft Hf. eapply wp_mono; [by apply vm_fault_served|].
  intros r k' (-> & b' & st' & p & pg & seg & last & x & sw & free & Hs).
  pose proof (sv_data _ _ _ _ _ _ _ _ _ _ _ _ _ _ _ _ _ _ Hs). subst pg. destruct Hs.
  exists p, seg, last, x. split; [done|]. split; [done|]. destruct sv_segment0 as (l1 & l2 & El & _ & _ & Hx).
  eapply page_source_meant; try done; [|lia]. pose proof (aw_segments _ (fr_wf _ _ _ _ _ _ _ _ _ Hr)) as Hw.
  rewrite El in Hw. by eapply segs_from_ok.
Qed.


(** C34. The statistics stay consistent: if the report would carry no
    INCONSISTENCY line before a fault that is served, it carries none after
    it; the counters wrap around at 32 bits without harm. *)
Theorem vm_fault_statistics k b v st a A j e ft fa :
  fault_ready k b v st a A j e fa -> ft = VM_FAULT_READ \/ ft = VM_FAULT_WRITE ->
  stats_wf (k_stats k) -> counters_u32 (k_stats k) ->
  filter (fun l => is_inconsistency l = true) (report (k_stats k)) = [] ->
  wp (vm_fault ft fa) (fun _ k' => stats_wf (k_stats k') /\ counters_u32 (k_stats k') /\
    counter (k_stats k') TLB_FAULT = u32 (counter (k_stats k) TLB_FAULT + 1) /\
    filter (fun l => is_inconsistency l = true) (report (k_stats k')) = []) k.
Proof.
  intros Hr Hft Hwf Hu Hc. eapply wp_mono; [by apply vm_fault_served|].
  intros r k' (-> & b' & st' & p & pg & seg & last & x & sw & free & Hs).
  rewrite (sv_stats _ _ _ _ _ _ _ _ _ _ _ _ _ _ _ _ _ _ Hs).
  apply consistent_report in Hc. split; [by rewrite stats_wf_bumps|].
  split; [by apply counters_u32_bumps|]. split.
  - rewrite counter_bumps by auto. do 2 f_equal. by destruct sw, (event_of last e), free.
  - by apply consistent_report, consistent_fault.
Qed.

(** The state after the fault has been counted, and its page looked up in
    vain or found. *)
Lemma vm_fault_lookup k a A ft fa :
  quiet k -> k_curproc k = Some (Some a) -> k_as k !! a = Some A ->
  vm_fault ft fa k =
    match find_segment (Z.land fa PAGE_FRAME) (as_segment A) 0 with
    | None => Stop (Undef "seg->next") (set_stats (bump TLB_FAULT) k)
    | Some (seg, last, np) =>
        (acquire_pt_lock a ;;
         let* i := find_page a (Z.land fa PAGE_FRAME) np (seg_npages seg) in
         if i =? u32 (np + seg_npages seg) then
           release_pt_lock a ;; halt (Panic "pt with addr not initialized!")
         else if ft =? VM_FAULT_READONLY then
           release_pt_lock a ;; halt (Panic "vm: got VM_FAULT_READONLY")
         else if (ft =? VM_FAULT_READ) || (ft =? VM_FAULT_WRITE) then
           fault_page_in a seg last (Z.to_nat i) (Z.land fa PAGE_FRAME) ;;
           let* e := pt_get a (Z.to_nat i) in
           let* result := tlb_loadentry (Z.land fa PAGE_FRAME) (pte_paddr e) (Z.land (pte_rwx e) 2 =? 0) in
           release_pt_lock a ;;
           ret result
         else release_pt_lock a ;; ret (Err EINVAL)) (set_stats (bump TLB_FAULT) k)
    end.
Proof.
  intros Hq Hc HA. unfold vm_fault. rewrite (bind_Done _ _ _ _ _ (vm_stats_inc_ok TLB_FAULT k ltac:(apply Hq))).
  unfold bind at 1, gets at 1. kred. rewrite Hc. unfold bind at 1, proc_getas, gets at 1. kred. rewrite Hc.
  cbn [mbind option_bind id]. rewrite (bind_Done _ _ _ A (set_stats (bump TLB_FAULT) k)).
  - by destruct (find_segment _ _ _) as [[[seg last] np]|].
  - unfold as_get. kred. by rewrite HA.
Qed.

(** The number of pages up to the end of a segment does not wrap around. *)
Lemma segment_span_small A l1 s l2 : as_wf A -> as_segment A = l1 ++ s :: l2 -> 0 <= seg_npages s ->
  Z.of_nat (length (layout l1)) + seg_npages s <= Z.of_nat (length (pt A)) < 2 ^ 32.
Proof.
  intros Hwf El Hn. split; [|apply Hwf]. pose proof (f_equal length (aw_layout _ Hwf)) as E.
  rewrite El, layout_app, layout_cons, length_fmap, !length_app, length_pages_of in E. lia.
Qed.

(** A search in vain ends behind the last page of the segment. *)
Lemma find_page_miss a A k fa l1 s l2 :
  as_wf A -> as_segment A = l1 ++ s :: l2 -> 0 <= seg_npages s ->
  (forall j e, pt A !! j = Some e -> pte_vaddr e <> fa) ->
  find_page a fa (Z.of_nat (length (layout l1))) (seg_npages s) (locked a A k)
  = Done (Z.of_nat (length (layout l1)) + seg_npages s) (locked a A k).
Proof.
  intros Hwf El Hn Hno. pose proof (segment_span_small _ _ _ _ Hwf El Hn). unfold find_page.
  rewrite u32_small by lia.
  rewrite (bind_Done _ _ _ None (locked a A k)).
  - unfold ret. f_equal. lia.
  - rewrite (for_break_search _ _ (fun _ => false)).
    + f_equal. apply (list_find_seq_None (fun _ => false)). done.
    + intros i Hi%elem_of_seq. destruct (lookup_lt_is_Some_2 (pt A) i ltac:(lia)) as [e He].
      unfold pt_get, bind, as_get, ret. rewrite locked_as. cbn [pt with_pt_lock]. rewrite He.
      rewrite (proj2 (Z.eqb_neq _ _)); [done|]. eauto.
Qed.

Lemma acquire_pt_lock_run a A k : k_as k !! a = Some A -> pt_lock A = None -> lockable k ->
  acquire_pt_lock a k = Done tt (locked a A k).
Proof.
  intros HA Hl Ht. pose proof (wp_lock a A k (fun _ k' => k' = locked a A k) HA Hl Ht eq_refl) as H.
  apply wp_Done in H as ([] & k' & -> & ->). done.
Qed.

Lemma release_pt_lock_run a A k : k_as k !! a = Some A -> pt_lock A = None ->
  release_pt_lock a (locked a A k) = Done tt k.
Proof.
  intros HA Hl. pose proof (wp_unlock a A k (fun _ k' => k' = k) Hl (set_ases_id _ _ _ HA)) as H.
  apply wp_Done in H as ([] & k' & -> & ->). done.
Qed.

(** The fault is on no page. *)
Lemma vm_fault_unmapped k a A ft fa :
  quiet k -> k_curproc k = Some (Some a) -> k_as k !! a = Some A -> pt_lock A = None -> as_wf A ->
  as_segment A <> [] -> (forall j e, pt A !! j = Some e -> pte_vaddr e <> Z.land fa PAGE_FRAME) ->
  vm_fault ft fa k = Stop (Panic "pt with addr not initialized!") (set_stats (bump TLB_FAULT) k).
Proof.
  intros Hq Hc HA Hpl Hwf Hne Hno. rewrite (vm_fault_lookup k a A) by done.
  destruct (find_segment_total (as_segment A) 0 (Z.land fa PAGE_FRAME)) as (s & l1 & l2 & El & ->);
    [done | by eapply segs_from_npages, Hwf | lia |
     rewrite <- (aw_layout _ Hwf), length_fmap; apply Hwf |].
  assert (Hn : 0 <= seg_npages s).
  { pose proof (segs_from_npages _ _ (aw_segments _ Hwf)) as Hall. rewrite El in Hall.
    by apply Forall_app, proj2, Forall_cons in Hall as [? _]. }
  pose proof (segment_span_small _ _ _ _ Hwf El Hn). cbn [Z.add].
  rewrite (bind_Done _ _ _ _ _ (acquire_pt_lock_run a A (set_stats _ k) HA Hpl (q_lockable _ Hq))).
  rewrite (bind_Done _ _ _ _ _ (find_page_miss a A _ _ _ _ _ Hwf El Hn Hno)).
  rewrite u32_small, Z.eqb_refl by lia.
  by rewrite (bind_Done _ _ _ _ _ (release_pt_lock_run a A (set_stats (bump TLB_FAULT) k) HA Hpl)).
Qed.

(** The page exists, but the fault is neither a read nor a write. *)
Lemma vm_fault_other_type k a A j e ft fa :
  quiet k -> k_curproc k = Some (Some a) -> k_as k !! a = Some A -> pt_lock A = None -> as_wf A ->
  pt A !! j = Some e -> pte_vaddr e = Z.land fa PAGE_FRAME ->
  (ft =? VM_FAULT_READ) || (ft =? VM_FAULT_WRITE) = false ->
  vm_fault ft fa k =
    if ft =? VM_FAULT_READONLY
    then Stop (Panic "vm: got VM_FAULT_READONLY") (set_stats (bump TLB_FAULT) k)
    else Done (Err EINVAL) (set_stats (bump TLB_FAULT) k).
Proof.
  intros Hq Hc HA Hpl Hwf He Hfa Hrw. rewrite (vm_fault_lookup k a A) by done.
  destruct (find_segment_spec 0 _ 0 j (pte_vaddr e) (pte_rwx e) (aw_segments _ Hwf)
    (as_wf_lookup _ _ _ Hwf He)) as (seg & l1 & l2 & El & Hfind & Hseg & Hj1 & Hj2 & Hvj);
    [lia | rewrite <- (aw_layout _ Hwf), length_fmap; apply Hwf|].
  rewrite <- Hfa, Hfind. cbn [Z.add]. pose proof (so_npages _ Hseg) as Hn.
  pose proof (segment_span_small _ _ _ _ Hwf El Hn). set (k0 := set_stats _ k).
  rewrite (bind_Done _ _ _ _ _ (acquire_pt_lock_run a A k0 HA Hpl (q_lockable _ Hq))).
  pose proof (find_page_spec a A k0 j e seg l1 l2
    (fun i k' => i = Z.of_nat j /\ k' = locked a A k0) Hwf He El Hn Hj1 Hj2 (conj eq_refl eq_refl)) as Hp.
  apply wp_Done in Hp as (i & k' & Hp & -> & ->). rewrite (bind_Done _ _ _ _ _ Hp), Hrw.
  rewrite (proj2 (Z.eqb_neq (Z.of_nat j) _)) by (rewrite u32_small; lia).
  destruct (ft =? VM_FAULT_READONLY);
    by rewrite (bind_Done _ _ _ _ _ (release_pt_lock_run a A k0 HA Hpl)).
Qed.

(** C35. The error paths.  A fault without a process, or without an address
    space, is EFAULT; a fault at an address that is on no page of the address
    space, and a write to a page the TLB has as read-only, end in a panic; a
    fault type that does not exist is EINVAL.  In every case all that has
    changed is that the fault was counted, and no lock is left held. *)
Theorem vm_fault_errors k ft fa :
  quiet k ->
  let k0 := set_stats (bump TLB_FAULT) k in
  (k_curproc k = None \/ k_curproc k = Some None -> vm_fault ft fa k = Done (Err EFAULT) k0) /\
  (forall a A, k_curproc k = Some (Some a) -> k_as k !! a = Some A -> pt_lock A = None -> as_wf A ->
    (as_segment A <> [] ->
     (forall j e, pt A !! j = Some e -> pte_vaddr e <> Z.land fa PAGE_FRAME) ->
     vm_fault ft fa k = Stop (Panic "pt with addr not initialized!") k0) /\
    (forall j e, pt A !! j = Some e -> pte_vaddr e = Z.land fa PAGE_FRAME ->
     (ft = VM_FAULT_READONLY -> vm_fault ft fa k = Stop (Panic "vm: got VM_FAULT_READONLY") k0) /\
     (ft <> VM_FAULT_READ -> ft <> VM_FAULT_WRITE -> ft <> VM_FAULT_READONLY ->
      vm_fault ft fa k = Done (Err EINVAL) k0))).
Proof.
  intros Hq k0. destruct fault_types as [F1 F2]. split.
  - intros Hc. unfold vm_fault.
    rewrite (bind_Done _ _ _ _ _ (vm_stats_inc_ok TLB_FAULT k ltac:(apply Hq))).
    unfold bind at 1, gets at 1. kred. destruct Hc as [->|E]; [done|]. rewrite E.
    unfold bind, proc_getas, gets. kred. by rewrite E.
  - intros a A Hc HA Hpl Hwf. split; [by apply (vm_fault_unmapped k a A)|].
    intros j e He Hfa. split.
    + intros ->. rewrite (vm_fault_other_type k a A j e); try done; [by rewrite Z.eqb_refl|].
      by rewrite (proj2 (Z.eqb_neq _ _) F1), (proj2 (Z.eqb_neq _ _) F2).
    + intros H1 H2 H3. rewrite (vm_fault_other_type k a A j e); try done.
      * by rewrite (proj2 (Z.eqb_neq _ _) H3).
      * by rewrite (proj2 (Z.eqb_neq _ _) H1), (proj2 (Z.eqb_neq _ _) H2).
Qed.

(** The books do not close over the error paths: the fault has been counted
    but neither its TLB refill nor its page, so a report that was consistent
    carries an INCONSISTENCY line afterwards. *)
Lemma vm_fault_error_unbalanced k ft fa :
  quiet k -> k_curproc k = None -> stats_wf (k_stats k) -> counters_u32 (k_stats k) ->
  filter (fun l => is_inconsistency l = true) (report (k_stats k)) = [] ->
  wp (vm_fault ft fa) (fun r k' => r = Err EFAULT /\
    filter (fun l => is_inconsistency l = true) (report (k_stats k')) <> []) k.
Proof.
  intros Hq Hc Hwf Hu Hcons%consistent_report. unfold vm_fault. step.
  apply wp_vm_stats_inc; [apply Hq|]. steps. kred. rewrite Hc. step. split; [done|].
  intros (H & _ & _)%consistent_report. destruct Hcons as (H1 & _ & _).
  cbn [k_stats set_stats] in H.
  rewrite !counter_bump in H by done. rewrite decide_True, !decide_False in H by done.
  rewrite <- H1 in H. pose proof (Hu TLB_FAULT) as Hr. unfold u32 in *.
  pose proof (Z.mod_pos_bound (counter (k_stats k) TLB_FAULT) (2 ^ 32) ltac:(lia)).
  rewrite Hr in *. destruct (decide (counter (k_stats k) TLB_FAULT = 2 ^ 32 - 1)) as [E|].
  - rewrite E in H. done.
  - rewrite Z.mod_small in H; lia.
Qed.
End Theorems.
