(* ===== verification/Runs.v ===== *)
(** A process on top of demand paging.

    The machine translates every access of a process through the TLB and
    calls [vm_fault] when it has no translation.  This file composes the two
    ([user_access], [user_load], [user_store]) and proves that a process
    cannot tell that it is being paged: any sequence of loads and stores
    gives the results of a flat memory that is filled from the executable,
    with zeroes in the stack segment, whatever is evicted and reloaded in
    between.  The proof also shows that every fault on the way can be served:
    with a swap device that has room for every page there always is a frame
    to be had. *)

From Stdlib Require Import ZArith Lia.
From stdpp Require Import base list gmap strings.
From S2P Require Import Prelude Platform State Synch VmStats Tlb LoadSegment Swap Coremap Frames.
From S2P Require Import Paging Segments VmFault.
Local Open Scope Z_scope.

(** ** Room for every page *)

(** The number of pages of all tables, from their lengths. *)
Definition capacity (lens : gmap asid nat) : nat := sum_list (map_to_list lens).*2.

Definition all_entries (tb : gmap asid (list pt_entry)) : list pt_entry := mjoin (map_to_list tb).*2.

Lemma length_all_entries tb : length (all_entries tb) = capacity (length <$> tb).
Proof.
  unfold all_entries, capacity. rewrite length_join, map_to_list_fmap.
  f_equal. rewrite <- !list_fmap_compose. by apply list_fmap_ext.
Qed.

Lemma elem_of_all_entries tb e : e ∈ all_entries tb <-> exists a j, pte_at tb a j = Some e.
Proof.
  unfold all_entries. rewrite list_elem_of_join. split.
  - intros (l & He & ([a l'] & -> & Hl%elem_of_map_to_list)%list_elem_of_fmap).
    apply list_elem_of_lookup in He as [j Hj]. exists a, j. unfold pte_at. by rewrite Hl.
  - intros (a & j & H). unfold pte_at in H. destruct (tb !! a) as [l|] eqn:Ha; [|done].
    exists l. split; [by eapply list_elem_of_lookup_2|]. apply list_elem_of_fmap. exists (a, l).
    split; [done|]. by apply elem_of_map_to_list.
Qed.

Lemma size_list_to_set_le (l : list Z) : (size (list_to_set l : gset Z) <= length l)%nat.
Proof.
  induction l as [|x l IH]; [done|]. cbn. destruct (decide (x ∈ (list_to_set l : gset Z))) as [Hx|Hx].
  - replace ({[x]} ∪ list_to_set l : gset Z) with (list_to_set l : gset Z) by set_solver. lia.
  - rewrite size_union, size_singleton by set_solver. lia.
Qed.

Section Room.
Context {P : Platform} {L : PlatformLaws P}.

(** While a page is resident, fewer slots are in use than there are pages. *)
Lemma store_below_capacity c tb st n ex a j e :
  frames_ok c tb st n ex -> pte_at tb a j = Some e -> pte_in_mem e = true ->
  (size st < capacity (length <$> tb))%nat.
Proof.
  intros H Hp Hm. pose proof (resident_not_swapped _ _ _ _ _ _ _ _ H Hp Hm) as Hs.
  set (slots := pte_paddr <$> filter (fun e => pte_in_swap e = true) (all_entries tb)).
  assert (Hsub : dom st ⊆ list_to_set slots).
  { intros s Hss%elem_of_dom. apply elem_of_list_to_set, list_elem_of_fmap.
    destruct (fo_exact _ _ _ _ _ H _ Hss) as (a' & j' & e' & Hp' & Hs' & <-).
    exists e'. split; [done|]. apply list_elem_of_filter. split; [done|].
    apply elem_of_all_entries. eauto. }
  apply subseteq_size in Hsub. rewrite size_dom in Hsub.
  pose proof (size_list_to_set_le slots) as Hle. unfold slots in Hle at 2.
  rewrite length_fmap in Hle.
  assert (Hlt : (length (filter (fun e => pte_in_swap e = true) (all_entries tb)) < length (all_entries tb))%nat).
  { apply length_filter_lt with e; [|congruence]. apply elem_of_all_entries. eauto. }
  rewrite <- length_all_entries. lia.
Qed.
End Room.

(** ** Accesses of a process *)

Section Accesses.
Context {P : Platform}.

(** The translation of a user address: frame and whether it may be written. *)
Definition translate (t : tlb_hw) (va : Z) : option (Z * bool) :=
  let i := tlb_probe (Z.land va PAGE_FRAME) t in
  if 0 <=? i then
    let elo := (tlb_read t (Z.to_nat i)).2 in
    if is_valid elo then Some (Z.land elo PAGE_FRAME, is_dirty elo) else None
  else None.

(** A translated access; a write through a read-only entry is a fault. *)
Definition translated (write : bool) (va : Z) (tr : Z * bool) : M kernel Z :=
  if write && negb tr.2 then
    let* _r := vm_fault VM_FAULT_READONLY va in halt (Panic "Fatal exception")
  else ret (tr.1 + va mod PAGE_SIZE).

(** The physical address of an access, with the fault it may take first. *)
Definition user_access (write : bool) (va : Z) : M kernel Z :=
  let* t := gets (fun k => tlb (k_tlb k)) in
  match translate t va with
  | Some tr => translated write va tr
  | None =>
      let* r := vm_fault (if write then VM_FAULT_WRITE else VM_FAULT_READ) va in
      match r with
      | Err _ => halt (Panic "Fatal exception")
      | OK =>
          let* t := gets (fun k => tlb (k_tlb k)) in
          match translate t va with
          | Some tr => translated write va tr
          | None => halt (Loops "fault")
          end
      end
  end.

Definition user_load (va : Z) : M kernel Z :=
  let* p := user_access false va in gets (fun k => k_mem k p).

Definition user_store (va c : Z) : M kernel unit :=
  let* p := user_access true va in modify (set_mem (fun m => mem_write m p [c])).

(** A program as its accesses: offset [off] of page [j]. *)
Inductive access := Load (j off : nat) | Store (j off : nat) (c : Z).

Definition vaddr_of (A : addrspace) (j off : nat) : Z :=
  match pt A !! j with Some e => pte_vaddr e + Z.of_nat off | None => 0 end.

Fixpoint run (A : addrspace) (prog : list access) : M kernel (list Z) :=
  match prog with
  | [] => ret []
  | Load j off :: prog =>
      let* c := user_load (vaddr_of A j off) in
      let* cs := run A prog in ret (c :: cs)
  | Store j off c :: prog => user_store (vaddr_of A j off) c ;; run A prog
  end.

(** The same on a flat memory of pages. *)
Definition memory := nat -> page.

Fixpoint flat_run (mem : memory) (prog : list access) : list Z * memory :=
  match prog with
  | [] => ([], mem)
  | Load j off :: prog =>
      let '(cs, mem') := flat_run mem prog in (default 0 (mem j !! off) :: cs, mem')
  | Store j off c :: prog =>
      flat_run (fun i => if decide (i = j) then <[off := c]> (mem j) else mem i) prog
  end.

(** What page [j] holds when it has just been loaded: zeroes in the last
    segment, else a whole page of the executable. *)
Definition fresh_contents (d : disk) (A : addrspace) (j : nat) (pg : page) : Prop :=
  forall seg last x, page_in_segment A j seg last x ->
    if last : bool then pg = replicate (Z.to_nat PAGE_SIZE) 0
    else VOP_READ (as_v A) (page_span seg x).1.1 (page_span seg x).1.2 d = inr pg /\
         (page_span seg x).2 = 0 /\ Z.of_nat (length pg) = PAGE_SIZE.

(** The pages [D] of the address space hold what the flat memory says. *)
Definition holds (k : kernel) (st : gmap Z page) (a : asid) (A : addrspace) (D : nat -> Prop)
    (mem : memory) : Prop :=
  forall j e, D j -> pte_at (tables_of k) a j = Some e ->
    Z.of_nat (length (mem j)) = PAGE_SIZE /\
    match page_data (k_mem k) st e with
    | Some pg => pg = mem j
    | None => fresh_contents (k_disk k) A j (mem j)
    end /\
    (writable e = false -> fresh_contents (k_disk k) A j (mem j)).

(** The state of the system while the process [a] runs; [A] is its address
    space at some earlier time. *)
Record running (k : kernel) (b : bitmap) (v : vnode) (st : gmap Z page) (a : asid) (A : addrspace)
    (D : nat -> Prop) (mem : memory) : Prop := {
  rn_inv : vm_inv k b v st None;
  rn_quiet : quiet k;
  rn_curproc : k_curproc k = Some (Some a);
  rn_as : exists l, k_as k !! a = Some (with_pt l A) /\
    (fun e => (pte_vaddr e, pte_rwx e)) <$> l = (fun e => (pte_vaddr e, pte_rwx e)) <$> pt A;
  rn_lock : pt_lock A = None;
  rn_wf : as_wf A;
  rn_file : as_v A <> v;
  rn_device : swap_writes_ok v (bitmap_nbits b);
  rn_room : Z.of_nat (capacity (length <$> tables_of k)) <= bitmap_nbits b;
  rn_frame : (exists i, frame_free (k_cm k) i) \/ (exists i, owned_by (k_cm k) a i);
  rn_holds : holds k st a A D mem;
}.

(** The accesses are to pages in [D], at offsets inside the page, and stores
    only to writable pages. *)
Definition allowed (A : addrspace) (D : nat -> Prop) (x : access) : Prop :=
  match x with
  | Load j off => D j /\ (Z.of_nat off < PAGE_SIZE) /\ exists e, pt A !! j = Some e
  | Store j off _ => D j /\ (Z.of_nat off < PAGE_SIZE) /\ exists e, pt A !! j = Some e /\ writable e = true
  end.
End Accesses.

Section Theorems.
Context {P : Platform} {L : PlatformLaws P}.
Implicit Types (k : kernel).

(** ** Translation *)

Lemma land_page_twice va : Z.land (Z.land va PAGE_FRAME) PAGE_FRAME = Z.land va PAGE_FRAME.
Proof. by rewrite <- Z.land_assoc, Z.land_diag. Qed.

Lemma translate_Some t va p d : translate t va = Some (p, d) ->
  tlb_maps t (Z.land va PAGE_FRAME) p d.
Proof.
  unfold translate. destruct (Z.leb_spec 0 (tlb_probe (Z.land va PAGE_FRAME) t)) as [Hi|]; [|done].
  destruct (is_valid _) eqn:Hv; [|done]. intros [= <- <-].
  destruct (tlb_probe_hit _ _ Hi) as [Hlt Hp]. rewrite land_page_twice in Hp.
  eexists. split; [exact Hlt|]. split; [done|]. split; [done|]. split; done.
Qed.

Lemma translate_None t va : tlb_wf t -> Z.land va PAGE_FRAME < MIPS_KSEG0 ->
  translate t va = None -> tlb_misses t (Z.land va PAGE_FRAME).
Proof.
  intros Hwf Hk. unfold translate.
  destruct (Z.leb_spec 0 (tlb_probe (Z.land va PAGE_FRAME) t)) as [Hi|Hi].
  - destruct (is_valid _) eqn:Hv; [done|]. intros _. exfalso.
    destruct (tlb_probe_hit _ _ Hi) as [Hlt Hp]. rewrite land_page_twice in Hp.
    pose proof (tlb_slots _ Hwf _ Hlt) as Hs. unfold slot_wf, slot_valid in Hs. rewrite Hv in Hs.
    destruct (tlbhi_invalid_page _ Hlt). lia.
  - intros _ i Hlt. rewrite <- land_page_twice. by apply tlb_probe_miss.
Qed.

Lemma translate_maps t va p d : tlb_wf t -> tlb_maps t (Z.land va PAGE_FRAME) p d ->
  translate t va = Some (p, d).
Proof.
  intros Hwf (i & Hi & Hv & Hp & Hf & Hd). unfold translate.
  destruct (Z.leb_spec 0 (tlb_probe (Z.land va PAGE_FRAME) t)) as [Hi'|Hi'].
  - destruct (tlb_probe_hit _ _ Hi') as [Hlt Hp']. rewrite land_page_twice in Hp'.
    rewrite <- (tlb_unique _ Hwf i (Z.to_nat (tlb_probe (Z.land va PAGE_FRAME) t))) by congruence.
    unfold slot_valid in Hv. rewrite Hv. congruence.
  - exfalso. apply (tlb_probe_miss t (Z.land va PAGE_FRAME) i Hi' Hi). by rewrite land_page_twice.
Qed.

(** ** The page table of a running process *)

Section Running.
Context (k : kernel) (b : bitmap) (v : vnode) (st : gmap Z page) (a : asid) (A : addrspace)
  (D : nat -> Prop) (mem : memory).
Hypothesis (Hrun : running k b v st a A D mem).

Lemma running_page j e : pt A !! j = Some e ->
  exists e', pte_at (tables_of k) a j = Some e' /\ pte_vaddr e' = pte_vaddr e /\ pte_rwx e' = pte_rwx e.
Proof using Hrun.
  intros He. destruct (rn_as _ _ _ _ _ _ _ _ Hrun) as (l & Hl & El).
  assert (Hj : ((fun e => (pte_vaddr e, pte_rwx e)) <$> l) !! j = Some (pte_vaddr e, pte_rwx e))
    by (rewrite El, list_lookup_fmap, He; done).
  apply list_lookup_fmap_Some in Hj as (e' & [= E1 E2] & He'). exists e'.
  split; [|done]. apply pte_at_tables. eauto.
Qed.

(** Two pages of the process at one address are the same page. *)
Lemma running_page_inj j j' e e' : pte_at (tables_of k) a j = Some e ->
  pte_at (tables_of k) a j' = Some e' -> pte_vaddr e = pte_vaddr e' -> j = j'.
Proof using Hrun L.
  intros (A1 & HA1 & He)%pte_at_tables (A2 & HA2 & He')%pte_at_tables E.
  destruct (rn_as _ _ _ _ _ _ _ _ Hrun) as (l & Hl & El). rewrite Hl in HA1, HA2.
  injection HA1 as <-. injection HA2 as <-. cbn in He, He'.
  pose proof (rn_wf _ _ _ _ _ _ _ _ Hrun) as Hwf.
  eapply layout_inj; [apply Hwf | |]; rewrite <- (aw_layout _ Hwf), <- El, list_lookup_fmap.
  - rewrite He. reflexivity.
  - rewrite He'. cbn. by rewrite E.
Qed.

(** A frame can always be had. *)
Lemma running_available : frame_available k b st a.
Proof using Hrun L.
  destruct (rn_frame _ _ _ _ _ _ _ _ Hrun) as [?|[i Hi]]; [by left|]. right. split; [eauto|].
  pose proof (vi_frames _ _ _ _ _ (rn_inv _ _ _ _ _ _ _ _ Hrun)) as Hf.
  destruct (fo_owned _ _ _ _ _ Hf a i Hi ltac:(done)) as (j & e & Hp & Hm & _).
  pose proof (store_below_capacity _ _ _ _ _ _ _ _ Hf Hp Hm).
  pose proof (rn_room _ _ _ _ _ _ _ _ Hrun). lia.
Qed.

Lemma running_fault_ready j e va l : k_as k !! a = Some (with_pt l A) -> l !! j = Some e ->
  (fun e => (pte_vaddr e, pte_rwx e)) <$> l = (fun e => (pte_vaddr e, pte_rwx e)) <$> pt A ->
  Z.land va PAGE_FRAME = pte_vaddr e -> translate (tlb (k_tlb k)) va = None ->
  fault_ready k b v st a (with_pt l A) j e va.
Proof using Hrun L.
  intros Hl He El Hva Htr. pose proof Hrun as [Hinv Hq Hcur _ Hlk Hwf Hfile Hdev _ _ _].
  assert (Hp : pte_at (tables_of k) a j = Some e) by (apply pte_at_tables; eauto).
  destruct (fo_pte _ _ _ _ _ (vi_frames _ _ _ _ _ Hinv) _ _ _ Hp) as [[Hv _] _].
  split; try done.
  - by apply as_wf_same.
  - rewrite <- Hva. apply translate_None; [apply Hinv | lia | done].
  - intros _. apply running_available.
Qed.
End Running.

(** ** A served fault keeps the process running *)

Lemma fresh_contents_disk d d' v A j pg : as_v A <> v ->
  (forall u off n, u <> v -> VOP_READ u off n d' = VOP_READ u off n d) ->
  fresh_contents d A j pg -> fresh_contents d' A j pg.
Proof.
  intros Hv Hd H seg last x Hx. specialize (H seg last x Hx). destruct last; [done|].
  by rewrite (Hd _ _ _ Hv).
Qed.

(** Where the page comes from, it is what the flat memory has. *)
Lemma source_is_memory k st A j e seg last x pg mg :
  page_source k st (as_v A) seg x e (event_of last e) pg -> page_in_segment A j seg last x ->
  length pg = Z.to_nat PAGE_SIZE -> Z.of_nat (length mg) = PAGE_SIZE ->
  match page_data (k_mem k) st e with
  | Some pg => pg = mg
  | None => fresh_contents (k_disk k) A j mg
  end -> pg = mg.
Proof.
  intros Hsrc Hx Hlen Hmg Hd. unfold event_of, page_source in Hsrc. unfold page_data in *.
  destruct (pte_in_mem e); [by injection Hsrc as <-|].
  destruct (pte_in_swap e); [by rewrite Hsrc in Hd|].
  specialize (Hd _ _ _ Hx). destruct last; [congruence|].
  destruct Hd as (Hrd & Hin & Hl). specialize (Hsrc _ Hrd). rewrite Hin in Hsrc. cbn in Hsrc.
  symmetry. apply list_eq_same_length with (length pg); [done | lia |].
  intros i y z Hi Hy Hz. specialize (Hsrc _ _ Hy). pose proof (eq_trans (eq_sym Hz) Hsrc) as E. by injection E.
Qed.

Lemma served_tables k b v st a A j e k' b' st' p pg seg last x sw free :
  served k b v st a A j e k' b' st' p pg seg last x sw free -> vm_inv k b v st None ->
  k_as k !! a = Some A -> pt A !! j = Some e ->
  exists l, k_as k' !! a = Some (with_pt l A) /\
    (fun e => (pte_vaddr e, pte_rwx e)) <$> l = (fun e => (pte_vaddr e, pte_rwx e)) <$> pt A /\
    length <$> tables_of k' = length <$> tables_of k.
Proof.
  intros Hs Hinv HA He. destruct (sv_self _ _ _ _ _ _ _ _ _ _ _ _ _ _ _ _ _ _ Hs) as [l Hl].
  exists l. split; [done|].
  assert (Hlen : length l = length (pt A)).
  { pose proof (sv_page _ _ _ _ _ _ _ _ _ _ _ _ _ _ _ _ _ _ Hs) as Hj.
    apply pte_at_tables in Hj as (A' & HA' & Hj). rewrite Hl in HA'. injection HA' as <-.
    pose proof (table_ok_npages _ _ _ (vi_npages _ _ _ _ _ Hinv _ _ HA) He) as E1.
    pose proof (table_ok_npages _ _ _ (vi_npages _ _ _ _ _
      (sv_inv _ _ _ _ _ _ _ _ _ _ _ _ _ _ _ _ _ _ Hs) _ _ Hl) Hj) as E2.
    cbn in E2. lia. }
  split.
  - apply list_eq_same_length with (length l); [by rewrite !length_fmap | by rewrite length_fmap |].
    intros i y z _ Hy Hz. apply list_lookup_fmap_Some in Hy as (e' & -> & He').
    apply list_lookup_fmap_Some in Hz as (e0 & -> & He0).
    assert (Hp' : pte_at (tables_of k') a i = Some e') by (apply pte_at_tables; eauto).
    assert (Hp0 : pte_at (tables_of k) a i = Some e0) by (apply pte_at_tables; eauto).
    destruct (decide (i = j)) as [->|Hne].
    + rewrite (sv_page _ _ _ _ _ _ _ _ _ _ _ _ _ _ _ _ _ _ Hs) in Hp'. injection Hp' as <-.
      rewrite He in He0. by injection He0 as <-.
    + destruct (sv_others _ _ _ _ _ _ _ _ _ _ _ _ _ _ _ _ _ _ Hs a i e0 ltac:(tauto) Hp0)
        as (e1 & Hp1 & E1 & E2 & _). rewrite Hp' in Hp1. injection Hp1 as <-. congruence.
  - apply map_eq. intros a'. unfold tables_of. rewrite !lookup_fmap.
    destruct (decide (a' = a)) as [->|Hne].
    + rewrite HA, Hl. cbn. by rewrite Hlen.
    + by rewrite (sv_others_as _ _ _ _ _ _ _ _ _ _ _ _ _ _ _ _ _ _ Hs).
Qed.

Lemma served_running k b v st a A D mem l j e k' b' st' p pg seg last x sw free :
  running k b v st a A D mem -> k_as k !! a = Some (with_pt l A) -> l !! j = Some e ->
  (fun e => (pte_vaddr e, pte_rwx e)) <$> l = (fun e => (pte_vaddr e, pte_rwx e)) <$> pt A ->
  served k b v st a (with_pt l A) j e k' b' st' p pg seg last x sw free ->
  running k' b' v st' a A D mem.
Proof.
  intros Hrun Hl He El Hs. pose proof Hrun as [Hinv Hq Hcur _ Hlk Hwf Hfile Hdev Hroom _ Hh].
  destruct (served_tables _ _ _ _ _ _ _ _ _ _ _ _ _ _ _ _ _ _ Hs Hinv Hl He) as (l' & Hl' & El' & Elen).
  pose proof (sv_page _ _ _ _ _ _ _ _ _ _ _ _ _ _ _ _ _ _ Hs) as Hpj.
  pose proof (sv_disk _ _ _ _ _ _ _ _ _ _ _ _ _ _ _ _ _ _ Hs) as Hdisk.
  pose proof (sv_inv _ _ _ _ _ _ _ _ _ _ _ _ _ _ _ _ _ _ Hs) as Hinv'.
  assert (Hp : pte_at (tables_of k) a j = Some e) by (apply pte_at_tables; eauto).
  split; try done.
  - apply Hs.
  - by rewrite (sv_curproc _ _ _ _ _ _ _ _ _ _ _ _ _ _ _ _ _ _ Hs).
  - exists l'. split; [done|]. cbn in El'. congruence.
  - by rewrite (sv_nbits _ _ _ _ _ _ _ _ _ _ _ _ _ _ _ _ _ _ Hs).
  - by rewrite Elen, (sv_nbits _ _ _ _ _ _ _ _ _ _ _ _ _ _ _ _ _ _ Hs).
  - right. destruct (resident_frame _ _ _ _ _ _ _ _ (vi_frames _ _ _ _ _ Hinv') Hpj eq_refl)
      as (i & Hi & _). eauto.
  - intros j0 e0 HD H0. destruct (decide (j0 = j)) as [->|Hne].
    + rewrite Hpj in H0. injection H0 as <-. destruct (Hh j e HD Hp) as (Hlen & Hd & Hro).
      split; [done|]. split.
      * unfold page_data. cbn. pose proof (sv_data _ _ _ _ _ _ _ _ _ _ _ _ _ _ _ _ _ _ Hs) as Epg.
        rewrite Epg. eapply source_is_memory;
          [apply (sv_source _ _ _ _ _ _ _ _ _ _ _ _ _ _ _ _ _ _ Hs)
          | apply (sv_segment _ _ _ _ _ _ _ _ _ _ _ _ _ _ _ _ _ _ Hs) | | exact Hlen | exact Hd].
        rewrite <- Epg. apply length_mem_read.
      * intros Hw. eapply fresh_contents_disk; [done..|]. apply Hro. done.
    + assert (exists e1, pte_at (tables_of k) a j0 = Some e1) as [e1 H1].
      { pose proof (f_equal (fun m => m !! a) Elen) as Ea. unfold tables_of in Ea.
        rewrite !lookup_fmap, Hl, Hl' in Ea. cbn in Ea. injection Ea as Ea.
        apply pte_at_tables in H0 as (A0 & HA0 & H0). rewrite Hl' in HA0. injection HA0 as <-.
        apply lookup_lt_Some in H0. cbn in H0. rewrite Ea in H0.
        apply lookup_lt_is_Some in H0 as [e1 H1]. exists e1. apply pte_at_tables. eauto. }
      destruct (sv_others _ _ _ _ _ _ _ _ _ _ _ _ _ _ _ _ _ _ Hs a j0 e1 ltac:(tauto) H1)
        as (e2 & H2 & Hk2). rewrite H0 in H2. injection H2 as <-. destruct Hk2 as (_ & Erwx & _ & Hkept).
      destruct (Hh j0 e1 HD H1) as (Hlen & Hd & Hro). split; [done|].
      assert (Ew : writable e0 = writable e1) by (unfold writable; by rewrite Erwx).
      split; [|rewrite Ew; intros Hw; eapply fresh_contents_disk; eauto].
      destruct Hkept as [->|(Hw & _ & ->)].
      * destruct (page_data _ _ _); [done|]. by eapply fresh_contents_disk.
      * eapply fresh_contents_disk; eauto.
Qed.

(** ** Accesses *)

Lemma page_offset va off : 0 <= va < MIPS_KSEG0 -> va mod PAGE_SIZE = 0 -> 0 <= off < PAGE_SIZE ->
  Z.land (va + off) PAGE_FRAME = va /\ (va + off) mod PAGE_SIZE = off.
Proof.
  intros Hv Ha Hoff. pose proof kseg0_range. pose proof page_size_range.
  assert (Em : (va + off) mod PAGE_SIZE = off)
    by (rewrite Zplus_mod, Ha, Z.add_0_l, Zmod_mod; by apply Z.mod_small).
  split; [|done]. rewrite land_page_frame; [lia|].
  destruct page_size_pow2 as (n & Hn & En). split; [lia|].
  assert (MIPS_KSEG0 + 0 <= 2 ^ 32) by lia.
  (* the page of [va] ends at or below 2 ^ 32 *)
  apply Z.mod_divide in Ha as [q Eq]; [|lia].
  assert (E32 : 2 ^ 32 = 2 ^ (32 - n) * PAGE_SIZE).
  { rewrite En, <- Z.pow_add_r by lia. f_equal. lia. }
  assert (q < 2 ^ (32 - n)) by nia. nia.
Qed.

(** The outcome of a translated access. *)
Lemma run_translated k w va p d : (w = true -> d = true) ->
  translated w va (p, d) k = Done (p + va mod PAGE_SIZE) k.
Proof. intros Hw. unfold translated. destruct w; [|done]. by rewrite (Hw eq_refl). Qed.

(** What an access of process [a] may do besides: nothing, or serve a fault. *)
Definition accessed k (b : bitmap) (v : vnode) (st : gmap Z page) (a : asid) k' (b' : bitmap) (st' : gmap Z page) : Prop :=
  (k' = k /\ b' = b /\ st' = st) \/
  exists A j e p pg seg last x sw free, k_as k !! a = Some A /\ served k b v st a A j e k' b' st' p pg seg last x sw free.

Lemma run_access k b v st a A D mem w j e off :
  running k b v st a A D mem -> pt A !! j = Some e -> 0 <= off < PAGE_SIZE ->
  (w = true -> writable e = true) ->
  wp (user_access w (pte_vaddr e + off)) (fun pa k' => exists b' st' e',
    running k' b' v st' a A D mem /\ pte_at (tables_of k') a j = Some e' /\
    pte_in_mem e' = true /\ writable e' = writable e /\ pa = pte_paddr e' + off /\ accessed k b v st a k' b' st') k.
Proof.
  intros Hrun He Hoff Hw. pose proof Hrun as [Hinv Hq Hcur [l [Hl El]] _ _ _ _ _ _ _].
  assert (Hlj : exists el, l !! j = Some el /\ pte_vaddr el = pte_vaddr e /\ pte_rwx el = pte_rwx e).
  { assert (Hj : ((fun e => (pte_vaddr e, pte_rwx e)) <$> l) !! j = Some (pte_vaddr e, pte_rwx e))
      by (rewrite El, list_lookup_fmap, He; done).
    apply list_lookup_fmap_Some in Hj as (el & [= E1 E2] & Hel). eauto. }
  destruct Hlj as (el & Hel & Ev & Erwx). rewrite <- Ev.
  assert (Ew : writable el = writable e) by (unfold writable; by rewrite Erwx). rewrite <- Ew in *.
  assert (Hp : pte_at (tables_of k) a j = Some el) by (apply pte_at_tables; eauto).
  destruct (fo_pte _ _ _ _ _ (vi_frames _ _ _ _ _ Hinv) _ _ _ Hp) as [[Hv Hal] _].
  destruct (page_offset _ _ Hv Hal Hoff) as [Hpage Hmod].
  unfold user_access. steps. destruct (translate _ _) as [[p d]|] eqn:Htr.
  - apply translate_Some in Htr. rewrite Hpage in Htr.
    destruct (vi_coherent _ _ _ _ _ Hinv a Hcur _ _ _ Htr) as (j' & e' & Hp' & Hv' & Hm' & Hpa & Hd).
    assert (j' = j) as -> by (eapply running_page_inj; eauto).
    rewrite Hp in Hp'. injection Hp' as <-.
    eapply wp_eq; [apply run_translated; by rewrite Hd|]. exists b, st, el.
    rewrite Hmod, Hpa. do 4 (split; [done|]). split; [done|]. by left.
  - step. eapply wp_mono.
    { eapply vm_fault_served; [by eapply running_fault_ready|]. destruct w; tauto. }
    intros r k' (-> & b' & st' & p & pg & seg & last & x & sw & free & Hs).
    pose proof (served_running _ _ _ _ _ _ _ _ _ _ _ _ _ _ _ _ _ _ _ _ _ Hrun Hl Hel El Hs) as Hrun'.
    steps. rewrite (translate_maps _ _ p (writable el)).
    + eapply wp_eq; [by apply run_translated|]. exists b', st', (resident p el).
      split; [done|]. split; [apply Hs|]. rewrite Hmod. do 3 (split; [done|]). right. by exists (with_pt l A), j, el, p, pg, seg, last, x, sw, free.
    + apply Hrun'.
    + rewrite Hpage. apply Hs.
Qed.

(** A resident page of a running process holds its part of the flat memory. *)
Lemma running_resident k b v st a A D mem j e :
  running k b v st a A D mem -> D j -> pte_at (tables_of k) a j = Some e -> pte_in_mem e = true ->
  mem_read (k_mem k) (pte_paddr e) (Z.to_nat PAGE_SIZE) = mem j.
Proof.
  intros Hrun HD Hp Hm. destruct (rn_holds _ _ _ _ _ _ _ _ Hrun j e HD Hp) as (_ & Hd & _).
  unfold page_data in Hd. by rewrite Hm in Hd.
Qed.

(** A store into one page is seen in no other page of any process. *)
Lemma store_elsewhere k b v st a j e a' j' e' off c :
  vm_inv k b v st None -> pte_at (tables_of k) a j = Some e -> pte_in_mem e = true ->
  pte_at (tables_of k) a' j' = Some e' -> ~ (a' = a /\ j' = j) -> Z.of_nat off < PAGE_SIZE ->
  page_data (mem_write (k_mem k) (pte_paddr e + Z.of_nat off) [c]) st e' = page_data (k_mem k) st e'.
Proof.
  intros Hinv Hp Hm Hp' Hne Hoff. unfold page_data. destruct (pte_in_mem e') eqn:Hm'; [|done]. f_equal.
  apply mem_read_write_other. pose proof (vi_frames _ _ _ _ _ Hinv) as Hf. cbn [length].
  destruct (resident_frame _ _ _ _ _ _ _ _ Hf Hp Hm) as (i & Hi & Ei & _).
  destruct (resident_frame _ _ _ _ _ _ _ _ Hf Hp' Hm') as (i' & Hi' & Ei' & _).
  assert (i <> i').
  { intros ->. destruct (fo_inj _ _ _ _ _ Hf _ _ _ _ _ _ Hp Hp' Hm Hm') as [? ?]; [congruence|]. apply Hne. by subst. }
  destruct (frame_paddr_disjoint (k_cm k) i i'); eauto using owned_lt, fo_cm; lia.
Qed.

Lemma running_store k b v st a A D mem j e off c :
  running k b v st a A D mem -> D j -> pte_at (tables_of k) a j = Some e -> pte_in_mem e = true ->
  writable e = true -> Z.of_nat off < PAGE_SIZE ->
  running (set_mem (fun m => mem_write m (pte_paddr e + Z.of_nat off) [c]) k) b v st a A D
    (fun i => if decide (i = j) then <[off := c]> (mem j) else mem i).
Proof.
  intros Hrun HD Hp Hm Hw Hoff. pose proof Hrun as [Hinv Hq Hcur Hl Hlk Hwf Hfile Hdev Hroom Hfr Hh].
  split; try done; [by destruct Hinv | by destruct Hq |].
  intros j0 e0 HD0 Hp0. change (pte_at (tables_of k) a j0 = Some e0) in Hp0. kred.
  cbv beta.
  destruct (Hh j0 e0 HD0 Hp0) as (Hlen & Hd & Hro). destruct (decide (j0 = j)) as [->|Hne].
  - rewrite Hp in Hp0. injection Hp0 as <-. rewrite length_insert. split; [done|].
    split; [|congruence]. unfold page_data in *. rewrite Hm in *.
    rewrite mem_read_write_byte by lia. by rewrite Hd.
  - split; [done|]. split; [|done].
    by rewrite (store_elsewhere k b v st a j e a j0 e0) by (done || tauto).
Qed.

(** One load and one store. *)
Lemma user_load_spec k b v st a A D mem j e off :
  running k b v st a A D mem -> D j -> pt A !! j = Some e -> Z.of_nat off < PAGE_SIZE ->
  wp (user_load (pte_vaddr e + Z.of_nat off)) (fun c k' => c = default 0 (mem j !! off) /\
    exists b' st', running k' b' v st' a A D mem) k.
Proof.
  intros Hrun HD He Hoff. unfold user_load. step.
  eapply wp_mono; [eapply (run_access _ _ _ _ _ _ _ _ false); [done | done | lia | done]|].
  intros pa k1 (b1 & st1 & e1 & Hrun1 & Hp1 & Hm1 & _ & -> & _). steps. split; [|by eauto].
  rewrite <- (running_resident _ _ _ _ _ _ _ _ _ _ Hrun1 HD Hp1 Hm1). by rewrite mem_read_lookup by lia.
Qed.

Lemma user_store_spec k b v st a A D mem j e off c :
  running k b v st a A D mem -> D j -> pt A !! j = Some e -> writable e = true -> Z.of_nat off < PAGE_SIZE ->
  wp (user_store (pte_vaddr e + Z.of_nat off) c) (fun _ k' => exists b' st',
    running k' b' v st' a A D (fun i => if decide (i = j) then <[off := c]> (mem j) else mem i)) k.
Proof.
  intros Hrun HD He Hw Hoff. unfold user_store. step.
  eapply wp_mono; [eapply (run_access _ _ _ _ _ _ _ _ true); [done | done | lia | done]|].
  intros pa k1 (b1 & st1 & e1 & Hrun1 & Hp1 & Hm1 & Hw1 & -> & _). step. exists b1, st1.
  by apply running_store; rewrite ?Hw1.
Qed.

Lemma vaddr_of_page A j e off : pt A !! j = Some e -> vaddr_of A j off = pte_vaddr e + Z.of_nat off.
Proof. intros He. unfold vaddr_of. by rewrite He. Qed.

(** C1. Paging is invisible to the process.  Any sequence of loads and stores
    to pages whose initial contents are determined (stack pages, pages that
    have been loaded, whole pages of the executable) runs to the end, every
    fault on the way being served, and every load gives what a flat memory
    would give; afterwards the pages hold what the flat memory holds,
    wherever they are. *)
Theorem paging_transparent k b v st a A D mem prog :
  running k b v st a A D mem -> Forall (allowed A D) prog ->
  wp (run A prog) (fun out k' => out = (flat_run mem prog).1 /\ exists b' st',
    running k' b' v st' a A D (flat_run mem prog).2) k.
Proof.
  revert k b st mem. induction prog as [|x prog IH]; intros k b st mem Hrun Hall; [by cbn; eauto|].
  apply Forall_cons in Hall as [Hx Hall]. destruct x as [j off|j off c]; cbn [run flat_run].
  - destruct Hx as (HD & Hoff & e & He). rewrite (vaddr_of_page _ _ _ _ He). step.
    eapply wp_mono; [by eapply user_load_spec|]. intros c k1 (-> & b1 & st1 & Hrun1). step.
    eapply wp_mono; [by eapply IH|]. intros out k2 (-> & Hrun2).
    destruct (flat_run mem prog) as [cs mem'] eqn:Ef. by apply wp_ret.
  - destruct Hx as (HD & Hoff & e & He & Hw). rewrite (vaddr_of_page _ _ _ _ He). step.
    eapply wp_mono; [by eapply user_store_spec|]. intros [] k1 (b1 & st1 & Hrun1). by eapply IH.
Qed.
End Theorems.
