(* ===== verification/AddrSpace.v ===== *)
(** Address spaces ([vm/addrspace.c], [vm/pt.c]): creation, regions, the page
    table, copying and destruction, the kernel page allocator and the start
    of the paging system.

    An address space is known by the heap block of its structure.  Fields the
    code does not initialise hold what the block happened to hold. *)

From Stdlib Require Import ZArith Lia.
From stdpp Require Import base list gmap strings.
From S2P Require Import Prelude Platform State Synch VmStats Tlb LoadSegment Swap Coremap Frames.
From S2P Require Import Paging Segments VmFault.
Local Open Scope Z_scope.

Definition STACKPAGES : Z := 18.

Section AddrSpace.
Context {P : Platform}.

(** ** [pt.c]

    Each look-up returns its result and the value stored through the pointer
    argument, if any. *)

Definition getPageV (vaddr : Z) : M kernel (Z * option nat) :=
  let* o := proc_getas in
  match o with
  | None => ret (0, None)
  | Some a =>
      acquire_pt_lock a ;;
      let* A := as_get a in
      let* hit := for_break (seq 0 (Z.to_nat (npages A))) (fun i =>
        let* e := pt_get a i in ret (pte_vaddr e =? vaddr)) in
      release_pt_lock a ;;
      ret (-1, hit)
  end.

Definition getPageP (paddr : Z) : M kernel (Z * option nat) :=
  let* o := proc_getas in
  match o with
  | None => ret (0, None)
  | Some a =>
      acquire_pt_lock a ;;
      let* A := as_get a in
      let* hit := for_break (seq 0 (Z.to_nat (npages A))) (fun i =>
        let* e := pt_get a i in ret (pte_paddr e =? paddr)) in
      release_pt_lock a ;;
      ret (-1, hit)
  end.

Definition getPageVtoP (vaddr : Z) : M kernel (Z * option Z) :=
  let* o := proc_getas in
  match o with
  | None => ret (0, None)
  | Some a =>
      let* l := checkcanLock in
      (if l =? 0 then acquire_pt_lock a else ret tt) ;;
      let* A := as_get a in
      let* hit := for_break (seq 0 (Z.to_nat (npages A))) (fun i =>
        let* e := pt_get a i in ret (pte_vaddr e =? vaddr)) in
      let* paddr := match hit with
                    | None => ret None
                    | Some i => let* e := pt_get a i in ret (Some (pte_paddr e))
                    end in
      (if l =? 0 then release_pt_lock a else ret tt) ;;
      ret (-1, paddr)
  end.

(** This loop has no [break]: the last match is stored. *)
Fixpoint last_match (a : asid) (paddr : Z) (idx : list nat) (found : option Z) : M kernel (option Z) :=
  match idx with
  | [] => ret found
  | i :: idx =>
      let* e := pt_get a i in
      last_match a paddr idx (if pte_paddr e =? paddr then Some (pte_vaddr e) else found)
  end.

Definition getPagePtoV (paddr : Z) : M kernel (Z * option Z) :=
  let* o := proc_getas in
  match o with
  | None => ret (0, None)
  | Some a =>
      acquire_pt_lock a ;;
      let* A := as_get a in
      let* vaddr := last_match a paddr (seq 0 (Z.to_nat (npages A))) None in
      release_pt_lock a ;;
      ret (-1, vaddr)
  end.

(** ** Creation and regions *)

(** The result is the pointer and the value left in [*retVal]. *)
Definition as_create (prog_name : string) : M kernel (option asid * rc) :=
  can_sleep ;;
  let* h0 := gets k_heap in
  let* as_ := kmallocM in
  match as_ with
  | None => ret (None, Err ENOMEM)
  | Some a =>
      let* d := gets k_disk in
      match vfs_open prog_name d with
      | inl _ => ret (None, Err ENOENT)
      | inr (v, d) =>
          modify (set_disk d) ;;
          let* name := kstrdupM in
          let* lk := lock_create in
          match lk with
          | None =>
              modify (fun k => set_disk (vfs_close v (k_disk k)) k) ;;
              kfreeM a ;;
              ret (None, Err ENOMEM)
          | Some lk =>
              as_set a (mk_addrspace 0 [] [] v (heap_word h0 a) None lk
                          ((fun p => (p, prog_name)) <$> name)) ;;
              ret (Some a, OK)
          end
      end
  end.

Definition as_define_region (a : asid) (vaddr memsize filesize readable writeable executable offset : Z)
    : M kernel rc :=
  let* node := kmallocM in
  match node with
  | None => ret (Err ENOMEM)
  | Some node =>
      let memsize := u32 (memsize + Z.ldiff vaddr PAGE_FRAME) in
      let memsize := Z.land (u32 (memsize + PAGE_SIZE - 1)) PAGE_FRAME in
      let seg := mk_segment node (Z.land vaddr PAGE_FRAME) memsize filesize (memsize / PAGE_SIZE)
                   (Z.lor (Z.lor (Z.land readable 4) (Z.land writeable 2)) (Z.land executable 1))
                   offset (Z.ldiff vaddr PAGE_FRAME) in
      let* A := as_get a in
      as_set a (with_segments (as_segment A ++ [seg]) A) ;;
      ret OK
  end.

(** The entries of one segment; the result is the next index. *)
Fixpoint fill_pages (a : asid) (n : nat) (v rwx : Z) (j : nat) : M kernel nat :=
  match n with
  | O => ret j
  | S n => pt_set a j (mk_pt_entry 0 v false false rwx) ;;
           fill_pages a n (u32 (v + PAGE_SIZE)) rwx (S j)
  end.

Fixpoint fill_table (a : asid) (segs : list segment_t) (j : nat) : M kernel unit :=
  match segs with
  | [] => ret tt
  | s :: segs =>
      let* j := fill_pages a (Z.to_nat (seg_npages s)) (seg_start s) (seg_rwx s) j in
      fill_table a segs j
  end.

Definition sum_npages (segs : list segment_t) : Z :=
  foldl (fun n s => u32 (n + seg_npages s)) 0 segs.

Definition as_prepare_load (a : asid) : M kernel rc :=
  let size := u32 (STACKPAGES * PAGE_SIZE) in
  let* r := as_define_region a (u32 (USERSTACK - size)) size size PF_R PF_W 0 0 in
  match r with
  | Err _ => ret (Err ENOMEM)
  | OK =>
      let* A := as_get a in
      as_set a (with_npages (sum_npages (as_segment A)) A) ;;
      acquire_pt_lock a ;;
      let* ptloc := ptAlloc (sum_npages (as_segment A)) in
      if ptloc =? 0 then ret (Err ENOMEM)
      else
        let* A := as_get a in
        as_set a (with_table (PADDR_TO_KVADDR ptloc)
                    (replicate (Z.to_nat (npages A)) (mk_pt_entry 0 0 false false 0)) A) ;;
        fill_table a (as_segment A) 0 ;;
        release_pt_lock a ;;
        ret OK
  end.

Definition as_complete_load (a : asid) : M kernel rc := ret OK.

(** The result is the return code and the stack pointer. *)
Definition as_define_stack (a : asid) : M kernel (rc * Z) := ret (OK, USERSTACK).

(** ** Switching *)

Definition as_activate : M kernel unit :=
  let* o := proc_getas in
  match o with
  | None => ret tt
  | Some _ => tlb_invalidate
  end.

Definition as_deactivate : M kernel unit := ret tt.

(** ** Destruction *)

Definition as_destroy (a : asid) : M kernel unit :=
  can_sleep ;;
  let* A := as_get a in
  modify (fun k => set_disk (vfs_close (as_v A) (k_disk k)) k) ;;
  for_each (seg_node <$> as_segment A) kfreeM ;;
  acquire_pt_lock a ;;
  for_each (seq 0 (Z.to_nat (npages A))) (fun i =>
    let* e := pt_get a i in
    if pte_in_swap e then clear_swap (pte_paddr e) else ret tt) ;;
  release_pt_lock a ;;
  lock_destroy (pt_lock_h A) ;;
  freepages (u32 (as_pt A - MIPS_KSEG0)) ;;
  freeAs a ;;
  kfreeM a ;;
  modify (set_ases (delete a)).

(** ** Copying *)

(** The copy of the segment list; [false] when the heap is exhausted. *)
Fixpoint copy_segments (newas : asid) (segs : list segment_t) : M kernel bool :=
  match segs with
  | [] => ret true
  | s :: segs =>
      let* node := kmallocM in
      match node with
      | None => ret false
      | Some node =>
          let new_seg := mk_segment node (seg_start s) (seg_size s) (seg_filesize s) (seg_npages s)
                           (seg_rwx s) (seg_offset s) (seg_initoffset s) in
          let* A := as_get newas in
          as_set newas (with_segments (as_segment A ++ [new_seg]) A) ;;
          copy_segments newas segs
      end
  end.

(** One round of the loop over the pages; an error number leaves the loop. *)
Definition copy_page (old newas : asid) (i : nat) : M kernel rc :=
  let* o := pt_get old i in
  let* e := pt_get newas i in
  pt_set newas i (mk_pt_entry (pte_paddr e) (pte_vaddr o) false false (pte_rwx o)) ;;
  if pte_in_swap o then
    let* paddr := getPages 1 (pte_vaddr o) (Some newas) in
    let* e := pt_get newas i in
    let* r := swap_in (pte_paddr e) paddr false in
    let* e := pt_get newas i in
    pt_set newas i (with_paddr r.2 e) ;;
    match r.1 with
    | Err err => ret (Err err)
    | OK =>
        let* e := pt_get newas i in
        pt_set newas i (with_in_mem true (with_in_swap false e)) ;;
        ret OK
    end
  else if pte_in_mem o then
    let* paddr := getPages 1 (pte_vaddr o) (Some newas) in
    let* o := pt_get old i in
    modify (set_mem (fun m => mem_write m paddr (mem_read m (pte_paddr o) (Z.to_nat PAGE_SIZE)))) ;;
    let* e := pt_get newas i in
    pt_set newas i (with_in_mem true (with_paddr paddr e)) ;;
    ret OK
  else
    let* e := pt_get newas i in
    pt_set newas i (with_paddr 0 e) ;;
    ret OK.

Fixpoint copy_pages (old newas : asid) (idx : list nat) : M kernel rc :=
  match idx with
  | [] => ret OK
  | i :: idx =>
      let* r := copy_page old newas i in
      match r with OK => copy_pages old newas idx | Err e => ret (Err e) end
  end.

(** The result is the return code and the value stored in [*ret]. *)
Definition as_copy (old : asid) : M kernel (rc * option asid) :=
  let* O := as_get old in
  match progname O with
  | None => halt (Undef "vfs_open(NULL)")
  | Some (_, name) =>
      let* r := as_create name in
      match r with
      | (None, err) => ret (err, None)
      | (Some newas, _) =>
          acquire_pt_lock old ;;
          let* ok := copy_segments newas (as_segment O) in
          if negb ok then ret (Err ENOMEM, None)
          else
            let* N := as_get newas in
            as_set newas (with_npages (npages O) N) ;;
            let* ptloc := ptAlloc (npages O) in
            if ptloc =? 0 then ret (Err ENOMEM, None)
            else
              let* N := as_get newas in
              let* m := gets k_mem in
              as_set newas (with_table (PADDR_TO_KVADDR ptloc)
                ((fun i => let '(p, v, inm, ins, rwx) := pte_raw m ptloc i in mk_pt_entry p v inm ins rwx)
                   <$> seq 0 (Z.to_nat (npages N))) N) ;;
              let* r := copy_pages old newas (seq 0 (Z.to_nat (npages N))) in
              match r with
              | Err e => ret (Err e, None)
              | OK => release_pt_lock old ;; ret (OK, Some newas)
              end
      end
  end.

(** ** Kernel pages *)

(** The conversion to [int]. *)
Definition to_int (n : Z) : Z := if u32 n <? 2 ^ 31 then u32 n else u32 n - 2 ^ 32.

Definition getppages (npages : Z) : M kernel Z :=
  let* addr := getPages (to_int npages) 0 None in
  if addr =? 0 then
    spinlock_acquire k_stealmem_lock set_stealmem_lock "stealmem_lock" ;;
    let* r := gets k_ram in
    modify (set_ram (ram_stealmem npages r).2) ;;
    spinlock_release set_stealmem_lock ;;
    ret (ram_stealmem npages r).1
  else ret addr.

Definition alloc_kpages (npages : Z) : M kernel Z :=
  can_sleep ;;
  let* pa := getppages npages in
  if pa =? 0 then ret 0 else ret (PADDR_TO_KVADDR pa).

Definition free_kpages (addr : Z) : M kernel unit :=
  let* active := isCoremapActive in
  if active : bool then
    let* r := getPageVtoP addr in
    if 0 <? r.1 then
      match r.2 with
      | Some paddr => freepages paddr
      | None => halt (Undef "paddr")
      end
    else if r.1 =? 0 then freepages (u32 (addr - MIPS_KSEG0))
    else halt (Panic "vaddr not found in the page table")
  else ret tt.

(** ** Start *)

Definition vm_bootstrap : M kernel unit := vm_stats_init ;; swapmap_init ;; coremap_init.
End AddrSpace.
