(* ===== verification/KernelPages.v ===== *)
(** The page table look-ups of [vm/pt.c] and the kernel page allocator
    ([alloc_kpages], [free_kpages] of [vm/addrspace.c]).

    The look-ups overwrite the result of a successful search, so they report
    a failure for every process that has an address space; [free_kpages]
    turns that into a panic.  For kernel threads allocation and release are
    inverse to each other. *)

From Stdlib Require Import ZArith Lia.
From stdpp Require Import base list gmap strings.
From S2P Require Import Prelude Platform State Synch VmStats Tlb LoadSegment Swap Coremap Frames.
From S2P Require Import Paging Segments VmFault AddrSpace.
Local Open Scope Z_scope.

Section Lookups.
Context {P : Platform} {L : PlatformLaws P}.
Implicit Types (k : kernel).

(** The first page with a property. *)
Definition first_page (A : addrspace) (t : pt_entry -> bool) : option nat :=
  list_find (fun e => t e = true) (pt A) ≫= fun p => Some p.1.

(** A search loop over the whole table. *)
Lemma table_search a A (t : pt_entry -> bool) k :
  k_as k !! a = Some A ->
  for_break (seq 0 (length (pt A))) (fun i => let* e := pt_get a i in ret (t e)) k
  = Done (first_page A t) k.
Proof.
  intros HA. set (u i := match pt A !! i with Some e => t e | None => false end).
  rewrite (for_break_search _ _ u).
  - f_equal. destruct (first_page A t) as [i|] eqn:E; unfold first_page in E.
    + destruct (list_find _ (pt A)) as [[i' e]|] eqn:F; [|done]. injection E as ->.
      apply list_find_Some in F as (Hi & Ht & Hmin).
      rewrite (list_find_seq_Some u). pose proof (lookup_lt_Some _ _ _ Hi).
      split; [lia|]. unfold u. rewrite Hi. split; [done|]. intros j Hj.
      destruct (pt A !! j) as [e'|] eqn:Ej; [|done]. apply not_true_is_false. eapply Hmin; [done | lia].
    + destruct (list_find _ (pt A)) as [[i' e]|] eqn:F; [done|].
      rewrite (list_find_seq_None u). intros j Hj. unfold u.
      destruct (pt A !! j) as [e'|] eqn:Ej; [|done]. apply list_find_None in F.
      rewrite Forall_forall in F. apply not_true_is_false, F. by eapply list_elem_of_lookup_2.
  - intros i Hi%elem_of_seq. unfold u, pt_get, bind, as_get, ret. rewrite HA.
    destruct (lookup_lt_is_Some_2 (pt A) i ltac:(lia)) as [e ->]. done.
Qed.

Lemma first_page_lookup A t i : first_page A t = Some i -> exists e, pt A !! i = Some e /\ t e = true.
Proof.
  unfold first_page. destruct (list_find _ _) as [[i' e]|] eqn:E; [|done]. intros [= <-].
  apply list_find_Some in E as (? & ? & _). eauto.
Qed.

(** The kernel with a process whose table is consistent and not locked. *)
Record table_ready k (a : asid) (A : addrspace) : Prop := {
  tr_curproc : k_curproc k = Some (Some a);
  tr_as : k_as k !! a = Some A;
  tr_lock : pt_lock A = None;
  tr_npages : npages A = Z.of_nat (length (pt A));
  tr_lockable : lockable k;
}.

Lemma table_ready_getas k a A : table_ready k a A -> proc_getas k = Done (Some a) k.
Proof. intros []. unfold proc_getas, gets. by rewrite tr_curproc0. Qed.

(** The common part of the look-ups that take the lock. *)
Lemma locked_search a A t k : table_ready k a A ->
  (acquire_pt_lock a ;;
   let* A := as_get a in
   let* hit := for_break (seq 0 (Z.to_nat (npages A))) (fun i => let* e := pt_get a i in ret (t e)) in
   release_pt_lock a ;; ret (-1, hit)) k = Done (-1, first_page A t) k.
Proof.
  intros [Hc HA Hl Hn Ht].
  rewrite (bind_Done _ _ _ _ _ (acquire_pt_lock_run a A k HA Hl Ht)).
  rewrite (bind_Done _ _ _ (with_pt_lock (Some (curthread (k_cpu k))) A) (locked a A k))
    by (unfold as_get; by rewrite locked_as).
  cbn [npages with_pt_lock]. rewrite Hn, Nat2Z.id.
  pose proof (table_search a (with_pt_lock (Some (curthread (k_cpu k))) A) t (locked a A k) (locked_as a A k)) as Hs.
  cbn [pt with_pt_lock] in Hs. rewrite (bind_Done _ _ _ _ _ Hs).
  by rewrite (bind_Done _ _ _ _ _ (release_pt_lock_run a A k HA Hl)).
Qed.

Lemma getPageVtoP_run a A k va : table_ready k a A ->
  getPageVtoP va k = Done (-1, first_page A (fun e => pte_vaddr e =? va) ≫=
                               fun i => pte_paddr <$> pt A !! i) k.
Proof.
  intros Hr. pose proof Hr as [Hc HA Hl Hn Ht]. unfold getPageVtoP.
  rewrite (bind_Done _ _ _ _ _ (table_ready_getas _ _ _ Hr)).
  set (l := if curcpu_exists (k_cpu k) && ((c_spinlocks (k_cpu k) =? 0) && negb (t_in_interrupt (k_cpu k)))
            then 0 else 1).
  rewrite (bind_Done _ _ _ l k) by done.
  assert (Hget : forall k' A', k_as k' !! a = Some A' -> pt A' = pt A -> npages A' = npages A ->
    forall f : option Z -> M kernel (Z * option Z),
    (let* A0 := as_get a in
     let* hit := for_break (seq 0 (Z.to_nat (npages A0))) (fun i =>
       let* e := pt_get a i in ret (pte_vaddr e =? va)) in
     let* paddr := match hit with
                   | None => ret None
                   | Some i => let* e := pt_get a i in ret (Some (pte_paddr e))
                   end in f paddr) k'
    = f (first_page A (fun e => pte_vaddr e =? va) ≫= fun i => pte_paddr <$> pt A !! i) k').
  { intros k' A' HA' Ep En f. rewrite (bind_Done _ _ _ A' k') by (unfold as_get; by rewrite HA').
    rewrite En, Hn, Nat2Z.id, <- Ep.
    rewrite (bind_Done _ _ _ _ _ (table_search a A' _ k' HA')).
    assert (Ef : first_page A' (fun e => pte_vaddr e =? va) = first_page A (fun e => pte_vaddr e =? va))
      by (unfold first_page; by rewrite Ep).
    rewrite Ef. destruct (first_page A _) as [i|] eqn:E; [|done].
    destruct (first_page_lookup _ _ _ E) as (e & He & _). cbn [mbind option_bind]. rewrite Ep, He.
    assert (Hpe : pt_get a i k' = Done e k')
      by (unfold pt_get, as_get, bind; rewrite HA', Ep, He; done).
    unfold bind at 1. rewrite (bind_Done _ _ _ _ _ Hpe). done. }
  destruct (l =? 0).
  - rewrite (bind_Done _ _ _ _ _ (acquire_pt_lock_run a A k HA Hl Ht)).
    rewrite (Hget (locked a A k) _ (locked_as a A k) eq_refl eq_refl).
    by rewrite (bind_Done _ _ _ _ _ (release_pt_lock_run a A k HA Hl)).
  - rewrite (bind_Done _ _ _ tt k) by done. rewrite (Hget k A HA eq_refl eq_refl). done.
Qed.

(** The look-ups of the page table find the right page and then report
    failure all the same: with an address space the result is -1 whether or
    not the page exists, contrary to the comment that promises 1; the index,
    address or nothing at all has been stored through the pointer, and the
    state is as before. *)
Lemma pt_lookups_report_failure k a A x :
  table_ready k a A ->
  getPageV x k = Done (-1, first_page A (fun e => pte_vaddr e =? x)) k /\
  getPageP x k = Done (-1, first_page A (fun e => pte_paddr e =? x)) k /\
  getPageVtoP x k = Done (-1, first_page A (fun e => pte_vaddr e =? x) ≫=
                              fun i => pte_paddr <$> pt A !! i) k.
Proof.
  intros Hr. pose proof (table_ready_getas _ _ _ Hr) as Hg. split; [|split].
  - unfold getPageV. rewrite (bind_Done _ _ _ _ _ Hg).
    by apply (locked_search a A (fun e => pte_vaddr e =? x)).
  - unfold getPageP. rewrite (bind_Done _ _ _ _ _ Hg).
    by apply (locked_search a A (fun e => pte_paddr e =? x)).
  - by apply (getPageVtoP_run a).
Qed.

Lemma isCoremapActive_run k : coremap_lock (k_cm k) = false ->
  isCoremapActive k = Done (coremapActive (k_cm k)) k.
Proof.
  intros Hl. unfold isCoremapActive, acquire_coremap_lock, spinlock_acquire, bind. rewrite Hl.
  unfold gets, release_coremap_lock, spinlock_release, modify, ret. f_equal. kernel_eq k.
Qed.

(** So the kernel cannot free memory on behalf of a process: [free_kpages]
    panics for every address as soon as the process has an address space. *)
Lemma free_kpages_panics k a A va :
  table_ready k a A -> coremap_lock (k_cm k) = false -> coremapActive (k_cm k) = true ->
  free_kpages va k = Stop (Panic "vaddr not found in the page table") k.
Proof.
  intros Hr Hl Hact. unfold free_kpages.
  rewrite (bind_Done _ _ _ _ _ (isCoremapActive_run k Hl)), Hact.
  by rewrite (bind_Done _ _ _ _ _ (getPageVtoP_run a A k va Hr)).
Qed.
End Lookups.

Section KernelPages.
Context {P : Platform} {L : PlatformLaws P}.
Implicit Types (k : kernel) (c : coremap_st).

(** [n] frames from [f] on have been handed to the kernel, nothing else has
    changed. *)
Definition kernel_run c (f n : nat) (l : list c_entry) : Prop :=
  (forall j, ~ (f <= j < f + n)%nat -> l !! j = coremap c !! j) /\
  (forall j, (f <= j < f + n)%nat -> exists x, l !! j = Some x /\ ce_as x = None /\ avail x = false) /\
  (exists x, l !! f = Some x /\ ce_allocpages x = Z.of_nat n).

(** Frames for the kernel, from one or several free ones. *)
Lemma kernel_alloc_spec res n k :
  cm_ready k -> (0 < n)%nat -> (exists f, free_run (k_cm k) f n) ->
  wp (if 1 <? Z.of_nat n then getMultiplePages (Z.of_nat n) res None else getPage res 0 None)
    (fun r k' => exists f l,
      free_run (k_cm k) f n /\ r = frame_paddr (k_cm k) f /\ k' = upd_entries (fun _ => l) k /\
      kernel_run (k_cm k) f n l) k.
Proof.
  intros Hr Hn [f0 Hf0]. destruct (Z.ltb_spec 1 (Z.of_nat n)) as [Hlt|Hle].
  - eapply wp_mono; [apply getMultiplePages_spec; eauto|].
    intros r k' (f & l & Hfree & Hmin & -> & -> & Hl). exists f, l.
    assert (Has : forall j e, ce_as (run_entry (k_cm k) f (Z.of_nat n) res None j e) = None)
      by (intros; cbn; by destruct res).
    split; [done|]. split; [done|]. split; [done|]. split; [|split].
    + intros j Hj. rewrite Hl, decide_False by done. done.
    + intros j Hj. rewrite Hl, decide_True by done. destruct (Hfree j Hj) as (e & He & _). rewrite He.
      eexists. split; [done|]. split; [apply Has|]. apply avail_core_entry.
    + rewrite Hl, decide_True by lia. destruct (Hfree f ltac:(lia)) as (e & He & _). rewrite He.
      eexists. split; [done|]. cbn. by rewrite decide_True.
  - assert (n = 1%nat) as -> by lia.
    eapply wp_mono; [apply getPage_free; [done|]|].
    { exists f0. apply Hf0. lia. }
    intros r k' (i & e & He & Hav & Hmin & -> & ->).
    pose proof (lookup_lt_Some _ _ _ He) as Hi.
    eexists i, (<[i := _]> (coremap (k_cm k))). split; [|split; [done|split; [reflexivity|]]].
    + intros j Hj. replace j with i by lia. by exists e.
    + split; [|split].
      * intros j Hj. apply list_lookup_insert_ne. lia.
      * intros j Hj. replace j with i by lia. eexists.
        split; [by apply list_lookup_insert_eq|]. split; [by destruct res|]. apply (avail_core_entry 0 res None e).
      * eexists. split; [by apply list_lookup_insert_eq | done].
Qed.

Lemma getPages_kernel n k :
  cm_ready k -> (0 < n)%nat -> Z.of_nat n < 2 ^ 31 -> (exists f, free_run (k_cm k) f n) ->
  wp (getPages (to_int (Z.of_nat n)) 0 None) (fun r k' => exists f l,
    free_run (k_cm k) f n /\ r = frame_paddr (k_cm k) f /\ k' = upd_entries (fun _ => l) k /\
    kernel_run (k_cm k) f n l) k.
Proof.
  intros Hr Hn Hlt Hf. unfold getPages, to_int. rewrite !u32_small by lia.
  rewrite (proj2 (Z.ltb_lt (Z.of_nat n) (2 ^ 31))) by lia. by apply kernel_alloc_spec.
Qed.

Lemma cm_wf_entries c l : cm_wf c -> length l = length (coremap c) -> cm_wf (with_coremap l c).
Proof. intros [] E. split; cbn; auto. by rewrite E. Qed.

Lemma kernel_run_length c f n l : free_run c f n -> kernel_run c f n l ->
  length l = length (coremap c).
Proof.
  intros Hfree (H1 & H2 & _). apply Nat.le_antisymm.
  - apply Nat.nlt_ge. intros Hlt.
    destruct (decide (f <= length (coremap c) < f + n)%nat) as [Hin|Hout].
    + destruct (Hfree _ Hin) as (x & Hx & _). apply lookup_lt_Some in Hx. lia.
    + specialize (H1 _ Hout). rewrite (lookup_ge_None_2 (coremap c)) in H1 by lia.
      apply lookup_ge_None in H1. lia.
  - apply Nat.nlt_ge. intros Hlt. destruct (decide (f <= length l < f + n)%nat) as [Hin|Hout].
    + destruct (H2 _ Hin) as (x & Hx & _). apply lookup_lt_Some in Hx. lia.
    + specialize (H1 _ Hout). rewrite (lookup_ge_None_2 l) in H1 by lia.
      symmetry in H1. apply lookup_ge_None in H1. lia.
Qed.

Lemma paddr_roundtrip p : 0 <= p < 2 ^ 32 -> u32 (PADDR_TO_KVADDR p - MIPS_KSEG0) = p.
Proof.
  intros Hp. rewrite paddr_to_kvaddr. unfold Z.sub. rewrite u32_add_l.
  replace (p + MIPS_KSEG0 + - MIPS_KSEG0) with p by lia. by apply u32_small.
Qed.

(** A kernel thread: no address space, and it may sleep. *)
Definition kernel_thread k : Prop :=
  (k_curproc k = None \/ k_curproc k = Some None) /\
  (curcpu_exists (k_cpu k) = true -> c_spinlocks (k_cpu k) = 0) /\ lockable k.

Lemma wp_can_sleep k (Q : unit -> kernel -> Prop) :
  (curcpu_exists (k_cpu k) = true -> c_spinlocks (k_cpu k) = 0) -> lockable k -> Q tt k -> wp can_sleep Q k.
Proof.
  intros Hs Ht HQ. unfold can_sleep. steps. destruct (curcpu_exists (k_cpu k)); [|done].
  rewrite (Hs eq_refl), Ht. done.
Qed.

Lemma alloc_kpages_spec n k :
  cm_ready k -> kernel_thread k -> (0 < n)%nat -> Z.of_nat n < 2 ^ 31 ->
  (exists f, free_run (k_cm k) f n) ->
  wp (alloc_kpages (Z.of_nat n)) (fun va k' => exists f l,
    free_run (k_cm k) f n /\ va = PADDR_TO_KVADDR (frame_paddr (k_cm k) f) /\
    k' = upd_entries (fun _ => l) k /\ kernel_run (k_cm k) f n l) k.
Proof.
  intros Hr (Hc & Hs & Ht) Hn Hlt Hf. unfold alloc_kpages, getppages. step.
  apply wp_can_sleep; [done..|]. step. step. eapply wp_mono; [by apply getPages_kernel|].
  intros r k' (f & l & Hfree & -> & -> & Hrun). destruct Hr as [Hwf _].
  assert (Hlf : (f < length (coremap (k_cm k)))%nat).
  { destruct (Hfree f ltac:(lia)) as (x & Hx & _). by eapply lookup_lt_Some. }
  pose proof (frame_paddr_range _ _ Hwf Hlf). pose proof (cm_base _ Hwf).
  rewrite (proj2 (Z.eqb_neq _ 0)) by lia. step. rewrite (proj2 (Z.eqb_neq _ 0)) by lia. step. eauto 10.
Qed.

(** The frames of a run given back. *)
Lemma free_kpages_spec f n l k :
  cm_ready k -> kernel_thread k -> (0 < n)%nat -> free_run (k_cm k) f n -> kernel_run (k_cm k) f n l ->
  wp (free_kpages (PADDR_TO_KVADDR (frame_paddr (k_cm k) f))) (fun _ k' => exists l',
    k' = upd_entries (fun _ => l') k /\
    (forall j, ~ (f <= j < f + n)%nat -> l' !! j = coremap (k_cm k) !! j) /\
    (forall j, (f <= j < f + n)%nat -> exists x, l' !! j = Some x /\ avail x = true /\ ce_as x = None))
    (upd_entries (fun _ => l) k).
Proof.
  intros (Hwf & Hact & Hlk) (Hc & Hs & Ht) Hn Hfree Hrun. pose proof (kernel_run_length _ _ _ _ Hfree Hrun) as Hlen.
  set (k1 := upd_entries (fun _ => l) k).
  assert (Hwf1 : cm_wf (k_cm k1)) by by apply cm_wf_entries.
  destruct Hrun as (H1 & H2 & x & Hx & Hax).
  assert (Hlf : (f < length (coremap (k_cm k)))%nat).
  { destruct (Hfree f ltac:(lia)) as (y & Hy & _). by eapply lookup_lt_Some. }
  assert (Hend : (f + n <= length l)%nat).
  { destruct (H2 (f + n - 1)%nat ltac:(lia)) as (y & Hy & _). apply lookup_lt_Some in Hy. lia. }
  pose proof (frame_paddr_range _ _ Hwf Hlf). pose proof (cm_base _ Hwf). pose proof page_size_pos.
  unfold free_kpages. step. eapply wp_eq; [by apply isCoremapActive_run|].
  replace (coremapActive (k_cm k1)) with true by done. step. apply (wp_eq _ _ _ (0, None) k1).
  { unfold getPageVtoP. rewrite (bind_Done _ _ _ None k1); [done|].
    unfold proc_getas, gets. change (k_curproc k1) with (k_curproc k). by destruct Hc as [-> | ->]. }
  cbn [fst]. change (0 <? 0) with false. change (0 =? 0) with true. cbv iota.
  rewrite paddr_roundtrip by lia.
  change (frame_paddr (k_cm k) f) with (frame_paddr (k_cm k1) f).
  eapply wp_mono; [apply (freepages_spec f x); try done|].
  - rewrite Hax. lia.
  - rewrite Hax, Nat2Z.id. exact Hend.
  - intros [] k' (l' & -> & Hl'). rewrite Hax, Nat2Z.id in Hl'. cbn in Hl'.
    exists l'. split; [done|]. split.
    + intros j Hj. rewrite Hl', decide_False by done. rewrite H1 by done.
      destruct (decide (j = f)); [lia|]. by destruct (coremap (k_cm k) !! j).
    + intros j Hj. rewrite Hl', decide_True by done. destruct (H2 j Hj) as (y & -> & _).
      eexists. split; [done|]. split; [|done]. by destruct (decide (j = f)).
Qed.

(** C31. Kernel pages, in a kernel thread, that is, one whose process has no
    address space: allocating [n] pages and freeing them again brings back the
    same free frames, with every other frame untouched and all locks released;
    in between the pages were contiguous frames that had been free.  (In a
    process with an address space [free_kpages] always panics; see
    [free_kpages_panics].) *)
Theorem kpages_roundtrip n k :
  cm_ready k -> kernel_thread k -> (0 < n)%nat -> Z.of_nat n < 2 ^ 31 ->
  (exists f, free_run (k_cm k) f n) ->
  wp (let* va := alloc_kpages (Z.of_nat n) in free_kpages va) (fun _ k' => exists l,
    k' = upd_entries (fun _ => l) k /\
    (forall j, frame_free (k_cm k') j <-> frame_free (k_cm k) j) /\
    (forall j, ~ frame_free (k_cm k) j -> l !! j = coremap (k_cm k) !! j)) k.
Proof.
  intros Hr Hkt Hn Hlt Hf. step. eapply wp_mono; [by apply alloc_kpages_spec|].
  intros va k1 (f & l & Hfree & -> & -> & Hrun).
  eapply wp_mono; [by apply (free_kpages_spec f n l)|].
  intros [] k' (l' & -> & Hout & Hin). exists l'. split; [done|].
  assert (Hdec : forall j, (f <= j < f + n)%nat \/ ~ (f <= j < f + n)%nat) by (intros; lia).
  split.
  - intros j. destruct (Hdec j) as [Hj|Hj].
    + split; [by intros _; apply Hfree|]. intros _. destruct (Hin j Hj) as (x & Hx & Hav & _). by exists x.
    + unfold frame_free, upd_entries. kred. by rewrite Hout.
  - intros j Hj. apply Hout. intros Hin'. by apply Hj, Hfree.
Qed.
End KernelPages.
