(* ===== verification/Regions.v ===== *)
(** Regions and the page table of a program ([as_define_region],
    [as_prepare_load] of [vm/addrspace.c]).

    A region is rounded out to whole pages; [as_prepare_load] adds the stack
    region and builds the page table of all regions with no page resident. *)

From Stdlib Require Import ZArith Lia.
From stdpp Require Import base list gmap strings.
From S2P Require Import Prelude Platform State Synch VmStats Tlb LoadSegment Swap Coremap Frames.
From S2P Require Import Paging Segments VmFault AddrSpace KernelPages.
Local Open Scope Z_scope.

Section Regions.
Context {P : Platform} {L : PlatformLaws P}.
Implicit Types (k : kernel) (c : coremap_st).

(** The rounding of [as_define_region]. *)
Lemma region_size va n hi : 0 <= va -> 0 <= n -> va + n <= hi -> hi <= MIPS_KSEG0 -> hi mod PAGE_SIZE = 0 ->
  let size := Z.land (u32 (u32 (n + Z.ldiff va PAGE_FRAME) + PAGE_SIZE - 1)) PAGE_FRAME in
  let start := Z.land va PAGE_FRAME in
  start = va - va mod PAGE_SIZE /\ Z.ldiff va PAGE_FRAME = va mod PAGE_SIZE /\
  size = size / PAGE_SIZE * PAGE_SIZE /\ 0 <= size /\
  va + n <= start + size /\ start + size < va + n + PAGE_SIZE /\ start + size <= hi.
Proof.
  intros Hva Hn Hhi Hk Hal. pose proof page_size_range. pose proof kseg0_range.
  pose proof page_size_pos as Hps.
  assert (Hps' : PAGE_SIZE <> 0) by lia. pose proof (Z.mod_pos_bound va PAGE_SIZE Hps) as Hm.
  assert (Hmv : va mod PAGE_SIZE <= va) by (apply Z.mod_le; lia).
  rewrite ldiff_page_frame by lia. rewrite (land_page_frame va) by lia. cbv zeta.
  rewrite (u32_small (n + _)) by lia.
  set (t := n + va mod PAGE_SIZE + PAGE_SIZE - 1).
  assert (Hdiv : (va - va mod PAGE_SIZE) mod PAGE_SIZE = 0)
    by (rewrite Zminus_mod, Zmod_mod, Z.sub_diag; done).
  apply Z.mod_divide in Hdiv as [q Eq]; [|lia]. apply Z.mod_divide in Hal as [h Eh]; [|lia].
  assert (Ht : t < 2 ^ 32).
  { destruct page_size_pow2 as (m & Hm' & Em).
    assert (E32 : 2 ^ 32 = 2 ^ (32 - m) * PAGE_SIZE) by (rewrite Em, <- Z.pow_add_r by lia; f_equal; lia).
    assert (h < 2 ^ (32 - m)) by nia. unfold t. nia. }
  rewrite (u32_small t) by (unfold t; lia). rewrite land_page_frame by (unfold t; lia).
  pose proof (Z.mod_pos_bound t PAGE_SIZE Hps) as Htm.
  assert (Es : t - t mod PAGE_SIZE = t / PAGE_SIZE * PAGE_SIZE)
    by (pose proof (Z.div_mod t PAGE_SIZE Hps'); lia).
  rewrite Es, Z.div_mul by lia. split; [done|]. split; [done|]. split; [done|].
  rewrite <- Es. split; [unfold t in *; lia|]. split; [unfold t in *; lia|]. split; [unfold t in *; lia|].
  rewrite Es. assert (Hq : t / PAGE_SIZE < h - q + 1)
    by (apply Z.div_lt_upper_bound; [lia|]; unfold t; nia).
  assert ((t / PAGE_SIZE) * PAGE_SIZE <= (h - q) * PAGE_SIZE) by (apply Z.mul_le_mono_nonneg_r; lia).
  lia.
Qed.

(** The segment a region becomes: whole pages around it. *)
Record region_of (va n filesize r w x off : Z) (seg : segment_t) : Prop := {
  ro_ok : seg_ok seg;
  ro_start : seg_start seg <= va;
  ro_end : va + n <= seg_start seg + seg_size seg;
  ro_tight : va < seg_start seg + PAGE_SIZE /\ seg_start seg + seg_size seg < va + n + PAGE_SIZE;
  ro_initoffset : seg_initoffset seg = va - seg_start seg;
  ro_file : seg_filesize seg = filesize /\ seg_offset seg = off;
  ro_rwx : seg_rwx seg = Z.lor (Z.lor (Z.land r 4) (Z.land w 2)) (Z.land x 1);
}.

(** [kmalloc] either fails and changes nothing, or only the heap changes. *)
Lemma wp_kmallocM k (Q : option nat -> kernel -> Prop) :
  Q None k -> (forall p h, kmalloc (k_heap k) = Some (p, h) -> Q (Some p) (set_heap h k)) -> wp kmallocM Q k.
Proof.
  intros HN HS. unfold wp, kmallocM. destruct (kmalloc (k_heap k)) as [[p h]|] eqn:E; [|done]. auto.
Qed.

Lemma define_region_spec k a A va n filesize r w x off hi :
  k_as k !! a = Some A -> 0 <= va -> 0 <= n -> va + n <= hi -> hi <= MIPS_KSEG0 -> hi mod PAGE_SIZE = 0 ->
  0 <= filesize < 2 ^ 32 ->
  wp (as_define_region a va n filesize r w x off) (fun res k' =>
    (res = Err ENOMEM /\ k' = k) \/
    (res = OK /\ exists h seg, region_of va n filesize r w x off seg /\
       seg_start seg + seg_size seg <= hi /\ va mod PAGE_SIZE = va - seg_start seg /\
       k' = set_ases (<[a := with_segments (as_segment A ++ [seg]) A]>) (set_heap h k))) k.
Proof.
  intros HA Hva Hn Hhi Hk Hal Hfs. pose proof page_size_pos as Hps.
  destruct (region_size va n hi Hva Hn Hhi Hk Hal) as (E1 & E2 & E3 & E4 & E5 & E6 & E7).
  pose proof (Z.mod_pos_bound va PAGE_SIZE Hps). pose proof (Z.mod_le va PAGE_SIZE Hva Hps).
  unfold as_define_region. step. apply wp_kmallocM; [by left|]. intros node h Hm.
  step. eapply wp_as_get; [done|]. unfold as_set. steps. right. split; [done|].
  eexists h, _. split; [|split; [|split; [|reflexivity]]]; cbn; [|exact E7 | lia].
  split; cbn; try done; try lia. split; cbn; try lia.
  split; [lia|]. rewrite E1, Zminus_mod, Zmod_mod, Z.sub_diag. done.
Qed.

(** A region becomes a segment of whole pages that covers it and exceeds
    it by less than a page on either side, with the permissions and the file
    part asked for, at the end of the segment list; when the heap is
    exhausted the address space is unchanged. *)
Lemma as_define_region_covers k a A va n filesize r w x off :
  k_as k !! a = Some A -> 0 <= va -> 0 <= n -> va + n <= USERSTACK -> 0 <= filesize < 2 ^ 32 ->
  wp (as_define_region a va n filesize r w x off) (fun res k' =>
    (res = Err ENOMEM /\ k' = k) \/
    (res = OK /\ exists h seg, region_of va n filesize r w x off seg /\
       k' = set_ases (<[a := with_segments (as_segment A ++ [seg]) A]>) (set_heap h k))) k.
Proof.
  intros HA Hva Hn Hhi Hfs.
  eapply wp_mono; [apply (define_region_spec k a A va n filesize r w x off USERSTACK); auto|].
  - apply userstack_range.
  - apply userstack_aligned.
  - intros res k' [?|(-> & h & seg & Hr & _ & _ & ->)]; [by left | right; eauto 10].
Qed.
End Regions.

Section Table.
Context {P : Platform} {L : PlatformLaws P}.
Implicit Types (k : kernel) (c : coremap_st) (tb : tables).

(** ** The contents of the table *)

Definition fresh_entry (x : Z * Z) : pt_entry := mk_pt_entry 0 x.1 false false x.2.

Lemma fill_pages_run a A k n s i pre m z :
  seg_ok s -> (i + n <= Z.to_nat (seg_npages s))%nat ->
  fill_pages a n (u32 (seg_start s + Z.of_nat i * PAGE_SIZE)) (seg_rwx s) (length pre)
    (locked a (with_pt (pre ++ replicate (n + m) z) A) k)
  = Done (length pre + n)%nat
      (locked a (with_pt (pre ++ ((fun j => fresh_entry (seg_start s + Z.of_nat j * PAGE_SIZE, seg_rwx s))
                                  <$> seq i n) ++ replicate m z) A) k).
Proof.
  intros Hs. revert i pre. induction n as [|n IH]; intros i pre Hi; cbn [fill_pages].
  - unfold ret. f_equal. lia.
  - pose proof page_size_pos. pose proof kseg0_range. destruct Hs as [[Hs0 Hs1] Hs2 Hs3 Hs4 Hs5 Hs6].
    assert (Hset : pt_set a (length pre)
        (mk_pt_entry 0 (u32 (seg_start s + Z.of_nat i * PAGE_SIZE)) false false (seg_rwx s))
        (locked a (with_pt (pre ++ replicate (S n + m) z) A) k)
      = Done tt (locked a (with_pt ((pre ++ [fresh_entry (seg_start s + Z.of_nat i * PAGE_SIZE, seg_rwx s)])
          ++ replicate (n + m) z) A) k)).
    { assert (Hl : (pre ++ replicate (S n + m) z) !! length pre = Some z)
        by (rewrite lookup_app_r, Nat.sub_diag by lia; done).
      pose proof (wp_locked_set a (with_pt (pre ++ replicate (S n + m) z) A) (length pre) z
        (mk_pt_entry 0 (u32 (seg_start s + Z.of_nat i * PAGE_SIZE)) false false (seg_rwx s)) k
        (fun _ k' => k' = locked a (with_pt ((pre ++ [fresh_entry (seg_start s + Z.of_nat i * PAGE_SIZE,
          seg_rwx s)]) ++ replicate (n + m) z) A) k) Hl) as Hw.
      apply wp_Done in Hw as ([] & k' & -> & ->); [done|].
      cbn [pt with_pt]. rewrite with_pt_twice. do 2 f_equal.
      rewrite insert_app_r_alt, Nat.sub_diag by lia. cbn. rewrite <- app_assoc. cbn.
      do 2 f_equal. unfold fresh_entry. cbn. f_equal. apply u32_small. nia. }
    rewrite (bind_Done _ _ _ _ _ Hset).
    replace (S (length pre)) with (length (pre ++ [fresh_entry (seg_start s + Z.of_nat i * PAGE_SIZE, seg_rwx s)]))
      by (rewrite length_app; cbn; lia).
    replace (u32 (u32 (seg_start s + Z.of_nat i * PAGE_SIZE) + PAGE_SIZE))
      with (u32 (seg_start s + Z.of_nat (S i) * PAGE_SIZE)) by (rewrite u32_add_l; f_equal; lia).
    rewrite IH by lia. f_equal.
    + rewrite length_app. cbn. lia.
    + cbn [seq fmap list_fmap]. by rewrite <- app_assoc.
Qed.

Lemma fill_table_run a A k lo segs pre z :
  segs_from lo segs ->
  fill_table a segs (length pre) (locked a (with_pt (pre ++ replicate (length (layout segs)) z) A) k)
  = Done tt (locked a (with_pt (pre ++ (fresh_entry <$> layout segs)) A) k).
Proof.
  revert lo pre. induction segs as [|s segs IH]; intros lo pre Hs; cbn [fill_table]; [done|].
  destruct Hs as (_ & Hok & Hs). rewrite layout_cons, length_app, length_pages_of.
  replace (seg_start s) with (u32 (seg_start s + Z.of_nat 0 * PAGE_SIZE)) at 1.
  2: { pose proof kseg0_range. pose proof page_size_pos. destruct Hok as [[? ?] ? ? ? ? ?].
       rewrite Z.mul_0_l, Z.add_0_r. apply u32_small. nia. }
  rewrite (bind_Done _ _ _ _ _ (fill_pages_run a A k (Z.to_nat (seg_npages s)) s 0 pre
    (length (layout segs)) z Hok (Nat.le_refl _))).
  set (es := (fun j : nat => _) <$> seq 0 (Z.to_nat (seg_npages s))).
  assert (Hlen : length es = Z.to_nat (seg_npages s)) by (unfold es; by rewrite length_fmap, length_seq).
  rewrite app_assoc. replace (length pre + Z.to_nat (seg_npages s))%nat with (length (pre ++ es))
    by (rewrite length_app, Hlen; done).
  rewrite (IH _ _ Hs). rewrite fmap_app, app_assoc. repeat f_equal.
  unfold es, pages_of. rewrite <- list_fmap_compose. done.
Qed.

(** ** The frames of the table *)

Lemma free_not_owned c tb st n ex f m a : frames_ok c tb st n ex -> free_run c f m ->
  forall i, (f <= i < f + m)%nat -> ~ owned_by c a i.
Proof.
  intros H Hf i Hi (x & Hx & Ha). destruct (Hf i Hi) as (y & Hy & Hav).
  destruct (fo_flags _ _ _ _ _ H _ _ _ Hx Ha). congruence.
Qed.

Lemma kernel_run_owned c tb st n ex f m l a i : frames_ok c tb st n ex -> free_run c f m ->
  kernel_run c f m l -> owned_by (with_coremap l c) a i <-> owned_by c a i.
Proof.
  intros H Hf (H1 & H2 & _). unfold owned_by. cbn.
  destruct (decide (f <= i < f + m)%nat) as [Hi|Hi].
  - destruct (H2 i Hi) as (x & -> & Hx & _). split; [intros (y & [= <-] & ?); congruence|].
    intros Ho. by destruct (free_not_owned _ _ _ _ _ _ _ a H Hf i Hi).
  - by rewrite H1.
Qed.

(** Handing free frames to the kernel keeps the books. *)
Lemma frames_ok_reserve c tb st n ex f m l : frames_ok c tb st n ex -> free_run c f m ->
  kernel_run c f m l -> frames_ok (with_coremap l c) tb st n ex.
Proof.
  intros H Hf Hr. pose proof (kernel_run_length _ _ _ _ Hf Hr) as Hlen.
  pose proof (fun a i => kernel_run_owned _ _ _ _ _ _ _ _ a i H Hf Hr) as Ho.
  destruct H as [H1 H2 H3 H4 H5 H6 H7 H8 H9]. split; auto.
  - by apply cm_wf_entries.
  - intros a j e Hp. destruct (H2 _ _ _ Hp) as [Hu Hok]. split; [done|].
    destruct (pte_in_mem e); [|done]. destruct Hok as [? (i & ? & ? & ?)]. split; [done|].
    exists i. by rewrite Ho.
  - intros a i Hi Hex. apply H5; [|done]. by apply Ho.
  - intros a i x Hx Ha. assert (Hown : owned_by c a i) by (apply Ho; by exists x).
    destruct Hown as (y & Hy & Hya). destruct Hr as (R1 & R2 & _). cbn in Hx.
    destruct (decide (f <= i < f + m)%nat) as [Hi|Hi].
    + destruct (R2 i Hi) as (z & Hz & Hza & _). congruence.
    + rewrite R1 in Hx by done. eauto.
Qed.

(** Fresh pages at the end of a table, which may be missing so far. *)
Lemma frames_ok_append c tb st n ex a l0 l :
  frames_ok c tb st n ex -> default [] (tb !! a) = l0 ->
  (forall e, e ∈ l -> exists x, e = fresh_entry x /\ 0 <= x.1 < MIPS_KSEG0 /\ x.1 mod PAGE_SIZE = 0) ->
  frames_ok c (<[a := l0 ++ l]> tb) st n ex.
Proof.
  intros H Ha Hl.
  assert (Hpa : forall j, pte_at tb a j = l0 !! j)
    by (intros j; unfold pte_at; rewrite <- Ha; by destruct (tb !! a)).
  assert (Hold : forall a' j e, pte_at (<[a := l0 ++ l]> tb) a' j = Some e ->
    (a' = a /\ pte_in_mem e = false /\ pte_in_swap e = false /\ pte_paddr e = 0 /\
       (0 <= pte_vaddr e < MIPS_KSEG0 /\ pte_vaddr e mod PAGE_SIZE = 0)) \/ pte_at tb a' j = Some e).
  { intros a' j e. unfold pte_at at 1. rewrite lookup_insert. case_decide as E; [|by right]. subst a'.
    cbn. intros [He|[_ He]]%lookup_app_Some; [right; by rewrite Hpa|]. left. split; [done|].
    apply list_elem_of_lookup_2 in He. destruct (Hl _ He) as (x & -> & ?). done. }
  assert (Hnew : forall a' j e, pte_at tb a' j = Some e -> pte_at (<[a := l0 ++ l]> tb) a' j = Some e).
  { intros a' j e He. destruct (decide (a' = a)) as [->|Hne].
    - rewrite Hpa in He. unfold pte_at. rewrite lookup_insert_eq. cbn. by apply lookup_app_l_Some.
    - unfold pte_at. by rewrite lookup_insert_ne. }
  destruct H as [H1 H2 H3 H4 H5 H6 H7 H8 H9]. split; auto.
  - intros a' j e [(-> & E1 & E2 & E3 & Hv)|Hp]%Hold; [|by eapply H2].
    split; [done|]. by rewrite E1, E2.
  - intros a1 j1 e1 a2 j2 e2 [(-> & E1 & _)|P1]%Hold [(-> & E2 & _)|P2]%Hold; try congruence. eauto.
  - intros a1 j1 e1 a2 j2 e2 [(-> & _ & E1 & _)|P1]%Hold [(-> & _ & E2 & _)|P2]%Hold; try congruence. eauto.
  - intros a' i Hi Hex. destruct (H5 a' i Hi Hex) as (j & e & Hp & ?). exists j, e. auto.
  - intros x Hx. destruct (H9 x Hx) as (a' & j & e & Hp & ?). exists a', j, e. auto.
Qed.

(** A table of fresh pages where there was none. *)
Lemma frames_ok_table c tb st n ex a l :
  frames_ok c tb st n ex -> (tb !! a = Some [] \/ tb !! a = None) ->
  (forall e, e ∈ l -> exists x, e = fresh_entry x /\ 0 <= x.1 < MIPS_KSEG0 /\ x.1 mod PAGE_SIZE = 0) ->
  frames_ok c (<[a := l]> tb) st n ex.
Proof. intros H Ha. apply (frames_ok_append c tb st n ex a [] l H). by destruct Ha as [-> | ->]. Qed.

Lemma ptAlloc_spec np n k :
  cm_ready k -> DIVROUNDUP (u32 (sizeof_pt_entry * np)) PAGE_SIZE = Z.of_nat n -> (0 < n)%nat ->
  Z.of_nat n < u32 (coremapSize (k_cm k) - ram_used (k_cm k)) -> (exists f, free_run (k_cm k) f n) ->
  wp (ptAlloc np) (fun r k' => exists f l,
    free_run (k_cm k) f n /\ r = frame_paddr (k_cm k) f /\ k' = upd_entries (fun _ => l) k /\
    kernel_run (k_cm k) f n l) k.
Proof.
  intros Hr En Hn Hav Hf. pose proof Hr as (_ & _ & Hlk). unfold ptAlloc. rewrite En. step.
  apply getAvailableRam_spec; [done|]. rewrite (proj2 (Z.ltb_lt (Z.of_nat n) _)) by done.
  by apply kernel_alloc_spec.
Qed.
End Table.

Section Prepare.
Context {P : Platform} {L : PlatformLaws P}.
Implicit Types (k : kernel).

Lemma sum_npages_layout lo segs acc : segs_from lo segs -> 0 <= acc ->
  acc + Z.of_nat (length (layout segs)) < 2 ^ 32 ->
  foldl (fun n s => u32 (n + seg_npages s)) acc segs = acc + Z.of_nat (length (layout segs)).
Proof.
  revert lo acc. induction segs as [|s segs IH]; intros lo acc Hs Ha Hlen; cbn [foldl]; [cbn; lia|].
  destruct Hs as (_ & Hok & Hs). rewrite layout_cons, length_app, length_pages_of in *.
  pose proof (so_npages _ Hok). rewrite u32_small by lia. rewrite (IH _ _ Hs) by lia. lia.
Qed.

(** The table of [A] lies in [n] frames from [f] on. *)
Definition table_frames (c : coremap_st) (A : addrspace) (f n : nat) : Prop :=
  (0 < n)%nat /\ as_pt A = PADDR_TO_KVADDR (frame_paddr c f) /\
  (forall j, (f <= j < f + n)%nat -> exists x, coremap c !! j = Some x /\ ce_as x = None /\ avail x = false) /\
  (exists x, coremap c !! f = Some x /\ ce_allocpages x = Z.of_nat n).

(** What the kernel is like after [as_prepare_load]. *)
Record prepared k (b : bitmap) (v : vnode) (st : gmap Z page) (a : asid) (A : addrspace)
    (k' : kernel) (A' : addrspace) : Prop := {
  pr_as : k_as k' !! a = Some A';
  pr_wf : as_wf A';
  pr_lock : pt_lock A' = None;
  pr_file : as_v A' = as_v A;
  pr_fresh : forall e, e ∈ pt A' -> pte_in_mem e = false /\ pte_in_swap e = false;
  pr_stack : exists stack, as_segment A' = as_segment A ++ [stack] /\
    seg_start stack = USERSTACK - STACKPAGES * PAGE_SIZE /\ seg_npages stack = STACKPAGES /\
    seg_rwx stack = 6;
  pr_table : exists f n, table_frames (k_cm k') A' f n;
  pr_inv : vm_inv k' b v st None;
  pr_quiet : quiet k';
  pr_curproc : k_curproc k' = k_curproc k;
  pr_others : forall a', a' <> a -> k_as k' !! a' = k_as k !! a';
}.

(** The state [as_prepare_load] leaves, and that it is as promised. *)
Lemma prepared_state k b v st a A stack h f n l :
  vm_inv k b v st None -> quiet k -> k_as k !! a = Some A -> pt A = [] -> pt_lock A = None ->
  segs_from 0 (as_segment A ++ [stack]) -> Z.of_nat (length (layout (as_segment A ++ [stack]))) < 2 ^ 32 ->
  seg_start stack = USERSTACK - STACKPAGES * PAGE_SIZE -> seg_npages stack = STACKPAGES ->
  seg_rwx stack = 6 -> (0 < n)%nat -> free_run (k_cm k) f n -> kernel_run (k_cm k) f n l ->
  let A' := with_pt (fresh_entry <$> layout (as_segment A ++ [stack]))
    (with_table (PADDR_TO_KVADDR (frame_paddr (k_cm k) f)) []
      (with_npages (Z.of_nat (length (layout (as_segment A ++ [stack]))))
        (with_segments (as_segment A ++ [stack]) A))) in
  prepared k b v st a A (set_ases (<[a := A']>) (upd_entries (fun _ => l) (set_heap h k))) A'.
Proof.
  intros Hinv Hq HA Hpt Hpl Hsegs Hlen Hst Hnp Hrwx Hn Hfree Hrun A'.
  destruct Hinv as [Hf Hsw Hnpg Ht Hrr Hc]. set (k' := set_ases _ _).
  assert (Hlay : forall e, e ∈ pt A' ->
    exists x, e = fresh_entry x /\ 0 <= x.1 < MIPS_KSEG0 /\ x.1 mod PAGE_SIZE = 0).
  { intros e (x & -> & Hx)%list_elem_of_fmap. exists x. split; [done|].
    apply list_elem_of_lookup in Hx as [j Hj]. destruct x as [va rwx]. by eapply layout_range. }
  assert (Htb : tables_of k' = <[a := pt A']> (tables_of k))
    by (unfold tables_of, k'; cbn; by rewrite fmap_insert).
  split; try done.
  - unfold k'. kred. apply lookup_insert_eq.
  - split; [done| |].
    + unfold A'. cbn [pt with_pt as_segment with_table with_npages with_segments].
      apply list_eq. intros i. rewrite !list_lookup_fmap. by destruct (layout _ !! i) as [[]|].
    + cbn. by rewrite length_fmap.
  - intros e (x & -> & _)%Hlay. done.
  - exists stack. done.
  - exists f, n. destruct Hrun as (_ & H2 & H3). split; [done|]. split; [done|]. split; done.
  - split; try done.
    + rewrite Htb. apply frames_ok_table; [by eapply frames_ok_reserve| |done].
      left. unfold tables_of. by rewrite lookup_fmap, HA, <- Hpt.
    + intros a' A0. unfold k'. kred. rewrite lookup_insert. case_decide as E.
      * intros [= <-] _. cbn. by rewrite length_fmap.
      * intros HA0. by eapply Hnpg.
    + intros a' Hcur u p d Hm. destruct (Hc a' Hcur u p d Hm) as (j & e & Hp & Hrest).
      exists j, e. split; [|done]. unfold pte_at in *. rewrite Htb, lookup_insert. case_decide as E; [|done].
      subst a'. unfold tables_of in Hp. rewrite lookup_fmap, HA in Hp. cbn in Hp. by rewrite Hpt in Hp.
  - by destruct Hq.
  - intros a' Hne. unfold k'. kred. by rewrite lookup_insert_ne.
Qed.

Lemma prepare_spec k b v st a A n :
  vm_inv k b v st None -> quiet k -> k_as k !! a = Some A -> pt A = [] -> pt_lock A = None ->
  segs_from 0 (as_segment A) -> STACKPAGES * PAGE_SIZE <= USERSTACK ->
  seg_end 0 (as_segment A) <= USERSTACK - STACKPAGES * PAGE_SIZE ->
  DIVROUNDUP (u32 (sizeof_pt_entry * (Z.of_nat (length (layout (as_segment A))) + STACKPAGES))) PAGE_SIZE
    = Z.of_nat n -> (0 < n)%nat ->
  Z.of_nat n < u32 (coremapSize (k_cm k) - ram_used (k_cm k)) -> (exists f, free_run (k_cm k) f n) ->
  wp (as_prepare_load a) (fun r k' =>
    (r = Err ENOMEM /\ k' = k) \/ (r = OK /\ exists A', prepared k b v st a A k' A')) k.
Proof.
  intros Hinv Hq HA Hpt Hpl Hsegs Hroom Hend En Hn Hav Hf. pose proof page_size_range as Hps.
  pose proof kseg0_range. destruct userstack_range as [_ Hus]. pose proof userstack_aligned as Hual.
  unfold STACKPAGES in *. unfold as_prepare_load, STACKPAGES, as_set.
  rewrite (u32_small (18 * PAGE_SIZE)) by lia. rewrite (u32_small (USERSTACK - _)) by lia.
  destruct pf_bits as (ER & EW & EX). rewrite ER, EW. step.
  eapply wp_mono; [eapply (define_region_spec k a A _ _ _ _ _ _ _ USERSTACK); try done; lia|].
  intros r k1 [[-> ->]|(-> & h & stack & [Hok R1 R2 R3 R4 R5 R6] & Hhi & Hmod & ->)]; [by apply wp_ret; left|].
  assert (Hva0 : (USERSTACK - 18 * PAGE_SIZE) mod PAGE_SIZE = 0).
  { rewrite Zminus_mod, Hual, Z_mod_mult. done. }
  assert (Hst : seg_start stack = USERSTACK - 18 * PAGE_SIZE) by lia.
  assert (Hnp : seg_npages stack = 18) by (pose proof (so_size _ Hok); nia).
  assert (Hsegs' : segs_from 0 (as_segment A ++ [stack])) by (apply segs_from_snoc; auto; lia).
  assert (Hlen : Z.of_nat (length (layout (as_segment A ++ [stack]))) < 2 ^ 32).
  { pose proof (layout_length _ _ Hsegs') as Hl. rewrite seg_end_snoc in Hl. nia. }
  assert (Hnpages : Z.of_nat (length (layout (as_segment A ++ [stack])))
    = Z.of_nat (length (layout (as_segment A))) + 18).
  { rewrite layout_app, length_app, layout_cons, length_app, length_pages_of, Hnp. cbn. lia. }
  step. eapply wp_as_get; [kred; apply lookup_insert_eq|]. cbn [as_segment with_segments].
  unfold sum_npages. rewrite (sum_npages_layout 0) by (done || lia). rewrite Z.add_0_l.
  set (N := Z.of_nat (length (layout (as_segment A ++ [stack])))) in *.
  step. step. rewrite set_ases_twice. set (K0 := set_heap h k). step.
  eapply wp_lock; [kred; apply lookup_insert_eq | done | apply Hq |]. rewrite locked_twice. step.
  eapply wp_mono.
  { apply (ptAlloc_spec N n); try done. 2: by rewrite Hnpages.
    split; [apply Hinv | split; apply Hq]. }
  intros p k2 (f & l & Hfree & -> & -> & Hrun).
  assert (Hlf : (f < length (coremap (k_cm k)))%nat).
  { destruct (Hfree f ltac:(lia)) as (x & Hx & _). by eapply lookup_lt_Some. }
  pose proof (fo_cm _ _ _ _ _ (vi_frames _ _ _ _ _ Hinv)) as Hwf.
  pose proof (frame_paddr_range _ _ Hwf Hlf). pose proof (cm_base _ Hwf).
  rewrite (proj2 (Z.eqb_neq _ 0)) by (cbn; lia).
  set (A2 := with_npages N (with_segments (as_segment A ++ [stack]) A)).
  change (upd_entries (fun _ => l) (locked a A2 K0)) with (locked a A2 (upd_entries (fun _ => l) K0)).
  set (K1 := upd_entries (fun _ => l) K0). step. eapply wp_as_get; [apply locked_as|]. step. step.
  cbn [npages as_segment with_pt_lock with_npages with_segments A2].
  unfold N. rewrite Nat2Z.id. unfold locked at 2. rewrite set_ases_twice. step.
  eapply wp_eq.
  { exact (fill_table_run a (with_table (PADDR_TO_KVADDR (frame_paddr (k_cm k) f)) [] A2) K1 0
      (as_segment A ++ [stack]) [] (mk_pt_entry 0 0 false false 0) Hsegs'). }
  step. apply wp_unlock; [done|]. apply wp_ret. right. split; [done|]. eexists.
  apply (prepared_state k b v st a A stack h f n l); done.
Qed.

(** C30. Preparing a program for demand loading: if the regions are in order
    and leave room for the stack, and there are frames for the page table,
    then the address space ends up well formed, with the stack region of 18
    pages below USERSTACK, one table entry for every page of every region and
    no page resident; the invariant of the paging system holds with the new
    table in it, and all locks are free.  Without memory for the region the
    result is ENOMEM and nothing has changed. *)
Theorem as_prepare_load_builds k b v st a A n :
  vm_inv k b v st None -> quiet k -> k_as k !! a = Some A -> pt A = [] -> pt_lock A = None ->
  segs_from 0 (as_segment A) -> STACKPAGES * PAGE_SIZE <= USERSTACK ->
  seg_end 0 (as_segment A) <= USERSTACK - STACKPAGES * PAGE_SIZE ->
  DIVROUNDUP (u32 (sizeof_pt_entry * (Z.of_nat (length (layout (as_segment A))) + STACKPAGES))) PAGE_SIZE
    = Z.of_nat n -> (0 < n)%nat ->
  Z.of_nat n < u32 (coremapSize (k_cm k) - ram_used (k_cm k)) -> (exists f, free_run (k_cm k) f n) ->
  wp (as_prepare_load a) (fun r k' =>
    (r = Err ENOMEM /\ k' = k) \/ (r = OK /\ exists A', prepared k b v st a A k' A')) k.
Proof. apply prepare_spec. Qed.
End Prepare.
