(* ===== verification/Lifecycle.v ===== *)
(** The life of an address space ([as_create], [as_destroy], [as_activate] of
    [vm/addrspace.c]).

    Destroying an address space gives back its frames, the frames of its page
    table, its swap slots and its heap blocks, and leaves every other address
    space alone. *)

From Stdlib Require Import ZArith Lia.
From stdpp Require Import base list gmap strings.
From S2P Require Import Prelude Platform State Synch VmStats Tlb LoadSegment Swap Coremap Frames.
From S2P Require Import Paging Segments VmFault AddrSpace KernelPages Regions.
Local Open Scope Z_scope.

(** The store without the slots of some pages. *)
Definition drop_slots (es : list pt_entry) (st : gmap Z page) : gmap Z page :=
  foldl (fun st e => if pte_in_swap e then delete (pte_paddr e) st else st) st es.

Lemma drop_slots_lookup es st s :
  drop_slots es st !! s = if decide (Exists (fun e => pte_in_swap e = true /\ pte_paddr e = s) es)
                          then None else st !! s.
Proof.
  revert st. induction es as [|e es IH]; intros st; cbn [drop_slots foldl].
  - rewrite decide_False; [done|]. by intros ?%Exists_nil.
  - fold (drop_slots es (if pte_in_swap e then delete (pte_paddr e) st else st)). rewrite IH.
    case_decide as H1; [by rewrite decide_True by by right|].
    destruct (pte_in_swap e) eqn:Hs; [destruct (decide (pte_paddr e = s)) as [<-|Hne]|].
    + rewrite decide_True by (by left). apply lookup_delete_eq.
    + rewrite lookup_delete_ne by done. rewrite decide_False; [done|]. by intros [[? ?]|?]%Exists_cons.
    + rewrite decide_False; [done|]. intros [[? ?]|?]%Exists_cons; congruence.
Qed.

Section Destroy.
Context {P : Platform} {L : PlatformLaws P}.
Implicit Types (k : kernel) (c : coremap_st) (tb : tables).

(** ** The steps of [as_destroy] *)

Lemma kfree_all nodes bs k0 k :
  heap_minus bs k0 k ->
  wp (for_each nodes kfreeM) (fun _ => heap_minus (reverse nodes ++ bs) k0) k.
Proof.
  revert bs k. induction nodes as [|p nodes IH]; intros bs k H; cbn [for_each]; [done|].
  step. apply (heap_minus_kfree p _ _ _ _ H). intros k' H'.
  rewrite reverse_cons, <- app_assoc. by apply IH.
Qed.

(** Giving up the slots of the pages from index [length pre] on. *)
Lemma clear_slots a A k b v st rest pre :
  pt A = pre ++ rest -> swap_refines (k_swap k) (k_disk k) b v st -> swap_lock (k_swap k) = None ->
  lockable k ->
  (forall e, e ∈ rest -> pte_in_swap e = true -> is_Some (st !! pte_paddr e)) ->
  (forall i j e e', rest !! i = Some e -> rest !! j = Some e' -> pte_in_swap e = true ->
     pte_in_swap e' = true -> pte_paddr e = pte_paddr e' -> i = j) ->
  wp (for_each (seq (length pre) (length rest)) (fun i =>
        let* e := pt_get a i in
        if pte_in_swap e then clear_swap (pte_paddr e) else ret tt))
    (fun _ k' => exists b' w, k' = locked a A (set_swap (fun _ => w) k) /\ swap_lock w = None /\
       bitmap_nbits b' = bitmap_nbits b /\
       swap_refines w (k_disk k) b' v (drop_slots rest st)) (locked a A k).
Proof.
  revert k b st pre. induction rest as [|e rest IH]; intros k b st pre Hpt Hr Hl Ht Hin Hinj;
    cbn [length seq for_each].
  - apply wp_ret. exists b, (k_swap k). by destruct k.
  - assert (He : pt A !! length pre = Some e) by (rewrite Hpt, lookup_app_r, Nat.sub_diag by lia; done).
    step. step. eapply wp_locked_get; [done|].
    assert (Hpt' : pt A = (pre ++ [e]) ++ rest) by (by rewrite <- app_assoc).
    replace (S (length pre)) with (length (pre ++ [e])) by (rewrite length_app; cbn; lia).
    assert (Hinj' : forall i j e0 e', rest !! i = Some e0 -> rest !! j = Some e' -> pte_in_swap e0 = true ->
      pte_in_swap e' = true -> pte_paddr e0 = pte_paddr e' -> i = j).
    { intros i j e0 e' H1 H2 H3 H4 H5. pose proof (Hinj (S i) (S j) e0 e' H1 H2 H3 H4 H5). lia. }
    destruct (pte_in_swap e) eqn:Hs.
    + eapply wp_mono; [apply (clear_swap_spec _ b v st); try done; apply Hin; [left | done]|].
      intros [] k1 (b1 & w & -> & Hwl & Hnb & Hr1).
      change (set_swap ?f (locked a A k)) with (locked a A (set_swap f k)).
      eapply wp_mono; [apply (IH _ b1 (delete (pte_paddr e) st) (pre ++ [e])); try done|].
      * intros e' He' Hs'. rewrite lookup_delete_ne; [apply Hin; [by right | done]|].
        intros E. apply list_elem_of_lookup in He' as [j Hj].
        by pose proof (Hinj 0%nat (S j) e e' eq_refl Hj Hs Hs' E).
      * intros [] k2 (b2 & w2 & -> & ? & ? & ?). exists b2, w2. rewrite Hnb in *.
        cbn [drop_slots foldl]. rewrite Hs. done.
    + apply wp_ret. eapply wp_mono; [apply (IH _ b st (pre ++ [e])); try done|].
      * intros e' He' Hs'. apply Hin; [by right | done].
      * intros [] k2 (b2 & w2 & -> & ? & ? & ?). exists b2, w2.
        cbn [drop_slots foldl]. rewrite Hs. done.
Qed.

(** ** The books without the address space *)

Lemma pte_at_delete tb a a' j e :
  pte_at (delete a tb) a' j = Some e <-> a' <> a /\ pte_at tb a' j = Some e.
Proof.
  unfold pte_at. rewrite lookup_delete. case_decide as E; [|split; [intros; split; congruence | tauto]].
  split; [done | intros [? _]; congruence].
Qed.

Lemma frames_ok_destroy c c' tb st n a l :
  frames_ok c tb st n None -> tb !! a = Some l -> firstpaddr c' = firstpaddr c -> cm_wf c' ->
  (forall i x, coremap c' !! i = Some x -> is_Some (ce_as x) ->
     coremap c !! i = Some x /\ ce_as x <> Some a) ->
  (forall a' i x, coremap c !! i = Some x -> ce_as x = Some a' -> a' <> a -> coremap c' !! i = Some x) ->
  frames_ok c' (delete a tb) (drop_slots l st) n None.
Proof.
  intros H Ha Ef Hwf Hc' Hc.
  assert (Efp : forall i, frame_paddr c' i = frame_paddr c i) by (intros; unfold frame_paddr; by rewrite Ef).
  assert (Ho : forall a' i, owned_by c' a' i <-> owned_by c a' i /\ a' <> a).
  { intros a' i. split.
    - intros (x & Hx & Hxa). destruct (Hc' i x Hx) as [Hx' Hne]; [by rewrite Hxa|].
      split; [by exists x | congruence].
    - intros [(x & Hx & Hxa) Hne]. exists x. split; [by eapply Hc | done]. }
  assert (Hmine : forall s, Exists (fun e => pte_in_swap e = true /\ pte_paddr e = s) l <->
    exists j e, pte_at tb a j = Some e /\ pte_in_swap e = true /\ pte_paddr e = s).
  { intros s. rewrite Exists_exists. unfold pte_at. rewrite Ha. cbn. split.
    - intros (e & [j Hj]%list_elem_of_lookup & ?). eauto.
    - intros (j & e & He & ?). exists e. split; [by eapply list_elem_of_lookup_2 | done]. }
  destruct H as [H1 H2 H3 H4 H5 H6 H7 H8 H9].
  assert (Hslot : forall a' j e, a' <> a -> pte_at tb a' j = Some e -> pte_in_swap e = true ->
    drop_slots l st !! pte_paddr e = st !! pte_paddr e).
  { intros a' j e Hne Hp Hs. rewrite drop_slots_lookup, decide_False; [done|].
    intros (j' & e' & Hp' & Hs' & E)%Hmine. destruct (H4 _ _ _ _ _ _ Hp Hp' Hs Hs' ltac:(congruence)). done. }
  split; auto.
  - intros a' j e [Hne Hp]%pte_at_delete. destruct (H2 _ _ _ Hp) as [Hu Hok]. split; [done|].
    destruct (pte_in_mem e).
    + destruct Hok as [? (i & ? & ? & ?)]. split; [done|]. exists i. by rewrite Ho, Efp.
    + destruct (pte_in_swap e) eqn:Hs; [|done]. by rewrite (Hslot _ _ _ Hne Hp Hs).
  - intros a1 j1 e1 a2 j2 e2 [_ P1]%pte_at_delete [_ P2]%pte_at_delete. eauto.
  - intros a1 j1 e1 a2 j2 e2 [_ P1]%pte_at_delete [_ P2]%pte_at_delete. eauto.
  - intros a' i [Hi Hne]%Ho Hex. destruct (H5 a' i Hi Hex) as (j & e & Hp & Hm & Hpa).
    exists j, e. rewrite Efp. split; [by apply pte_at_delete | done].
  - intros a' i x Hx Hxa. destruct (Hc' i x Hx) as [Hx' _]; [by rewrite Hxa|]. eauto.
  - by rewrite Ef.
  - intros s Hs. rewrite drop_slots_lookup in Hs. case_decide; [by destruct Hs | auto].
  - intros s Hs. rewrite drop_slots_lookup in Hs. case_decide as Hd; [by destruct Hs|].
    destruct (H9 s Hs) as (a' & j & e & Hp & Hs' & Hpa). exists a', j, e.
    split; [|done]. apply pte_at_delete. split; [|done]. intros ->. apply Hd, Hmine. eauto.
Qed.

(** ** The whole *)

(** The heap blocks an address space consists of, its name apart. *)
Definition as_blocks (a : asid) (A : addrspace) : list nat :=
  a :: lock_blocks (pt_lock_h A) ++ (seg_node <$> as_segment A).

Record destroyed k (b : bitmap) (v : vnode) (st : gmap Z page) (a : asid) (A : addrspace) (f n : nat)
    (k' : kernel) (b' : bitmap) : Prop := {
  ds_inv : vm_inv k' b' v (drop_slots (pt A) st) None;
  ds_quiet : quiet k';
  ds_as : k_as k' = delete a (k_as k);
  ds_mem : k_mem k' = k_mem k;
  ds_free : forall i, owned_by (k_cm k) a i \/ (f <= i < f + n)%nat -> frame_free (k_cm k') i;
  ds_kept : forall i x, coremap (k_cm k) !! i = Some x -> ~ owned_by (k_cm k) a i ->
    ~ (f <= i < f + n)%nat -> coremap (k_cm k') !! i = Some x;
  ds_heap : forall q, heap_live (k_heap k') q <-> (q ∉ as_blocks a A) /\ heap_live (k_heap k) q;
  ds_running : k_curproc k' = k_curproc k /\ k_cpu k' = k_cpu k;
}.

(** The coremap after the table and the pages have been given back. *)
Definition released c (a : asid) (f n : nat) (l : list c_entry) : Prop :=
  length l = length (coremap c) /\
  forall i, l !! i = (fun x => if decide (f <= i < f + n)%nat then empty_entry (if decide (i = f) then with_allocpages 0 x else x)
                              else if decide (ce_as x = Some a) then empty_entry x else x) <$> coremap c !! i.

Lemma destroyed_state k b v st a A f n l w b' d h :
  vm_inv k b v st None -> quiet k -> k_as k !! a = Some A -> k_curproc k <> Some (Some a) ->
  table_frames (k_cm k) A f n -> released (k_cm k) a f n l ->
  swap_lock w = None -> bitmap_nbits b' = bitmap_nbits b ->
  swap_refines w d b' v (drop_slots (pt A) st) ->
  (forall q, heap_live h q <-> (q ∉ as_blocks a A) /\ heap_live (k_heap k) q) ->
  destroyed k b v st a A f n
    (set_ases (delete a) (set_heap h (upd_entries (fun _ => l) (set_swap (fun _ => w) (set_disk d k))))) b'.
Proof.
  intros [Hf Hsw Hn Ht Hrr Hc] [Q1 Q2 Q3 Q4 Q5] HA Hcur (Hn0 & _ & Htab & _) [Hlen Hl] Hwl Hnb Hr Hh.
  set (k' := set_ases _ _). pose proof (fo_cm _ _ _ _ _ Hf) as Hwf.
  assert (Hta : tables_of k !! a = Some (pt A)) by by apply tables_of_lookup.
  assert (Htb : tables_of k' = delete a (tables_of k))
    by (unfold tables_of, k'; cbn; by rewrite fmap_delete).
  split; try done.
  - split; try done.
    + rewrite Htb, Hnb. unfold k'. kred. eapply (frames_ok_destroy (k_cm k)); try done.
      * by apply cm_wf_entries.
      * intros i x Hx Has. cbn in Hx. rewrite Hl in Hx.
        destruct (coremap (k_cm k) !! i) as [y|] eqn:Hy; [|done]. cbn in Hx. injection Hx as <-.
        case_decide; [by destruct Has|]. case_decide; [by destruct Has | done].
      * intros a' i x Hx Hxa Hne. cbn. rewrite Hl, Hx. cbn. case_decide as Hi.
        -- destruct (Htab i Hi) as (y & Hy & Hya & _). congruence.
        -- rewrite decide_False; [done|]. congruence.
    + intros a' A'. unfold k'. kred. rewrite lookup_delete. case_decide; [done|]. apply Hn.
    + intros a' Hcur' u p dd Hm. destruct (Hc a' Hcur' u p dd Hm) as (j & e & Hp & Hrest).
      exists j, e. split; [|done]. rewrite Htb. apply pte_at_delete. split; [|done]. intros ->.
      by apply Hcur.
  - intros i Hi. assert (exists x, coremap (k_cm k) !! i = Some x) as [x Hx].
    { destruct Hi as [(x & Hx & _)|Hi]; [eauto|]. destruct (Htab i Hi) as (x & Hx & _). eauto. }
    unfold frame_free, k'. kred. setoid_rewrite Hl. rewrite Hx. cbn. eexists. split; [done|].
    destruct Hi as [(y & Hy & Hya)|Hi].
    + rewrite Hx in Hy. injection Hy as <-. case_decide; [done|]. by rewrite decide_True.
    + by rewrite decide_True.
  - intros i x Hx Hno Hi. unfold k'. kred. rewrite Hl, Hx. cbn. rewrite decide_False by done.
    rewrite decide_False; [done|]. intros Hxa. apply Hno. by exists x.
Qed.

Lemma as_destroy_spec k b v st a A f n :
  vm_inv k b v st None -> quiet k -> (curcpu_exists (k_cpu k) = true -> c_spinlocks (k_cpu k) = 0) ->
  k_as k !! a = Some A -> pt_lock A = None -> npages A = Z.of_nat (length (pt A)) ->
  k_curproc k <> Some (Some a) -> table_frames (k_cm k) A f n ->
  wp (as_destroy a) (fun _ k' => exists b', destroyed k b v st a A f n k' b') k.
Proof.
  intros Hinv Hq Hsp HA Hpl Hnp Hcur Htf. pose proof Hinv as [Hf Hsw _ _ _ _]. pose proof Hq as [Q1 Q2 Q3 Q4 Q5].
  pose proof Htf as (Hn0 & Hpt & Htab & x & Hx & Hax).
  unfold as_destroy. step. apply wp_can_sleep; [done..|]. step. eapply wp_as_get; [done|]. steps.
  set (k0 := set_disk _ k).
  eapply wp_mono; [apply (kfree_all _ [] k0), heap_minus_refl|]. intros [] k1 [[h1 ->] Hh1].
  step. eapply wp_lock; [done..|]. step. rewrite Hnp, Nat2Z.id.
  assert (Hpte : forall j e, pt A !! j = Some e -> pte_at (tables_of k) a j = Some e)
    by (intros j e He; apply pte_at_tables; eauto).
  eapply wp_mono; [apply (clear_slots a A (set_heap h1 k0) b v st (pt A) []); try done|].
  { destruct Hsw. split; try done. intros i bs Hi. destruct (sr_pages i bs Hi) as [? <-].
    split; [done|]. apply vfs_close_reads. }
  { intros e [j Hj]%list_elem_of_lookup Hs. destruct (fo_pte _ _ _ _ _ Hf _ _ _ (Hpte _ _ Hj)) as [_ Hok].
    destruct (pte_in_mem e); [destruct Hok; congruence | by rewrite Hs in Hok]. }
  { intros i j e e' Hi Hj Hs Hs' E. by destruct (fo_slots _ _ _ _ _ Hf _ _ _ _ _ _ (Hpte _ _ Hi) (Hpte _ _ Hj) Hs Hs' E). }
  intros [] k2 (b' & w & -> & Hwl & Hnb & Hr). step. apply wp_unlock; [done|]. rewrite set_ases_id by done.
  step. eapply wp_mono; [apply (lock_destroy_spec _ []), heap_minus_refl|]. intros [] k3 [[h3 ->] Hh3].
  assert (Hlf : (f < length (coremap (k_cm k)))%nat) by by eapply lookup_lt_Some.
  pose proof (fo_cm _ _ _ _ _ Hf) as Hwf. pose proof (frame_paddr_range _ _ Hwf Hlf). pose proof (cm_base _ Hwf).
  pose proof page_size_pos. rewrite Hpt, paddr_roundtrip by lia. step.
  set (K3 := set_heap h3 _). change (frame_paddr (k_cm k) f) with (frame_paddr (k_cm K3) f).
  eapply wp_mono; [apply (freepages_spec f x); try done|]; [rewrite Hax; lia | |].
  { rewrite Hax, Nat2Z.id. destruct (Htab (f + n - 1)%nat ltac:(lia)) as (y & Hy & _).
    apply lookup_lt_Some in Hy. cbn in *. lia. }
  intros [] k4 (l1 & -> & Hl1). rewrite Hax, Nat2Z.id in Hl1. step.
  assert (Hlen1 : length l1 = length (coremap (k_cm k))).
  { apply (length_same_support l1 (coremap (k_cm k))). intros i. rewrite Hl1.
    case_decide; by rewrite fmap_is_Some. }
  eapply wp_mono; [apply freeAs_spec; [by apply cm_wf_entries | done]|].
  intros [] k5 ->. unfold kfreeM. steps. exists b'.
  rewrite upd_entries_fuse.
  apply (destroyed_state k b v st a A f n _ w b' (vfs_close (as_v A) (k_disk k)) (kfree a h3)); try done.
  - split; [by rewrite length_fmap|]. intros i. rewrite list_lookup_fmap, Hl1. change (coremap (k_cm K3)) with (coremap (k_cm k)).
    destruct (decide (f <= i < f + n)%nat) as [Hi|Hi];
      destruct (coremap (k_cm k) !! i) as [y|] eqn:Hy; cbn; try done; f_equal.
    destruct (decide (i = f)) as [->|]; [lia | done].
  - intros q. rewrite kfree_live. cbn [k_heap set_heap set_swap set_disk k0] in Hh1, Hh3.
    rewrite Hh3, Hh1. unfold as_blocks.
    rewrite !app_nil_r, not_elem_of_cons, not_elem_of_app, elem_of_reverse. tauto.
Qed.

(** C28. Destroying an address space that is not the current one returns what
    it had but for the copy of the program name: its frames and those of its
    page table are free, its swap slots are gone from the store, and exactly
    its structure, the nodes of its segments and its lock are freed in the
    heap, so that the block of the name stays allocated; every other frame,
    page and block is as before, the invariant holds for what remains, and no
    lock is left held. *)
Theorem as_destroy_releases k b v st a A f n :
  vm_inv k b v st None -> quiet k -> (curcpu_exists (k_cpu k) = true -> c_spinlocks (k_cpu k) = 0) ->
  k_as k !! a = Some A -> pt_lock A = None -> npages A = Z.of_nat (length (pt A)) ->
  k_curproc k <> Some (Some a) -> table_frames (k_cm k) A f n ->
  wp (as_destroy a) (fun _ k' => exists b', destroyed k b v st a A f n k' b') k.
Proof. apply as_destroy_spec. Qed.
End Destroy.

Section Create.
Context {P : Platform} {L : PlatformLaws P}.
Implicit Types (k : kernel).

(** The blocks of an optional string. *)
Definition name_blocks (nm : option nat) : list nat := match nm with Some p => [p] | None => [] end.

(** The state after [as_create] has made the address space [a]. *)
Definition created k (name : string) (a : asid) (v : vnode) (d : disk) (lk : lock_h) (nm : option nat)
    (h : heap) : kernel :=
  set_ases (<[a := mk_addrspace 0 [] [] v (heap_word (k_heap k) a) None lk ((fun p => (p, name)) <$> nm)]>)
    (set_heap h (set_disk d k)).

Definition blocks_added k (bs : list nat) (k' : kernel) : Prop :=
  forall q, heap_live (k_heap k') q <-> q ∈ bs \/ heap_live (k_heap k) q.

(** Opening and closing files, allocating memory and adding an address space
    without pages do not touch the paging system. *)
Lemma vm_inv_env k b v st ex h d :
  (forall u off n, VOP_READ u off n d = VOP_READ u off n (k_disk k)) ->
  vm_inv k b v st ex -> vm_inv (set_heap h (set_disk d k)) b v st ex.
Proof.
  intros Hd [Hf Hsw Hn Ht Hrr Hc]. split; try done. destruct Hsw. split; try done.
  intros i bs Hi. cbn. rewrite Hd. by apply sr_pages.
Qed.

Lemma vm_inv_new_as k b v st ex a A : k_as k !! a = None -> pt A = [] ->
  vm_inv k b v st ex -> vm_inv (set_ases (<[a := A]>) k) b v st ex.
Proof.
  intros Ha Hpt [Hf Hsw Hn Ht Hrr Hc].
  assert (Hta : tables_of k !! a = None) by (unfold tables_of; by rewrite lookup_fmap, Ha).
  assert (Htb : tables_of (set_ases (<[a := A]>) k) = <[a := pt A]> (tables_of k))
    by (unfold tables_of; cbn; by rewrite fmap_insert).
  split; try done.
  - rewrite Htb, Hpt. apply frames_ok_table; [done | by right |]. by intros e ?%elem_of_nil.
  - intros a' A'. kred. rewrite lookup_insert. case_decide; [|apply Hn].
    intros [= <-] Hne. by rewrite Hpt in Hne.
  - intros a' Hcur u p d Hm. destruct (Hc a' Hcur u p d Hm) as (j & e & Hp & Hrest).
    exists j, e. split; [|done]. rewrite Htb. unfold pte_at in *. rewrite lookup_insert_ne; [done|].
    intros ->. by rewrite Hta in Hp.
Qed.

(** What [as_create] does, and when: without room for the structure, when the
    executable cannot be opened, without room for the lock, and otherwise. *)
Definition as_create_post (name : string) k (r : option asid * rc) (k' : kernel) : Prop :=
  if room 1 (k_heap k) then
    match vfs_open name (k_disk k) with
    | inl _ => r = (None, Err ENOENT) /\ exists p h, k' = set_heap h k /\ ~ heap_live (k_heap k) p /\ blocks_added k [p] k'
    | inr (v, d) =>
        if room 7 (k_heap k)
        then exists a p lk h, r = (Some a, OK) /\ ~ heap_live (k_heap k) a /\ k' = created k name a v d lk (Some p) h /\
               blocks_added k (a :: p :: lock_blocks lk) k' /\ spent 7 (k_heap k) h
        else r = (None, Err ENOMEM) /\ exists nm h, k' = set_heap h (set_disk (vfs_close v d) k) /\
               blocks_added k (name_blocks nm) k' /\ bool_decide (is_Some nm) = room 2 (k_heap k)
    end
  else r = (None, Err ENOMEM) /\ k' = k.

(** The lock comes last. *)
Lemma as_create_lock name k a v d nm k2 :
  ~ heap_live (k_heap k) a -> vfs_open name (k_disk k) = inr (v, d) -> heap_plus (name_blocks nm ++ [a]) (set_disk d k) k2 ->
  room 1 (k_heap k) = true ->
  match nm with Some _ => spent 2 (k_heap k) (k_heap k2) | None => room 2 (k_heap k) = false /\ room 1 (k_heap k2) = false end ->
  wp (let* lk := lock_create in
      match lk with
      | None => modify (fun k => set_disk (vfs_close v (k_disk k)) k) ;; kfreeM a ;; ret (None, Err ENOMEM)
      | Some lk =>
          as_set a (mk_addrspace 0 [] [] v (heap_word (k_heap k) a) None lk ((fun p => (p, name)) <$> nm)) ;;
          ret (Some a, OK)
      end) (as_create_post name k) k2.
Proof.
  intros Ha Ho Hp2 Hr1 Hnm. unfold as_create_post. rewrite Hr1, Ho. step.
  eapply wp_mono; [apply (wp_conj _ _ _ _ (lock_create_spec _ _ _ Hp2) (lock_create_takes k2))|].
  intros [lk|] k3 [Hp3 (h & -> & Hg & Hs)]; cbn [create_spec] in Hp3.
  - destruct nm as [p|]; [|assert (H5 : room 5 (k_heap k2) = true) by exact (Hs 0%nat); by rewrite (no_room_le 5 1 _ ltac:(lia) (proj2 Hnm)) in H5].
    pose proof (spent_add 2 5 _ _ _ Hnm Hs) as H7.
    assert (Hr7 : room 7 (k_heap k) = true) by exact (H7 0%nat). rewrite Hr7.
    destruct Hp3 as ([h3 E] & _ & _ & Hl3). assert (h3 = h) as -> by (destruct Hp2 as [[h2 ->] _]; by injection E).
    unfold as_set. steps. exists a, p, lk, h. split; [done|]. split; [done|].
    split; [destruct Hp2 as [[h2 ->] _]; by unfold created|]. split; [|exact H7].
    intros q. change (k_heap (set_ases _ (set_heap h k2))) with (k_heap (set_heap h k2)). rewrite Hl3. cbn [name_blocks k_heap set_disk].
    rewrite !elem_of_app, !elem_of_cons, elem_of_nil. tauto.
  - assert (Hr7 : room 7 (k_heap k) = false).
    { destruct nm as [p|]; [by rewrite <- Hs; apply (Hnm 5%nat) | by eapply no_room_le, (proj1 Hnm); lia]. }
    rewrite Hr7. destruct Hp3 as ([h3 E] & Hnd & Hfr & Hl3). destruct Hp2 as [[h2 ->] _].
    assert (h3 = h) as -> by by injection E. unfold kfreeM. steps. split; [done|].
    exists nm, (kfree a h). split; [reflexivity|]. split.
    + intros q. cbn in Hl3, Hfr |- *. rewrite kfree_live, Hl3, elem_of_app, list_elem_of_singleton. split; [tauto|].
      intros Hq. split; [|tauto]. intros ->. destruct Hq as [Hq|Hq]; [|done].
      apply NoDup_app in Hnd as (_ & Hnd & _). by apply (Hnd a Hq), list_elem_of_singleton.
    + destruct nm as [p|]; [|by rewrite (proj1 Hnm)]. exact (eq_sym (Hnm 0%nat)).
Qed.

Lemma as_create_spec name k :
  (curcpu_exists (k_cpu k) = true -> c_spinlocks (k_cpu k) = 0) -> lockable k ->
  wp (as_create name) (as_create_post name k) k.
Proof.
  intros Hs Ht. unfold as_create. step. apply wp_can_sleep; [done..|]. steps.
  apply (wp_kmalloc_full [] k k _ (heap_plus_refl k)).
  { intros Hr. apply wp_ret. unfold as_create_post. by rewrite Hr. }
  intros a k1 ([h1 ->] & Hnd & Hfresh & Hl1) Hsp. cbn in Hsp, Hl1.
  assert (Ha : ~ heap_live (k_heap k) a) by (apply Hfresh; by left).
  assert (Hr1 : room 1 (k_heap k) = true) by exact (Hsp 0%nat).
  steps. kred. destruct (vfs_open name (k_disk k)) as [e|[v d]] eqn:Eo.
  { apply wp_ret. unfold as_create_post. rewrite Hr1, Eo. split; [done|]. exists a, h1. done. }
  steps. unfold kstrdupM. assert (Hp1 : heap_plus [a] (set_disk d k) (set_disk d (set_heap h1 k))) by (split; [by exists h1 | done]).
  apply (wp_kmalloc_full _ _ _ _ Hp1).
  - intros Hr. apply (as_create_lock name k a v d None); try done. split; [|done]. by rewrite <- Hr; apply (Hsp 1%nat).
  - intros p k2 Hp2 Hsp2. apply (as_create_lock name k a v d (Some p)); try done. exact (spent_add 1 1 _ _ _ Hsp Hsp2).
Qed.

(** The same by the result. *)
Lemma as_create_cases name k r k' : as_create_post name k r k' ->
  (exists e, r = (None, Err e) /\ (e = ENOMEM \/ e = ENOENT)) \/
  (exists a v d lk nm h, r = (Some a, OK) /\ vfs_open name (k_disk k) = inr (v, d) /\ ~ heap_live (k_heap k) a /\
     k' = created k name a v d lk nm h).
Proof.
  unfold as_create_post. destruct (room 1 _); [|intros [-> _]; eauto]. destruct (vfs_open _ _) as [e|[v d]]; [intros [-> _]; eauto|].
  destruct (room 7 _); [|intros [-> _]; eauto]. intros (a & p & lk & h & -> & Ha & -> & _). right. by eexists a, v, d, lk, (Some p), h.
Qed.

End Create.
