(* ===== verification/Boot.v ===== *)
(** The start of the paging system and the switch between processes
    ([vm_bootstrap], [as_activate] of [vm/addrspace.c]).

    [vm_bootstrap] establishes the invariant that every other operation
    preserves; [as_activate] re-establishes its TLB part when another address
    space becomes the current one. *)

From Stdlib Require Import ZArith Lia.
From stdpp Require Import base list gmap strings.
From S2P Require Import Prelude Platform State Synch VmStats Tlb LoadSegment Swap Coremap Frames.
From S2P Require Import Paging Segments VmFault AddrSpace.
Local Open Scope Z_scope.

Section Switch.
Context {P : Platform} {L : PlatformLaws P}.
Implicit Types (k : kernel).

(** [k1] is [k] with another thread running. *)
Definition same_memory k k1 : Prop := exists f o, k1 = set_cpu f (set_curproc o k).

Record activated k1 (b : bitmap) (v : vnode) (st : gmap Z page) k' : Prop := {
  ac_inv : vm_inv k' b v st None;
  ac_quiet : quiet k';
  ac_running : k_curproc k' = k_curproc k1 /\ k_cpu k' = k_cpu k1;
  ac_rest : k_mem k' = k_mem k1 /\ k_as k' = k_as k1 /\ k_heap k' = k_heap k1 /\ k_cm k' = k_cm k1 /\ k_disk k' = k_disk k1;
  ac_flushed : forall a, k_curproc k1 = Some (Some a) -> forall u p d, ~ tlb_maps (tlb (k_tlb k')) u p d;
}.

(** [as_activate] makes the TLB right for whoever runs now. *)
Lemma activate_spec k k1 b v st :
  vm_inv k b v st None -> quiet k -> same_memory k k1 -> lockable k1 ->
  wp as_activate (fun _ k' => activated k1 b v st k') k1.
Proof.
  intros [Hf Hsw Hn Ht Hrr Hc] [Q1 Q2 Q3 Q4 Q5] (f & o & ->) Hl. unfold as_activate, proc_getas. steps. kred.
  destruct o as [[a|]|]; cbn [mbind option_bind id].
  - eapply wp_mono; [by apply tlb_invalidate_spec|]. intros [] k' (t & -> & Hwf & Hinv).
    assert (Hno : forall u p d, ~ tlb_maps t u p d).
    { intros u p d (i & Hi & Hv & _). by rewrite Hinv in Hv. }
    split; try done. split; try done. intros a' _ u p d Hm. by destruct (Hno u p d).
  - apply wp_ret. by split.
  - apply wp_ret. by split.
Qed.

(** Switching the address space: after [proc_setas] and [as_activate] the
    invariant holds for the new address space.  The TLB of the old one is
    flushed completely when the new process has an address space; a thread
    without one leaves it in place, where it translates nothing for it. *)
Lemma switch_keeps_invariant k b v st newas :
  vm_inv k b v st None -> quiet k -> k_curproc k <> None ->
  wp (let* _old := proc_setas newas in as_activate) (fun _ k' =>
    vm_inv k' b v st None /\ quiet k' /\ k_curproc k' = Some newas /\ k_mem k' = k_mem k /\
    k_as k' = k_as k /\ (newas <> None -> forall u p d, ~ tlb_maps (tlb (k_tlb k')) u p d)) k.
Proof.
  intros Hinv Hq Hcur. unfold proc_setas. steps. destruct (k_curproc k) as [old|]; [|done]. steps.
  eapply wp_mono; [apply (activate_spec k); [done..| |apply Hq]|].
  { exists (fun c => c), (Some newas). by destruct k. }
  intros [] k' [A1 A2 [A3 A4] (A5 & A6 & A7 & _) A8]. do 5 (split; [done|]). intros Hne. destruct newas as [a|]; [|done].
  by eapply A8.
Qed.
End Switch.

Section Boot.
Context {P : Platform} {L : PlatformLaws P}.
Implicit Types (k : kernel).

(** The machine before the paging system is started: memory above the kernel,
    a swap device of whole pages that fits the counters, and a TLB without
    translations. *)
Record powered k (v : vnode) (d : disk) (nslots : Z) (b : bitmap) : Prop := {
  pw_first : 0 < (ram_getfirstfree (k_ram k)).1;
  pw_range : (ram_getfirstfree (k_ram k)).1 + PAGE_SIZE <= ram_getsize (k_ram k);
  pw_top : ram_getsize (k_ram k) < 2 ^ 32;
  pw_array : ram_getsize (k_ram k) / PAGE_SIZE * sizeof_c_entry < 2 ^ 32;
  pw_locks : coremap_lock (k_cm k) = false;
  pw_svic : next_svic (k_cm k) = 0;
  pw_swapon : vfs_swapon swapname (k_disk k) = inr (v, d);
  pw_size : VOP_STAT_size v d = inr (nslots * PAGE_SIZE);
  pw_slots : 0 < nslots < 2 ^ 16 /\ nslots * PAGE_SIZE < 2 ^ 32;
  pw_low : nslots <= (ram_getfirstfree (k_ram k)).1;
  pw_bitmap : bitmap_create nslots = Some b;
  pw_used : used (k_swap k) = 0;
  pw_as : k_as k = ∅;
  pw_tlb : tlb_wf (tlb (k_tlb k));
  pw_rr : rr_wf (k_tlb k);
  pw_curproc : forall a, k_curproc k <> Some (Some a);
  pw_cpu : lockable k;
}.

(** With room in the heap for its five blocks a lock is created. *)
Lemma wp_lock_create_room k (Q : option lock_h -> kernel -> Prop) :
  room 5 (k_heap k) = true ->
  (forall l h, grows (k_heap k) h -> spent 5 (k_heap k) h -> Q (Some l) (set_heap h k)) -> wp lock_create Q k.
Proof.
  intros Hr HQ. eapply wp_mono; [apply lock_create_takes|]. intros [l|] k' (h & -> & Hg & Hs); [by apply HQ | congruence].
Qed.

Lemma vm_stats_init_spec k (Q : unit -> kernel -> Prop) :
  room 5 (k_heap k) = true ->
  (forall l h, grows (k_heap k) h -> spent 5 (k_heap k) h ->
     Q tt (set_stats (fun _ => mk_stats (replicate STATS_TOT 0) None (Some l)) (set_heap h k))) ->
  wp vm_stats_init Q k.
Proof.
  intros Hh HQ. unfold vm_stats_init. steps. apply wp_lock_create_room; [done|]. intros l h Hg Hs. steps. by apply HQ.
Qed.

Lemma swapmap_init_spec k v d nslots b (Q : unit -> kernel -> Prop) :
  room 5 (k_heap k) = true -> vfs_swapon swapname (k_disk k) = inr (v, d) ->
  VOP_STAT_size v d = inr (nslots * PAGE_SIZE) -> bitmap_create nslots = Some b ->
  (forall l h, grows (k_heap k) h -> spent 5 (k_heap k) h ->
     Q tt (set_swap (fun w => mk_swap (Some v) (nslots * PAGE_SIZE) (Some b) (used w) None (Some l))
                     (set_heap h (set_disk d k)))) ->
  wp swapmap_init Q k.
Proof.
  intros Hh Hon Hsz Hb HQ. pose proof page_size_pos. unfold swapmap_init, open_swapfile. steps. rewrite Hon. steps.
  rewrite Hsz. step. apply wp_kassert; [apply Z.eqb_eq, Z_mod_mult|]. steps. kred.
  rewrite Z.div_mul, Hb by lia. steps. apply wp_lock_create_room; [done|]. intros l h Hg Hs. steps. exact (HQ l h Hg Hs).
Qed.

(** The swap file starts empty. *)
Lemma swap_refines_empty v d nslots b l :
  bitmap_create nslots = Some b -> 0 < nslots < 2 ^ 16 -> nslots * PAGE_SIZE < 2 ^ 32 ->
  swap_refines (mk_swap (Some v) (nslots * PAGE_SIZE) (Some b) 0 None (Some l)) d b v ∅.
Proof.
  intros Hb Hn Ho. destruct (bitmap_create_spec _ _ Hb) as [En Hbits].
  split; cbn; rewrite ?En; try done.
  intros i. rewrite Hbits, lookup_empty. split; [done | by intros []].
Qed.

(** Without address spaces and with all frames free there is nothing to check. *)
Lemma frames_ok_empty c nslots (tb : tables) :
  cm_wf c -> (forall e, e ∈ coremap c -> e = mk_c_entry 0 None 0) -> nslots <= firstpaddr c -> tb = ∅ ->
  frames_ok c tb ∅ nslots None.
Proof.
  intros Hwf He Hlow ->. assert (Hno : forall a j, pte_at ∅ a j = None) by done.
  assert (Hfree : forall a i x, coremap c !! i = Some x -> ce_as x <> Some a).
  { intros a i x Hx. by rewrite (He x) by (by eapply list_elem_of_lookup_2). }
  split; auto; try (intros; by rewrite Hno in *).
  - intros a i (x & Hx & Ha). by destruct (Hfree a i x).
  - intros a i x Hx Ha. by destruct (Hfree a i x).
  - intros s Hs. rewrite lookup_empty in Hs. by destruct Hs.
  - intros s Hs. rewrite lookup_empty in Hs. by destruct Hs.
Qed.

Lemma vm_bootstrap_spec k v d nslots b :
  powered k v d nslots b -> room 10 (k_heap k) = true ->
  wp vm_bootstrap (fun _ k' => vm_inv k' b v ∅ None /\ quiet k' /\
    (forall i, (i < length (coremap (k_cm k')))%nat -> frame_free (k_cm k') i) /\
    firstpaddr (k_cm k') + coremapSize (k_cm k') * PAGE_SIZE <= ram_getsize (k_ram k) /\
    (forall x, counter (k_stats k') x = 0) /\
    filter (fun l => is_inconsistency l = true) (report (k_stats k')) = [] /\
    k_curproc k' = k_curproc k /\ k_cpu k' = k_cpu k /\ k_as k' = ∅ /\ grows (k_heap k) (k_heap k') /\ spent 10 (k_heap k) (k_heap k')) k.
Proof.
  intros Hp Hr0. destruct Hp. unfold vm_bootstrap. step. apply vm_stats_init_spec; [by apply (room_le 10); [lia|]|]. intros l1 h1 Hg1 Hs1. step.
  eapply swapmap_init_spec; [by apply (spent_room 5 5 _ _ Hs1) | done..|]. intros l2 h2 Hg2 Hs2.
  eapply wp_mono; [by apply coremap_init_spec|].
  intros [] k' (Hr & He & Hlo & Hhi & Hlk & Hac & ->). kred.
  destruct (bitmap_create_spec _ _ pw_bitmap0) as [En _].
  split; [|split; [|split; [|split; [|split; [|split]]]]].
  - split; kred; try done.
    + rewrite En. apply frames_ok_empty; [apply Hr | done | | unfold tables_of; kred; by rewrite pw_as0, fmap_empty].
      destruct (allign_next_addr (ram_getfirstfree (k_ram k)).1); [lia.. |].
      pose proof (cm_length _ (proj1 Hr)). pose proof sizeof_c_entry_range. kred. nia.
    + rewrite pw_used0. apply swap_refines_empty; tauto.
    + by rewrite pw_as0.
    + intros a Hc. by destruct (pw_curproc0 a).
  - by split.
  - intros i [e Hi]%lookup_lt_is_Some. exists e. split; [done|].
    by rewrite (He e) by (by eapply list_elem_of_lookup_2).
  - done.
  - by intros [].
  - done.
  - do 3 (split; [done|]). split; [by eapply grows_trans | exact (spent_add 5 5 _ _ _ Hs1 Hs2)].
Qed.
End Boot.
