(* ===== verification/Os.v ===== *)
(** The state of the whole kernel: processes, threads and processors around
    the paging kernel.

    One record per C structure ([struct proc], [struct thread], [struct cpu],
    [struct openfile]); structures on the heap are known by their block.
    [curthread] is the current thread of the running processor, [curproc] its
    process.  The paging kernel of [State.v] sees of all this the address
    space of [curproc] and the identity of [curthread]: [vm] runs one of its
    operations with this view and puts the result back.

    The spinlocks of these structures ([p_lock], [processTable.lk],
    [c_runqueue_lock], [c_ipi_lock]) guard sections that do not block; such a
    section is one uninterrupted computation here. *)

From Stdlib Require Import ZArith Lia.
From stdpp Require Import base list gmap strings.
From S2P Require Import Prelude Platform State Synch.
Local Open Scope Z_scope.

Definition MAX_PROC : Z := 100.

Inductive threadstate_t := S_RUN | S_READY | S_SLEEP | S_ZOMBIE.

#[export] Instance threadstate_eq_dec : EqDecision threadstate_t.
Proof. solve_decision. Defined.

(** The function a thread starts in, with its arguments: [cmd_progthread] of
    the menu with the words of the command, or [call_enter_forked_process] of
    [sys_fork] with the block of the trap frame.  The switch frame that
    [thread_fork] builds holds them. *)
Inductive entrypoint :=
  | Cmd_progthread (args : list string)
  | Call_enter_forked_process (tf : nat).

Record thread := mk_thread {
  t_name : nat;
  t_state : threadstate_t;
  t_stack : option nat;
  t_cpu : option nat;
  t_proc : option nat;
  t_wchan : option nat;
  t_curspl : Z;
  t_iplhigh_count : Z;
  t_start : option entrypoint;
}.

Record cpu := mk_cpus {
  c_curthread : option nat;
  c_zombies : list nat;
  c_isidle : bool;
  c_runqueue : list nat;
  c_ipi_pending : Z;
  c_shootdown : list Z;
}.

Section Os.
Context {P : Platform}.

Record proc := mk_proc {
  p_name : nat;
  p_numthreads : Z;
  p_addrspace : option asid;
  p_cwd : option vnode;
  p_status : Z;
  p_pid : Z;
  p_sem : option (sem_h * Z);
  p_fileTable : list (option nat);
}.

(** The system open file table; [vn] is NULL for a free entry. *)
Record openfile := mk_openfile { of_vn : option vnode; of_offset : Z; of_countRef : Z }.

Record os := mk_os {
  o_k : kernel;
  o_procs : gmap nat proc;
  o_table : list (option nat);
  o_last_i : Z;
  o_active : bool;
  o_kproc : option nat;
  o_threads : gmap nat thread;
  o_cpus : list cpu;
  o_curcpu : option nat;
  o_wchans : gmap nat (list nat);
  o_files : list openfile;
  o_console_in : list Z;
  o_console_out : list Z;
  o_cpu_startup_sem : option (sem_h * Z);
}.

Definition set_k (f : kernel -> kernel) (s : os) : os :=
  mk_os (f (o_k s)) (o_procs s) (o_table s) (o_last_i s) (o_active s) (o_kproc s) (o_threads s)
    (o_cpus s) (o_curcpu s) (o_wchans s) (o_files s) (o_console_in s) (o_console_out s) (o_cpu_startup_sem s).
Definition set_procs (f : gmap nat proc -> gmap nat proc) (s : os) : os :=
  mk_os (o_k s) (f (o_procs s)) (o_table s) (o_last_i s) (o_active s) (o_kproc s) (o_threads s)
    (o_cpus s) (o_curcpu s) (o_wchans s) (o_files s) (o_console_in s) (o_console_out s) (o_cpu_startup_sem s).
Definition set_table (l : list (option nat)) (last : Z) (s : os) : os :=
  mk_os (o_k s) (o_procs s) l last (o_active s) (o_kproc s) (o_threads s)
    (o_cpus s) (o_curcpu s) (o_wchans s) (o_files s) (o_console_in s) (o_console_out s) (o_cpu_startup_sem s).
Definition set_kproc (o : option nat) (active : bool) (s : os) : os :=
  mk_os (o_k s) (o_procs s) (o_table s) (o_last_i s) active o (o_threads s)
    (o_cpus s) (o_curcpu s) (o_wchans s) (o_files s) (o_console_in s) (o_console_out s) (o_cpu_startup_sem s).
Definition set_threads (f : gmap nat thread -> gmap nat thread) (s : os) : os :=
  mk_os (o_k s) (o_procs s) (o_table s) (o_last_i s) (o_active s) (o_kproc s) (f (o_threads s))
    (o_cpus s) (o_curcpu s) (o_wchans s) (o_files s) (o_console_in s) (o_console_out s) (o_cpu_startup_sem s).
Definition set_cpus (f : list cpu -> list cpu) (s : os) : os :=
  mk_os (o_k s) (o_procs s) (o_table s) (o_last_i s) (o_active s) (o_kproc s) (o_threads s)
    (f (o_cpus s)) (o_curcpu s) (o_wchans s) (o_files s) (o_console_in s) (o_console_out s) (o_cpu_startup_sem s).
Definition set_curcpu (o : option nat) (s : os) : os :=
  mk_os (o_k s) (o_procs s) (o_table s) (o_last_i s) (o_active s) (o_kproc s) (o_threads s)
    (o_cpus s) o (o_wchans s) (o_files s) (o_console_in s) (o_console_out s) (o_cpu_startup_sem s).
Definition set_wchans (f : gmap nat (list nat) -> gmap nat (list nat)) (s : os) : os :=
  mk_os (o_k s) (o_procs s) (o_table s) (o_last_i s) (o_active s) (o_kproc s) (o_threads s)
    (o_cpus s) (o_curcpu s) (f (o_wchans s)) (o_files s) (o_console_in s) (o_console_out s) (o_cpu_startup_sem s).
Definition set_files (f : list openfile -> list openfile) (s : os) : os :=
  mk_os (o_k s) (o_procs s) (o_table s) (o_last_i s) (o_active s) (o_kproc s) (o_threads s)
    (o_cpus s) (o_curcpu s) (o_wchans s) (f (o_files s)) (o_console_in s) (o_console_out s) (o_cpu_startup_sem s).
Definition set_console (i o : list Z) (s : os) : os :=
  mk_os (o_k s) (o_procs s) (o_table s) (o_last_i s) (o_active s) (o_kproc s) (o_threads s)
    (o_cpus s) (o_curcpu s) (o_wchans s) (o_files s) i o (o_cpu_startup_sem s).
Definition set_cpu_startup_sem (o : option (sem_h * Z)) (s : os) : os :=
  mk_os (o_k s) (o_procs s) (o_table s) (o_last_i s) (o_active s) (o_kproc s) (o_threads s)
    (o_cpus s) (o_curcpu s) (o_wchans s) (o_files s) (o_console_in s) (o_console_out s) o.

(** Field updates. *)
Definition with_numthreads (n : Z) (p : proc) : proc :=
  mk_proc (p_name p) n (p_addrspace p) (p_cwd p) (p_status p) (p_pid p) (p_sem p) (p_fileTable p).
Definition with_addrspace (a : option asid) (p : proc) : proc :=
  mk_proc (p_name p) (p_numthreads p) a (p_cwd p) (p_status p) (p_pid p) (p_sem p) (p_fileTable p).
Definition with_cwd (v : option vnode) (p : proc) : proc :=
  mk_proc (p_name p) (p_numthreads p) (p_addrspace p) v (p_status p) (p_pid p) (p_sem p) (p_fileTable p).
Definition with_status (n : Z) (p : proc) : proc :=
  mk_proc (p_name p) (p_numthreads p) (p_addrspace p) (p_cwd p) n (p_pid p) (p_sem p) (p_fileTable p).
Definition with_pid (n : Z) (p : proc) : proc :=
  mk_proc (p_name p) (p_numthreads p) (p_addrspace p) (p_cwd p) (p_status p) n (p_sem p) (p_fileTable p).
Definition with_sem (o : option (sem_h * Z)) (p : proc) : proc :=
  mk_proc (p_name p) (p_numthreads p) (p_addrspace p) (p_cwd p) (p_status p) (p_pid p) o (p_fileTable p).
Definition with_fileTable (l : list (option nat)) (p : proc) : proc :=
  mk_proc (p_name p) (p_numthreads p) (p_addrspace p) (p_cwd p) (p_status p) (p_pid p) (p_sem p) l.

Definition with_t_state (x : threadstate_t) (t : thread) : thread :=
  mk_thread (t_name t) x (t_stack t) (t_cpu t) (t_proc t) (t_wchan t) (t_curspl t) (t_iplhigh_count t) (t_start t).
Definition with_t_stack (o : option nat) (t : thread) : thread :=
  mk_thread (t_name t) (t_state t) o (t_cpu t) (t_proc t) (t_wchan t) (t_curspl t) (t_iplhigh_count t) (t_start t).
Definition with_t_cpu (c : option nat) (t : thread) : thread :=
  mk_thread (t_name t) (t_state t) (t_stack t) c (t_proc t) (t_wchan t) (t_curspl t) (t_iplhigh_count t) (t_start t).
Definition with_t_proc (o : option nat) (t : thread) : thread :=
  mk_thread (t_name t) (t_state t) (t_stack t) (t_cpu t) o (t_wchan t) (t_curspl t) (t_iplhigh_count t) (t_start t).
Definition with_t_wchan (o : option nat) (t : thread) : thread :=
  mk_thread (t_name t) (t_state t) (t_stack t) (t_cpu t) (t_proc t) o (t_curspl t) (t_iplhigh_count t) (t_start t).
Definition with_t_curspl (n : Z) (t : thread) : thread :=
  mk_thread (t_name t) (t_state t) (t_stack t) (t_cpu t) (t_proc t) (t_wchan t) n (t_iplhigh_count t) (t_start t).
Definition with_t_iplhigh_count (n : Z) (t : thread) : thread :=
  mk_thread (t_name t) (t_state t) (t_stack t) (t_cpu t) (t_proc t) (t_wchan t) (t_curspl t) n (t_start t).

Definition with_t_start (o : option entrypoint) (t : thread) : thread :=
  mk_thread (t_name t) (t_state t) (t_stack t) (t_cpu t) (t_proc t) (t_wchan t) (t_curspl t) (t_iplhigh_count t) o.

Definition with_c_curthread (o : option nat) (c : cpu) : cpu :=
  mk_cpus o (c_zombies c) (c_isidle c) (c_runqueue c) (c_ipi_pending c) (c_shootdown c).
Definition with_c_zombies (l : list nat) (c : cpu) : cpu :=
  mk_cpus (c_curthread c) l (c_isidle c) (c_runqueue c) (c_ipi_pending c) (c_shootdown c).
Definition with_c_isidle (b : bool) (c : cpu) : cpu :=
  mk_cpus (c_curthread c) (c_zombies c) b (c_runqueue c) (c_ipi_pending c) (c_shootdown c).
Definition with_c_runqueue (l : list nat) (c : cpu) : cpu :=
  mk_cpus (c_curthread c) (c_zombies c) (c_isidle c) l (c_ipi_pending c) (c_shootdown c).
Definition with_c_ipi (pending : Z) (l : list Z) (c : cpu) : cpu :=
  mk_cpus (c_curthread c) (c_zombies c) (c_isidle c) (c_runqueue c) pending l.

(** [curcpu], [curthread] and [curproc]. *)
Definition cur_cpu (s : os) : option cpu := o_curcpu s ≫= fun i => o_cpus s !! i.
Definition cur_thread (s : os) : option nat := cur_cpu s ≫= c_curthread.
Definition cur_proc (s : os) : option nat := cur_thread s ≫= fun t => o_threads s !! t ≫= t_proc.

(** What the paging kernel sees, and what it changes. *)
Definition view (s : os) : kernel :=
  set_cpu (fun c => mk_cpu (bool_decide (is_Some (o_curcpu s))) (c_spinlocks c) (t_in_interrupt c)
                      (default (curthread c) (cur_thread s)))
    (set_curproc (p_addrspace <$> (cur_proc s ≫= fun p => o_procs s !! p)) (o_k s)).

Definition put_back (k : kernel) (s : os) : os :=
  set_k (fun _ => k)
    (match cur_proc s, k_curproc k with
     | Some p, Some a => set_procs (alter (with_addrspace a) p) s
     | _, _ => s
     end).

Definition vm {A} (m : M kernel A) : M os A :=
  fun s => match m (view s) with
           | Done a k => Done a (put_back k s)
           | Stop w k => Stop w (put_back k s)
           end.

(** The state with another kernel heap. *)
Definition set_kheap (h : heap) (s : os) : os := set_k (fun _ => set_heap h (view s)) s.

(** Dereferencing pointers; a structure that has been freed is gone. *)
Definition deref {A} (o : option A) (what : string) : M os A :=
  match o with Some a => ret a | None => halt (Undef what) end.

Definition proc_at (p : nat) : M os proc :=
  let* o := gets (fun s => o_procs s !! p) in deref o "proc".
Definition proc_upd (p : nat) (f : proc -> proc) : M os unit :=
  let* x := proc_at p in modify (set_procs (<[p := f x]>)).
Definition thread_at (t : nat) : M os thread :=
  let* o := gets (fun s => o_threads s !! t) in deref o "thread".
Definition thread_upd (t : nat) (f : thread -> thread) : M os unit :=
  let* x := thread_at t in modify (set_threads (<[t := f x]>)).
Definition cpu_at (i : nat) : M os cpu :=
  let* o := gets (fun s => o_cpus s !! i) in deref o "cpu".
Definition cpu_upd (i : nat) (f : cpu -> cpu) : M os unit :=
  let* x := cpu_at i in modify (set_cpus (<[i := f x]>)).

Definition curcpu_self : M os nat := let* o := gets o_curcpu in deref o "curcpu".
Definition curthread_self : M os nat := let* o := gets cur_thread in deref o "curthread".
Definition curproc_self : M os nat := let* o := gets cur_proc in deref o "curproc".

(** Allocation in the kernel heap. *)
Definition kmallocO : M os (option nat) := vm kmallocM.
Definition kstrdupO : M os (option nat) := vm kstrdupM.
Definition kfreeO (p : nat) : M os unit := vm (kfreeM p).
End Os.

(** Reading through the updates of the whole state. *)
Ltac ored :=
  cbn [o_k o_procs o_table o_last_i o_active o_kproc o_threads o_cpus o_curcpu o_wchans o_files
       o_console_in o_console_out o_cpu_startup_sem set_cpu_startup_sem
       set_kheap set_k set_procs set_table set_kproc set_threads set_cpus set_curcpu set_wchans set_files set_console
       p_name p_numthreads p_addrspace p_cwd p_status p_pid p_sem p_fileTable
       with_numthreads with_addrspace with_cwd with_status with_pid with_sem with_fileTable
       t_name t_state t_stack t_cpu t_proc t_wchan t_curspl t_iplhigh_count t_start
       with_t_state with_t_stack with_t_cpu with_t_proc with_t_wchan with_t_curspl with_t_iplhigh_count with_t_start
       c_curthread c_zombies c_isidle c_runqueue c_ipi_pending c_shootdown
       with_c_curthread with_c_zombies with_c_isidle with_c_runqueue with_c_ipi
       of_vn of_offset of_countRef] in *.

Section Lemmas.
Context {P : Platform}.
Implicit Types (s : os) (k : kernel).

(** [k] is a state of the paging kernel that the rest of the state agrees
    with. *)
Definition in_view s k : Prop := k_curproc k = k_curproc (view s) /\ k_cpu k = k_cpu (view s).

Lemma put_back_keep s k : k_curproc k = k_curproc (view s) -> put_back k s = set_k (fun _ => k) s.
Proof.
  intros E. unfold put_back. rewrite E. cbn. destruct (cur_proc s) as [p|]; [|done]. cbn.
  destruct (o_procs s !! p) as [x|] eqn:Hp; [|done]. cbn. unfold set_procs, set_k. cbn. f_equal.
  apply map_eq. intros q. destruct (decide (p = q)) as [<-|]; [|by rewrite lookup_alter_ne].
  rewrite lookup_alter_eq, Hp. by destruct x.
Qed.

(** The paging kernel that is put back is the one that is seen next. *)
Lemma view_set_k s k : in_view s k -> view (set_k (fun _ => k) s) = k.
Proof.
  intros [E1 E2]. assert (Et : cur_thread (set_k (fun _ => k) s) = cur_thread s) by done.
  assert (Ep : cur_proc (set_k (fun _ => k) s) = cur_proc s) by done.
  unfold view in *. rewrite Et, Ep. cbn in *. destruct k as [? ? ? ? c ? ? ? ? ? ? ?]. cbn in *. subst.
  unfold set_cpu, set_curproc. cbn. f_equal. by destruct (cur_thread s).
Qed.

Lemma wp_vm {A} (m : M kernel A) s (Q : A -> os -> Prop) :
  wp m (fun a k => Q a (put_back k s)) (view s) -> wp (vm m) Q s.
Proof. unfold wp, vm. by destruct (m (view s)). Qed.

Lemma wp_vm_keep {A} (m : M kernel A) s (Q : A -> os -> Prop) :
  wp m (fun a k => in_view s k /\ Q a (set_k (fun _ => k) s)) (view s) -> wp (vm m) Q s.
Proof.
  intros H. apply wp_vm. eapply wp_mono; [exact H|]. cbn. intros a k [[E _] HQ]. by rewrite put_back_keep.
Qed.

Lemma wp_deref {A} (o : option A) what x s (Q : A -> os -> Prop) : o = Some x -> Q x s -> wp (deref o what) Q s.
Proof. by intros ->. Qed.

Lemma wp_proc_at p x s (Q : proc -> os -> Prop) : o_procs s !! p = Some x -> Q x s -> wp (proc_at p) Q s.
Proof. intros H HQ. unfold proc_at. steps. by eapply wp_deref. Qed.

Lemma wp_proc_upd p x f s (Q : unit -> os -> Prop) :
  o_procs s !! p = Some x -> Q tt (set_procs (<[p := f x]>) s) -> wp (proc_upd p f) Q s.
Proof. intros H HQ. unfold proc_upd. step. eapply wp_proc_at; [done|]. by steps. Qed.

Lemma wp_thread_at t x s (Q : thread -> os -> Prop) : o_threads s !! t = Some x -> Q x s -> wp (thread_at t) Q s.
Proof. intros H HQ. unfold thread_at. steps. by eapply wp_deref. Qed.

Lemma wp_thread_upd t x f s (Q : unit -> os -> Prop) :
  o_threads s !! t = Some x -> Q tt (set_threads (<[t := f x]>) s) -> wp (thread_upd t f) Q s.
Proof. intros H HQ. unfold thread_upd. step. eapply wp_thread_at; [done|]. by steps. Qed.

Lemma wp_cpu_at i x s (Q : cpu -> os -> Prop) : o_cpus s !! i = Some x -> Q x s -> wp (cpu_at i) Q s.
Proof. intros H HQ. unfold cpu_at. steps. by eapply wp_deref. Qed.

Lemma wp_cpu_upd i x f s (Q : unit -> os -> Prop) :
  o_cpus s !! i = Some x -> Q tt (set_cpus (<[i := f x]>) s) -> wp (cpu_upd i f) Q s.
Proof. intros H HQ. unfold cpu_upd. step. eapply wp_cpu_at; [done|]. by steps. Qed.

(** Heap operations of the paging kernel leave everything else alone. *)
Lemma in_view_heap s h : in_view s (set_heap h (view s)).
Proof. by split. Qed.

Lemma view_set_kheap h s : view (set_kheap h s) = set_heap h (view s).
Proof. apply view_set_k, in_view_heap. Qed.

Lemma wp_kmallocO s (Q : option nat -> os -> Prop) :
  (kmalloc (k_heap (o_k s)) = None -> Q None (set_kheap (k_heap (o_k s)) s)) ->
  (forall p h, kmalloc (k_heap (o_k s)) = Some (p, h) -> Q (Some p) (set_kheap h s)) -> wp kmallocO Q s.
Proof.
  intros HN HS. apply wp_vm_keep. unfold wp, kmallocM. change (k_heap (view s)) with (k_heap (o_k s)).
  destruct (kmalloc (k_heap (o_k s))) as [[p h]|].
  - split; [apply in_view_heap | by apply HS].
  - split; [by split|]. by apply HN.
Qed.

Lemma wp_kfreeO p s (Q : unit -> os -> Prop) : Q tt (set_kheap (kfree p (k_heap (o_k s))) s) -> wp (kfreeO p) Q s.
Proof. intros HQ. apply wp_vm_keep. apply wp_modify. split; [apply in_view_heap | done]. Qed.

Lemma wp_vm_heap {A} (m : M kernel A) s (Q : A -> os -> Prop) :
  wp m (fun a k => exists h, k = set_heap h (view s) /\ Q a (set_kheap h s)) (view s) -> wp (vm m) Q s.
Proof.
  intros H. apply wp_vm_keep. eapply wp_mono; [exact H|]. intros a k (h & -> & HQ).
  split; [apply in_view_heap | done].
Qed.

(** The paging kernel is unchanged but for its heap and its idea of the
    current process and thread. *)
Record calm k k' : Prop := {
  ca_cm : k_cm k' = k_cm k;
  ca_swap : k_swap k' = k_swap k;
  ca_tlb : k_tlb k' = k_tlb k;
  ca_stats : k_stats k' = k_stats k;
  ca_as : k_as k' = k_as k;
  ca_mem : k_mem k' = k_mem k;
  ca_disk : k_disk k' = k_disk k;
  ca_ram : k_ram k' = k_ram k;
  ca_cpu : t_in_interrupt (k_cpu k') = t_in_interrupt (k_cpu k) /\ c_spinlocks (k_cpu k') = c_spinlocks (k_cpu k);
}.

Lemma calm_trans k1 k2 k3 : calm k1 k2 -> calm k2 k3 -> calm k1 k3.
Proof. intros [? ? ? ? ? ? ? ? []] [? ? ? ? ? ? ? ? []]. split; try congruence. split; congruence. Qed.

Lemma calm_view s : calm (o_k s) (view s).
Proof. by split. Qed.
End Lemmas.
