(* ===== verification/Proc.v ===== *)
(** Processes ([proc/proc.c]): the process table and its pids, creation and
    destruction, the threads of a process, and waiting for its end.

    The semaphore of a process is its count: a [P] on a count of 0 ends the
    computation as [Blocked], which is as far as the waiting thread gets by
    itself, and [V] raises the count.  Sleeping in [P] and being woken by [V],
    in any interleaving, is the subject of [Locks.v]. *)

From Stdlib Require Import ZArith Lia.
From stdpp Require Import base list gmap strings.
From S2P Require Import Prelude Platform State Synch AddrSpace Os.
Local Open Scope Z_scope.

Section Proc.
Context {P : Platform}.

(** ** Pids *)

(** [processTable.proc[i]]; the index is in range or the access undefined. *)
Definition table_get (i : Z) : M os (option nat) :=
  let* l := gets o_table in
  if i <? 0 then halt (Undef "processTable.proc[i]") else deref (l !! Z.to_nat i) "processTable.proc[i]".

Definition proc_search_pid (pid : Z) : M os nat :=
  kassert ((0 <=? pid) && (pid <? MAX_PROC)) "pid>=0&&pid<MAX_PROC" ;;
  let* p := table_get pid in
  let* p := deref p "p->p_pid" in
  let* x := proc_at p in
  kassert (p_pid x =? pid) "p->p_pid==pid" ;;
  ret p.

(** The next index of the circular search. *)
Definition next_i (i : Z) : Z := if MAX_PROC <? i + 1 then 1 else i + 1.

(** The [while] loop of [proc_init_waitpid]: the index of a free entry, 0
    when the search comes round to the last allocated one. *)
Fixpoint pid_search (fuel : nat) (i last : Z) : M os Z :=
  match fuel with
  | O => halt (Loops "proc_init_waitpid")
  | S fuel =>
      if i =? last then ret 0
      else let* e := table_get i in
           match e with
           | None => ret i
           | Some _ => pid_search fuel (next_i i) last
           end
  end.

Definition proc_init_waitpid (p : nat) : M os unit :=
  let* last := gets o_last_i in
  proc_upd p (with_pid 0) ;;
  let* i := pid_search (S (Z.to_nat MAX_PROC)) (next_i last) last in
  if i =? 0 then halt (Panic "too many processes. proc table is full")
  else
    modify (fun s => set_table (<[Z.to_nat i := Some p]> (o_table s)) i s) ;;
    proc_upd p (with_pid i) ;;
    proc_upd p (with_status 0) ;;
    let* sem := vm sem_create in
    proc_upd p (with_sem ((fun h => (h, 0)) <$> sem)).

Definition proc_end_waitpid (p : nat) : M os unit :=
  let* x := proc_at p in
  kassert ((0 <? p_pid x) && (p_pid x <=? MAX_PROC)) "i>0 && i<=MAX_PROC" ;;
  modify (fun s => set_table (<[Z.to_nat (p_pid x) := None]> (o_table s)) (o_last_i s) s) ;;
  match p_sem x with
  | None => halt (Kassert "sem != NULL")
  | Some (h, _) => vm (sem_destroy h)
  end.

(** ** Creation and destruction *)

(** Fields that are not initialised hold what the block happened to hold. *)
Definition proc_create : M os (option nat) :=
  let* h0 := gets (fun s => k_heap (o_k s)) in
  let* p := kmallocO in
  match p with
  | None => ret None
  | Some p =>
      let* name := kstrdupO in
      match name with
      | None => kfreeO p ;; ret None
      | Some name =>
          modify (set_procs (<[p := mk_proc name 0 None None (heap_word h0 p) (heap_word h0 p) None
                                      (replicate (Z.to_nat OPEN_MAX) None)]>)) ;;
          proc_init_waitpid p ;;
          ret (Some p)
      end
  end.

Definition proc_destroy (p : nat) : M os unit :=
  let* kproc := gets o_kproc in
  kassert (bool_decide (kproc <> Some p)) "proc != kproc" ;;
  let* x := proc_at p in
  match p_cwd x with
  | None => ret tt
  | Some v =>
      vm (modify (fun k => set_disk (VOP_DECREF v (k_disk k)) k)) ;;
      proc_upd p (with_cwd None)
  end ;;
  match p_addrspace x with
  | None => ret tt
  | Some a =>
      let* cur := gets cur_proc in
      (if decide (cur = Some p)
       then let* a := vm (proc_setas None) in vm as_deactivate ;; ret tt
       else proc_upd p (with_addrspace None)) ;;
      vm (as_destroy a)
  end ;;
  let* x := proc_at p in
  kassert (p_numthreads x =? 0) "proc->p_numthreads == 0" ;;
  proc_end_waitpid p ;;
  kfreeO (p_name x) ;;
  kfreeO p ;;
  modify (set_procs (delete p)).

Definition proc_bootstrap : M os unit :=
  let* p := proc_create in
  match p with
  | None => halt (Panic "proc_create for kproc failed")
  | Some p => modify (set_kproc (Some p) true)
  end.

Definition proc_create_runprogram : M os (option nat) :=
  let* p := proc_create in
  match p with
  | None => ret None
  | Some p =>
      proc_upd p (with_addrspace None) ;;
      let* cur := curproc_self in
      let* c := proc_at cur in
      match p_cwd c with
      | None => ret tt
      | Some v =>
          vm (modify (fun k => set_disk (VOP_INCREF v (k_disk k)) k)) ;;
          proc_upd p (with_cwd (Some v))
      end ;;
      ret (Some p)
  end.

(** ** Threads of a process *)

Definition proc_addthread (p t : nat) : M os unit :=
  let* th := thread_at t in
  kassert (bool_decide (t_proc th = None)) "t->t_proc == NULL" ;;
  proc_upd p (fun x => with_numthreads (u32 (p_numthreads x + 1)) x) ;;
  thread_upd t (with_t_proc (Some p)).

Definition proc_remthread (t : nat) : M os unit :=
  let* th := thread_at t in
  match t_proc th with
  | None => halt (Kassert "proc != NULL")
  | Some p =>
      let* x := proc_at p in
      kassert (0 <? p_numthreads x) "proc->p_numthreads > 0" ;;
      proc_upd p (with_numthreads (u32 (p_numthreads x - 1))) ;;
      thread_upd t (with_t_proc None)
  end.

(** ** Waiting for the end of a process

    [P] and [V] on the semaphore of a process; [P] waits while the count is
    zero. *)

Definition proc_P (p : nat) : M os unit :=
  let* x := proc_at p in
  match p_sem x with
  | None => halt (Kassert "sem != NULL")
  | Some (h, n) => if n =? 0 then halt (Blocked "p_sem")
                   else proc_upd p (with_sem (Some (h, u32 (n - 1))))
  end.

Definition proc_V (p : nat) : M os unit :=
  let* x := proc_at p in
  match p_sem x with
  | None => halt (Kassert "sem != NULL")
  | Some (h, n) => kassert (0 <? u32 (n + 1)) "sem->sem_count > 0" ;;
                   proc_upd p (with_sem (Some (h, u32 (n + 1))))
  end.

Definition proc_wait (p : nat) : M os Z :=
  let* kproc := gets o_kproc in
  kassert (bool_decide (kproc <> Some p)) "proc != kproc" ;;
  proc_P p ;;
  let* x := proc_at p in
  proc_destroy p ;;
  ret (p_status x).

Definition proc_signal_end (p : nat) : M os unit := proc_V p.

(** ** File tables *)

Definition openfileIncrRefCount (o : option nat) : M os unit :=
  match o with
  | None => ret tt
  | Some i =>
      let* l := gets o_files in
      let* x := deref (l !! i) "of" in
      modify (set_files (<[i := mk_openfile (of_vn x) (of_offset x) (u32 (of_countRef x + 1))]>))
  end.

Definition proc_file_table_copy (psrc pdest : nat) : M os unit :=
  for_each (seq 0 (Z.to_nat OPEN_MAX)) (fun fd =>
    let* src := proc_at psrc in
    let* o := deref (p_fileTable src !! fd) "fileTable[fd]" in
    proc_upd pdest (fun x => with_fileTable (<[fd := o]> (p_fileTable x)) x) ;;
    openfileIncrRefCount o).
End Proc.
