(* ===== verification/ProcTable.v ===== *)
(** The process table: every process is registered under its pid, pids are
    not shared, and the circular search for a free one ends. *)

From Stdlib Require Import ZArith Lia.
From stdpp Require Import base list gmap strings.
From S2P Require Import Prelude Platform State Synch AddrSpace Os Proc.
Local Open Scope Z_scope.

Section Table.
Context {P : Platform}.
Implicit Types (s : os).

(** Every live process is in the table at its pid, and nothing else is. *)
Record proc_inv s : Prop := {
  pi_length : length (o_table s) = S (Z.to_nat MAX_PROC);
  pi_last : 0 <= o_last_i s <= MAX_PROC;
  pi_start : o_last_i s = 0 -> o_procs s = ∅;
  pi_entry : forall i p, o_table s !! i = Some (Some p) ->
    (0 < i)%nat /\ exists x, o_procs s !! p = Some x /\ p_pid x = Z.of_nat i;
  pi_registered : forall p x, o_procs s !! p = Some x -> 0 < p_pid x /\ o_table s !! Z.to_nat (p_pid x) = Some (Some p);
}.

(** ** The circular search *)

(** How many steps from [i] to [last]. *)
Definition dist (i last : Z) : Z := if i <=? last then last - i else MAX_PROC - i + last.

Lemma dist_next i last : 1 <= i <= MAX_PROC -> 1 <= last <= MAX_PROC -> i <> last ->
  1 <= next_i i <= MAX_PROC /\ dist (next_i i) last = dist i last - 1.
Proof.
  unfold dist, next_i, MAX_PROC. intros Hi Hl Hne.
  destruct (Z.ltb_spec 100 (i + 1)); split; try lia; repeat case_match; lia.
Qed.

Lemma wp_table_get i e s (Q : option nat -> os -> Prop) :
  0 <= i -> o_table s !! Z.to_nat i = Some e -> Q e s -> wp (table_get i) Q s.
Proof.
  intros Hi He HQ. unfold table_get. steps. destruct (Z.ltb_spec i 0); [lia|]. by eapply wp_deref.
Qed.

(** With enough fuel the search ends: at a free entry, or back at [last] with
    every entry on the way taken. *)
Lemma pid_search_spec s last fuel i :
  length (o_table s) = S (Z.to_nat MAX_PROC) -> 1 <= last <= MAX_PROC -> 1 <= i <= MAX_PROC -> dist i last < Z.of_nat fuel ->
  wp (pid_search fuel i last) (fun r s' => s' = s /\
    ((1 <= r <= MAX_PROC /\ r <> last /\ o_table s !! Z.to_nat r = Some None) \/
     (r = 0 /\ forall j, 1 <= j <= MAX_PROC -> j <> last -> dist j last <= dist i last ->
        exists p, o_table s !! Z.to_nat j = Some (Some p)))) s.
Proof.
  intros Hinv Hl. revert i. induction fuel as [|fuel IH]; intros i Hi Hd.
  { exfalso. unfold dist, MAX_PROC in *. destruct (Z.leb_spec i last); lia. }
  cbn [pid_search]. destruct (Z.eqb_spec i last) as [->|Hne].
  - apply wp_ret. split; [done|]. right. split; [done|]. intros j Hj Hjl Hd'.
    exfalso. unfold dist, MAX_PROC in *. repeat case_match; lia.
  - assert (Hlt : (Z.to_nat i < length (o_table s))%nat) by (rewrite Hinv; lia).
    apply lookup_lt_is_Some in Hlt as [e He]. step. eapply wp_table_get; [lia | done |].
    destruct e as [p|]; [|apply wp_ret; split; [done|]; left; auto].
    destruct (dist_next i last Hi Hl Hne) as [Hi' Hd'].
    eapply wp_mono; [apply IH; [done | lia]|]. intros r s' (-> & [Hr|[-> Hr]]); (split; [done|]); [by left|].
    right. split; [done|]. intros j Hj Hjl Hdj. destruct (decide (j = i)) as [->|Hji]; [by eexists|].
    apply Hr; [done..|]. rewrite Hd'. enough (dist j last <> dist i last) by lia.
    unfold dist, MAX_PROC in *. repeat case_match; lia.
Qed.

(** The whole search of [proc_init_waitpid]. *)
Lemma pid_search_all s :
  length (o_table s) = S (Z.to_nat MAX_PROC) -> 0 <= o_last_i s <= MAX_PROC ->
  (o_last_i s = 0 -> o_table s !! 1%nat = Some None) ->
  wp (pid_search (S (Z.to_nat MAX_PROC)) (next_i (o_last_i s)) (o_last_i s)) (fun r s' => s' = s /\
    ((1 <= r <= MAX_PROC /\ r <> o_last_i s /\ o_table s !! Z.to_nat r = Some None) \/
     (r = 0 /\ forall j, 1 <= j <= MAX_PROC -> j <> o_last_i s ->
        exists p, o_table s !! Z.to_nat j = Some (Some p)))) s.
Proof.
  intros Hinv Hl Hfirst. destruct (decide (o_last_i s = 0)) as [H0|H0].
  - rewrite H0. change (next_i 0) with 1. change (pid_search (S (Z.to_nat MAX_PROC)) 1 0) with
      (let* e := table_get 1 in match e with None => ret 1 | Some _ => pid_search (Z.to_nat MAX_PROC) (next_i 1) 0 end).
    step. eapply (wp_table_get 1 None); [lia | by apply Hfirst|].
    apply wp_ret. split; [done|]. left. unfold MAX_PROC. split; [lia|]. split; [done|]. by apply Hfirst.
  - assert (Hn : 1 <= next_i (o_last_i s) <= MAX_PROC /\
      forall j, 1 <= j <= MAX_PROC -> j <> o_last_i s -> dist j (o_last_i s) <= dist (next_i (o_last_i s)) (o_last_i s)).
    { unfold next_i, dist, MAX_PROC in *. destruct (Z.ltb_spec 100 (o_last_i s + 1)); split; try lia;
        intros j Hj Hne; repeat case_match; lia. }
    destruct Hn as [Hn1 Hn2]. eapply wp_mono; [apply pid_search_spec; [done | lia | done |]|].
    + unfold dist, MAX_PROC in *. repeat case_match; lia.
    + intros r s' (-> & [Hr|[-> Hr]]); (split; [done|]); [by left|]. right. auto.
Qed.

(** Before the first process every entry is free. *)
Lemma proc_inv_first s : proc_inv s -> o_last_i s = 0 -> o_table s !! 1%nat = Some None.
Proof.
  intros Hinv H0. destruct (lookup_lt_is_Some_2 (o_table s) 1) as [[p|] He]; [|exfalso|done].
  - rewrite (pi_length _ Hinv). unfold MAX_PROC. lia.
  - apply (pi_entry _ Hinv) in He as (_ & x & Hx & _). by rewrite (pi_start _ Hinv H0), lookup_empty in Hx.
Qed.
End Table.

Section Create.
Context {P : Platform} {L : PlatformLaws P}.
Implicit Types (s : os).

(** The structure of every process is a live block. *)
Definition procs_live s : Prop := forall p, is_Some (o_procs s !! p) -> heap_live (k_heap (o_k s)) p.

(** A process right after its creation. *)
Record new_proc (x : proc) : Prop := {
  np_threads : p_numthreads x = 0;
  np_as : p_addrspace x = None;
  np_cwd : p_cwd x = None;
  np_status : p_status x = 0;
  np_sem : match p_sem x with Some (_, n) => n = 0 | None => True end;
  np_files : p_fileTable x = replicate (Z.to_nat OPEN_MAX) None;
}.

(** [s'] is [s] with the new process [p], registered under a pid that no
    other process has. *)
Record registered s s' (p : nat) : Prop := {
  rg_fresh : o_procs s !! p = None;
  rg_procs : exists x, o_procs s' = <[p := x]> (o_procs s) /\ new_proc x /\ 1 <= p_pid x <= MAX_PROC /\
    (forall q y, o_procs s !! q = Some y -> p_pid y <> p_pid x) /\ o_last_i s' = p_pid x /\
    o_table s' = <[Z.to_nat (p_pid x) := Some p]> (o_table s);
  rg_live : heap_live (k_heap (o_k s')) p;
  rg_inv : proc_inv s';
  rg_others : o_threads s' = o_threads s /\ o_cpus s' = o_cpus s /\ o_curcpu s' = o_curcpu s /\
    o_kproc s' = o_kproc s /\ o_files s' = o_files s /\ o_wchans s' = o_wchans s;
  rg_kernel : calm (o_k s) (o_k s');
  rg_heap : grows (k_heap (o_k s)) (k_heap (o_k s'));
}.

(** A free entry has no process: entering one there keeps the table right. *)
Lemma proc_inv_insert s s' p x :
  proc_inv s -> o_procs s !! p = None -> 1 <= p_pid x <= MAX_PROC ->
  o_table s !! Z.to_nat (p_pid x) = Some None ->
  o_procs s' = <[p := x]> (o_procs s) -> o_table s' = <[Z.to_nat (p_pid x) := Some p]> (o_table s) ->
  o_last_i s' = p_pid x -> proc_inv s'.
Proof.
  intros [I1 I2 I3 I4 I5] Hp Hpid Hfree Ep Et El.
  assert (Hlt : (Z.to_nat (p_pid x) < length (o_table s))%nat) by (by eapply lookup_lt_Some).
  split; rewrite ?Ep, ?Et, ?El.
  - by rewrite length_insert.
  - lia.
  - lia.
  - intros i q Hq. destruct (decide (i = Z.to_nat (p_pid x))) as [->|Hne].
    + rewrite list_lookup_insert_eq in Hq by done. injection Hq as <-. split; [lia|].
      exists x. split; [apply lookup_insert_eq | lia].
    + rewrite list_lookup_insert_ne in Hq by done. destruct (I4 i q Hq) as (Hi & y & Hy & Hyp).
      split; [done|]. exists y. split; [|done]. rewrite lookup_insert_ne; [done|]. intros ->. congruence.
  - intros q y Hq. rewrite lookup_insert in Hq. case_decide as E.
    + injection Hq as <-. subst. split; [lia|]. by apply list_lookup_insert_eq.
    + destruct (I5 q y Hq) as [Hy Hyt]. split; [done|]. rewrite list_lookup_insert_ne; [done|].
      intros Ei. rewrite <- Ei in Hyt. congruence.
Qed.

(** Creating an object only adds to the live blocks. *)
Lemma create_spec_heap {A} (blocks : A -> list nat) k o k' :
  create_spec blocks [] k o k' -> exists h, k' = set_heap h k /\ forall q, heap_live (k_heap k) q -> heap_live h q.
Proof.
  assert (H : forall bs, heap_plus bs k k' ->
    exists h, k' = set_heap h k /\ forall q, heap_live (k_heap k) q -> heap_live h q).
  { intros bs ([h ->] & _ & _ & Hl). exists h. split; [done|]. intros q Hq. apply Hl. by right. }
  destruct o; apply H.
Qed.

(** The process has its semaphore exactly when the heap [h] had room for the
    [n] blocks taken since. *)
Definition sem_paid (n : nat) (h : heap) s (p : nat) : Prop :=
  match o_procs s !! p ≫= p_sem with
  | Some _ => spent n h (k_heap (o_k s))
  | None => room n h = false
  end.

Lemma sem_paid_add n m h h1 s p : spent n h h1 -> sem_paid m h1 s p -> sem_paid (n + m) h s p.
Proof.
  intros Hs. unfold sem_paid. destruct (o_procs s !! p ≫= p_sem).
  - by apply spent_add.
  - by rewrite Hs.
Qed.

(** The part of [proc_create] after the structure has been set up. *)
Lemma init_waitpid_spec s p x0 :
  proc_inv (set_procs (delete p) s) -> o_procs s !! p = Some x0 -> heap_live (k_heap (o_k s)) p ->
  p_numthreads x0 = 0 -> p_addrspace x0 = None -> p_cwd x0 = None ->
  p_fileTable x0 = replicate (Z.to_nat OPEN_MAX) None ->
  (exists j, 1 <= j <= MAX_PROC /\ j <> o_last_i s /\ o_table s !! Z.to_nat j = Some None) ->
  wp (proc_init_waitpid p) (fun _ s' => registered (set_procs (delete p) s) s' p /\ sem_paid 3 (k_heap (o_k s)) s' p /\
    forall q, heap_live (k_heap (o_k s)) q -> heap_live (k_heap (o_k s')) q) s.
Proof.
  intros Hinv Hp Hl Hn Ha Hc Hf (j & Hj & Hjl & Hjt). unfold proc_init_waitpid. step. step. step.
  eapply wp_proc_upd; [done|]. step.
  eapply wp_mono; [apply (pid_search_all (set_procs (<[p := with_pid 0 x0]>) s));
    [apply (pi_length _ Hinv) | apply (pi_last _ Hinv) | apply (proc_inv_first _ Hinv)]|].
  cbn beta. intros r s1 [-> Hr]. ored. destruct Hr as [(Hr & Hrl & Hrt)|[-> Hr]].
  2: { destruct (Hr j Hj Hjl) as [q Hq]. congruence. }
  destruct (Z.eqb_spec r 0); [lia|]. steps.
  eapply wp_proc_upd; [ored; apply lookup_insert_eq|]. step.
  eapply wp_proc_upd; [ored; apply lookup_insert_eq|]. step. apply wp_vm_heap.
  eapply wp_mono; [apply sem_create_takes|]. intros sem k1 (h & -> & Hlive & Hsem). exists h. split; [done|]. cbv beta.
  eapply wp_proc_upd; [ored; apply lookup_insert_eq|]. ored.
  set (x := with_sem _ _). split; [split|split].
  - ored. apply lookup_delete_eq.
  - exists x. ored. rewrite !insert_insert_eq, insert_delete_eq. split; [done|].
    split; [by split; [done..|destruct sem; done|done]|]. split; [done|]. split; [|done].
    intros q y Hq Ey. destruct (pi_registered _ Hinv q y Hq) as [_ Ht]. ored. rewrite Ey in Ht. cbn in Ht. congruence.
  - ored. cbn. by apply Hlive.
  - eapply (proc_inv_insert (set_procs (delete p) s) _ p x); [done | apply lookup_delete_eq | done | done | ..]; [|done..].
    ored. by rewrite !insert_insert_eq, insert_delete_eq.
  - done.
  - by split.
  - exact Hlive.
  - unfold sem_paid. ored. rewrite lookup_insert_eq. cbn. by destruct sem.
  - apply Hlive.
Qed.

(** Only some fields matter. *)
Lemma registered_ext s1 s s' p :
  o_procs s1 = o_procs s -> o_table s1 = o_table s -> o_threads s1 = o_threads s -> o_cpus s1 = o_cpus s ->
  o_curcpu s1 = o_curcpu s -> o_kproc s1 = o_kproc s -> o_files s1 = o_files s -> o_wchans s1 = o_wchans s ->
  calm (o_k s) (o_k s1) -> grows (k_heap (o_k s)) (k_heap (o_k s1)) -> registered s1 s' p -> registered s s' p.
Proof.
  intros E1 E2 E3 E4 E5 E6 E7 E8 E9 E10 [R1 R2 R3 R4 R5 R6 R7]. rewrite E1, E2 in *. rewrite E3, E4, E5, E6, E7, E8 in R5.
  split; try done; [by eapply calm_trans | by eapply grows_trans].
Qed.

Lemma create_spec_proc s :
  proc_inv s -> procs_live s ->
  (exists j, 1 <= j <= MAX_PROC /\ j <> o_last_i s /\ o_table s !! Z.to_nat j = Some None) ->
  wp proc_create (fun r s' => match r with
    | Some p => registered s s' p /\ procs_live s' /\ sem_paid 5 (k_heap (o_k s)) s' p
    | None => o_procs s' = o_procs s /\ o_table s' = o_table s /\ proc_inv s' /\ room 2 (k_heap (o_k s)) = false
    end) s.
Proof.
  intros Hinv Hlive Hfree. assert (Hsame : forall s', o_procs s' = o_procs s -> o_table s' = o_table s ->
    o_last_i s' = o_last_i s -> proc_inv s').
  { intros s' E1 E2 E3. destruct Hinv as [I1 I2 I3 I4 I5]. split; rewrite ?E1, ?E2, ?E3; auto. }
  unfold proc_create. step. step. step. apply wp_kmallocO; [intros Hno; steps; cbn; rewrite Hno; by eauto 6|].
  intros p h Hp. pose proof (kmalloc_fresh _ _ _ Hp) as Hnew.
  assert (Hpn : o_procs s !! p = None).
  { destruct (o_procs s !! p) eqn:E; [|done]. destruct Hnew. apply Hlive. by rewrite E. }
  step. apply wp_kmallocO.
  { intros Hno. step. apply wp_kfreeO. steps. cbn in *. rewrite Hp, Hno. by eauto 6. }
  intros name h' Hname. ored. steps.
  set (x0 := mk_proc _ _ _ _ _ _ _ _). set (s1 := set_procs _ _).
  assert (Ed : o_procs (set_procs (delete p) s1) = o_procs s)
    by (unfold s1; ored; by rewrite delete_insert_eq, delete_id).
  assert (Hl1 : forall q, q = p \/ heap_live (k_heap (o_k s)) q -> heap_live (k_heap (o_k s1)) q).
  { intros q Hq. cbn. apply (kmalloc_live _ _ _ _ Hname). right. cbn. by apply (kmalloc_live _ _ _ _ Hp). }
  eapply wp_mono; [apply (init_waitpid_spec s1 p x0); try done|].
  - by apply Hsame.
  - apply lookup_insert_eq.
  - apply Hl1. by left.
  - intros [] s' (Hr & Hs & Hq). apply wp_ret. split; [apply (registered_ext (set_procs (delete p) s1)); try done; intros q' Hq'; apply Hl1; by right|].
    split; [|by apply (sem_paid_add 2 3 _ (k_heap (o_k s1))); [exact (spent_add 1 1 _ _ _ (spent_kmalloc _ _ _ Hp) (spent_kmalloc _ _ _ Hname))|]].
    intros q [y Hy]. destruct (rg_procs _ _ _ Hr) as (x & Ex & _). rewrite Ex, Ed, lookup_insert in Hy.
    apply Hq, Hl1. case_decide; [by left | right]. apply Hlive. eauto.
Qed.

(** C32. Creating a process: with a free entry in the table besides the last
    one used, the process gets a pid between 1 and MAX_PROC that no other
    process has, is registered under it, and starts without threads, address
    space or exit status; it lacks its semaphore only if there was no room for
    it in the heap.  Without room for its structure and name the table and
    the processes are unchanged.  The table stays consistent. *)
Theorem proc_create_registers s :
  proc_inv s -> procs_live s ->
  (exists j, 1 <= j <= MAX_PROC /\ j <> o_last_i s /\ o_table s !! Z.to_nat j = Some None) ->
  wp proc_create (fun r s' => match r with
    | Some p => registered s s' p /\ procs_live s' /\ sem_paid 5 (k_heap (o_k s)) s' p
    | None => o_procs s' = o_procs s /\ o_table s' = o_table s /\ proc_inv s' /\ room 2 (k_heap (o_k s)) = false
    end) s.
Proof. apply create_spec_proc. Qed.

(** C33. The circular search for a pid always ends, and finds a free entry
    whenever there is one besides the last one used.  It never tries that
    entry itself: with every other entry taken the kernel panics although
    the last process may have gone. *)
Theorem pid_search_complete s :
  proc_inv s ->
  wp (pid_search (S (Z.to_nat MAX_PROC)) (next_i (o_last_i s)) (o_last_i s)) (fun r s' => s' = s /\
    (r = 0 <-> forall j, 1 <= j <= MAX_PROC -> j <> o_last_i s ->
       exists p, o_table s !! Z.to_nat j = Some (Some p)) /\
    (r <> 0 -> 1 <= r <= MAX_PROC /\ o_table s !! Z.to_nat r = Some None)) s.
Proof.
  intros Hinv. eapply wp_mono; [apply pid_search_all;
    [apply (pi_length _ Hinv) | apply (pi_last _ Hinv) | apply (proc_inv_first _ Hinv)]|].
  intros r s' (-> & [(Hr & Hl & Ht)|[-> Hr]]); (split; [done|]); [|by split].
  split; [|auto]. split; [lia|]. intros Hall. destruct (Hall r Hr Hl) as [p Hp]. congruence.
Qed.

(** Looking up a pid finds exactly the process with that pid; for
    [MAX_PROC] itself, which a process may have, the assertion fails, and for
    a pid in range that nobody has the code follows a NULL pointer. *)
Lemma proc_search_pid_spec s pid :
  proc_inv s -> 0 <= pid <= MAX_PROC ->
  match proc_search_pid pid s with
  | Done p s' => s' = s /\ pid < MAX_PROC /\ exists x, o_procs s !! p = Some x /\ p_pid x = pid
  | Stop (Kassert _) s' => s' = s /\ pid = MAX_PROC
  | Stop (Undef _) s' => s' = s /\ forall p x, o_procs s !! p = Some x -> p_pid x <> pid
  | Stop _ _ => False
  end.
Proof.
  intros Hinv Hpid. unfold proc_search_pid, kassert. destruct (Z.leb_spec 0 pid); [|lia].
  destruct (Z.ltb_spec pid MAX_PROC); [|cbn; split; [done | lia]]. cbn.
  assert (Hlt : (Z.to_nat pid < length (o_table s))%nat) by (rewrite (pi_length _ Hinv); lia).
  apply lookup_lt_is_Some in Hlt as [e He].
  unfold bind, table_get, gets, deref, ret. cbn. destruct (Z.ltb_spec pid 0); [lia|]. rewrite He.
  destruct e as [p|].
  - destruct (pi_entry _ Hinv _ _ He) as (_ & x & Hx & Hp). unfold proc_at, gets, deref, bind, ret. rewrite Hx.
    rewrite Hp, Z2Nat.id, Z.eqb_refl by lia. cbn. split; [done|]. split; [done|]. exists x. split; [done|].
    rewrite Hp. lia.
  - cbn. split; [done|]. intros p x Hx <-. destruct (pi_registered _ Hinv p x Hx) as [_ Hr]. congruence.
Qed.
End Create.
