(* ===== verification/Thread.v ===== *)
(** Threads and processors ([thread/thread.c]): creation and destruction,
    the context switch, wait channels, migration and the interrupts
    processors send each other.

    A run queue, a wait channel and the zombie list of a processor are lists
    of threads.  [thread_switch] continues as the thread it switches to: its
    result is the state in which that thread goes on.  When there is no
    thread to run the processor idles, which stops the computation in the
    idle state; [thread_dispatch] is what it does when it is woken.

    [t_wchan_name] is kept as the channel it names.  The spinlock given to
    [wchan_sleep], and the assertions on it, are in [Locks.v], where threads
    interleave; here a function runs from its call to the switch without
    interference, except that [thread_consider_migration] is split into the
    count of the queues and the moves, between which counts may become stale.

    [kfree] works on the kernel heap as a store of blocks.  The stack of a
    thread is one such block: that a block of a page or more comes from
    [alloc_kpages], and that [free_kpages] panics when a process with an
    address space gives it back ([KernelPages.free_kpages_panics]), is not
    seen here.

    Not modelled: the guard band at the end of a stack ([thread_checkstack]),
    the switch frame, and the interrupt priority, which is high throughout
    these functions except where [cpu_hatch] lowers it. *)

From Stdlib Require Import ZArith Lia.
From stdpp Require Import base list gmap strings.
From S2P Require Import Prelude Platform State Synch Tlb AddrSpace Os Proc.
Local Open Scope Z_scope.

Section Thread.
Context {P : Platform}.

(** ** Interprocessor interrupts *)

Definition ipi_send (target : nat) (code : Z) : M os unit :=
  kassert ((0 <=? code) && (code <? 32)) "code >= 0 && code < 32" ;;
  cpu_upd target (fun c => with_c_ipi (Z.lor (c_ipi_pending c) (Z.shiftl 1 code)) (c_shootdown c) c).

Definition ipi_broadcast (code : Z) : M os unit :=
  let* n := gets (fun s => length (o_cpus s)) in
  for_each (seq 0 n) (fun i =>
    let* self := curcpu_self in
    if (i =? self)%nat then ret tt else ipi_send i code).

Definition ipi_tlbshootdown (target : nat) (mapping : Z) : M os unit :=
  let* c := cpu_at target in
  if Z.of_nat (length (c_shootdown c)) =? TLBSHOOTDOWN_MAX
  then halt (Panic "ipi_tlbshootdown: Too many shootdowns queued")
  else cpu_upd target (fun c => with_c_ipi (Z.lor (c_ipi_pending c) (Z.shiftl 1 IPI_TLBSHOOTDOWN))
                                  (c_shootdown c ++ [mapping]) c).

(** A halted processor never continues. *)
Definition cpu_halt : M os unit := halt (Loops "cpu_halt").

Definition pending (bits code : Z) : bool := negb (Z.land bits (Z.shiftl 1 code) =? 0).

Definition interprocessor_interrupt : M os unit :=
  let* i := curcpu_self in
  let* c := cpu_at i in
  let bits := c_ipi_pending c in
  (if pending bits IPI_PANIC then cpu_halt else ret tt) ;;
  (if pending bits IPI_OFFLINE then cpu_halt else ret tt) ;;
  (if pending bits IPI_TLBSHOOTDOWN then
     for_each (seq 0 (length (c_shootdown c))) (fun _ => vm vm_tlbshootdown) ;;
     cpu_upd i (fun c => with_c_ipi (c_ipi_pending c) [] c)
   else ret tt) ;;
  cpu_upd i (fun c => with_c_ipi 0 (c_shootdown c) c).

(** ** Creation and destruction *)

Definition thread_create : M os (option nat) :=
  let* t := kmallocO in
  match t with
  | None => ret None
  | Some t =>
      let* name := kstrdupO in
      match name with
      | None => kfreeO t ;; ret None
      | Some name =>
          modify (set_threads (<[t := mk_thread name S_READY None None None None IPL_HIGH 1 None]>)) ;;
          ret (Some t)
      end
  end.

(** [add_result] is what [cpuarray_add] returns. *)
Definition cpu_create (add_result : rc) : M os nat :=
  let* c := kmallocO in
  match c with
  | None => halt (Panic "cpu_create: Out of memory")
  | Some _ =>
      match add_result with
      | Err _ => halt (Panic "cpu_create: array_add")
      | OK =>
          let* number := gets (fun s => length (o_cpus s)) in
          modify (set_cpus (fun l => l ++ [mk_cpus None [] false [] 0 []])) ;;
          let* t := thread_create in
          match t with
          | None => halt (Panic "cpu_create: thread_create failed")
          | Some t =>
              cpu_upd number (with_c_curthread (Some t)) ;;
              thread_upd t (with_t_cpu (Some number)) ;;
              (if (number =? 0)%nat then ret tt
               else let* stack := kmallocO in
                    match stack with
                    | None => halt (Panic "cpu_create: couldn't allocate stack")
                    | Some stack => thread_upd t (with_t_stack (Some stack))
                    end) ;;
              let* cur := gets o_curcpu in
              (match cur with Some _ => ret tt | None => modify (set_curcpu (Some number)) end) ;;
              let* kproc := gets o_kproc in
              let* kproc := deref kproc "kproc" in
              proc_addthread kproc t ;;
              ret number
          end
      end
  end.

Definition thread_destroy (t : nat) : M os unit :=
  let* cur := gets cur_thread in
  kassert (bool_decide (cur <> Some t)) "thread != curthread" ;;
  let* th := thread_at t in
  kassert (bool_decide (t_state th <> S_RUN)) "thread->t_state != S_RUN" ;;
  kassert (bool_decide (t_proc th = None)) "thread->t_proc == NULL" ;;
  match t_stack th with None => ret tt | Some stack => kfreeO stack end ;;
  kfreeO (t_name th) ;;
  kfreeO t ;;
  modify (set_threads (delete t)).

(** The loop over the zombies of the current processor, head first. *)
Fixpoint exorcise_list (i : nat) (zs : list nat) : M os unit :=
  match zs with
  | [] => ret tt
  | z :: zs =>
      cpu_upd i (with_c_zombies zs) ;;
      let* cur := gets cur_thread in
      kassert (bool_decide (cur <> Some z)) "z != curthread" ;;
      let* th := thread_at z in
      kassert (bool_decide (t_state th = S_ZOMBIE)) "z->t_state == S_ZOMBIE" ;;
      thread_destroy z ;;
      exorcise_list i zs
  end.

Definition exorcise : M os unit :=
  let* i := curcpu_self in
  let* c := cpu_at i in
  exorcise_list i (c_zombies c).

(** ** The run queue *)

Definition thread_make_runnable (t : nat) : M os unit :=
  let* th := thread_at t in
  let* i := deref (t_cpu th) "target->t_cpu" in
  thread_upd t (with_t_state S_READY) ;;
  let* c := cpu_at i in
  cpu_upd i (with_c_runqueue (c_runqueue c ++ [t])) ;;
  let* self := curcpu_self in
  if c_isidle c && negb (i =? self)%nat then ipi_send i IPI_UNIDLE else ret tt.

(** A new thread of process [proc], or of the current one, that will start in
    [entry]. *)
Definition thread_fork (proc : option nat) (entry : entrypoint) : M os rc :=
  let* t := thread_create in
  match t with
  | None => ret (Err ENOMEM)
  | Some t =>
      let* stack := kmallocO in
      match stack with
      | None => thread_destroy t ;; ret (Err ENOMEM)
      | Some stack =>
          thread_upd t (with_t_stack (Some stack)) ;;
          let* cur := curthread_self in
          let* cth := thread_at cur in
          thread_upd t (with_t_cpu (t_cpu cth)) ;;
          let* p := deref (match proc with Some p => Some p | None => t_proc cth end) "proc" in
          proc_addthread p t ;;
          thread_upd t (fun th => with_t_iplhigh_count (t_iplhigh_count th + 1) th) ;;
          thread_upd t (with_t_start (Some entry)) ;;
          thread_make_runnable t ;;
          ret OK
      end
  end.

(** ** The context switch *)

(** What a thread does when it gets the processor; a new thread does the same
    at the beginning of [thread_startup]. *)
Definition thread_resume (t : nat) : M os unit :=
  thread_upd t (with_t_wchan None) ;;
  thread_upd t (with_t_state S_RUN) ;;
  vm as_activate ;;
  exorcise.

(** The loop that takes the next thread off the run queue, and the switch. *)
Definition thread_dispatch : M os unit :=
  let* i := curcpu_self in
  let* c := cpu_at i in
  match c_runqueue c with
  | [] => halt (Blocked "cpu_idle")
  | next :: q =>
      cpu_upd i (with_c_runqueue q) ;;
      cpu_upd i (with_c_isidle false) ;;
      cpu_upd i (with_c_curthread (Some next)) ;;
      thread_resume next
  end.

(** The current thread [cur] of processor [i] is put in its new place. *)
Definition switch_out (i cur : nat) (newstate : threadstate_t) (wc : option nat) : M os unit :=
  match newstate with
  | S_RUN => halt (Panic "Illegal S_RUN in thread_switch")
  | S_READY => thread_make_runnable cur
  | S_SLEEP =>
      let* w := deref wc "wc" in
      thread_upd cur (with_t_wchan (Some w)) ;;
      let* q := gets (fun s => o_wchans s !! w) in
      let* q := deref q "wc" in
      modify (set_wchans (<[w := q ++ [cur]]>))
  | S_ZOMBIE => cpu_upd i (fun c => with_c_zombies (c_zombies c ++ [cur]) c)
  end ;;
  thread_upd cur (with_t_state newstate) ;;
  cpu_upd i (with_c_isidle true).

Definition thread_switch (newstate : threadstate_t) (wc : option nat) : M os unit :=
  let* i := curcpu_self in
  let* cur := curthread_self in
  let* c := cpu_at i in
  if c_isidle c then ret tt
  else if decide (newstate = S_READY /\ c_runqueue c = []) then ret tt
  else switch_out i cur newstate wc ;; thread_dispatch.

(** [thread_switch] does not come back to a zombie, except from an idle
    processor, where it returns at once and the exit ends in a panic. *)
Definition zombie_switch : M os unit :=
  let* i := curcpu_self in
  let* c := cpu_at i in
  thread_switch S_ZOMBIE None ;;
  if c_isidle c then halt (Panic "braaaaaaaiiiiiiiiiiinssssss") else ret tt.

Definition thread_exit : M os unit :=
  let* cur := curthread_self in
  let* th := thread_at cur in
  (match t_proc th with None => ret tt | Some _ => proc_remthread cur end) ;;
  let* th := thread_at cur in
  kassert (bool_decide (t_proc th = None)) "cur->t_proc == NULL" ;;
  zombie_switch.

Definition thread_yield : M os unit := thread_switch S_READY None.

(** Where a new thread starts; [entrypoint] is the function given to
    [thread_fork]. *)
Definition thread_startup (entrypoint : M os unit) : M os unit :=
  let* cur := curthread_self in
  thread_resume cur ;;
  entrypoint ;;
  thread_exit.

(** ** Wait channels *)

Definition wchan_at (w : nat) : M os (list nat) :=
  let* q := gets (fun s => o_wchans s !! w) in deref q "wc".

Definition wchan_sleep (w : nat) : M os unit :=
  let* k := gets o_k in
  kassert (negb (t_in_interrupt (k_cpu k))) "!curthread->t_in_interrupt" ;;
  thread_switch S_SLEEP (Some w).

Definition wchan_wakeone (w : nat) : M os unit :=
  let* q := wchan_at w in
  match q with
  | [] => ret tt
  | target :: q => modify (set_wchans (<[w := q]>)) ;; thread_make_runnable target
  end.

Fixpoint make_all_runnable (ts : list nat) : M os unit :=
  match ts with
  | [] => ret tt
  | t :: ts => thread_make_runnable t ;; make_all_runnable ts
  end.

Definition wchan_wakeall (w : nat) : M os unit :=
  let* q := wchan_at w in
  modify (set_wchans (<[w := []]>)) ;;
  make_all_runnable q.

Definition wchan_isempty (w : nat) : M os bool :=
  let* q := wchan_at w in ret (bool_decide (q = [])).

(** ** Migration *)

(** The inner loop: threads from the front of [victims] go to processor [i]
    while its queue is shorter than [one_share]; the current thread is moved
    to the end of [victims] instead.  The result is what is left of
    [victims] and of [to_send]. *)
Fixpoint send_to (i : nat) (one_share : Z) (victims : list nat) (to_send : nat) : M os (list nat * nat) :=
  match to_send with
  | O => ret (victims, O)
  | S n =>
      let* c := cpu_at i in
      if Z.of_nat (length (c_runqueue c)) <? one_share then
        match victims with
        | [] => halt (Undef "threadlist_remhead(&victims)")
        | t :: victims =>
            let* cur := gets cur_thread in
            if decide (cur = Some t) then send_to i one_share (victims ++ [t]) n
            else
              thread_upd t (with_t_cpu (Some i)) ;;
              cpu_upd i (with_c_runqueue (c_runqueue c ++ [t])) ;;
              (if c_isidle c then ipi_send i IPI_UNIDLE else ret tt) ;;
              send_to i one_share victims n
        end
      else ret (victims, to_send)
  end.

Fixpoint send_all (self : nat) (is_ : list nat) (one_share : Z) (victims : list nat) (to_send : nat)
    : M os (list nat) :=
  match is_ with
  | [] => ret victims
  | i :: is_ =>
      match to_send with
      | O => ret victims
      | S _ =>
          if (i =? self)%nat then send_all self is_ one_share victims to_send
          else let* r := send_to i one_share victims to_send in
               send_all self is_ one_share r.1 r.2
      end
  end.

(** The loop that counts the queued threads, and what is done with the counts:
    [my_count] of the current processor and [total_count] of all.  Both are
    taken with one run queue locked at a time, so that they may be out of date
    when threads are moved. *)
Definition count_threads : M os (nat * nat) :=
  let* self := curcpu_self in
  let* me := cpu_at self in
  let* cpus := gets o_cpus in
  ret (length (c_runqueue me), sum_list ((fun c => length (c_runqueue c)) <$> cpus)).

Definition migrate (my_count total_count : nat) : M os unit :=
  let* self := curcpu_self in
  let* cpus := gets o_cpus in
  let one_share := DIVROUNDUP (Z.of_nat total_count) (Z.of_nat (length cpus)) in
  if Z.of_nat my_count <? one_share then ret tt
  else
    let to_send := Z.to_nat (Z.of_nat my_count - one_share) in
    let* me := cpu_at self in
    let n := length (c_runqueue me) in
    let kept := take (n - to_send) (c_runqueue me) in
    let victims := drop (n - to_send) (c_runqueue me) in
    cpu_upd self (with_c_runqueue kept) ;;
    let* left := send_all self (seq 0 (length cpus)) one_share victims to_send in
    cpu_upd self (fun c => with_c_runqueue (c_runqueue c ++ left) c).

Definition thread_consider_migration : M os unit :=
  let* counts := count_threads in
  migrate counts.1 counts.2.

(** ** Start, panic and shutdown *)

Definition thread_bootstrap (add_result : rc) : M os unit :=
  modify (set_cpus (fun _ => [])) ;;
  let* c := gets o_curcpu in
  kassert (bool_decide (c = None)) "CURCPU_EXISTS() == false" ;;
  let* _n := cpu_create add_result in
  let* c := gets o_curcpu in
  kassert (bool_decide (c <> None)) "CURCPU_EXISTS() == true" ;;
  let* cur := curthread_self in
  let* th := thread_at cur in
  let* kproc := gets o_kproc in
  kassert (bool_decide (t_proc th <> None)) "curthread->t_proc != NULL" ;;
  kassert (bool_decide (t_proc th = kproc)) "curthread->t_proc == kproc".

(** [P] and [V] on the semaphore of [thread_start_cpus]. *)
Definition startup_P : M os unit :=
  let* o := gets o_cpu_startup_sem in
  match o with
  | None => halt (Kassert "sem != NULL")
  | Some (h, n) => if n =? 0 then halt (Blocked "cpu_startup_sem")
                   else modify (set_cpu_startup_sem (Some (h, u32 (n - 1))))
  end.

Definition startup_V : M os unit :=
  let* o := gets o_cpu_startup_sem in
  match o with
  | None => halt (Kassert "sem != NULL")
  | Some (h, n) => kassert (0 <? u32 (n + 1)) "sem->sem_count > 0" ;;
                   modify (set_cpu_startup_sem (Some (h, u32 (n + 1))))
  end.

(** A new processor; [spl0] lowers the priority of its boot thread. *)
Definition cpu_hatch (software_number : nat) : M os unit :=
  let* i := curcpu_self in
  let* cur := curthread_self in
  kassert (i =? software_number)%nat "curcpu->c_number == software_number" ;;
  thread_upd cur (with_t_curspl 0) ;;
  startup_V ;;
  thread_exit.

(** [mainbus_start_cpus] lets the other processors run. *)
Definition thread_start_cpus (mainbus_start_cpus : M os unit) : M os unit :=
  let* sem := vm sem_create in
  modify (set_cpu_startup_sem ((fun h => (h, 0)) <$> sem)) ;;
  mainbus_start_cpus ;;
  let* n := gets (fun s => length (o_cpus s)) in
  for_each (seq 0 (n - 1)) (fun _ => startup_P) ;;
  let* sem := gets o_cpu_startup_sem in
  match sem with
  | None => halt (Kassert "sem != NULL")
  | Some (h, _) => vm (sem_destroy h)
  end ;;
  modify (set_cpu_startup_sem None).

Definition thread_panic : M os unit :=
  ipi_broadcast IPI_PANIC ;;
  let* i := curcpu_self in
  cpu_upd i (with_c_runqueue []).

Definition thread_shutdown : M os unit := ipi_broadcast IPI_OFFLINE.
End Thread.
