(* ===== verification/Sched.v ===== *)
(** The scheduler: every thread is in exactly one place.

    The place of a thread follows from its state: it runs on its processor,
    is on the run queue or the zombie list of its processor, or sleeps on its
    wait channel.  [sched_inv] says that the lists of the kernel agree; the
    operations of [Thread.v] keep it. *)

From Stdlib Require Import ZArith Lia.
From stdpp Require Import base list gmap strings.
From S2P Require Import Prelude Platform State Synch Tlb Swap Frames Paging AddrSpace Boot Os Proc ProcTable Thread.
Local Open Scope Z_scope.

Inductive place := Running (i : nat) | Queued (i : nat) | Waiting (w : nat) | Dead (i : nat).

#[export] Instance place_eq_dec : EqDecision place.
Proof. solve_decision. Defined.

(** Where a thread should be. *)
Definition place_of (th : thread) : option place :=
  match t_state th with
  | S_RUN => Running <$> t_cpu th
  | S_READY => Queued <$> t_cpu th
  | S_SLEEP => Waiting <$> t_wchan th
  | S_ZOMBIE => Dead <$> t_cpu th
  end.

Section Sched.
Context {P : Platform}.
Implicit Types (s : os).

(** Where it is. *)
Definition at_place s (t : nat) (pl : place) : Prop :=
  match pl with
  | Running i => exists c, o_cpus s !! i = Some c /\ c_isidle c = false /\ c_curthread c = Some t
  | Queued i => exists c, o_cpus s !! i = Some c /\ t ∈ c_runqueue c
  | Dead i => exists c, o_cpus s !! i = Some c /\ t ∈ c_zombies c
  | Waiting w => exists q, o_wchans s !! w = Some q /\ t ∈ q
  end.

Record sched_inv s : Prop := {
  si_place : forall t pl, at_place s t pl <-> exists th, o_threads s !! t = Some th /\ place_of th = Some pl;
  si_queue : forall i c, o_cpus s !! i = Some c -> NoDup (c_runqueue c) /\ NoDup (c_zombies c);
  si_wchan : forall w q, o_wchans s !! w = Some q -> NoDup q;
  si_placed : forall t th, o_threads s !! t = Some th -> is_Some (place_of th);
  si_zombie : forall t th, o_threads s !! t = Some th -> t_state th = S_ZOMBIE -> t_proc th = None;
  si_cpu : forall t th, o_threads s !! t = Some th -> exists i c, t_cpu th = Some i /\ o_cpus s !! i = Some c;
}.

Lemma sched_unique s t pl pl' : sched_inv s -> at_place s t pl -> at_place s t pl' -> pl = pl'.
Proof.
  intros I (th & Ht & Hp)%(si_place _ I) (th' & Ht' & Hp')%(si_place _ I). congruence.
Qed.

(** Thread [t], which may be new, gets a place; everybody else stays. *)
Lemma sched_place s s' t th' pl' :
  sched_inv s -> o_threads s' = <[t := th']> (o_threads s) ->
  place_of th' = Some pl' -> (t_state th' = S_ZOMBIE -> t_proc th' = None) ->
  (forall i, is_Some (o_cpus s' !! i) <-> is_Some (o_cpus s !! i)) ->
  (exists i, t_cpu th' = Some i /\ is_Some (o_cpus s !! i)) ->
  (forall u pl, at_place s' u pl <-> (u <> t /\ at_place s u pl) \/ (u = t /\ pl = pl')) ->
  (forall i c, o_cpus s' !! i = Some c -> NoDup (c_runqueue c) /\ NoDup (c_zombies c)) ->
  (forall w q, o_wchans s' !! w = Some q -> NoDup q) ->
  sched_inv s'.
Proof.
  intros I Et Hp Hz Hcs (i0 & Hi0 & Hc0) Hat Hq Hw. split; auto.
  - intros u pl. rewrite Hat, Et, lookup_insert. destruct (decide (t = u)) as [<-|Hne].
    + split; [intros [[? _]|[_ ->]]; [done | by eauto]|]. intros (x & [= <-] & Hx). right. split; [done|]. congruence.
    + rewrite <- (si_place _ I). split; [intros [[_ ?]|[? _]]; [done | congruence] | left; split; congruence].
  - intros u x. rewrite Et, lookup_insert. case_decide; [intros [= <-]; by rewrite Hp | apply (si_placed _ I)].
  - intros u x. rewrite Et, lookup_insert. case_decide; [by intros [= <-] | apply (si_zombie _ I)].
  - intros u x. rewrite Et, lookup_insert. case_decide.
    + intros [= <-]. apply Hcs in Hc0 as [c Hc]. eauto.
    + intros Hu. destruct (si_cpu _ I u x Hu) as (i & c & Hi & Hc).
      destruct (proj2 (Hcs i)) as [c' Hc']; eauto.
Qed.

(** [c'] is [c] as far as the scheduler is concerned, up to the order of its
    queue. *)
Definition same_cpu (c' c : cpu) : Prop :=
  c_curthread c' = c_curthread c /\ c_zombies c' = c_zombies c /\ c_isidle c' = c_isidle c /\ c_runqueue c' ≡ₚ c_runqueue c.

Lemma sched_perm s s' : o_threads s' = o_threads s -> o_wchans s' = o_wchans s ->
  (forall i, option_Forall2 same_cpu (o_cpus s' !! i) (o_cpus s !! i)) -> sched_inv s -> sched_inv s'.
Proof.
  intros Et Ew Ec [I1 I2 I3 I4 I5 I6].
  assert (Hc : forall i c', o_cpus s' !! i = Some c' -> exists c, o_cpus s !! i = Some c /\ same_cpu c' c).
  { intros i c' H. specialize (Ec i). rewrite H in Ec. inversion Ec; subst. eauto. }
  assert (Hc' : forall i c, o_cpus s !! i = Some c -> exists c', o_cpus s' !! i = Some c' /\ same_cpu c' c).
  { intros i c H. specialize (Ec i). rewrite H in Ec. inversion Ec; subst. eauto. }
  assert (Hat : forall t pl, at_place s' t pl <-> at_place s t pl).
  { intros t []; cbn; rewrite ?Ew; try done;
      (split; [intros (c & (c2 & H2 & E1 & E2 & E3 & E4)%Hc & Hrest) | intros (c & (c2 & H2 & E1 & E2 & E3 & E4)%Hc' & Hrest)]);
      exists c2; rewrite ?E1, ?E2, ?E3, ?E4 in *; done. }
  split; rewrite ?Et, ?Ew; auto.
  - intros t pl. by rewrite Hat.
  - intros i c (c2 & H2 & _ & E2 & _ & E4)%Hc. rewrite E2, E4. eauto.
  - intros t th Ht. destruct (I6 t th Ht) as (i & c & Hi & (c2 & H2 & _)%Hc'). eauto.
Qed.

(** Nothing that matters to the scheduler changes. *)
Lemma sched_ext s s' : o_threads s' = o_threads s -> o_wchans s' = o_wchans s ->
  (forall i, (fun c => (c_curthread c, c_zombies c, c_isidle c, c_runqueue c)) <$> o_cpus s' !! i =
             (fun c => (c_curthread c, c_zombies c, c_isidle c, c_runqueue c)) <$> o_cpus s !! i) ->
  sched_inv s -> sched_inv s'.
Proof.
  intros Et Ew Ec. apply sched_perm; [done..|]. intros i. specialize (Ec i).
  destruct (o_cpus s' !! i), (o_cpus s !! i); try done; constructor. cbn in Ec. simplify_eq.
  by unfold same_cpu; repeat match goal with H : _ = _ |- _ => rewrite H; clear H end.
Qed.

(** A thread changes and stays where it is. *)
Lemma sched_stay s s' t th th' :
  sched_inv s -> o_threads s !! t = Some th -> o_threads s' = <[t := th']> (o_threads s) ->
  o_cpus s' = o_cpus s -> o_wchans s' = o_wchans s ->
  t_state th' = t_state th -> t_cpu th' = t_cpu th -> t_wchan th' = t_wchan th ->
  (t_state th' = S_ZOMBIE -> t_proc th' = None) -> sched_inv s'.
Proof.
  intros I Ht Et Ec Ew E1 E2 E3 Hz. assert (Ep : place_of th' = place_of th) by (unfold place_of; by rewrite E1, E2, E3).
  destruct (si_placed _ I t th Ht) as [pl Hpl]. destruct (si_cpu _ I t th Ht) as (i & c & Hi & Hc).
  assert (Hat : forall u pl, at_place s' u pl <-> at_place s u pl) by (intros u []; cbn; by rewrite ?Ec, ?Ew).
  assert (Hpt : at_place s t pl) by (apply (si_place _ I); eauto).
  eapply (sched_place s s' t th' pl); try done; rewrite ?Ec, ?Ew; try done; try apply I.
  - by rewrite Ep.
  - exists i. rewrite E2, Hc. by split.
  - intros u pl'. rewrite Hat. destruct (decide (u = t)) as [->|Hne].
    + split; [intros Hp; right; split; [done | by eapply sched_unique]|]. by intros [[? _]|[_ ->]].
    + split; [by left|]. by intros [[_ ?]|[? _]].
Qed.

(** ** Making a thread runnable *)

(** [c'] is [c] with [t] at the end of the run queue. *)
Definition enqueued (t : nat) (c c' : cpu) : Prop :=
  c_curthread c' = c_curthread c /\ c_zombies c' = c_zombies c /\ c_isidle c' = c_isidle c /\
  c_runqueue c' = c_runqueue c ++ [t].

Lemma wp_make_runnable t th i c self s (Q : unit -> os -> Prop) :
  o_threads s !! t = Some th -> t_cpu th = Some i -> o_cpus s !! i = Some c -> o_curcpu s = Some self ->
  (0 <= IPI_UNIDLE < 32) ->
  (forall c', enqueued t c c' -> Q tt (set_cpus (<[i := c']>) (set_threads (<[t := with_t_state S_READY th]>) s))) ->
  wp (thread_make_runnable t) Q s.
Proof.
  intros Ht Hi Hc Hs Hipi HQ. unfold thread_make_runnable. step. eapply wp_thread_at; [done|]. step.
  eapply wp_deref; [done|]. step. eapply wp_thread_upd; [done|]. step. eapply wp_cpu_at; [done|]. step.
  eapply wp_cpu_upd; [done|]. step. unfold curcpu_self. steps. eapply wp_deref; [done|].
  assert (Hlt : (i < length (o_cpus s))%nat) by by eapply lookup_lt_Some.
  destruct (c_isidle c && negb (i =? self)%nat).
  - unfold ipi_send. step. apply wp_kassert; [lia|]. eapply wp_cpu_upd; [by apply list_lookup_insert_eq|].
    set (c' := with_c_ipi _ _ _). specialize (HQ c'). unfold set_cpus in *. ored.
    rewrite list_insert_insert_eq. by apply HQ.
  - apply wp_ret. by apply HQ.
Qed.
End Sched.

Section Wake.
Context {P : Platform}.
Implicit Types (s : os).

Lemma at_cpu (l : list cpu) i c c' (F : cpu -> Prop) j :
  l !! i = Some c ->
  (exists x, <[i := c']> l !! j = Some x /\ F x) <->
  (if decide (j = i) then F c' else exists x, l !! j = Some x /\ F x).
Proof.
  intros Hi. case_decide as E.
  - subst. rewrite list_lookup_insert_eq by (by eapply lookup_lt_Some).
    split; [by intros (x & [= <-] & ?) | by eauto].
  - by rewrite list_lookup_insert_ne.
Qed.

Lemma cpus_same (l : list cpu) i c c' j : l !! i = Some c -> is_Some (<[i := c']> l !! j) <-> is_Some (l !! j).
Proof. intros _. rewrite !lookup_lt_is_Some. by rewrite length_insert. Qed.

Lemma nodup_cpus (l : list cpu) i c c' j x :
  (forall j x, l !! j = Some x -> NoDup (c_runqueue x) /\ NoDup (c_zombies x)) -> l !! i = Some c ->
  NoDup (c_runqueue c') /\ NoDup (c_zombies c') ->
  <[i := c']> l !! j = Some x -> NoDup (c_runqueue x) /\ NoDup (c_zombies x).
Proof.
  intros H Hi Hc' Hj. destruct (decide (j = i)) as [->|].
  - rewrite list_lookup_insert_eq in Hj by (by eapply lookup_lt_Some). by injection Hj as <-.
  - rewrite list_lookup_insert_ne in Hj by done. eauto.
Qed.

(** The places that a change of processor [i] and of the channels can touch. *)
Definition near (i : nat) (pl : place) : Prop :=
  match pl with Running j | Queued j | Dead j => j = i | Waiting _ => True end.

#[local] Instance near_dec i pl : Decision (near i pl).
Proof. destruct pl; cbn; apply _. Defined.

(** Thread [t] leaves its place for [pl1]: enough that processor [i] and the
    channels say so. *)
Lemma place_update s s' i c c' t pl1 :
  o_cpus s !! i = Some c -> o_cpus s' = <[i := c']> (o_cpus s) -> near i pl1 ->
  (forall pl, at_place s t pl -> near i pl) ->
  (forall u, c_isidle c' = false /\ c_curthread c' = Some u <->
     (u <> t /\ c_isidle c = false /\ c_curthread c = Some u) \/ (u = t /\ pl1 = Running i)) ->
  (forall u, u ∈ c_runqueue c' <-> (u <> t /\ u ∈ c_runqueue c) \/ (u = t /\ pl1 = Queued i)) ->
  (forall u, u ∈ c_zombies c' <-> (u <> t /\ u ∈ c_zombies c) \/ (u = t /\ pl1 = Dead i)) ->
  (forall w u, at_place s' u (Waiting w) <-> (u <> t /\ at_place s u (Waiting w)) \/ (u = t /\ pl1 = Waiting w)) ->
  forall u pl, at_place s' u pl <-> (u <> t /\ at_place s u pl) \/ (u = t /\ pl = pl1).
Proof.
  intros Hc Ec Hn1 Hn HR HQ HZ HW u pl.
  assert (Hhere : forall F : cpu -> Prop, (exists x, o_cpus s !! i = Some x /\ F x) <-> F c).
  { intros F. split; [by intros (x & Hx & ?); simplify_eq | by eauto]. }
  destruct (decide (near i pl)) as [Hnear|Hfar].
  - destruct pl; cbn in Hnear; subst; [cbn; rewrite Ec, (at_cpu _ i c), decide_True, Hhere by done..| |
      cbn; rewrite Ec, (at_cpu _ i c), decide_True, Hhere by done].
    + rewrite HR. intuition congruence.
    + rewrite HQ. intuition congruence.
    + rewrite HW. intuition congruence.
    + rewrite HZ. intuition congruence.
  - assert (Heq : at_place s' u pl <-> at_place s u pl).
    { destruct pl; cbn in Hfar; try done; cbn; by rewrite Ec, (at_cpu _ i c), decide_False. }
    rewrite Heq. split.
    + intros Hp. left. split; [|done]. intros ->. by apply Hfar, Hn.
    + intros [[_ ?]|[-> ->]]; done.
Qed.

Lemma elem_of_snoc {A} (l : list A) t u : t ∉ l -> (u ∈ l ++ [t]) <-> (u <> t /\ u ∈ l) \/ u = t.
Proof.
  intros Hn. rewrite elem_of_app, list_elem_of_singleton. split; [|tauto].
  intros [Hu| ->]; [left; split; [congruence | done] | by right].
Qed.

(** The thread at the head of a wait channel becomes runnable. *)
Lemma sched_wake s w t q th i c c' :
  sched_inv s -> o_wchans s !! w = Some (t :: q) -> o_threads s !! t = Some th -> t_cpu th = Some i ->
  o_cpus s !! i = Some c -> enqueued t c c' ->
  sched_inv (set_wchans (<[w := q]>) (set_cpus (<[i := c']>) (set_threads (<[t := with_t_state S_READY th]>) s))).
Proof.
  intros I Hw Ht Hi Hc (E1 & E2 & E3 & E4).
  assert (Hat : at_place s t (Waiting w)) by (exists (t :: q); split; [done | left]).
  assert (Hno : forall pl, at_place s t pl -> pl = Waiting w) by (intros pl Hpl; by eapply sched_unique).
  assert (Hout : (c_isidle c = false -> c_curthread c <> Some t) /\ (t ∉ c_runqueue c) /\ (t ∉ c_zombies c)).
  { split; [intros H1 H2; discriminate (Hno (Running i) (ex_intro _ c (conj Hc (conj H1 H2))))|].
    split; intros Hin; [discriminate (Hno (Queued i) (ex_intro _ c (conj Hc Hin)))|].
    discriminate (Hno (Dead i) (ex_intro _ c (conj Hc Hin))). }
  destruct Hout as (Hr & Hq' & Hz). pose proof (si_wchan _ I _ _ Hw) as [Htq Hq]%NoDup_cons.
  destruct (si_queue _ I i c Hc) as [Hnr Hnz].
  eapply (sched_place s _ t (with_t_state S_READY th) (Queued i)); ored; try done.
  - cbn. by rewrite Hi.
  - intros j. by eapply cpus_same.
  - exists i. split; [done|]. by eexists.
  - eapply (place_update s _ i c c'); try done; ored.
    + by intros pl ->%Hno.
    + intros u. rewrite E1, E3. split; [|intros [?|[? ?]]; [tauto | done]].
      intros [H1 H2]. left. split; [|done]. intros ->. by apply Hr.
    + intros u. rewrite E4, elem_of_snoc by done. intuition congruence.
    + intros u. rewrite E2. split; [|intros [?|[? ?]]; [tauto | done]]. intros H1. left. split; [congruence | done].
    + intros w' u. cbn. rewrite lookup_insert. case_decide as Ew.
      * subst. rewrite Hw. split.
        -- intros (x & [= <-] & Hx). left. split; [congruence|]. exists (t :: q). split; [done | by right].
        -- intros [[Hne (x & [= <-] & Hx)]|[_ ?]]; [|done]. exists q. split; [done|].
           by apply elem_of_cons in Hx as [?|?].
      * split; [|intros [?|[_ ?]]; [tauto | done]]. intros Hx. left. split; [|done]. intros ->.
        apply Ew. by injection (Hno (Waiting w') Hx).
  - intros j x. eapply (nodup_cpus _ i c); [apply (si_queue _ I) | done |]. rewrite E2, E4. split; [|done].
    apply NoDup_app. split; [done|]. split; [|apply NoDup_singleton]. by intros x' Hx' ->%list_elem_of_singleton.
  - intros w' q'. rewrite lookup_insert. case_decide; [by intros [= <-] | apply (si_wchan _ I)].
Qed.
End Wake.

Section Wakeups.
Context {P : Platform} {L : PlatformLaws P}.
Implicit Types (s : os).

Lemma ipi_unidle_range : 0 <= IPI_UNIDLE < 32.
Proof. destruct ipi_codes as [_ H]. rewrite Forall_forall in H. apply H. rewrite !elem_of_cons. tauto. Qed.

(** The processor of a thread. *)
Lemma sched_waiting s w t q : sched_inv s -> o_wchans s !! w = Some q -> t ∈ q ->
  exists th i c, o_threads s !! t = Some th /\ t_state th = S_SLEEP /\ t_cpu th = Some i /\ o_cpus s !! i = Some c.
Proof.
  intros I Hw Hq. assert (Hat : at_place s t (Waiting w)) by by exists q.
  apply (si_place _ I) in Hat as (th & Ht & Hp). destruct (si_cpu _ I t th Ht) as (i & c & Hi & Hc).
  exists th, i, c. split; [done|]. split; [|done]. unfold place_of in Hp. rewrite Hi in Hp.
  by destruct (t_state th).
Qed.

(** What a wake-up of the threads [ts] does: they leave the channel and are
    put on the run queues of their processors, in this order, behind the
    threads that are already there. *)
Definition woken s s' (ts : list nat) : Prop :=
  o_procs s' = o_procs s /\ o_k s' = o_k s /\ o_curcpu s' = o_curcpu s /\
  (forall t, o_threads s' !! t = (if decide (t ∈ ts) then with_t_state S_READY else id) <$> o_threads s !! t) /\
  (forall i, c_runqueue <$> o_cpus s' !! i = (fun c => c_runqueue c ++
     filter (fun t => o_threads s !! t ≫= t_cpu = Some i) ts) <$> o_cpus s !! i).

Lemma woken_nil s : woken s s [].
Proof.
  split; [done|]. split; [done|]. split; [done|]. split.
  - intros t. rewrite decide_False by apply not_elem_of_nil. by destruct (o_threads s !! t).
  - intros i. destruct (o_cpus s !! i); [|done]. cbn. by rewrite app_nil_r.
Qed.

Lemma woken_one s s1 t th i c c' :
  o_threads s !! t = Some th -> t_cpu th = Some i -> o_cpus s !! i = Some c -> enqueued t c c' ->
  o_threads s1 = <[t := with_t_state S_READY th]> (o_threads s) -> o_cpus s1 = <[i := c']> (o_cpus s) ->
  o_procs s1 = o_procs s -> o_k s1 = o_k s -> o_curcpu s1 = o_curcpu s -> woken s s1 [t].
Proof.
  intros Ht Hi Hc (_ & _ & _ & E4) Et Ec E1 E2 E3. split; [done|]. split; [done|]. split; [done|]. split.
  - intros u. rewrite Et, lookup_insert. destruct (decide (t = u)) as [<-|Hne].
    + rewrite decide_True by left. by rewrite Ht.
    + rewrite decide_False; [by destruct (o_threads s !! u)|]. by intros ->%list_elem_of_singleton.
  - intros j. rewrite Ec. cbn [filter list_filter]. rewrite Ht. cbn. rewrite Hi. destruct (decide (j = i)) as [->|Hne].
    + rewrite list_lookup_insert_eq by (by eapply lookup_lt_Some). rewrite Hc. cbn. by rewrite decide_True, E4.
    + rewrite list_lookup_insert_ne by done. rewrite decide_False by congruence.
      destruct (o_cpus s !! j); [|done]. cbn. by rewrite app_nil_r.
Qed.

(** Waking the rest of the channel [w], whose entry is already empty. *)
Lemma make_all_runnable_spec s w q self :
  sched_inv (set_wchans (<[w := q]>) s) -> o_curcpu s = Some self ->
  wp (make_all_runnable q) (fun _ s' => sched_inv (set_wchans (<[w := []]>) s') /\ o_wchans s' = o_wchans s /\
    woken s s' q) s.
Proof.
  revert s. induction q as [|t q IH]; intros s I Hs; cbn [make_all_runnable].
  { apply wp_ret. split; [done|]. split; [done|]. apply woken_nil. }
  assert (Hw : o_wchans (set_wchans (<[w := t :: q]>) s) !! w = Some (t :: q)) by apply lookup_insert_eq.
  destruct (sched_waiting _ w t _ I Hw ltac:(left)) as (th & i & c & Ht & Hst & Hi & Hc). ored.
  step. eapply wp_make_runnable; [done..|apply ipi_unidle_range|]. intros c' Hc'.
  pose proof (sched_wake _ w t q th i c c' I Hw Ht Hi Hc Hc') as I'.
  pose proof (si_wchan _ I _ _ Hw) as [Htq _]%NoDup_cons.
  eapply wp_mono; [apply IH; [|done]|].
  { unfold set_wchans in *. ored. by rewrite insert_insert_eq in I'. }
  intros [] s' (Hinv & Ew & E1 & E2 & E3 & Eth & Eq). ored. split; [done|]. split; [done|].
  split; [done|]. split; [done|]. split; [done|]. split.
  - intros u. rewrite Eth, lookup_insert. destruct (decide (t = u)) as [<-|Hne].
    + rewrite decide_False by done. rewrite decide_True by left. by rewrite Ht.
    + case_decide as Hin; [by rewrite decide_True by by right|]. rewrite decide_False; [done|].
      by intros [?|?]%elem_of_cons.
  - destruct Hc' as (_ & _ & _ & E4). intros j. rewrite Eq. cbn [filter list_filter].
    assert (Hf : filter (fun u => <[t := with_t_state S_READY th]> (o_threads s) !! u ≫= t_cpu = Some j) q =
                 filter (fun u => o_threads s !! u ≫= t_cpu = Some j) q).
    { apply list_filter_ext_in. intros u Hu. rewrite lookup_insert_ne; [done|]. intros ->. done. }
    rewrite Hf, Ht. cbn. rewrite Hi. destruct (decide (j = i)) as [->|Hne].
    + rewrite list_lookup_insert_eq by (by eapply lookup_lt_Some). rewrite Hc. cbn. rewrite E4.
      by rewrite decide_True, <- app_assoc by done.
    + rewrite list_lookup_insert_ne by done. by rewrite decide_False by congruence.
Qed.
End Wakeups.

Section Switch.
Context {P : Platform} {L : PlatformLaws P}.
Implicit Types (s : os).

(** ** Leaving the processor *)

(** The current thread [cur] leaves processor [i] for [pl1]. *)
Lemma sched_leave s s' i c c' cur th th' pl1 :
  sched_inv s -> o_cpus s !! i = Some c -> c_isidle c = false -> c_curthread c = Some cur ->
  o_threads s !! cur = Some th -> o_threads s' = <[cur := th']> (o_threads s) ->
  t_cpu th' = t_cpu th -> place_of th' = Some pl1 -> (t_state th' = S_ZOMBIE -> t_proc th' = None) ->
  o_cpus s' = <[i := c']> (o_cpus s) -> c_isidle c' = true ->
  c_runqueue c' = (if decide (pl1 = Queued i) then c_runqueue c ++ [cur] else c_runqueue c) ->
  c_zombies c' = (if decide (pl1 = Dead i) then c_zombies c ++ [cur] else c_zombies c) ->
  (forall w, o_wchans s' !! w = if decide (pl1 = Waiting w) then (fun q => q ++ [cur]) <$> o_wchans s !! w
                                else o_wchans s !! w) ->
  near i pl1 -> (forall j, pl1 <> Running j) -> (forall w, pl1 = Waiting w -> is_Some (o_wchans s !! w)) ->
  sched_inv s'.
Proof.
  intros I Hc Hid Hcur Ht Et Etc Hp Hz Ec Hid' Erq Ezo Ewc Hnear Hnr Hws.
  assert (Hat : at_place s cur (Running i)) by by exists c.
  assert (Hno : forall pl, at_place s cur pl -> pl = Running i) by (intros pl Hpl; by eapply sched_unique).
  assert (Hq : cur ∉ c_runqueue c) by (intros Hin; discriminate (Hno (Queued i) (ex_intro _ c (conj Hc Hin)))).
  assert (Hd : cur ∉ c_zombies c) by (intros Hin; discriminate (Hno (Dead i) (ex_intro _ c (conj Hc Hin)))).
  assert (Hw : forall w q, o_wchans s !! w = Some q -> cur ∉ q)
    by (intros w q Hwq Hin; discriminate (Hno (Waiting w) (ex_intro _ q (conj Hwq Hin)))).
  destruct (si_queue _ I i c Hc) as [Hnq Hnd].
  assert (Hsnoc : forall l, NoDup l -> cur ∉ l -> NoDup (l ++ [cur])).
  { intros l Hl Hn. apply NoDup_app. split; [done|]. split; [|apply NoDup_singleton].
    by intros x Hx ->%list_elem_of_singleton. }
  eapply (sched_place s s' cur th' pl1); try done.
  - intros j. rewrite Ec. by eapply cpus_same.
  - destruct (si_cpu _ I cur th Ht) as (j & cj & Hj & Hcj). exists j. rewrite Etc. split; [done|]. by eexists.
  - eapply (place_update s s' i c c'); try done.
    + by intros pl ->%Hno.
    + intros u. rewrite Hid'. split; [intros [? _]; done|].
      intros [(Hne & _ & Hu)|[_ Hr]]; [congruence | by destruct (Hnr i)].
    + intros u. rewrite Erq. destruct (decide (pl1 = Queued i)) as [E|E]; [rewrite elem_of_snoc by done; tauto|].
      split; [|intros [?|[_ ?]]; tauto]. intros Hu. left. split; [congruence | done].
    + intros u. rewrite Ezo. destruct (decide (pl1 = Dead i)) as [E|E]; [rewrite elem_of_snoc by done; tauto|].
      split; [|intros [?|[_ ?]]; tauto]. intros Hu. left. split; [congruence | done].
    + intros w u. cbn. rewrite Ewc. destruct (o_wchans s !! w) as [q|] eqn:Eq.
      * destruct (decide (pl1 = Waiting w)) as [E|E]; cbn.
        -- split.
           ++ intros (x & [= <-] & Hx). rewrite elem_of_snoc in Hx by eauto. destruct Hx as [[Hne Hx]| ->]; [|tauto].
              left. split; [done|]. by exists q.
           ++ intros Hx. exists (q ++ [cur]). split; [done|]. rewrite elem_of_snoc by eauto.
              destruct Hx as [[Hne (x & [= <-] & Hx)]|[-> _]]; tauto.
        -- split; [|intros [[_ ?]|[_ ?]]; done]. intros (x & [= <-] & Hx). left. split; [|by exists q].
           intros ->. by apply (Hw w q).
      * destruct (decide (pl1 = Waiting w)) as [E|E]; cbn; [destruct (Hws w E); congruence|].
        split; [by intros (x & [=] & _)|]. intros [[_ (x & [=] & _)]|[_ ?]]; done.
  - intros j x. rewrite Ec. eapply (nodup_cpus _ i c); [apply (si_queue _ I) | done |]. rewrite Erq, Ezo.
    split; [destruct (decide (pl1 = Queued i)) | destruct (decide (pl1 = Dead i))]; auto.
  - intros w q. rewrite Ewc. destruct (decide (pl1 = Waiting w)); [|apply (si_wchan _ I)].
    destruct (o_wchans s !! w) as [q0|] eqn:Eq; [|done]. intros [= <-]. apply Hsnoc; [by apply (si_wchan _ I w) | eauto].
Qed.

(** ** Getting the processor *)

Lemma sched_run s s' i c c' next q th th' :
  sched_inv s -> o_cpus s !! i = Some c -> c_isidle c = true -> c_runqueue c = next :: q ->
  o_threads s !! next = Some th -> o_threads s' = <[next := th']> (o_threads s) ->
  t_cpu th' = Some i -> t_state th' = S_RUN -> o_cpus s' = <[i := c']> (o_cpus s) -> o_wchans s' = o_wchans s ->
  c_isidle c' = false -> c_curthread c' = Some next -> c_runqueue c' = q -> c_zombies c' = c_zombies c ->
  sched_inv s'.
Proof.
  intros I Hc Hid Hrq Ht Et Etc Est Ec Ew Hid' Hcur Hrq' Hzo.
  assert (Hat : at_place s next (Queued i)) by (exists c; split; [done|]; rewrite Hrq; left).
  assert (Hno : forall pl, at_place s next pl -> pl = Queued i) by (intros pl Hpl; by eapply sched_unique).
  destruct (si_queue _ I i c Hc) as [Hnq Hnd]. rewrite Hrq in Hnq. apply NoDup_cons in Hnq as [Hnx Hnq].
  eapply (sched_place s s' next th' (Running i)); try done.
  - unfold place_of. by rewrite Est, Etc.
  - congruence.
  - intros j. rewrite Ec. by eapply cpus_same.
  - exists i. split; [done|]. by eexists.
  - eapply (place_update s s' i c c'); try done.
    + by intros pl ->%Hno.
    + intros u. rewrite Hid', Hcur, Hid. split; [|intros [(_ & ? & _)|[-> _]]; done]. intros [_ [= ->]]. by right.
    + intros u. rewrite Hrq', Hrq, elem_of_cons. split; [|intros [[? [?|?]]|[_ ?]]; done].
      intros Hu. left. split; [congruence | by right].
    + intros u. rewrite Hzo. split; [|intros [[_ ?]|[_ ?]]; done]. intros Hu. left. split; [|done].
      intros ->. discriminate (Hno (Dead i) (ex_intro _ c (conj Hc Hu))).
    + intros w u. cbn. rewrite Ew. split; [|intros [[_ ?]|[_ ?]]; done]. intros Hu. left. split; [|done].
      intros ->. discriminate (Hno (Waiting w) Hu).
  - intros j x. rewrite Ec. eapply (nodup_cpus _ i c); [apply (si_queue _ I) | done |]. by rewrite Hrq', Hzo.
  - intros w q'. rewrite Ew. apply (si_wchan _ I).
Qed.
End Switch.
