(* ===== verification/Switch.v ===== *)
(** The context switch ([thread_switch], [thread_exit] and [exorcise] of
    [thread/thread.c]) on the scheduler and on the paging kernel. *)

From Stdlib Require Import ZArith Lia.
From stdpp Require Import base list gmap strings.
From S2P Require Import Prelude Platform State Synch VmStats Tlb Swap Coremap Frames Paging AddrSpace Regions Lifecycle Boot.
From S2P Require Import Os Proc ProcTable Thread Sched.
Local Open Scope Z_scope.

Section View.
Context {P : Platform}.
Implicit Types (s : os).

Lemma set_kheap_twice h h' s : set_kheap h' (set_kheap h s) = set_kheap h' s.
Proof. unfold set_kheap at 1. rewrite view_set_kheap. by destruct s. Qed.

Lemma view_delete_thread s z : cur_thread s <> Some z -> view (set_threads (delete z) s) = view s.
Proof.
  intros Hz. assert (Et : cur_thread (set_threads (delete z) s) = cur_thread s) by done.
  assert (Ep : cur_proc (set_threads (delete z) s) = cur_proc s).
  { unfold cur_proc. rewrite Et. destruct (cur_thread s) as [t|]; [|done]. cbn.
    by rewrite lookup_delete_ne by congruence. }
  unfold view. by rewrite Et, Ep.
Qed.

(** Whoever runs, the memory seen is the same. *)
Lemma same_memory_view s s' : o_k s' = o_k s -> same_memory (view s) (view s').
Proof.
  intros E. exists (fun _ => k_cpu (view s')), (k_curproc (view s')). unfold view. by rewrite E.
Qed.

Lemma lockable_view s : lockable (view s) <-> t_in_interrupt (k_cpu (o_k s)) = false.
Proof. done. Qed.
End View.

Section Destroy.
Context {P : Platform} {L : PlatformLaws P}.
Implicit Types (s : os).

Lemma thread_destroy_spec s z th (Q : unit -> os -> Prop) :
  o_threads s !! z = Some th -> cur_thread s <> Some z -> t_state th <> S_RUN -> t_proc th = None ->
  (forall h, Q tt (set_threads (delete z) (set_kheap h s))) -> wp (thread_destroy z) Q s.
Proof.
  intros Hz Hcur Hst Hp HQ. unfold thread_destroy. steps. apply wp_kassert; [by apply bool_decide_eq_true|].
  step. eapply wp_thread_at; [done|]. step. apply wp_kassert; [by apply bool_decide_eq_true|].
  step. apply wp_kassert; [by apply bool_decide_eq_true|]. step.
  assert (H : forall h, wp (kfreeO (t_name th) ;; kfreeO z ;; modify (set_threads (delete z))) Q (set_kheap h s)).
  { intros h. step. apply wp_kfreeO. rewrite set_kheap_twice. step. apply wp_kfreeO. rewrite set_kheap_twice. steps. apply HQ. }
  destruct (t_stack th) as [stack|]; [apply wp_kfreeO, H|]. apply wp_ret.
  step. apply wp_kfreeO. step. apply wp_kfreeO. rewrite set_kheap_twice. steps. apply HQ.
Qed.

(** A zombie disappears from the lists. *)
Lemma sched_bury s i c z zs th h :
  sched_inv s -> o_cpus s !! i = Some c -> c_zombies c = z :: zs -> o_threads s !! z = Some th ->
  sched_inv (set_threads (delete z) (set_kheap h (set_cpus (<[i := with_c_zombies zs c]>) s))).
Proof.
  intros I Hc Hz Ht.
  assert (Hat : at_place s z (Dead i)) by (exists c; split; [done|]; rewrite Hz; left).
  assert (Hno : forall pl, at_place s z pl -> pl = Dead i) by (intros pl Hpl; by eapply sched_unique).
  destruct (si_queue _ I i c Hc) as [Hnq Hnd]. rewrite Hz in Hnd. apply NoDup_cons in Hnd as [Hnz Hnd].
  set (s' := set_threads _ _).
  assert (Hp : forall u pl, at_place s' u pl <-> u <> z /\ at_place s u pl).
  { intros u pl. assert (Hs : at_place s' u pl <-> if decide (pl = Dead i) then u ∈ zs else at_place s u pl).
    { destruct pl as [j|j|w|j]; cbn; rewrite ?(at_cpu _ i c) by done;
        try (destruct (decide (_ = Dead i)); [done|]); try done.
      - destruct (decide (j = i)) as [->|]; [|done]. cbn. split; [by eauto|]. by intros (x & Hx & ?); simplify_eq.
      - destruct (decide (j = i)) as [->|]; [|done]. cbn. split; [by eauto|]. by intros (x & Hx & ?); simplify_eq.
      - destruct (decide (j = i)) as [->|]; [by rewrite decide_True|]. rewrite decide_False by congruence. done. }
    rewrite Hs. destruct (decide (pl = Dead i)) as [->|Hne].
    - cbn. split.
      + intros Hu. split; [congruence|]. exists c. split; [done|]. rewrite Hz. by right.
      + intros [Hu (x & Hx & Hin)]. simplify_eq. rewrite Hz in Hin. by apply elem_of_cons in Hin as [?|?].
    - split; [|tauto]. intros Hu. split; [|done]. intros ->. by apply Hne, Hno. }
  assert (Hl : forall u x, delete z (o_threads s) !! u = Some x -> o_threads s !! u = Some x).
  { intros u x. rewrite lookup_delete. by case_decide. }
  split; unfold s'; ored.
  - intros u pl. fold s'. rewrite Hp, (si_place _ I). split.
    + intros [Hne (x & Hx & Hpx)]. exists x. by rewrite lookup_delete_ne.
    + intros (x & Hx & Hpx). split; [intros ->; by rewrite lookup_delete_eq in Hx | eauto].
  - intros j x. eapply (nodup_cpus _ i c); [apply (si_queue _ I) | done | done].
  - apply (si_wchan _ I).
  - intros u x Hx. eapply (si_placed _ I); eauto.
  - intros u x Hx. eapply (si_zombie _ I); eauto.
  - intros u x Hx. destruct (si_cpu _ I u x) as (j & cj & Hj & Hcj); [by apply Hl|]. exists j.
    destruct (proj2 (cpus_same (o_cpus s) i c (with_c_zombies zs c) j Hc)) as [c2 Hc2]; eauto.
Qed.
End Destroy.

Section Exorcise.
Context {P : Platform} {L : PlatformLaws P}.
Implicit Types (s : os).

(** What a context switch has nothing to do with. *)
Definition others s := (o_procs s, o_table s, o_last_i s, o_kproc s, o_files s).

(** [s'] is [s] without the zombies [zs] of processor [i]. *)
Record buried s s' (i : nat) (c : cpu) (zs : list nat) : Prop := {
  bu_inv : sched_inv s';
  bu_cpus : o_cpus s' = <[i := with_c_zombies [] c]> (o_cpus s);
  bu_threads : forall t, o_threads s' !! t = if decide (t ∈ zs) then None else o_threads s !! t;
  bu_rest : others s' = others s /\ o_wchans s' = o_wchans s /\ o_curcpu s' = o_curcpu s;
  bu_view : exists h, view s' = set_heap h (view s);
}.

Lemma exorcise_list_spec s i c cur :
  sched_inv s -> o_curcpu s = Some i -> o_cpus s !! i = Some c -> c_isidle c = false -> c_curthread c = Some cur ->
  wp (exorcise_list i (c_zombies c)) (fun _ s' => buried s s' i c (c_zombies c)) s.
Proof.
  remember (c_zombies c) as zs eqn:Ez. revert s c Ez.
  induction zs as [|z zs IH]; intros s c Ez I Hi Hc Hid Hcur; cbn [exorcise_list].
  - apply wp_ret. split; [done| | |done|].
    + rewrite list_insert_id; [done|]. rewrite Hc. f_equal. destruct c; cbn in *. by subst.
    + intros t. by rewrite decide_False by apply not_elem_of_nil.
    + exists (k_heap (view s)). by destruct (view s).
  - assert (Hat : at_place s z (Dead i)) by (exists c; split; [done|]; rewrite <- Ez; left).
    pose proof Hat as Hat'. apply (si_place _ I) in Hat as (th & Ht & Hp).
    assert (Hst : t_state th = S_ZOMBIE) by (unfold place_of in Hp; destruct (t_state th), (t_cpu th), (t_wchan th); done).
    assert (Hct : cur_thread s = Some cur) by (unfold cur_thread, cur_cpu; rewrite Hi; cbn; by rewrite Hc).
    assert (Hne : cur <> z).
    { intros ->. assert (Hr : at_place s z (Running i)) by by exists c. discriminate (sched_unique _ _ _ _ I Hr Hat'). }
    assert (Hlt : (i < length (o_cpus s))%nat) by by eapply lookup_lt_Some.
    set (c1 := with_c_zombies zs c). set (s1 := set_cpus (<[i := c1]>) s).
    assert (Hct1 : cur_thread s1 = Some cur).
    { unfold cur_thread, cur_cpu. cbn. rewrite Hi. cbn. by rewrite list_lookup_insert_eq. }
    step. eapply wp_cpu_upd; [done|]. fold c1 s1. steps. apply wp_kassert; [apply bool_decide_eq_true; congruence|].
    step. eapply wp_thread_at; [done|]. step. apply wp_kassert; [by apply bool_decide_eq_true|]. step.
    eapply thread_destroy_spec; [done | congruence | congruence | by apply (si_zombie _ I z) |]. intros h.
    pose proof (sched_bury s i c z zs th h I Hc (eq_sym Ez) Ht) as I1. fold c1 s1 in I1.
    eapply wp_mono; [apply (IH _ c1); try done; by apply list_lookup_insert_eq|].
    intros [] s' [B1 B2 B3 B4 [h' B5]]. ored. split; try done.
    + rewrite B2. unfold s1. ored. by rewrite list_insert_insert_eq.
    + intros t. rewrite B3, lookup_delete. destruct (decide (z = t)) as [<-|Hzt].
      * rewrite (decide_True (P := z ∈ z :: zs)) by left. by case_decide.
      * case_decide; [by rewrite decide_True by by right|]. rewrite decide_False; [done|].
        by intros [?|?]%elem_of_cons.
    + exists h'. rewrite B5, view_delete_thread by (cbn; change (cur_thread s1 <> Some z); congruence).
      rewrite view_set_kheap. assert (Ev : view s1 = view s).
      { unfold view. rewrite Hct1, Hct. unfold cur_proc. by rewrite Hct1, Hct. }
      by rewrite Ev.
Qed.

(** ** Taking the next thread *)

(** [next] runs on processor [i] in [s'], whose paging kernel is right for it;
    [s] is the state in which the processor looked for a thread. *)
Record dispatched s s' (i : nat) (next : nat) (q : list nat) (b : bitmap) (v : vnode) (st : gmap Z page) : Prop := {
  di_inv : sched_inv s';
  di_running : cur_thread s' = Some next /\ at_place s' next (Running i);
  di_curcpu : o_curcpu s' = o_curcpu s;
  di_queue : exists c', o_cpus s' !! i = Some c' /\ c_runqueue c' = q /\ c_zombies c' = [] /\ c_isidle c' = false;
  di_others : forall j, j <> i -> o_cpus s' !! j = o_cpus s !! j;
  di_threads : forall t, t <> next -> ~ at_place s t (Dead i) -> o_threads s' !! t = o_threads s !! t;
  di_dead : forall t, at_place s t (Dead i) -> o_threads s' !! t = None;
  di_wchans : o_wchans s' = o_wchans s;
  di_kept : others s' = others s;
  di_mem : k_as (view s') = k_as (view s) /\ k_cm (view s') = k_cm (view s) /\
    c_spinlocks (k_cpu (view s')) = c_spinlocks (k_cpu (view s));
  di_data : k_mem (view s') = k_mem (view s) /\ k_disk (view s') = k_disk (view s);
  di_next : t_proc <$> o_threads s' !! next = t_proc <$> o_threads s !! next;
  di_vm : vm_inv (view s') b v st None /\ quiet (view s');
}.

Lemma dispatch_spec s i c next q b v st :
  sched_inv s -> o_curcpu s = Some i -> o_cpus s !! i = Some c -> c_isidle c = true -> c_runqueue c = next :: q ->
  vm_inv (view s) b v st None -> quiet (view s) ->
  wp thread_dispatch (fun _ s' => dispatched s s' i next q b v st) s.
Proof.
  intros I Hi Hc Hid Hrq Hvm Hqt. assert (Hlt : (i < length (o_cpus s))%nat) by by eapply lookup_lt_Some.
  assert (Hat : at_place s next (Queued i)) by (exists c; split; [done|]; rewrite Hrq; left).
  pose proof Hat as Hat0. apply (si_place _ I) in Hat as (th & Ht & Hp).
  assert (Hth : t_cpu th = Some i).
  { unfold place_of in Hp. destruct (t_state th), (t_cpu th), (t_wchan th); simplify_eq/=; done. }
  unfold thread_dispatch, curcpu_self. steps. eapply wp_deref; [done|]. step. eapply wp_cpu_at; [done|]. rewrite Hrq.
  step. eapply wp_cpu_upd; [done|]. step. eapply wp_cpu_upd; [by apply list_lookup_insert_eq|]. step.
  eapply wp_cpu_upd; [ored; apply list_lookup_insert_eq; by rewrite length_insert|]. unfold thread_resume. step.
  eapply wp_thread_upd; [done|]. step. eapply wp_thread_upd; [apply lookup_insert_eq|]. step.
  set (s1 := set_threads _ _). set (c1 := with_c_curthread (Some next) _) in *. set (th1 := with_t_state _ _) in *.
  assert (Ec : o_cpus s1 = <[i := c1]> (o_cpus s)) by (unfold s1; ored; by rewrite !list_insert_insert_eq).
  assert (Et : o_threads s1 = <[next := th1]> (o_threads s)) by (unfold s1; ored; by rewrite insert_insert_eq).
  assert (I1 : sched_inv s1) by (by eapply (sched_run s s1 i c c1 next q th th1)).
  assert (Hc1 : o_cpus s1 !! i = Some c1) by (rewrite Ec; by apply list_lookup_insert_eq).
  apply wp_vm_keep. eapply wp_mono; [apply (activate_spec (view s)); [done..|by apply same_memory_view|apply Hqt]|].
  intros [] k' [A1 A2 [A3 A4] (A5 & A6 & A7 & A7' & A7'') A8]. split; [by split|].
  set (s2 := set_k (fun _ => k') s1). assert (I2 : sched_inv s2) by (by apply (sched_ext s1)).
  assert (Ev : view s2 = k') by (apply view_set_k; by split).
  unfold exorcise, curcpu_self. steps. eapply wp_deref; [done|]. step. eapply wp_cpu_at; [done|].
  eapply wp_mono; [by apply (exorcise_list_spec s2 i c1 next)|]. intros [] s' [B1 B2 B3 (B4 & B5 & B6) [h B7]].
  assert (Hc' : o_cpus s' !! i = Some (with_c_zombies [] c1)).
  { rewrite B2. apply list_lookup_insert_eq. unfold s2. ored. rewrite Ec. by rewrite length_insert. }
  assert (Hr : at_place s' next (Running i)) by by exists (with_c_zombies [] c1).
  split; try done.
  - split; [|done]. unfold cur_thread, cur_cpu. rewrite B6. unfold s2, s1. ored. rewrite Hi. cbn. by rewrite Hc'.
  - by exists (with_c_zombies [] c1).
  - intros j Hj. rewrite B2. unfold s2. ored. rewrite list_lookup_insert_ne by done. rewrite Ec. by rewrite list_lookup_insert_ne.
  - intros t Ht' Hd. rewrite B3, decide_False by (intros Hin; apply Hd; by exists c). unfold s2. ored. rewrite Et. by apply lookup_insert_ne.
  - intros t (x & Hx & Hin). simplify_eq. rewrite B3. by rewrite decide_True.
  - rewrite B7, Ev. split; [done|]. split; [done|]. cbn [k_cpu set_heap]. by rewrite A4.
  - by rewrite B7, Ev.
  - rewrite B3, decide_False; [|intros Hin; assert (Hdz : at_place s next (Dead i)) by (by exists c); discriminate (sched_unique _ _ _ _ I Hat0 Hdz)].
    unfold s2. ored. rewrite Et, lookup_insert_eq, Ht. done.
  - rewrite B7, Ev. split.
    + apply (vm_inv_env k' b v st None h (k_disk k')) in A1; [|done]. by destruct k'.
    + by destruct A2.
Qed.
End Exorcise.

Section ThreadSwitch.
Context {P : Platform} {L : PlatformLaws P}.
Implicit Types (s : os).

(** Thread [cur] runs on processor [i] and may go to [newstate]. *)
Record switching s (i : nat) (c : cpu) (cur : nat) (th : thread) (newstate : threadstate_t) (wc : option nat) : Prop := {
  sw_inv : sched_inv s;
  sw_curcpu : o_curcpu s = Some i;
  sw_cpu : o_cpus s !! i = Some c;
  sw_busy : c_isidle c = false;
  sw_cur : c_curthread c = Some cur;
  sw_thread : o_threads s !! cur = Some th;
  sw_state : match newstate with
             | S_RUN => False
             | S_READY => c_runqueue c <> []
             | S_SLEEP => exists w, wc = Some w /\ is_Some (o_wchans s !! w)
             | S_ZOMBIE => t_proc th = None
             end;
}.

(** Where it goes, and what the run queue is then. *)
Definition goes_to (i : nat) (newstate : threadstate_t) (wc : option nat) : place :=
  match newstate with
  | S_SLEEP => Waiting (default 0%nat wc)
  | S_ZOMBIE => Dead i
  | _ => Queued i
  end.

Definition next_queue (c : cpu) (cur : nat) (newstate : threadstate_t) : list nat :=
  c_runqueue c ++ (if decide (newstate = S_READY) then [cur] else []).

(** The state in which processor [i] looks for the next thread. *)
Record switched_out s s1 (i : nat) (c : cpu) (cur : nat) (newstate : threadstate_t) (wc : option nat) : Prop := {
  so_inv : sched_inv s1;
  so_curcpu : o_curcpu s1 = Some i;
  so_cpu : exists c1, o_cpus s1 !! i = Some c1 /\ c_isidle c1 = true /\ c_runqueue c1 = next_queue c cur newstate;
  so_place : at_place s1 cur (goes_to i newstate wc);
  so_others : forall j, j <> i -> o_cpus s1 !! j = o_cpus s !! j;
  so_view : view s1 = view s;
  so_kept : others s1 = others s;
  so_threads : forall u, u <> cur -> o_threads s1 !! u = o_threads s !! u;
  so_wchans : forall w, is_Some (o_wchans s1 !! w) <-> is_Some (o_wchans s !! w);
}.

Lemma switching_cpu s i c cur th newstate wc : switching s i c cur th newstate wc -> t_cpu th = Some i.
Proof.
  intros [I _ Hc Hid Hcur Ht _]. assert (Hat : at_place s cur (Running i)) by by exists c.
  apply (si_place _ I) in Hat as (th' & Ht' & Hp). rewrite Ht in Ht'. injection Ht' as <-.
  unfold place_of in Hp. destruct (t_state th), (t_cpu th), (t_wchan th); simplify_eq/=; done.
Qed.

(** How the old thread leaves the processor: the three cases of [switch_out]
    differ in the new thread structure and in the queues. *)
Lemma switched_out_by s i c cur th newstate wc s1 c1 th1 :
  switching s i c cur th newstate wc ->
  o_threads s1 = <[cur := th1]> (o_threads s) -> o_cpus s1 = <[i := c1]> (o_cpus s) ->
  t_cpu th1 = Some i -> place_of th1 = Some (goes_to i newstate wc) -> (t_state th1 = S_ZOMBIE -> t_proc th1 = None) ->
  c_isidle c1 = true -> c_runqueue c1 = next_queue c cur newstate ->
  c_zombies c1 = (if decide (newstate = S_ZOMBIE) then c_zombies c ++ [cur] else c_zombies c) ->
  (forall w, o_wchans s1 !! w = if decide (newstate = S_SLEEP /\ wc = Some w) then (fun q => q ++ [cur]) <$> o_wchans s !! w
                                else o_wchans s !! w) ->
  o_curcpu s1 = Some i -> o_k s1 = o_k s -> others s1 = others s -> c_curthread c1 = Some cur -> t_proc th1 = t_proc th ->
  switched_out s s1 i c cur newstate wc.
Proof.
  intros Hsw Et Ec Etc Hp1 Hz1 Hid1 Hrq1 Hzo1 Hwc1 Hcc Ek Ep Ecur Epr.
  pose proof (switching_cpu _ _ _ _ _ _ _ Hsw) as Htc. destruct Hsw as [I Hi Hc Hid Hcur Ht Hst].
  assert (Hlt : (i < length (o_cpus s))%nat) by by eapply lookup_lt_Some.
  assert (I1 : sched_inv s1).
  { eapply (sched_leave s s1 i c c1 cur th th1 (goes_to i newstate wc)); try done.
    - congruence.
    - rewrite Hrq1. unfold next_queue, goes_to. destruct newstate; [done| | |];
        [by rewrite !decide_True | by rewrite !decide_False, app_nil_r..].
    - rewrite Hzo1. unfold goes_to. destruct newstate; [done|by rewrite !decide_False..|by rewrite !decide_True].
    - intros w. rewrite Hwc1. destruct newstate; try done. destruct Hst as (w0 & -> & _). cbn.
      destruct (decide (w0 = w)) as [->|]; [by rewrite !decide_True|]. by rewrite !decide_False by naive_solver.
    - by destruct newstate.
    - by destruct newstate.
    - intros w Ew. destruct newstate; try done. destruct Hst as (w0 & -> & Hw0). by injection Ew as <-. }
  split; try done.
  - exists c1. rewrite Ec. split; [by apply list_lookup_insert_eq | done].
  - apply (si_place _ I1). exists th1. rewrite Et. split; [apply lookup_insert_eq | done].
  - intros j Hj. rewrite Ec. by apply list_lookup_insert_ne.
  - assert (E0 : cur_thread s = Some cur) by (unfold cur_thread, cur_cpu; rewrite Hi; cbn; by rewrite Hc).
    assert (E1 : cur_thread s1 = Some cur).
    { unfold cur_thread, cur_cpu. rewrite Hcc. cbn. rewrite Ec. by rewrite list_lookup_insert_eq. }
    injection Ep as Ep _ _ _ _. unfold view, cur_proc. rewrite E0, E1, Ek, Ep, Hi, Hcc. cbn. rewrite Et, Ht, lookup_insert_eq. cbn. by rewrite Epr.
  - intros u Hu. rewrite Et. by apply lookup_insert_ne.
  - intros w. rewrite Hwc1. destruct (decide (newstate = S_SLEEP /\ wc = Some w)); [apply fmap_is_Some | tauto].
Qed.

Lemma switch_out_spec s i c cur th newstate wc :
  switching s i c cur th newstate wc ->
  wp (switch_out i cur newstate wc) (fun _ s1 => switched_out s s1 i c cur newstate wc) s.
Proof.
  intros Hsw. pose proof (switching_cpu _ _ _ _ _ _ _ Hsw) as Htc. pose proof Hsw as [I Hi Hc Hid Hcur Ht Hst].
  assert (Hlt : (i < length (o_cpus s))%nat) by by eapply lookup_lt_Some.
  unfold switch_out. step. destruct newstate; [done| | |].
  - eapply wp_make_runnable; [done..|apply ipi_unidle_range|]. intros c' (E1 & E2 & E3 & E4). step.
    eapply wp_thread_upd; [apply lookup_insert_eq|]. eapply wp_cpu_upd; [by apply list_lookup_insert_eq|].
    apply (switched_out_by s i c cur th _ _ _ (with_c_isidle true c') (with_t_state S_READY (with_t_state S_READY th))); [done|..]; ored; try done.
    + by rewrite insert_insert_eq.
    + by rewrite list_insert_insert_eq.
    + cbn. by rewrite Htc.
    + cbn. by rewrite E1.
  - destruct Hst as (w & -> & q & Hq). step. eapply wp_deref; [done|]. step. eapply wp_thread_upd; [done|]. steps.
    eapply wp_deref; [done|]. steps. eapply wp_thread_upd; [apply lookup_insert_eq|].
    eapply wp_cpu_upd; [done|].
    apply (switched_out_by s i c cur th _ _ _ (with_c_isidle true c) (with_t_state S_SLEEP (with_t_wchan (Some w) th))); [done|..]; ored; try done.
    + by rewrite insert_insert_eq.
    + unfold next_queue. by rewrite app_nil_r.
    + intros w'. rewrite lookup_insert. destruct (decide (w = w')) as [<-|Hne].
      * rewrite decide_True by done. by rewrite Hq.
      * by rewrite decide_False by naive_solver.
  - eapply wp_cpu_upd; [done|]. step. eapply wp_thread_upd; [done|]. eapply wp_cpu_upd; [by apply list_lookup_insert_eq|].
    apply (switched_out_by s i c cur th _ _ _ (with_c_isidle true (with_c_zombies (c_zombies c ++ [cur]) c)) (with_t_state S_ZOMBIE th)); [done|..]; ored; try done.
    + by rewrite list_insert_insert_eq.
    + cbn. by rewrite Htc.
    + unfold next_queue. by rewrite app_nil_r.
Qed.

(** What a switch from [cur] to [next] leaves. *)
Record switched s s' (i : nat) (cur next : nat) (q : list nat) (newstate : threadstate_t) (wc : option nat)
    (b : bitmap) (v : vnode) (st : gmap Z page) : Prop := {
  sd_inv : sched_inv s';
  sd_running : cur_thread s' = Some next /\ at_place s' next (Running i);
  sd_curcpu : o_curcpu s' = Some i;
  sd_queue : exists c', o_cpus s' !! i = Some c' /\ c_runqueue c' = q /\ c_zombies c' = [];
  sd_old : match newstate with
           | S_ZOMBIE => o_threads s' !! cur = None
           | _ => at_place s' cur (goes_to i newstate wc)
           end;
  sd_others : forall j, j <> i -> o_cpus s' !! j = o_cpus s !! j;
  sd_vm : vm_inv (view s') b v st None /\ quiet (view s');
  sd_mem : k_as (view s') = k_as (view s) /\ k_cm (view s') = k_cm (view s) /\
    c_spinlocks (k_cpu (view s')) = c_spinlocks (k_cpu (view s));
  sd_data : k_mem (view s') = k_mem (view s) /\ k_disk (view s') = k_disk (view s);
  sd_wchans : forall w, is_Some (o_wchans s' !! w) <-> is_Some (o_wchans s !! w);
  sd_next : t_proc <$> o_threads s' !! next = t_proc <$> o_threads s !! next;
  sd_kept : others s' = others s;
}.

Lemma thread_switch_enter s i c cur th newstate wc (Q : unit -> os -> Prop) :
  switching s i c cur th newstate wc ->
  (forall s1, switched_out s s1 i c cur newstate wc -> wp thread_dispatch Q s1) ->
  wp (thread_switch newstate wc) Q s.
Proof.
  intros Hsw HQ. pose proof Hsw as [I Hi Hc Hid Hcur Ht Hst]. unfold thread_switch, curcpu_self. steps.
  eapply wp_deref; [done|]. unfold curthread_self. steps.
  eapply wp_deref; [unfold cur_thread, cur_cpu; rewrite Hi; cbn; by rewrite Hc|]. step. eapply wp_cpu_at; [done|].
  rewrite Hid. rewrite decide_False by (intros [-> ?]; done). step.
  eapply wp_mono; [by apply (switch_out_spec s i c cur th)|]. intros [] s1. apply HQ.
Qed.

(** The next thread is another one. *)
Lemma next_not_cur s i c cur th newstate wc next q :
  switching s i c cur th newstate wc -> next_queue c cur newstate = next :: q -> next <> cur.
Proof.
  intros [I _ Hc Hid Hcur Ht Hst] Hq ->. assert (Hin : cur ∈ c_runqueue c).
  { unfold next_queue in Hq. destruct newstate; cbn in Hq; rewrite ?app_nil_r in Hq; [done| |rewrite Hq; left..].
    destruct (c_runqueue c) as [|n' q']; [done|]. cbn in Hq. injection Hq as -> _. left. }
  assert (H1 : at_place s cur (Running i)) by by exists c.
  assert (H2 : at_place s cur (Queued i)) by by exists c.
  discriminate (sched_unique _ _ _ _ I H1 H2).
Qed.

Lemma switch_runs_spec s i c cur th newstate wc next q b v st :
  switching s i c cur th newstate wc -> next_queue c cur newstate = next :: q ->
  vm_inv (view s) b v st None -> quiet (view s) ->
  wp (thread_switch newstate wc) (fun _ s' => switched s s' i cur next q newstate wc b v st) s.
Proof.
  intros Hsw Hq Hvm Hqt. apply (thread_switch_enter _ _ _ _ _ _ _ _ Hsw).
  intros s1 [I1 Hi1 (c1 & Hc1 & Hid1 & Hrq1) Hp1 Ho1 Ev1 Ek1 Eth1 Ew1]. rewrite Hq in Hrq1. rewrite <- Ev1 in Hvm, Hqt.
  eapply wp_mono; [by eapply (dispatch_spec s1 i c1 next q)|].
  intros [] s' [D1 D2 D2' (c' & D3 & D4 & D5 & D6) D7 D8 D9 D10 D11 D12 D12' D13 D14]. pose proof (next_not_cur _ _ _ _ _ _ _ _ _ Hsw Hq) as Hne. split; try done.
  - by rewrite D2'.
  - by exists c'.
  - assert (Hkeep : forall pl, at_place s1 cur pl -> pl <> Dead i -> pl <> Queued i -> at_place s' cur pl).
    { intros pl Hpl Hnd Hnq. apply (si_place _ D1). rewrite D8.
      - by apply (si_place _ I1).
      - intros ->. apply Hnq. eapply (sched_unique s1); [done..|]. exists c1. split; [done|]. rewrite Hrq1. left.
      - intros Hd. apply Hnd. by eapply (sched_unique s1). }
    destruct newstate; cbn [goes_to] in *; [by destruct Hsw| | apply Hkeep; congruence | by apply D9].
    exists c'. split; [done|]. rewrite D4. destruct Hp1 as (x & Hx & Hin). simplify_eq.
    rewrite Hrq1 in Hin. by apply elem_of_cons in Hin as [?|?].
  - intros j Hj. rewrite D7 by done. by apply Ho1.
  - by rewrite <- Ev1.
  - by rewrite <- Ev1.
  - intros w. by rewrite D10.
  - rewrite D13. by rewrite Eth1.
  - congruence.
Qed.

(** C14. A context switch with a thread to switch to: the thread at the head
    of the processor's run queue gets the processor, the old thread is where
    its new state says (the end of the queue, the wait channel; an exited
    thread is destroyed together with the other zombies of the processor),
    no other processor is touched, the scheduler invariant holds, and the
    address space of the new thread's process is active with every paging
    invariant intact. *)
Theorem thread_switch_runs s i c cur th newstate wc next q b v st :
  switching s i c cur th newstate wc -> next_queue c cur newstate = next :: q ->
  vm_inv (view s) b v st None -> quiet (view s) ->
  wp (thread_switch newstate wc) (fun _ s' => switched s s' i cur next q newstate wc b v st) s.
Proof. apply switch_runs_spec. Qed.

(** Without a thread to switch to the processor idles, after the old
    thread has been put where its new state says, with the scheduler
    invariant intact and the paging kernel untouched. *)
Lemma thread_switch_idles s i c cur th newstate wc :
  switching s i c cur th newstate wc -> next_queue c cur newstate = [] ->
  exists s1, thread_switch newstate wc s = Stop (Blocked "cpu_idle") s1 /\ sched_inv s1 /\
    at_place s1 cur (goes_to i newstate wc) /\ view s1 = view s.
Proof.
  intros Hsw Hq.
  assert (H : exists s1, thread_switch newstate wc s = thread_dispatch s1 /\ switched_out s s1 i c cur newstate wc).
  { pose proof Hsw as [I Hi Hc Hid Hcur Ht Hst]. pose proof (switch_out_spec _ _ _ _ _ _ _ Hsw) as Hso.
    unfold wp in Hso. destruct (switch_out i cur newstate wc s) as [[] s1|] eqn:E; [|done]. exists s1. split; [|done].
    unfold thread_switch, curcpu_self, curthread_self, cpu_at, gets, deref, bind, ret.
    assert (Hct : cur_thread s = Some cur) by (unfold cur_thread, cur_cpu; rewrite Hi; cbn; by rewrite Hc).
    rewrite Hi, Hct, Hc, Hid. rewrite decide_False by (intros [-> ?]; done). by rewrite E. }
  destruct H as (s1 & E & [I1 Hi1 (c1 & Hc1 & Hid1 & Hrq1) Hp1 Ho1 Ev1 Ek1 Eth1 Ew1]). exists s1. split; [|done].
  rewrite E, Hq in *. unfold thread_dispatch, curcpu_self, cpu_at, gets, deref, bind, ret. by rewrite Hi1, Hc1, Hrq1.
Qed.
End ThreadSwitch.

Section Wakeup.
Context {P : Platform} {L : PlatformLaws P}.
Implicit Types (s : os).

Lemma wakeups_spec s w q self :
  sched_inv s -> o_curcpu s = Some self -> o_wchans s !! w = Some q ->
  wp (wchan_wakeone w) (fun _ s' => sched_inv s' /\ o_wchans s' = <[w := tail q]> (o_wchans s) /\ woken s s' (take 1 q)) s /\
  wp (wchan_wakeall w) (fun _ s' => sched_inv s' /\ o_wchans s' = <[w := []]> (o_wchans s) /\ woken s s' q) s.
Proof.
  intros I Hs Hw. split.
  - unfold wchan_wakeone, wchan_at. steps. eapply wp_deref; [done|]. destruct q as [|t q].
    { apply wp_ret. split; [done|]. split; [by rewrite insert_id | apply woken_nil]. }
    destruct (sched_waiting _ w t _ I Hw ltac:(left)) as (th & i & c & Ht & Hst & Hi & Hc). steps.
    eapply wp_make_runnable; [done..|apply ipi_unidle_range|]. intros c' Hc'.
    pose proof (sched_wake _ w t q th i c c' I Hw Ht Hi Hc Hc') as I'. split; [done|]. split; [done|].
    eapply woken_one; done.
  - unfold wchan_wakeall, wchan_at. steps. eapply wp_deref; [done|]. steps.
    eapply wp_mono; [apply (make_all_runnable_spec _ w q self); [|done]|].
    + apply (sched_ext s); [done| |done|done]. ored. by rewrite insert_insert_eq, insert_id.
    + intros [] s' (I' & Ew & Hwo). assert (Ew' : o_wchans s' = <[w := []]> (o_wchans s)) by (rewrite Ew; done).
      split; [|done]. refine (sched_ext (set_wchans <[w:=[]]> s') s' eq_refl _ (fun _ => eq_refl) I'). ored. rewrite Ew'. by rewrite insert_insert_eq.
Qed.

(** C15. Wake-ups are first come, first served and lose nobody: [wchan_wakeone]
    takes the thread that has slept longest off the channel (nobody, when the
    channel is empty), [wchan_wakeall] takes all of them; the threads taken
    become ready and are appended in the order of the channel to the run
    queues of their own processors, every other thread stays where it is, and
    the scheduler invariant holds. *)
Theorem wakeups_fifo s w q self :
  sched_inv s -> o_curcpu s = Some self -> o_wchans s !! w = Some q ->
  wp (wchan_wakeone w) (fun _ s' => sched_inv s' /\ o_wchans s' = <[w := tail q]> (o_wchans s) /\ woken s s' (take 1 q)) s /\
  wp (wchan_wakeall w) (fun _ s' => sched_inv s' /\ o_wchans s' = <[w := []]> (o_wchans s) /\ woken s s' q) s.
Proof. apply wakeups_spec. Qed.
End Wakeup.
