(* ===== verification/Migrate.v ===== *)
(** Thread migration ([thread_consider_migration] of [thread/thread.c]). *)

From Stdlib Require Import ZArith Lia.
From stdpp Require Import base list gmap strings.
From S2P Require Import Prelude Platform State Synch Os Proc Thread Sched.
Local Open Scope Z_scope.

Section Migrate.
Context {P : Platform} {L : PlatformLaws P}.
Implicit Types (s : os).

(** Two processors change. *)
Lemma lookup_two (l : list cpu) self i me me' c c' : l !! self = Some me -> l !! i = Some c -> i <> self ->
  forall j, <[i := c']> (<[self := me']> l) !! j = if decide (j = i) then Some c' else if decide (j = self) then Some me' else l !! j.
Proof.
  intros Hme%lookup_lt_Some Hc%lookup_lt_Some Hne j. destruct (decide (j = i)) as [->|].
  - apply list_lookup_insert_eq. by rewrite length_insert.
  - rewrite list_lookup_insert_ne by done. destruct (decide (j = self)) as [->|]; [by apply list_lookup_insert_eq|].
    by apply list_lookup_insert_ne.
Qed.

Lemma keep_two (l : list cpu) self i me me' c c' : l !! self = Some me -> l !! i = Some c -> i <> self ->
  forall (F : cpu -> Prop) j, (F c' <-> F c) -> (F me' <-> F me) ->
  (exists x, <[i := c']> (<[self := me']> l) !! j = Some x /\ F x) <-> (exists x, l !! j = Some x /\ F x).
Proof.
  intros Hme Hc Hne F j H1 H2. rewrite (lookup_two l self i me me' c c') by done. destruct (decide (j = i)) as [->|].
  - rewrite Hc. split; intros (x & [= <-] & ?); eexists; (split; [done | tauto]).
  - destruct (decide (j = self)) as [->|]; [|done]. rewrite Hme.
    split; intros (x & [= <-] & ?); eexists; (split; [done | tauto]).
Qed.

(** Thread [t] of processor [self] goes to the end of the queue of [i]. *)
Lemma sched_migrate s s' self me me' i c c' t th vs :
  sched_inv s -> o_cpus s !! self = Some me -> o_cpus s !! i = Some c -> i <> self -> o_threads s !! t = Some th ->
  c_runqueue me ≡ₚ t :: vs -> c_runqueue me' = vs ->
  c_curthread me' = c_curthread me -> c_zombies me' = c_zombies me -> c_isidle me' = c_isidle me -> enqueued t c c' ->
  o_threads s' = <[t := with_t_cpu (Some i) th]> (o_threads s) ->
  o_cpus s' = <[i := c']> (<[self := me']> (o_cpus s)) -> o_wchans s' = o_wchans s -> sched_inv s'.
Proof.
  intros I Hme Hc Hne Ht Hq Hq' M1 M2 M3 (C1 & C2 & C3 & C4) Et Ec Ew.
  assert (Hat : at_place s t (Queued self)) by (exists me; split; [done|]; rewrite Hq; left).
  assert (Hno : forall pl, at_place s t pl -> pl = Queued self) by (intros pl Hpl; by eapply sched_unique).
  assert (Hst : t_state th = S_READY).
  { apply (si_place _ I) in Hat as (x & Hx & Hp). simplify_eq. unfold place_of in Hp.
    destruct (t_state th), (t_cpu th), (t_wchan th); done. }
  destruct (si_queue _ I self me Hme) as [Hnq Hnz]. rewrite Hq in Hnq. apply NoDup_cons in Hnq as [Htv Hnv].
  destruct (si_queue _ I i c Hc) as [Hcq Hcz].
  assert (Htc : t ∉ c_runqueue c) by (intros Hin; apply Hne; by injection (Hno (Queued i) (ex_intro _ c (conj Hc Hin)))).
  pose proof (lookup_two _ self i me me' c c' Hme Hc Hne) as Hlook. rewrite <- Ec in Hlook.
  assert (Hsome : forall j, is_Some (o_cpus s' !! j) <-> is_Some (o_cpus s !! j)) by (intros j; rewrite !lookup_lt_is_Some, Ec; by rewrite !length_insert).
  pose proof (keep_two _ self i me me' c c' Hme Hc Hne) as Hkeep. rewrite <- Ec in Hkeep.
  eapply (sched_place s s' t (with_t_cpu (Some i) th) (Queued i)); try done.
  - unfold place_of. ored. by rewrite Hst.
  - ored. congruence.
  - exists i. split; [done|]. by eexists.
  - intros u pl. destruct (decide (u = t)) as [->|Hut].
    + assert (Hin : at_place s' t (Queued i)).
      { exists c'. rewrite Hlook, decide_True by done. split; [done|]. rewrite C4. apply elem_of_app. right. left. }
      split; [|intros [[? _]|[_ ->]]; done]. intros Hpl. right. split; [done|]. destruct pl as [j|j|w|j].
      * apply (Hkeep (fun c => c_isidle c = false /\ c_curthread c = Some t)) in Hpl; [|by rewrite C1, C3 | by rewrite M1, M3].
        discriminate (Hno (Running j) Hpl).
      * destruct Hpl as (x & Hx & Hxin). rewrite Hlook in Hx. destruct (decide (j = i)) as [->|]; [done|].
        destruct (decide (j = self)) as [->|]; [by simplify_eq|].
        injection (Hno (Queued j) (ex_intro _ x (conj Hx Hxin))); congruence.
      * cbn in Hpl. rewrite Ew in Hpl. discriminate (Hno (Waiting w) Hpl).
      * apply (Hkeep (fun c => t ∈ c_zombies c)) in Hpl; [|by rewrite C2 | by rewrite M2]. discriminate (Hno (Dead j) Hpl).
    + assert (Heq : at_place s' u pl <-> at_place s u pl); [|rewrite Heq; intuition congruence].
      destruct pl as [j|j|w|j]; cbn.
      * apply (Hkeep (fun c => c_isidle c = false /\ c_curthread c = Some u)); [by rewrite C1, C3 | by rewrite M1, M3].
      * apply (Hkeep (fun c => u ∈ c_runqueue c)).
        -- rewrite C4, elem_of_app, list_elem_of_singleton. tauto.
        -- rewrite Hq', Hq, elem_of_cons. tauto.
      * by rewrite Ew.
      * apply (Hkeep (fun c => u ∈ c_zombies c)); [by rewrite C2 | by rewrite M2].
  - intros j x. rewrite Hlook. destruct (decide (j = i)) as [->|].
    + intros [= <-]. rewrite C2, C4. split; [|done]. apply NoDup_app. split; [done|].
      split; [|apply NoDup_singleton]. by intros y Hy ->%list_elem_of_singleton.
    + destruct (decide (j = self)); [intros [= <-]; by rewrite Hq', M2 | apply (si_queue _ I)].
  - intros w q. rewrite Ew. apply (si_wchan _ I).
Qed.
End Migrate.

Section Send.
Context {P : Platform} {L : PlatformLaws P}.
Implicit Types (s : os).

(** The state with the victims [vs] back on the queue of [self]. *)
Definition full s (self : nat) (vs : list nat) : os :=
  set_cpus (alter (fun c => with_c_runqueue (c_runqueue c ++ vs) c) self) s.

(** What migration never changes. *)
Record framed s s' : Prop := {
  fr_rest : o_k s' = o_k s /\ o_procs s' = o_procs s /\ o_wchans s' = o_wchans s /\ o_curcpu s' = o_curcpu s;
  fr_cpus : length (o_cpus s') = length (o_cpus s);
  fr_threads : forall t, with_t_cpu None <$> o_threads s' !! t = with_t_cpu None <$> o_threads s !! t;
  fr_cur : cur_thread s' = cur_thread s /\ forall t, cur_thread s = Some t -> o_threads s' !! t = o_threads s !! t;
}.

Lemma framed_refl s : framed s s.
Proof. by split. Qed.

Lemma framed_trans s1 s2 s3 : framed s1 s2 -> framed s2 s3 -> framed s1 s3.
Proof.
  intros [(A1 & A2 & A3 & A4) A5 A6 [A7 A8]] [(B1 & B2 & B3 & B4) B5 B6 [B7 B8]]. split.
  - split; [congruence|]. split; [congruence|]. split; congruence.
  - congruence.
  - intros t. by rewrite B6, A6.
  - split; [congruence|]. intros t Ht. rewrite B8, A8; congruence.
Qed.

(** The queue of processor [i] grew by [sent], up to [share]. *)
Definition grown (share : Z) (sent : list nat) (c c' : cpu) : Prop :=
  c_curthread c' = c_curthread c /\ c_zombies c' = c_zombies c /\ c_isidle c' = c_isidle c /\
  c_runqueue c' = c_runqueue c ++ sent /\
  (sent <> [] -> Z.of_nat (length (c_runqueue c')) <= share).

Lemma cur_thread_other s s' self i c c' : o_curcpu s = Some self -> o_curcpu s' = Some self -> i <> self ->
  o_cpus s !! i = Some c -> o_cpus s' = <[i := c']> (o_cpus s) -> cur_thread s' = cur_thread s.
Proof. intros E E' Hne Hc Ec. unfold cur_thread, cur_cpu. rewrite E, E', Ec. cbn. by rewrite list_lookup_insert_ne. Qed.

(** One victim is sent. *)
Lemma send_one s s' self i c c' t th vs :
  sched_inv (full s self (t :: vs)) -> o_curcpu s = Some self -> i <> self -> o_cpus s !! i = Some c -> enqueued t c c' ->
  is_Some (o_cpus s !! self) -> o_threads s !! t = Some th -> cur_thread s <> Some t ->
  o_threads s' = <[t := with_t_cpu (Some i) th]> (o_threads s) -> o_cpus s' = <[i := c']> (o_cpus s) ->
  o_k s' = o_k s -> o_procs s' = o_procs s -> o_wchans s' = o_wchans s -> o_curcpu s' = o_curcpu s ->
  sched_inv (full s' self vs) /\ framed s s'.
Proof.
  intros I Hs Hne Hc Hc' [me Hme] Ht Hcur Et Ec E1 E2 E3 E4. split.
  - eapply (sched_migrate (full s self (t :: vs)) _ self (with_c_runqueue (c_runqueue me ++ t :: vs) me)
             (with_c_runqueue (c_runqueue me ++ vs) me) i c c' t th (c_runqueue me ++ vs)); unfold full; ored; try done.
    + by rewrite list_lookup_alter_eq, Hme.
    + by rewrite list_lookup_alter_ne.
    + by rewrite Permutation_middle.
    + rewrite Ec. apply list_eq. intros j. destruct (decide (j = i)) as [->|].
      * rewrite list_lookup_alter_ne by done. rewrite !list_lookup_insert_eq; try done; rewrite ?length_insert, ?length_alter;
          by eapply lookup_lt_Some.
      * rewrite (list_lookup_insert_ne _ i) by done. destruct (decide (j = self)) as [->|].
        -- rewrite list_lookup_alter_eq, list_lookup_insert_ne by done. rewrite list_lookup_insert_eq; [by rewrite Hme|].
           rewrite length_alter. by eapply lookup_lt_Some.
        -- rewrite list_lookup_alter_ne by done. rewrite !list_lookup_insert_ne by done. by rewrite list_lookup_alter_ne.
  - split; [done| | |split].
    + rewrite Ec. by rewrite length_insert.
    + intros u. rewrite Et, lookup_insert. case_decide; [|done]. subst. by rewrite Ht.
    + eapply cur_thread_other; try done. congruence.
    + intros u Hu. rewrite Et. apply lookup_insert_ne. congruence.
Qed.

(** The victims can be shuffled. *)
Lemma full_perm s self vs vs' : vs ≡ₚ vs' -> sched_inv (full s self vs) -> sched_inv (full s self vs').
Proof.
  intros Hp. apply sched_perm; [done..|]. intros i. unfold full. ored. destruct (decide (i = self)) as [->|].
  - rewrite !list_lookup_alter_eq. destruct (o_cpus s !! self); constructor. unfold same_cpu. cbn. by rewrite Hp.
  - rewrite !list_lookup_alter_ne by done. destruct (o_cpus s !! i); by constructor.
Qed.

(** A victim is a ready thread. *)
Lemma full_thread s self t vs : sched_inv (full s self vs) -> is_Some (o_cpus s !! self) -> t ∈ vs -> is_Some (o_threads s !! t).
Proof.
  intros I [me Hme] Hin. destruct (proj1 (si_place _ I t (Queued self))) as (th & Ht & _); [|by eexists].
  exists (with_c_runqueue (c_runqueue me ++ vs) me). unfold full. ored. rewrite list_lookup_alter_eq, Hme.
  split; [done|]. apply elem_of_app. by right.
Qed.
End Send.

Section Loops.
Context {P : Platform} {L : PlatformLaws P}.
Implicit Types (s : os).

(** What the inner loop leaves: [left] and [n'] are what remains of the
    victims and of the number to send. *)
Record sent_to s s' (self i : nat) (c : cpu) (share : Z) (vs : list nat) (n : nat) (left : list nat) (n' : nat) : Prop := {
  st_inv : sched_inv (full s' self left);
  st_frame : framed s s';
  st_others : forall j, j <> i -> o_cpus s' !! j = o_cpus s !! j;
  st_queue : exists c' sent, o_cpus s' !! i = Some c' /\ grown share sent c c' /\ (n' + length sent <= n)%nat /\
               (n' = O \/ share <= Z.of_nat (length (c_runqueue c'))) /\ (length left + length sent = length vs)%nat;
  st_left : (n' <= length left)%nat /\ forall t, t ∈ left -> t ∈ vs;
  st_all : (forall t, cur_thread s = Some t -> t ∉ vs) -> (length left + n = length vs + n')%nat;
}.

Lemma send_to_spec self i share vs n s c :
  sched_inv (full s self vs) -> o_curcpu s = Some self -> is_Some (o_cpus s !! self) -> i <> self ->
  o_cpus s !! i = Some c -> (n <= length vs)%nat ->
  wp (send_to i share vs n) (fun r s' => sent_to s s' self i c share vs n r.1 r.2) s.
Proof.
  revert vs s c. induction n as [|n IH]; intros vs s c I Hs Hme Hne Hc Hn; cbn [send_to].
  { apply wp_ret. cbn. split; [done | apply framed_refl | done | | split; [lia|done] | intros; lia].
    exists c, []. split; [done|]. split; [|cbn; lia]. by unfold grown; rewrite app_nil_r. }
  step. eapply wp_cpu_at; [done|]. destruct (Z.ltb_spec (Z.of_nat (length (c_runqueue c))) share) as [Hlt|Hge].
  2:{ apply wp_ret. cbn. split; [done | apply framed_refl | done | | split; [lia|done] | intros; lia].
      exists c, []. split; [done|]. split; [by unfold grown; rewrite app_nil_r|]. cbn. lia. }
  destruct vs as [|t vs]; [cbn in Hn; lia|]. cbn in Hn. step. apply wp_gets. destruct (decide (cur_thread s = Some t)) as [Hcur|Hcur].
  - eapply wp_mono; [apply IH; try done; [eapply full_perm; [|done]; by rewrite Permutation_app_comm | rewrite length_app; cbn; lia]|].
    intros [left n'] s' [S1 S2 S3 (c' & sent & S4 & S5 & S6 & S7 & S8) [S9 S10] S11]. cbn in *. split; try done.
    + exists c', sent. split; [done|]. split; [done|]. rewrite length_app in S8. cbn in *. lia.
    + split; [done|]. intros u Hu%S10. rewrite elem_of_app, list_elem_of_singleton in Hu. rewrite elem_of_cons. tauto.
    + intros Hnc. destruct (Hnc t Hcur). left.
  - destruct (full_thread _ _ t _ I Hme) as [th Ht]; [left|].
    step. eapply wp_thread_upd; [done|]. step. eapply wp_cpu_upd; [done|]. step.
    assert (Hli : (i < length (o_cpus s))%nat) by by eapply lookup_lt_Some.
    assert (Hgo : forall s1 c1, enqueued t c c1 -> o_threads s1 = <[t := with_t_cpu (Some i) th]> (o_threads s) ->
      o_cpus s1 = <[i := c1]> (o_cpus s) -> o_k s1 = o_k s -> o_procs s1 = o_procs s -> o_wchans s1 = o_wchans s ->
      o_curcpu s1 = o_curcpu s ->
      wp (send_to i share vs n) (fun r s' => sent_to s s' self i c share (t :: vs) (S n) r.1 r.2) s1).
    { intros s1 c1 Hc1 Et Ec E1 E2 E3 E4.
      destruct (send_one s s1 self i c c1 t th vs) as [I1 F1]; try done.
      assert (Hc1' : o_cpus s1 !! i = Some c1) by (rewrite Ec; by apply list_lookup_insert_eq).
      eapply wp_mono; [apply (IH vs s1 c1); try done; [congruence | rewrite Ec; by rewrite list_lookup_insert_ne | lia]|].
      intros [left n'] s' [S1 S2 S3 (c' & sent & S4 & (G1 & G2 & G3 & G4 & G5) & S6 & S7 & S8) [S9 S10] S11]. cbn in *.
      destruct Hc1 as (Q1 & Q2 & Q3 & Q4). split; try done.
      - by eapply framed_trans.
      - intros j Hj. rewrite S3, Ec by done. by apply list_lookup_insert_ne.
      - exists c', (t :: sent). split; [done|]. split; [|cbn; lia]. split; [congruence|]. split; [congruence|].
        split; [congruence|]. split; [rewrite G4, Q4; by rewrite <- app_assoc|]. intros _.
        destruct sent; [|by apply G5]. rewrite G4, Q4, !length_app. cbn. lia.
      - split; [done|]. intros u Hu%S10. by right.
      - intros Hnc. destruct F1 as [_ _ _ [Fc _]]. rewrite Fc in S11.
        assert (length left + n = length vs + n')%nat; [apply S11|cbn; lia]. intros u Hu Hin. apply (Hnc u Hu). by right. }
    destruct (c_isidle c) eqn:Eid.
    + unfold ipi_send. step. pose proof ipi_unidle_range. apply wp_kassert; [lia|].
      eapply wp_cpu_upd; [by apply list_lookup_insert_eq|].
      set (c2 := with_c_ipi _ _ _). apply (Hgo _ c2); try done. unfold set_cpus, set_threads. ored.
      by rewrite list_insert_insert_eq.
    + apply wp_ret. set (c2 := with_c_runqueue _ _). by apply (Hgo _ c2).
Qed.

(** How many threads the processors [is_] could take. *)
Definition queue_space s (self : nat) (share : Z) (is_ : list nat) : nat :=
  sum_list ((fun i => if (i =? self)%nat then O
                      else match o_cpus s !! i with
                           | Some c => Z.to_nat (share - Z.of_nat (length (c_runqueue c)))
                           | None => O
                           end) <$> is_).

Lemma queue_space_ext s s' self share is_ : (forall i, i ∈ is_ -> i <> self -> o_cpus s' !! i = o_cpus s !! i) -> queue_space s' self share is_ = queue_space s self share is_.
Proof.
  induction is_ as [|i is_ IH]; intros H; [done|]. unfold queue_space in *. cbn.
  rewrite IH; [|intros j Hj; apply H; by right]. destruct (Nat.eqb_spec i self); [done|]. by rewrite (H i) by (left || done).
Qed.

(** The length of the run queues of the first [m] processors. *)
Definition queued (l : list cpu) (m : nat) : nat := sum_list ((fun c => length (c_runqueue c)) <$> take m l).

Lemma queue_space_enough s self me share m : 0 <= share -> o_cpus s !! self = Some me -> (m <= length (o_cpus s))%nat ->
  share * Z.of_nat m <= Z.of_nat (queued (o_cpus s) m) + Z.of_nat (queue_space s self share (seq 0 m)) +
    (if (self <? m)%nat then share - Z.of_nat (length (c_runqueue me)) else 0).
Proof.
  intros Hs Hme. induction m as [|m IH]; intros Hm; [cbn; lia|]. specialize (IH ltac:(lia)).
  destruct (lookup_lt_is_Some_2 (o_cpus s) m) as [c Hc]; [lia|].
  unfold queued, queue_space in *. rewrite (take_S_r _ _ c Hc), seq_S, !fmap_app.
  rewrite !sum_list_with_app. cbn [fmap list_fmap sum_list_with id Nat.add]. rewrite Hc.
  destruct (Nat.eqb_spec m self) as [->|Hne].
  - simplify_eq. rewrite Nat.ltb_irrefl in IH. rewrite (proj2 (Nat.ltb_lt self (S self))) by lia. lia.
  - assert (E : (self <? S m)%nat = (self <? m)%nat).
    { destruct (Nat.ltb_spec self (S m)), (Nat.ltb_spec self m); lia. }
    rewrite E. lia.
Qed.

Record sent_all s s' (self : nat) (share : Z) (is_ vs : list nat) (n : nat) (left : list nat) : Prop := {
  sa_inv : sched_inv (full s' self left);
  sa_frame : framed s s';
  sa_cpus : forall j c, o_cpus s !! j = Some c -> exists c' sent, o_cpus s' !! j = Some c' /\ grown share sent c c';
  sa_others : forall j, j = self \/ j ∉ is_ -> o_cpus s' !! j = o_cpus s !! j;
  sa_left : (length left <= length vs)%nat;
  sa_all : (forall t, cur_thread s = Some t -> t ∉ vs) -> n = length vs -> (n <= queue_space s self share is_)%nat -> left = [];
}.

Lemma sent_all_refl s self share is_ vs n :
  sched_inv (full s self vs) -> (n = O \/ is_ = []) -> sent_all s s self share is_ vs n vs.
Proof.
  intros I Hn. split; [done | apply framed_refl | | done | done |].
  - intros j c Hc. exists c, []. split; [done|]. by unfold grown; rewrite app_nil_r.
  - intros _ E Hr. destruct vs; [done|]. destruct Hn as [->| ->]; cbn in *; lia.
Qed.

Lemma send_all_spec self share is_ vs n s :
  sched_inv (full s self vs) -> o_curcpu s = Some self -> is_Some (o_cpus s !! self) ->
  NoDup is_ -> (forall i, i ∈ is_ -> is_Some (o_cpus s !! i)) -> (n <= length vs)%nat ->
  wp (send_all self is_ share vs n) (fun left s' => sent_all s s' self share is_ vs n left) s.
Proof.
  revert vs n s. induction is_ as [|i is_ IH]; intros vs n s I Hs Hme Hnd Hall Hn; cbn [send_all].
  { apply wp_ret. apply sent_all_refl; [done | by right]. }
  apply NoDup_cons in Hnd as [Hi Hnd]. destruct n as [|n]; [apply wp_ret; apply sent_all_refl; [done | by left]|].
  destruct (Nat.eqb_spec i self) as [->|Hne].
  - eapply wp_mono; [apply IH; try done; intros j Hj; apply Hall; by right|].
    intros left s' [S1 S2 S3 S4 S5 S6]. split; try done.
    + intros j Hj. apply S4. rewrite elem_of_cons in Hj. tauto.
    + intros H1 H2 H3. apply S6; [done..|]. unfold queue_space in *. cbn in H3. by rewrite Nat.eqb_refl in H3.
  - destruct (Hall i) as [c Hc]; [left|]. step.
    eapply wp_mono; [by apply (send_to_spec self i share vs (S n) s c)|].
    intros [left n'] s1 [T1 T2 T3 (c' & sent & T4 & T5 & T6 & T7 & T8) [T9 T10] T11]. cbn [fst snd] in *.
    pose proof T2 as [(_ & _ & _ & Ecc) _ _ [Ecur _]].
    eapply wp_mono; [apply (IH left n' s1); try done; [congruence | by rewrite T3 | ]|].
    { intros j Hj. rewrite T3 by congruence. apply Hall. by right. }
    intros left' s' [S1 S2 S3 S4 S5 S6]. split; try done.
    + by eapply framed_trans.
    + intros j x Hx. destruct (decide (j = i)) as [->|Hj].
      * simplify_eq. exists c', sent. split; [|done]. by rewrite S4 by by right.
      * apply S3. by rewrite T3.
    + intros j Hj. rewrite S4, T3; [done| |].
      * intros ->. destruct Hj as [?|Hj]; [done|]. apply Hj. left.
      * rewrite elem_of_cons in Hj. tauto.
    + lia.
    + intros H1 H2 H3. specialize (T11 H1). apply S6.
      * intros t Ht Hin%T10. rewrite Ecur in Ht. by apply (H1 t).
      * lia.
      * rewrite (queue_space_ext s); [|intros j Hj _; apply T3; congruence]. unfold queue_space in *. cbn in H3.
        rewrite (proj2 (Nat.eqb_neq i self)) in H3 by done. rewrite Hc in H3. destruct T5 as (_ & _ & _ & Eq & _).
        destruct T7 as [->|T7]; [lia|]. rewrite Eq, length_app in T7. lia.
Qed.
End Loops.

Section Consider.
Context {P : Platform} {L : PlatformLaws P}.
Implicit Types (s : os).

Lemma divroundup_bound a b : 0 <= a -> 0 < b -> 0 <= DIVROUNDUP a b /\ a <= DIVROUNDUP a b * b.
Proof.
  intros Ha Hb. rewrite divroundup by done. split; [apply Z.div_pos; lia|].
  pose proof (Z.div_mod (a + b - 1) b ltac:(lia)). pose proof (Z.mod_pos_bound (a + b - 1) b Hb). nia.
Qed.

(** The threads that found no place come back to the queue. *)
Lemma migrated s self me kept victims share left s1 s2 is_ n :
  o_curcpu s = Some self -> o_cpus s !! self = Some me -> s1 = set_cpus (<[self := with_c_runqueue kept me]>) s ->
  sent_all s1 s2 self share is_ victims n left ->
  let s' := set_cpus (<[self := with_c_runqueue (kept ++ left) me]>) s2 in
  sched_inv s' /\ framed s s' /\
  (forall j c, j <> self -> o_cpus s !! j = Some c -> exists c' sent, o_cpus s' !! j = Some c' /\ grown share sent c c') /\
  o_cpus s' !! self = Some (with_c_runqueue (kept ++ left) me).
Proof.
  intros Hs Hme -> [S1 S2 S3 S4 S5 S6] s'. set (s1 := set_cpus _ s) in *.
  assert (Hlt : (self < length (o_cpus s))%nat) by by eapply lookup_lt_Some.
  assert (Hself1 : o_cpus s1 !! self = Some (with_c_runqueue kept me)) by by apply list_lookup_insert_eq.
  assert (Hcur1 : cur_thread s1 = cur_thread s).
  { unfold cur_thread, cur_cpu. cbn. rewrite Hs. cbn. by rewrite list_lookup_insert_eq, Hme. }
  assert (Hself2 : o_cpus s2 !! self = Some (with_c_runqueue kept me)) by (rewrite S4; [done | by left]).
  assert (E : forall i, o_cpus s' !! i = o_cpus (full s2 self left) !! i).
  { intros i. unfold s', full. ored. destruct (decide (i = self)) as [->|].
    - rewrite list_lookup_insert_eq, list_lookup_alter_eq, Hself2 by (by eapply lookup_lt_Some). done.
    - by rewrite list_lookup_insert_ne, list_lookup_alter_ne. }
  assert (Hself' : o_cpus s' !! self = Some (with_c_runqueue (kept ++ left) me)) by (rewrite E; unfold full; ored; by rewrite list_lookup_alter_eq, Hself2).
  split; [|split; [|split; [|done]]].
  - apply (sched_ext (full s2 self left)); [done..| |done]. intros i. by rewrite E.
  - destruct S2 as [(F1 & F2 & F3 & F4) F5 F6 [F7 F8]].
    assert (Hc' : cur_thread s' = cur_thread s).
    { rewrite <- Hcur1, <- F7. assert (E2 : o_curcpu s2 = Some self) by (rewrite F4; done).
      assert (E3 : o_curcpu s' = Some self) by exact E2.
      unfold cur_thread, cur_cpu. rewrite E2, E3. cbn [mbind option_bind]. by rewrite Hself', Hself2. }
    split; [done| |done|].
    + unfold s'. ored. rewrite length_insert, F5. unfold s1. ored. by rewrite length_insert.
    + split; [done|]. intros t Ht. apply (F8 t). by rewrite Hcur1.
  - intros j c Hj Hc. assert (Hc1 : o_cpus s1 !! j = Some c) by (unfold s1; ored; by rewrite list_lookup_insert_ne).
    destruct (S3 j c Hc1) as (c' & sent & Hc' & Hg). exists c', sent.
    split; [|done]. rewrite E. unfold full. ored. by rewrite list_lookup_alter_ne.
Qed.

(** The fair share for a count of [total] threads. *)
Definition share_of s (total : nat) : Z := DIVROUNDUP (Z.of_nat total) (Z.of_nat (length (o_cpus s))).

(** What moving threads does with counts that may be out of date. *)
Definition moved s self me (my total : nat) s' : Prop :=
  sched_inv s' /\ framed s s' /\
  (forall j c, j <> self -> o_cpus s !! j = Some c ->
     exists c' sent, o_cpus s' !! j = Some c' /\ grown (share_of s total) sent c c') /\
  exists me', o_cpus s' !! self = Some me' /\ (length (c_runqueue me') <= length (c_runqueue me))%nat /\
    ((forall t, cur_thread s = Some t -> t ∉ c_runqueue me) -> my = length (c_runqueue me) ->
     total = sum_list ((fun c => length (c_runqueue c)) <$> o_cpus s) -> Z.of_nat (length (c_runqueue me')) <= share_of s total).

Lemma migrate_spec s self me my total :
  sched_inv s -> o_curcpu s = Some self -> o_cpus s !! self = Some me -> (my <= length (c_runqueue me))%nat ->
  wp (migrate my total) (fun _ s' => moved s self me my total s') s.
Proof.
  intros I Hs Hme Hmy. assert (Hlt : (self < length (o_cpus s))%nat) by by eapply lookup_lt_Some.
  unfold migrate, curcpu_self. steps. eapply wp_deref; [done|]. steps. fold (share_of s total). set (share := share_of s total).
  destruct (divroundup_bound (Z.of_nat total) (Z.of_nat (length (o_cpus s)))) as [Hs0 Hs1]; [lia..|].
  fold (share_of s total) in Hs0, Hs1. fold share in Hs0, Hs1.
  destruct (Z.ltb_spec (Z.of_nat my) share) as [Hsm|Hge].
  { apply wp_ret. split; [done|]. split; [apply framed_refl|]. split; [|exists me; split; [done|]; split; [done | fold share; lia]].
    intros j c _ Hc. exists c, []. split; [done|]. by unfold grown; rewrite app_nil_r. }
  step. eapply wp_cpu_at; [done|]. set (q := length (c_runqueue me)) in *.
  set (n := Z.to_nat (Z.of_nat my - share)). set (kept := take (q - n) (c_runqueue me)).
  set (victims := drop (q - n) (c_runqueue me)).
  assert (Hkv : c_runqueue me = kept ++ victims) by (symmetry; apply take_drop).
  assert (Hlv : length victims = n) by (unfold victims; rewrite length_drop; fold q; lia).
  assert (Hlk : length kept = (q - n)%nat) by (unfold kept; rewrite length_take; fold q; lia).
  step. eapply wp_cpu_upd; [done|]. set (s1 := set_cpus _ s).
  assert (Hself1 : o_cpus s1 !! self = Some (with_c_runqueue kept me)) by by apply list_lookup_insert_eq.
  assert (Hother1 : forall j, j <> self -> o_cpus s1 !! j = o_cpus s !! j) by (intros; by apply list_lookup_insert_ne).
  assert (Hcur1 : cur_thread s1 = cur_thread s).
  { unfold cur_thread, cur_cpu. cbn. rewrite Hs. cbn. by rewrite list_lookup_insert_eq, Hme. }
  assert (I1 : sched_inv (full s1 self victims)).
  { apply (sched_ext s); [done..| |done]. intros i. unfold full. ored. destruct (decide (i = self)) as [->|].
    - rewrite list_lookup_alter_eq, Hself1, Hme. cbn. by rewrite Hkv.
    - by rewrite list_lookup_alter_ne, Hother1. }
  step. eapply wp_mono; [apply (send_all_spec self share _ victims n s1); try done|].
  - apply NoDup_seq.
  - intros i Hi%elem_of_seq. apply lookup_lt_is_Some. unfold s1. ored. rewrite length_insert. lia.
  - lia.
  - intros left s2 Hsent. eapply wp_cpu_upd; [rewrite (sa_others _ _ _ _ _ _ _ _ Hsent); [done | by left]|].
    destruct (migrated s self me kept victims share left s1 s2 _ _ Hs Hme eq_refl Hsent) as (R1 & R2 & R3 & R4).
    split; [done|]. split; [done|]. split; [done|]. destruct Hsent as [_ _ _ _ S5 S6].
    exists (with_c_runqueue (kept ++ left) me). split; [done|]. ored. rewrite length_app. split; [lia|].
    intros Hnc Emy Etot. fold share. rewrite S6; [cbn; lia| |done|].
    + intros t Ht Hin. rewrite Hcur1 in Ht. apply (Hnc t Ht). rewrite Hkv. apply elem_of_app. by right.
    + rewrite (queue_space_ext s s1) by auto. pose proof (queue_space_enough s self me share (length (o_cpus s)) Hs0 Hme ltac:(lia)) as Hr.
      unfold queued in Hr. rewrite firstn_all in Hr. rewrite (proj2 (Nat.ltb_lt _ _)) in Hr by done. fold q in Hr. lia.
Qed.

Lemma migration_spec s self me :
  sched_inv s -> o_curcpu s = Some self -> o_cpus s !! self = Some me ->
  wp thread_consider_migration (fun _ s' => moved s self me (length (c_runqueue me))
    (sum_list ((fun c => length (c_runqueue c)) <$> o_cpus s)) s') s.
Proof.
  intros I Hs Hme. unfold thread_consider_migration, count_threads, curcpu_self. steps. eapply wp_deref; [done|]. step.
  eapply wp_cpu_at; [done|]. steps. cbn [fst snd]. by eapply migrate_spec.
Qed.

(** C16. Migration.  [thread_consider_migration] counts the queued threads and
    then moves threads of the current processor by these counts.  Whatever
    the counts are, as long as the current queue has not shrunk, moving keeps
    the scheduler's invariant and loses no thread: threads only change
    processor (and the current thread not even that), a queue of another
    processor is only extended, at its end and only up to the fair share of
    the total counted, so that one that is longer stays as it is, and what
    finds no place goes back to the current processor, whose queue is not
    longer than before.  When the counts are up to date, as they are when
    nothing happens in between, and the current thread is not itself queued,
    nothing is left over: the current processor ends with at most the fair
    share. *)
Theorem migration_balances s self me :
  sched_inv s -> o_curcpu s = Some self -> o_cpus s !! self = Some me ->
  (forall my total, (my <= length (c_runqueue me))%nat -> wp (migrate my total) (fun _ s' => moved s self me my total s') s) /\
  wp thread_consider_migration (fun _ s' => moved s self me (length (c_runqueue me))
    (sum_list ((fun c => length (c_runqueue c)) <$> o_cpus s)) s') s.
Proof. intros I Hs Hme. split; [|by apply migration_spec]. intros my total Hmy. by apply migrate_spec. Qed.
End Consider.
