(* ===== verification/Isolation.v ===== *)
(** Several processes in one memory: each sees its own flat memory, whatever
    the others do and however the processor is switched between them. *)

From Stdlib Require Import ZArith Lia.
From stdpp Require Import base list gmap strings.
From S2P Require Import Prelude Platform State Synch VmStats Tlb LoadSegment Swap Coremap Frames.
From S2P Require Import Paging Segments VmFault AddrSpace Runs Boot Os Proc Thread Sched Switch Migrate.
Local Open Scope Z_scope.

(** ** Processes that share the memory *)

Section Memory.
Context {P : Platform} {L : PlatformLaws P}.
Implicit Types (k : kernel).

(** A process: its address space at some earlier time, the pages whose
    contents are determined, and the flat memory it sees. *)
Record pview := mk_pview { pv_as : addrspace; pv_pages : nat -> Prop; pv_mem : memory }.
Definition with_mem (mem : memory) (w : pview) : pview := mk_pview (pv_as w) (pv_pages w) mem.

(** Address space [a] holds the memory of [w].  It has a page in memory, so
    that it need not take a frame from another process. *)
Record memory_of k (v : vnode) (st : gmap Z page) (a : asid) (w : pview) : Prop := {
  mo_as : exists l, k_as k !! a = Some (with_pt l (pv_as w)) /\
    (fun e => (pte_vaddr e, pte_rwx e)) <$> l = (fun e => (pte_vaddr e, pte_rwx e)) <$> pt (pv_as w);
  mo_lock : pt_lock (pv_as w) = None;
  mo_wf : as_wf (pv_as w);
  mo_file : as_v (pv_as w) <> v;
  mo_page : exists j e, pte_at (tables_of k) a j = Some e /\ pte_in_mem e = true;
  mo_holds : holds k st a (pv_as w) (pv_pages w) (pv_mem w);
}.

Record shared k (b : bitmap) (v : vnode) (st : gmap Z page) (fam : gmap asid pview) : Prop := {
  sh_inv : vm_inv k b v st None;
  sh_quiet : quiet k;
  sh_device : swap_writes_ok v (bitmap_nbits b);
  sh_room : Z.of_nat (capacity (length <$> tables_of k)) <= bitmap_nbits b;
  sh_each : forall a w, fam !! a = Some w -> memory_of k v st a w;
}.

Lemma shared_running k b v st fam a w :
  shared k b v st fam -> fam !! a = Some w -> k_curproc k = Some (Some a) ->
  running k b v st a (pv_as w) (pv_pages w) (pv_mem w).
Proof.
  intros [H1 H2 H3 H4 H5] Hw Hcur. destruct (H5 a w Hw) as [M1 M2 M3 M4 (j & e & Hp & Hm) M6]. split; try done. right.
  destruct (resident_frame _ _ _ _ _ _ _ _ (vi_frames _ _ _ _ _ H1) Hp Hm) as (i & Hi & _). by exists i.
Qed.

(** The memory that the current process runs in is one of them. *)
Lemma running_shared k b v st a w mem k' b' st' fam j e :
  shared k b v st fam -> fam !! a = Some w -> running k' b' v st' a (pv_as w) (pv_pages w) mem ->
  pte_at (tables_of k') a j = Some e -> pte_in_mem e = true ->
  (forall a' w', a' <> a -> fam !! a' = Some w' -> memory_of k' v st' a' w') ->
  shared k' b' v st' (<[a := with_mem mem w]> fam).
Proof.
  intros Hsh Hw [R1 R2 R3 R4 R5 R6 R7 R8 R9 R10 R11] Hp Hm Ho. split; try done.
  intros a' w'. rewrite lookup_insert. destruct (decide (a = a')) as [<-|Hne]; [|intros Hw'; by apply Ho].
  intros [= <-]. split; try done. by exists j, e.
Qed.

(** Another process does not notice a fault. *)
Lemma memory_of_accessed k b v st a k' b' st' a' w :
  accessed k b v st a k' b' st' -> a' <> a -> memory_of k v st a' w -> memory_of k' v st' a' w.
Proof.
  intros [(-> & -> & ->)|(A & j & e & p & pg & seg & last & x & sw & free & _ & Hs)] Hne; [done|].
  pose proof (sv_others_as _ _ _ _ _ _ _ _ _ _ _ _ _ _ _ _ _ _ Hs a' Hne) as Ea.
  assert (Et : forall j e, pte_at (tables_of k') a' j = Some e <-> pte_at (tables_of k) a' j = Some e).
  { intros j0 e0. rewrite !pte_at_tables, Ea. done. }
  intros [M1 M2 M3 M4 (j1 & e1 & Hp & Hm) M6]. split; try done; [by rewrite Ea | exists j1, e1; by rewrite Et|].
  intros j0 e0 HD H0. rewrite Et in H0. destruct (M6 j0 e0 HD H0) as (Hlen & Hd & Hro). split; [done|].
  pose proof (sv_disk _ _ _ _ _ _ _ _ _ _ _ _ _ _ _ _ _ _ Hs) as Hdisk.
  assert (Hpd : page_data (k_mem k') st' e0 = page_data (k_mem k) st e0).
  { destruct (sv_others _ _ _ _ _ _ _ _ _ _ _ _ _ _ _ _ _ _ Hs a' j0 e0 ltac:(tauto) H0) as (e' & H' & _ & _ & _ & Hk).
    apply Et in H'. rewrite H0 in H'. injection H' as <-. destruct Hk as [Hk|(_ & Hm0 & Hk)]; [done|].
    unfold page_data in Hk. by rewrite Hm0 in Hk. }
  rewrite Hpd. split; [|intros Hw; eapply fresh_contents_disk; eauto].
  destruct (page_data (k_mem k) st e0); [done|]. by eapply fresh_contents_disk.
Qed.

(** Nor a store. *)
Lemma memory_of_store k b v st a j e a' w off c :
  vm_inv k b v st None -> pte_at (tables_of k) a j = Some e -> pte_in_mem e = true -> Z.of_nat off < PAGE_SIZE -> a' <> a ->
  memory_of k v st a' w -> memory_of (set_mem (fun m => mem_write m (pte_paddr e + Z.of_nat off) [c]) k) v st a' w.
Proof.
  intros Hinv Hp Hm Hoff Hne [M1 M2 M3 M4 M5 M6]. split; try done. intros j0 e0 HD H0.
  change (pte_at (tables_of k) a' j0 = Some e0) in H0. kred. cbv beta.
  rewrite (store_elsewhere k b v st a j e a' j0 e0) by (done || tauto). by apply M6.
Qed.

Lemma accessed_view k b v st a k' b' st' : accessed k b v st a k' b' st' -> k_curproc k' = k_curproc k /\ k_cpu k' = k_cpu k.
Proof.
  intros [(-> & _)|(A & j & e & p & pg & seg & last & x & sw & free & _ & Hs)]; [done|]. split; apply Hs.
Qed.

(** One access of the current process. *)
Lemma access_shared k b v st fam a w x :
  shared k b v st fam -> fam !! a = Some w -> k_curproc k = Some (Some a) -> allowed (pv_as w) (pv_pages w) x ->
  wp (run (pv_as w) [x]) (fun out k' => out = (flat_run (pv_mem w) [x]).1 /\ k_curproc k' = k_curproc k /\ k_cpu k' = k_cpu k /\
    exists b' st', shared k' b' v st' (<[a := with_mem (flat_run (pv_mem w) [x]).2 w]> fam)) k.
Proof.
  intros Hsh Hw Hcur Hx. pose proof (shared_running _ _ _ _ _ _ _ Hsh Hw Hcur) as Hrun.
  assert (Hothers : forall a' w' k' b' st', accessed k b v st a k' b' st' -> a' <> a -> fam !! a' = Some w' -> memory_of k' v st' a' w').
  { intros a' w' k' b' st' Hacc Hne Hw'. eapply memory_of_accessed; [done..|]. by apply (sh_each _ _ _ _ _ Hsh). }
  destruct x as [j off|j off c]; cbn [run flat_run fst snd].
  - destruct Hx as (HD & Hoff & e & He). rewrite (vaddr_of_page _ _ _ _ He). unfold user_load. steps.
    eapply wp_mono; [eapply (run_access _ _ _ _ _ _ _ _ false); [done | done | lia | done]|].
    intros pa k1 (b1 & st1 & e1 & Hrun1 & Hp1 & Hm1 & _ & -> & Hacc). steps. destruct (accessed_view _ _ _ _ _ _ _ _ Hacc).
    split; [|split; [done|]; split; [done|]; exists b1, st1; by eapply running_shared; eauto].
    f_equal. rewrite <- (running_resident _ _ _ _ _ _ _ _ _ _ Hrun1 HD Hp1 Hm1). by rewrite mem_read_lookup by lia.
  - destruct Hx as (HD & Hoff & e & He & Hwr). rewrite (vaddr_of_page _ _ _ _ He). unfold user_store. steps.
    eapply wp_mono; [eapply (run_access _ _ _ _ _ _ _ _ true); [done | done | lia | done]|].
    intros pa k1 (b1 & st1 & e1 & Hrun1 & Hp1 & Hm1 & Hw1 & -> & Hacc). steps. destruct (accessed_view _ _ _ _ _ _ _ _ Hacc).
    split; [done|]. split; [done|]. split; [done|]. exists b1, st1.
    eapply running_shared; [done | done | by apply running_store; rewrite ?Hw1 | exact Hp1 | done |].
    intros a' w' Hne Hw'. eapply memory_of_store; eauto using rn_inv.
Qed.
End Memory.

(** ** Processes that share the processor *)

Section TimeSharing.
Context {P : Platform} {L : PlatformLaws P}.
Implicit Types (s : os).

(** The address space of the running thread. *)
Definition cur_as s : option asid := (cur_proc s ≫= fun p => o_procs s !! p) ≫= p_addrspace.

(** The rest of a process's program, and what it has loaded so far. *)
Record job := mk_job { jb_as : addrspace; jb_left : list access; jb_out : list Z }.

(** The next access of whoever runs; a kernel thread or a program that has
    ended does nothing. *)
Definition tick (jobs : gmap asid job) : M os (gmap asid job) :=
  let* o := gets cur_as in
  match o with
  | None => ret jobs
  | Some a =>
      match jobs !! a with
      | Some (mk_job A (x :: rest) out) =>
          let* cs := vm (run A [x]) in ret (<[a := mk_job A rest (out ++ cs)]> jobs)
      | _ => ret jobs
      end
  end.

(** What can happen on the processor. *)
Inductive event := Tick | Yield | Sleep (w : nat) | WakeOne (w : nat) | WakeAll (w : nat) | Balance.

Definition handle (e : event) (jobs : gmap asid job) : M os (gmap asid job) :=
  match e with
  | Tick => tick jobs
  | Yield => thread_yield ;; ret jobs
  | Sleep w => wchan_sleep w ;; ret jobs
  | WakeOne w => wchan_wakeone w ;; ret jobs
  | WakeAll w => wchan_wakeall w ;; ret jobs
  | Balance => thread_consider_migration ;; ret jobs
  end.

Fixpoint timeshare (es : list event) (jobs : gmap asid job) : M os (gmap asid job) :=
  match es with
  | [] => ret jobs
  | e :: es => let* jobs := handle e jobs in timeshare es jobs
  end.

Definition on_channel (W : gset nat) (e : event) : Prop :=
  match e with Sleep w | WakeOne w | WakeAll w => w ∈ W | _ => True end.

(** A thread runs, and the processes have their memory. *)
Record timesharing s (b : bitmap) (v : vnode) (st : gmap Z page) (fam : gmap asid pview) (W : gset nat) : Prop := {
  ts_sched : sched_inv s;
  ts_cpu : exists i c cur, o_curcpu s = Some i /\ o_cpus s !! i = Some c /\ c_isidle c = false /\ c_curthread c = Some cur;
  ts_memory : shared (view s) b v st fam;
  ts_wchans : forall w, w ∈ W -> is_Some (o_wchans s !! w);
}.

(** Every job still fits its process. *)
Definition jobs_ok (fam : gmap asid pview) (jobs : gmap asid job) : Prop := forall a j, jobs !! a = Some j ->
  exists w, fam !! a = Some w /\ jb_as j = pv_as w /\ Forall (allowed (pv_as w) (pv_pages w)) (jb_left j).

(** [jobs'] and [fam'] are [jobs] and [fam] after each process has executed
    some more of its program, alone on its flat memory. *)
Definition advanced (fam : gmap asid pview) (jobs : gmap asid job) (fam' : gmap asid pview) (jobs' : gmap asid job) : Prop :=
  (forall a, jobs !! a = None -> jobs' !! a = None /\ fam' !! a = fam !! a) /\
  forall a w j, fam !! a = Some w -> jobs !! a = Some j -> exists ran rest, jb_left j = ran ++ rest /\
    jobs' !! a = Some (mk_job (jb_as j) rest (jb_out j ++ (flat_run (pv_mem w) ran).1)) /\
    fam' !! a = Some (with_mem (flat_run (pv_mem w) ran).2 w).

Lemma flat_run_app mem p1 p2 :
  flat_run mem (p1 ++ p2) = ((flat_run mem p1).1 ++ (flat_run (flat_run mem p1).2 p2).1, (flat_run (flat_run mem p1).2 p2).2).
Proof.
  revert mem. induction p1 as [|[j off|j off c] p1 IH]; intros mem; cbn [app flat_run].
  - cbn [fst snd app]. by destruct (flat_run mem p2).
  - rewrite IH. by destruct (flat_run mem p1).
  - apply IH.
Qed.

Lemma advanced_refl fam jobs : advanced fam jobs fam jobs.
Proof.
  split; [done|]. intros a [A D m] [A' l o] Hw Hj. exists [], l. cbn. by rewrite app_nil_r.
Qed.

Lemma advanced_trans fam jobs fam1 jobs1 fam2 jobs2 :
  advanced fam jobs fam1 jobs1 -> advanced fam1 jobs1 fam2 jobs2 -> advanced fam jobs fam2 jobs2.
Proof.
  intros [N1 S1] [N2 S2]. split.
  - intros a Ha. destruct (N1 a Ha) as [Hj Hf]. destruct (N2 a Hj) as [? ?]. split; [done|congruence].
  - intros a w j Hw Hj. destruct (S1 a w j Hw Hj) as (r1 & l1 & E1 & Hj1 & Hw1).
    destruct (S2 a _ _ Hw1 Hj1) as (r2 & l2 & E2 & Hj2 & Hw2). cbn in *. exists (r1 ++ r2), l2.
    rewrite flat_run_app. cbn [fst snd]. rewrite Hj2, Hw2, app_assoc. split; [|done]. by rewrite E1, E2, <- app_assoc.
Qed.

(** ** One event *)

Lemma view_same s s' : o_k s' = o_k s -> o_procs s' = o_procs s -> o_curcpu s' = o_curcpu s -> cur_thread s' = cur_thread s ->
  cur_proc s' = cur_proc s -> view s' = view s.
Proof. intros E1 E2 E3 E4 E5. unfold view. by rewrite E1, E2, E3, E4, E5. Qed.

Lemma curproc_view s a : cur_as s = Some a <-> k_curproc (view s) = Some (Some a).
Proof.
  unfold cur_as. cbn. destruct (cur_proc s ≫= _) as [x|]; [|done]. cbn. split; [by intros -> | by intros [= ->]].
Qed.

(** The processes do not notice a change of the current process, or of the
    disk but for the contents of files. *)
Lemma shared_env k k' b v st fam : shared k b v st fam -> vm_inv k' b v st None -> quiet k' ->
  k_as k' = k_as k -> k_mem k' = k_mem k -> (forall u off n, VOP_READ u off n (k_disk k') = VOP_READ u off n (k_disk k)) ->
  shared k' b v st fam.
Proof.
  intros [H1 H2 H3 H4 H5] Hinv Hq Ea Em Ed. assert (Et : tables_of k' = tables_of k) by (unfold tables_of; by rewrite Ea).
  split; try done; [by rewrite Et|]. intros a w Hw. destruct (H5 a w Hw) as [M1 M2 M3 M4 M5 M6].
  assert (Hfc : forall j pg, fresh_contents (k_disk k) (pv_as w) j pg -> fresh_contents (k_disk k') (pv_as w) j pg).
  { intros j pg. by apply (fresh_contents_disk _ _ v). }
  split; rewrite ?Ea, ?Et; try done. intros j e HD Hp. rewrite Et in Hp. destruct (M6 j e HD Hp) as (Hl & Hd & Hr). rewrite Em.
  split; [done|]. split; [|auto]. destruct (page_data _ st e); [done | by apply Hfc].
Qed.

Lemma shared_switch k k' b v st fam : shared k b v st fam -> vm_inv k' b v st None -> quiet k' ->
  k_as k' = k_as k -> k_mem k' = k_mem k -> k_disk k' = k_disk k -> shared k' b v st fam.
Proof. intros H Hi Hq Ea Em Ed. eapply shared_env; [done..|]. by rewrite Ed. Qed.

Section Events.
Context (s : os) (b : bitmap) (v : vnode) (st : gmap Z page) (fam : gmap asid pview) (W : gset nat).
Hypothesis (HT : timesharing s b v st fam W).

Lemma ts_current : exists i c cur th, o_curcpu s = Some i /\ o_cpus s !! i = Some c /\ c_isidle c = false /\
  c_curthread c = Some cur /\ o_threads s !! cur = Some th /\ at_place s cur (Running i) /\ cur_thread s = Some cur.
Proof using HT.
  destruct (ts_cpu _ _ _ _ _ _ HT) as (i & c & cur & Hi & Hc & Hid & Hcur). assert (Hat : at_place s cur (Running i)) by by exists c.
  pose proof Hat as (th & Ht & _)%(si_place _ (ts_sched _ _ _ _ _ _ HT)). exists i, c, cur, th.
  do 6 (split; [done|]). unfold cur_thread, cur_cpu. rewrite Hi. cbn. by rewrite Hc.
Qed.

Lemma tick_shared jobs : jobs_ok fam jobs ->
  wp (tick jobs) (fun jobs' s' => exists b' st' fam', timesharing s' b' v st' fam' W /\ jobs_ok fam' jobs' /\
    advanced fam jobs fam' jobs') s.
Proof using HT L.
  intros Hok. assert (Hstay : exists b' st' fam', timesharing s b' v st' fam' W /\ jobs_ok fam' jobs /\ advanced fam jobs fam' jobs).
  { exists b, st, fam. split; [done|]. split; [done|]. apply advanced_refl. }
  unfold tick. steps. destruct (cur_as s) as [a|] eqn:Ea; [|by apply wp_ret].
  destruct (jobs !! a) as [[A [|x rest] out]|] eqn:Ej; [by apply wp_ret| |by apply wp_ret].
  destruct (Hok a _ Ej) as (w & Hw & EA & Hall). cbn in EA, Hall. subst A. apply Forall_cons in Hall as [Hx Hall].
  step. apply wp_vm_keep. eapply wp_mono; [apply (access_shared _ b v st fam a w x); [apply HT | done | by apply curproc_view | done]|].
  intros out1 k1 (-> & E1 & E2 & b1 & st1 & Hsh). split; [by split|]. apply wp_ret. set (w1 := with_mem _ w) in *.
  exists b1, st1, (<[a := w1]> fam). split; [|split].
  - destruct HT as [T1 T2 T3 T4]. split; [by apply (sched_ext s) | done | by rewrite view_set_k | done].
  - intros a' j. rewrite !lookup_insert. destruct (decide (a = a')) as [<-|]; [|apply Hok]. intros [= <-]. by exists w1.
  - split; [intros a' Ha'; by rewrite !lookup_insert_ne by congruence|].
    intros a' w' j' Hw' Hj'. rewrite !lookup_insert. destruct (decide (a = a')) as [<-|].
    + rewrite Hw in Hw'. rewrite Ej in Hj'. injection Hw' as <-. injection Hj' as <-. by exists [x], rest.
    + destruct w' as [A' D' m'], j' as [B' l' o']. exists [], l'. cbn. by rewrite app_nil_r.
Qed.

(** A switch, or the processor idles. *)
Lemma switch_shared newstate wc i c cur th : switching s i c cur th newstate wc ->
  match thread_switch newstate wc s with
  | Done _ s' => timesharing s' b v st fam W
  | Stop r _ => r = Blocked "cpu_idle"
  end.
Proof using HT L.
  intros Hsw. destruct HT as [T1 T2 T3 T4]. destruct (next_queue c cur newstate) as [|next q] eqn:Eq.
  { by destruct (thread_switch_idles s i c cur th newstate wc Hsw Eq) as (s1 & -> & _). }
  pose proof (switch_runs_spec s i c cur th newstate wc next q b v st Hsw Eq (sh_inv _ _ _ _ _ T3) (sh_quiet _ _ _ _ _ T3)) as H.
  unfold wp in H. destruct (thread_switch newstate wc s) as [[] s'|]; [|done].
  destruct H as [S1 [S2 S2'] S3 _ _ _ [S6 S7] (S8 & S9 & _) [S10 S11] S12 _ _]. split; [done| | by eapply shared_switch |].
  - destruct S2' as (c' & Hc' & Hid' & Hcur'). by exists i, c', next.
  - intros w Hw. apply S12. by apply T4.
Qed.

Lemma yield_shared : match thread_yield s with
  | Done _ s' => timesharing s' b v st fam W
  | Stop r _ => r = Blocked "cpu_idle"
  end.
Proof using HT L.
  destruct ts_current as (i & c & cur & th & Hi & Hc & Hid & Hcur & Ht & _ & Hct).
  destruct (decide (c_runqueue c = [])) as [E|E].
  - unfold thread_yield, thread_switch, curcpu_self, curthread_self, cpu_at, gets, deref, bind, ret.
    rewrite Hi, Hct, Hc, Hid. by rewrite decide_True.
  - eapply switch_shared. split; try done. apply HT.
Qed.

Lemma sleep_shared w : w ∈ W -> match wchan_sleep w s with
  | Done _ s' => timesharing s' b v st fam W
  | Stop r _ => r = Blocked "cpu_idle"
  end.
Proof using HT L.
  intros Hw. destruct ts_current as (i & c & cur & th & Hi & Hc & Hid & Hcur & Ht & _).
  unfold wchan_sleep, gets, bind. pose proof (q_lockable _ (sh_quiet _ _ _ _ _ (ts_memory _ _ _ _ _ _ HT))) as Hl.
  change (t_in_interrupt (k_cpu (o_k s)) = false) in Hl. rewrite Hl. cbn [negb kassert ret].
  eapply switch_shared. split; try done; [apply HT|]. exists w. split; [done|]. by apply (ts_wchans _ _ _ _ _ _ HT).
Qed.

(** Waking threads that wait changes nothing for the one that runs. *)
Lemma woken_shared s' w q ts :
  o_wchans s !! w = Some q -> (forall t, t ∈ ts -> t ∈ q) -> sched_inv s' -> woken s s' ts ->
  (forall w', is_Some (o_wchans s !! w') -> is_Some (o_wchans s' !! w')) -> timesharing s' b v st fam W.
Proof using HT L.
  intros Hq Hts I' (E1 & E2 & E3 & Eth & _) Hw'. destruct ts_current as (i & c & cur & th & Hi & Hc & Hid & Hcur & Ht & Hat & Hct).
  assert (Hnot : cur ∉ ts).
  { intros Hin. assert (Hw : at_place s cur (Waiting w)) by (exists q; auto). discriminate (sched_unique _ _ _ _ (ts_sched _ _ _ _ _ _ HT) Hat Hw). }
  assert (Ht' : o_threads s' !! cur = Some th) by (rewrite Eth, decide_False, Ht by done; done).
  assert (Hat' : at_place s' cur (Running i)).
  { apply (si_place _ I'). exists th. split; [done|]. apply (si_place _ (ts_sched _ _ _ _ _ _ HT)) in Hat as (th' & Hth & Hp). congruence. }
  destruct Hat' as (c' & Hc' & Hid' & Hcur').
  assert (Hct' : cur_thread s' = Some cur) by (unfold cur_thread, cur_cpu; rewrite E3, Hi; cbn; by rewrite Hc').
  assert (Ev : view s' = view s).
  { apply view_same; [done..|congruence|]. unfold cur_proc. rewrite Hct, Hct'. cbn. by rewrite Ht, Ht'. }
  split; [done | exists i, c', cur; by rewrite E3 | by rewrite Ev; apply HT|]. intros w0 H0. apply Hw'. by apply (ts_wchans _ _ _ _ _ _ HT).
Qed.

Lemma wake_shared w : w ∈ W ->
  wp (wchan_wakeone w) (fun _ s' => timesharing s' b v st fam W) s /\ wp (wchan_wakeall w) (fun _ s' => timesharing s' b v st fam W) s.
Proof using HT L.
  intros Hw. destruct (ts_wchans _ _ _ _ _ _ HT w Hw) as [q Hq]. destruct ts_current as (i & _ & _ & _ & Hi & _).
  assert (Hins : forall q' w', is_Some (o_wchans s !! w') -> is_Some (<[w := q']> (o_wchans s) !! w')).
  { intros q' w' [x Hx]. rewrite lookup_insert. case_decide; by eexists. }
  destruct (wakeups_spec s w q i (ts_sched _ _ _ _ _ _ HT) Hi Hq) as [H1 H2].
  split.
  - eapply wp_mono; [exact H1|]. intros [] s' (I' & Ew & Hwo). eapply (woken_shared s' w q (take 1 q)); [done| |done|done|].
    + intros t. destruct q; cbn; [done|]. rewrite take_0. intros ->%list_elem_of_singleton. left.
    + intros w'. rewrite Ew. apply Hins.
  - eapply wp_mono; [exact H2|]. intros [] s' (I' & Ew & Hwo). eapply (woken_shared s' w q q); [done..|].
    intros w'. rewrite Ew. apply Hins.
Qed.

Lemma balance_shared : wp thread_consider_migration (fun _ s' => timesharing s' b v st fam W) s.
Proof using HT L.
  destruct ts_current as (i & c & cur & th & Hi & Hc & Hid & Hcur & Ht & Hat & Hct).
  eapply wp_mono; [by eapply (migration_spec s i c); [apply HT|..]|].
  intros [] s' (I' & [(E1 & E2 & E3 & E4) _ _ [E5 E6]] & _). specialize (E6 cur Hct).
  assert (Hat' : at_place s' cur (Running i)).
  { apply (si_place _ I'). exists th. rewrite E6. split; [done|]. apply (si_place _ (ts_sched _ _ _ _ _ _ HT)) in Hat as (th' & Hth & Hp). congruence. }
  destruct Hat' as (c' & Hc' & Hid' & Hcur').
  assert (Ev : view s' = view s).
  { apply view_same; [done..|]. unfold cur_proc. rewrite E5, Hct. cbn. by rewrite E6. }
  split; [done | exists i, c', cur; by rewrite E4 | by rewrite Ev; apply HT | by rewrite E3; apply HT].
Qed.
End Events.

(** Any event, for programs that go on. *)
Lemma handle_shared s b v st fam W e jobs :
  timesharing s b v st fam W -> jobs_ok fam jobs -> on_channel W e ->
  match handle e jobs s with
  | Done jobs' s' => exists b' st' fam', timesharing s' b' v st' fam' W /\ jobs_ok fam' jobs' /\ advanced fam jobs fam' jobs'
  | Stop r _ => r = Blocked "cpu_idle"
  end.
Proof.
  intros HT Hok Hch. assert (Hrest : forall m : M os unit,
    match m s with Done _ s' => timesharing s' b v st fam W | Stop r _ => r = Blocked "cpu_idle" end ->
    match (m ;; ret jobs) s with
    | Done jobs' s' => exists b' st' fam', timesharing s' b' v st' fam' W /\ jobs_ok fam' jobs' /\ advanced fam jobs fam' jobs'
    | Stop r _ => r = Blocked "cpu_idle"
    end).
  { intros m Hm. unfold bind, ret. destruct (m s); [|done]. exists b, st, fam. split; [done|]. split; [done|]. apply advanced_refl. }
  assert (Hdone : forall m : M os unit, wp m (fun _ s' => timesharing s' b v st fam W) s ->
    match m s with Done _ s' => timesharing s' b v st fam W | Stop r _ => r = Blocked "cpu_idle" end).
  { intros m Hm. unfold wp in Hm. by destruct (m s). }
  destruct e as [| |w|w|w|]; cbn [handle].
  - pose proof (tick_shared s b v st fam W HT jobs Hok) as H. unfold wp in H. by destruct (tick jobs s).
  - apply Hrest. by apply yield_shared.
  - apply Hrest. by apply sleep_shared.
  - apply Hrest, Hdone. by apply (wake_shared s b v st fam W HT w).
  - apply Hrest, Hdone. by apply (wake_shared s b v st fam W HT w).
  - apply Hrest, Hdone. by apply balance_shared.
Qed.

(** C2. Processes are isolated.  The processor is shared by any number of
    processes, each with a program of loads and stores, and by kernel
    threads.  Whatever sequence of events happens (accesses of the running
    process with the page faults they take, voluntary and involuntary context
    switches, sleeping, wake-ups, migration), nothing panics, and every
    process has executed a part of its program and has loaded exactly what it
    would have loaded alone, on a flat memory of its own; its memory now
    holds what that flat memory holds.  The scheduler and the paging system
    stay in order.  Only when no thread is left to run does the processor
    stop, idling. *)
Theorem processes_isolated s b v st fam W jobs es :
  timesharing s b v st fam W -> jobs_ok fam jobs -> Forall (on_channel W) es ->
  match timeshare es jobs s with
  | Done jobs' s' => exists b' st' fam', timesharing s' b' v st' fam' W /\ advanced fam jobs fam' jobs'
  | Stop r _ => r = Blocked "cpu_idle"
  end.
Proof.
  revert s b st fam jobs. induction es as [|e es IH]; intros s b st fam jobs HT Hok Hall.
  - exists b, st, fam. split; [done|]. apply advanced_refl.
  - apply Forall_cons in Hall as [He Hall]. pose proof (handle_shared s b v st fam W e jobs HT Hok He) as H.
    cbn [timeshare]. unfold bind. destruct (handle e jobs s) as [jobs1 s1|]; [|done].
    destruct H as (b1 & st1 & fam1 & HT1 & Hok1 & Ha1). specialize (IH s1 b1 st1 fam1 jobs1 HT1 Hok1 Hall).
    destruct (timeshare es jobs1 s1) as [jobs2 s2|]; [|done]. destruct IH as (b2 & st2 & fam2 & HT2 & Ha2).
    exists b2, st2, fam2. split; [done|]. by eapply advanced_trans.
Qed.
End TimeSharing.
