(* ===== verification/Copy.v ===== *)
(** The copy of an address space ([as_copy] of [vm/addrspace.c]): the child
    of a fork sees the memory of its parent, in frames of its own. *)

From Stdlib Require Import ZArith Lia.
From stdpp Require Import base list gmap strings.
From S2P Require Import Prelude Platform State Synch VmStats Tlb LoadSegment Swap Coremap Frames.
From S2P Require Import Paging Segments VmFault Runs AddrSpace KernelPages Regions Lifecycle Boot.
From S2P Require Import Os Proc Thread Sched Switch Migrate Isolation.
Local Open Scope Z_scope.

(** ** Counting free frames *)

Section Free.
Context {P : Platform} {L : PlatformLaws P}.
Implicit Types (c : coremap_st).

Definition free_b c (i : nat) : bool := match coremap c !! i with Some x => avail x | None => false end.

Definition free_set c : gset nat :=
  list_to_set (filter (fun i => free_b c i = true) (seq 0 (length (coremap c)))).

Definition free_frames c : nat := size (free_set c).

Lemma elem_of_free_set c i : i ∈ free_set c <-> frame_free c i.
Proof.
  unfold free_set, free_b, frame_free. rewrite elem_of_list_to_set, list_elem_of_filter, elem_of_seq.
  destruct (coremap c !! i) as [x|] eqn:E; [|split; [by intros [? _] | by intros (? & ? & _)]].
  pose proof (lookup_lt_Some _ _ _ E). split; [intros [? _]; eauto | intros (y & [= <-] & ?)]. split; [done | lia].
Qed.

(** At most the frames of [X] are no longer free. *)
Lemma free_frames_sub c c' (X : gset nat) m :
  (forall i, frame_free c i -> i ∈ X \/ frame_free c' i) -> (size X + m <= free_frames c)%nat ->
  (m <= free_frames c')%nat.
Proof.
  intros H Hm. assert (Hs : free_set c ⊆ X ∪ free_set c').
  { intros i. rewrite elem_of_union, !elem_of_free_set. apply H. }
  apply subseteq_size in Hs. pose proof (size_union_alt X (free_set c')) as E. unfold free_frames in *.
  assert (Hd : free_set c' ∖ X ⊆ free_set c') by set_solver. apply subseteq_size in Hd. lia.
Qed.

Lemma some_frame_free c m : (0 < m)%nat -> (m <= free_frames c)%nat -> exists i, frame_free c i.
Proof.
  intros H0 Hm. destruct (decide (free_set c = ∅)) as [E|[i Hi]%set_choose_L].
  - unfold free_frames in Hm. rewrite E, size_empty in Hm. lia.
  - exists i. by apply elem_of_free_set.
Qed.
End Free.

(** ** The steps of [as_copy] *)

Section Steps.
Context {P : Platform} {L : PlatformLaws P}.
Implicit Types (k : kernel).

Lemma wp_kmalloc_new k (Q : option nat -> kernel -> Prop) :
  room 1 (k_heap k) = true ->
  (forall p h, ~ heap_live (k_heap k) p -> heap_live h p -> grows (k_heap k) h -> spent 1 (k_heap k) h ->
     Q (Some p) (set_heap h k)) ->
  wp kmallocM Q k.
Proof.
  intros Hr HQ. apply wp_kmalloc_room; [congruence|]. intros p h E Hs Hg. apply HQ; [by eapply kmalloc_fresh | | done..].
  apply (kmalloc_live _ _ _ _ E). by left.
Qed.

(** With room for its seven blocks and the executable there, the address
    space is created. *)
Lemma as_create_ok name v d k :
  (curcpu_exists (k_cpu k) = true -> c_spinlocks (k_cpu k) = 0) -> lockable k ->
  vfs_open name (k_disk k) = inr (v, d) -> room 7 (k_heap k) = true ->
  wp (as_create name) (fun r k' => exists a lk p h, r = (Some a, OK) /\ ~ heap_live (k_heap k) a /\
    heap_live h a /\ grows (k_heap k) h /\ spent 7 (k_heap k) h /\ k' = created k name a v d lk (Some p) h) k.
Proof.
  intros Hs Ht Ho Hr. eapply wp_mono; [by apply as_create_spec|]. intros r k' Hp. unfold as_create_post in Hp.
  rewrite (room_le 7 1), Ho, Hr in Hp by (done || lia). destruct Hp as (a & p & lk & h & -> & Ha & -> & Hb & Hsp).
  exists a, lk, p, h. split; [done|]. split; [done|]. split; [apply Hb; left; left|]. split; [|done].
  intros q Hq. apply Hb. by right.
Qed.

(** Without room for them it is not, and only the heap and the open files
    have changed. *)
Lemma as_create_no_room name v d k :
  (curcpu_exists (k_cpu k) = true -> c_spinlocks (k_cpu k) = 0) -> lockable k ->
  vfs_open name (k_disk k) = inr (v, d) -> room 7 (k_heap k) = false ->
  wp (as_create name) (fun r k' => r = (None, Err ENOMEM) /\ exists h d', k' = set_heap h (set_disk d' k) /\ grows (k_heap k) h) k.
Proof.
  intros Hs Ht Ho Hr. eapply wp_mono; [by apply as_create_spec|]. intros r k' Hp. unfold as_create_post in Hp.
  rewrite Ho, Hr in Hp. destruct (room 1 (k_heap k)).
  - destruct Hp as [-> (nm & h & -> & Hb & _)]. split; [done|]. exists h, (vfs_close v d). split; [done|].
    intros q Hq. apply Hb. by right.
  - destruct Hp as [-> ->]. split; [done|]. exists (k_heap k), (k_disk k). split; [by destruct k | apply grows_refl].
Qed.

Lemma set_ases_commute a a' x y k : a <> a' ->
  set_ases (<[a := x]>) (set_ases (<[a' := y]>) k) = set_ases (<[a' := y]>) (set_ases (<[a := x]>) k).
Proof.
  intros H. unfold set_ases. cbn [k_cm k_swap k_tlb k_stats k_cpu k_as k_curproc k_mem k_disk k_heap k_ram
    k_stealmem_lock]. by rewrite insert_insert_ne.
Qed.

(** A segment but for its place in memory. *)
Definition same_segment (s s' : segment_t) : Prop :=
  exists node, s' = mk_segment node (seg_start s) (seg_size s) (seg_filesize s) (seg_npages s)
                 (seg_rwx s) (seg_offset s) (seg_initoffset s).

Lemma copy_segments_spec a A segs k : room (length segs) (k_heap k) = true ->
  wp (copy_segments a segs) (fun ok k' => ok = true /\ exists h l, Forall2 same_segment segs l /\ grows (k_heap k) h /\
    spent (length segs) (k_heap k) h /\
    k' = set_ases (<[a := with_segments (as_segment A ++ l) A]>) (set_heap h k)) (set_ases (<[a := A]>) k).
Proof.
  revert A k. induction segs as [|s segs IH]; intros A k Hr; cbn [copy_segments].
  - apply wp_ret. split; [done|]. exists (k_heap k), []. split; [constructor|]. split; [by intros q|]. split; [apply spent_0|].
    rewrite app_nil_r. by destruct k, A.
  - step. apply wp_kmalloc_new; [by apply (room_le (S (length segs))); [lia|]|]. intros node h _ _ Hg Hs.
    apply (spent_room 1 (length segs) _ _ Hs) in Hr. step. eapply wp_as_get; [kred; apply lookup_insert_eq|]. unfold as_set. steps.
    change (set_heap h (set_ases (<[a := A]>) k)) with (set_ases (<[a := A]>) (set_heap h k)). rewrite set_ases_twice.
    set (s' := mk_segment _ _ _ _ _ _ _ _).
    eapply wp_mono; [by apply IH|]. intros ok k' (-> & h' & l & Hl & Hg' & Hs' & ->). split; [done|].
    exists h', (s' :: l). split; [constructor; [by exists node | done]|]. split; [by eapply grows_trans|].
    split; [exact (spent_add 1 _ _ _ _ Hs Hs')|].
    cbn [as_segment with_segments]. by rewrite <- app_assoc.
Qed.

Lemma copy_segments_no_room a A segs k : room (length segs) (k_heap k) = false ->
  wp (copy_segments a segs) (fun ok k' => ok = false /\ exists h A', grows (k_heap k) h /\
    k' = set_ases (<[a := A']>) (set_heap h k)) (set_ases (<[a := A]>) k).
Proof.
  revert A k. induction segs as [|s segs IH]; intros A k Hr; [done|]. cbn [copy_segments]. step. apply wp_kmalloc_room.
  - intros _. apply wp_ret. split; [done|]. exists (k_heap k), A. split; [apply grows_refl | by destruct k].
  - intros node h _ Hs Hg. assert (Hr' : room (length segs) h = false) by (rewrite <- Hr; symmetry; apply (Hs (length segs))).
    step. eapply wp_as_get; [kred; apply lookup_insert_eq|]. unfold as_set. steps.
    change (set_heap h (set_ases (<[a := A]>) k)) with (set_ases (<[a := A]>) (set_heap h k)). rewrite set_ases_twice.
    eapply wp_mono; [by apply IH|]. intros ok k' (-> & h' & A' & Hg' & ->). split; [done|]. exists h', A'.
    split; [by eapply grows_trans | done].
Qed.
End Steps.

(** ** The loop over the pages *)

Section Loop.
Context {P : Platform} {L : PlatformLaws P}.
Variables (k : kernel) (old a : asid) (O N : addrspace) (st : gmap Z page) (n : Z).
Hypotheses (Hold : k_as k !! old = Some O) (Hnew : k_as k !! a = None) (Hq : quiet k)
  (Hnoswap : forall j e, pt O !! j = Some e -> pte_in_swap e = false).

(** The kernel during the copy: the table of the parent is locked, the child
    has the table [es]; frames have been taken and filled. *)
Definition copying (es : list pt_entry) (m : pmem) (l : list c_entry) : kernel :=
  set_ases (<[a := with_pt es N]>) (set_mem (fun _ => m) (upd_entries (fun _ => l) (locked old O k))).

(** The page of the child for a page of the parent. *)
Definition page_copied (m : pmem) (e e' : pt_entry) : Prop :=
  pte_vaddr e' = pte_vaddr e /\ pte_rwx e' = pte_rwx e /\ pte_in_mem e' = pte_in_mem e /\ pte_in_swap e' = false /\
  page_data m st e' = page_data (k_mem k) st e.

Definition residents (es : list pt_entry) : nat := length (filter (fun e => pte_in_mem e = true) es).

(** After the first pages: those of the child are copies, and the invariant
    of the frames holds if the rest of the new table, which has not been
    written yet, is left out. *)
Record progress (es : list pt_entry) (m : pmem) (l : list c_entry) : Prop := {
  pg_frames : frames_ok (with_coremap l (k_cm k)) (<[a := es]> (tables_of k)) st n None;
  pg_pages : forall j e e', pt O !! j = Some e -> es !! j = Some e' -> page_copied m e e';
  pg_kept : forall a' j e, pte_at (tables_of k) a' j = Some e -> page_data m st e = page_data (k_mem k) st e;
  pg_room : (residents (drop (length es) (pt O)) <= free_frames (with_coremap l (k_cm k)))%nat;
  pg_taken : forall i x, coremap (k_cm k) !! i = Some x -> avail x = false -> l !! i = Some x;
}.

Lemma old_ne_new : old <> a.
Proof. intros ->. congruence. Qed.

Lemma copying_old es m l : k_as (copying es m l) !! old = Some (with_pt_lock (Some (curthread (k_cpu k))) O).
Proof. unfold copying, locked. kred. rewrite lookup_insert_ne by (symmetry; apply old_ne_new). apply lookup_insert_eq. Qed.

Lemma wp_copying_old es m l j e (Q : pt_entry -> kernel -> Prop) :
  pt O !! j = Some e -> Q e (copying es m l) -> wp (pt_get old j) Q (copying es m l).
Proof. intros He HQ. by eapply wp_pt_get; [apply copying_old|..]. Qed.

Lemma wp_copying_get es m l x junk (Q : pt_entry -> kernel -> Prop) :
  Q x (copying (es ++ x :: junk) m l) -> wp (pt_get a (length es)) Q (copying (es ++ x :: junk) m l).
Proof.
  intros HQ. eapply wp_pt_get; [apply lookup_insert_eq | | done]. cbn. by rewrite lookup_app_r, Nat.sub_diag by lia.
Qed.

Lemma wp_copying_set es m l x junk e (Q : unit -> kernel -> Prop) :
  Q tt (copying (es ++ e :: junk) m l) -> wp (pt_set a (length es) e) Q (copying (es ++ x :: junk) m l).
Proof.
  intros HQ. eapply wp_pt_set; [apply lookup_insert_eq | |].
  - cbn. rewrite lookup_app_r, Nat.sub_diag by lia. done.
  - unfold copying in *. rewrite set_ases_twice. cbn [pt with_pt]. rewrite with_pt_twice.
    rewrite insert_app_r_alt, Nat.sub_diag by lia. exact HQ.
Qed.

Lemma wp_copying_unlock es m l (Q : unit -> kernel -> Prop) : pt_lock O = None ->
  Q tt (set_ases (<[a := with_pt es N]>) (set_mem (fun _ => m) (upd_entries (fun _ => l) k))) ->
  wp (release_pt_lock old) Q (copying es m l).
Proof.
  intros Hl HQ. unfold copying. set (k1 := set_mem (fun _ => m) (upd_entries (fun _ => l) k)) in *.
  change (set_mem _ _) with (locked old O k1). unfold locked. rewrite set_ases_commute by (symmetry; apply old_ne_new).
  change (set_ases _ (set_ases _ k1)) with (locked old O (set_ases (<[a := with_pt es N]>) k1)).
  apply wp_unlock; [done|]. rewrite set_ases_id; [done|]. kred. rewrite lookup_insert_ne by (symmetry; apply old_ne_new). exact Hold.
Qed.

Lemma residents_drop j e : pt O !! j = Some e ->
  residents (drop j (pt O)) = ((if pte_in_mem e then 1 else 0) + residents (drop (S j) (pt O)))%nat.
Proof.
  intros He. rewrite (drop_S _ _ _ He). unfold residents. rewrite filter_cons.
  destruct (pte_in_mem e); [rewrite decide_True by done | rewrite decide_False by done]; done.
Qed.

Lemma pte_at_new (es : list pt_entry) j : pte_at (<[a := es]> (tables_of k)) a j = es !! j.
Proof. unfold pte_at. by rewrite lookup_insert_eq. Qed.

Lemma pte_at_others (es : list pt_entry) a' j e : pte_at (tables_of k) a' j = Some e ->
  a' <> a /\ pte_at (<[a := es]> (tables_of k)) a' j = Some e.
Proof.
  intros Hp. assert (a' <> a).
  { intros ->. apply pte_at_tables in Hp as (A & HA & _). congruence. }
  split; [done|]. unfold pte_at. by rewrite lookup_insert_ne.
Qed.

Lemma parent_page_ok es m l e j : progress es m l -> pt O !! j = Some e ->
  0 <= pte_vaddr e < MIPS_KSEG0 /\ pte_vaddr e mod PAGE_SIZE = 0.
Proof.
  intros Hp He. assert (Hpe : pte_at (tables_of k) old j = Some e) by (apply pte_at_tables; eauto).
  apply (pte_at_others es) in Hpe as [_ Hpe]. apply (fo_pte _ _ _ _ _ (pg_frames _ _ _ Hp) _ _ _ Hpe).
Qed.

(** The entry of a page that is not in memory yet. *)
Lemma frames_ok_fresh es m l e j : progress es m l -> pt O !! j = Some e ->
  frames_ok (with_coremap l (k_cm k)) (<[a := es ++ [fresh_entry (pte_vaddr e, pte_rwx e)]]> (tables_of k)) st n None.
Proof.
  intros Hp He. rewrite <- (insert_insert_eq (tables_of k) a _ es).
  apply frames_ok_append; [apply Hp | by rewrite lookup_insert_eq |].
  intros x ->%list_elem_of_singleton. exists (pte_vaddr e, pte_rwx e). split; [done|]. by eapply parent_page_ok.
Qed.

Lemma page_copied_snoc es m' e e' :
  (forall j e e', pt O !! j = Some e -> es !! j = Some e' -> page_copied m' e e') ->
  pt O !! length es = Some e -> page_copied m' e e' ->
  forall j e0 e0', pt O !! j = Some e0 -> (es ++ [e']) !! j = Some e0' -> page_copied m' e0 e0'.
Proof.
  intros H He Hc j e0 e0' Hj Hj'. apply lookup_app_Some in Hj' as [Hj'|[Hge Hj']]; [by eauto|].
  apply list_lookup_singleton_Some in Hj' as [E <-]. replace j with (length es) in Hj by lia. congruence.
Qed.

(** A page that is not in memory. *)
Lemma copy_fresh es m l x junk e :
  progress es m l -> pt O !! length es = Some e -> pte_in_mem e = false ->
  wp (copy_page old a (length es)) (fun r K => r = OK /\ exists e' m' l', progress (es ++ [e']) m' l' /\
    K = copying (es ++ e' :: junk) m' l') (copying (es ++ x :: junk) m l).
Proof.
  intros Hp He Hm. pose proof (Hnoswap _ _ He) as Hs. unfold copy_page. step. eapply wp_copying_old; [done|]. step.
  apply wp_copying_get. step. apply wp_copying_set. rewrite Hs, Hm. step. apply wp_copying_get. step.
  apply wp_copying_set. apply wp_ret. split; [done|]. exists (fresh_entry (pte_vaddr e, pte_rwx e)), m, l. split; [|done].
  pose proof Hp as [P1 P2 P3 P4 P5]. split; try done.
  - by eapply frames_ok_fresh.
  - apply (page_copied_snoc _ _ e); [done..|]. repeat (split; [done|]). unfold page_data. by rewrite Hm, Hs.
  - rewrite (residents_drop _ _ He), Hm in P4. by rewrite length_app, Nat.add_1_r.
Qed.

(** The memory with the page [e] copied to the frame at [p]. *)
Definition copied_to (m : pmem) (p : Z) (e : pt_entry) : pmem :=
  mem_write m p (mem_read m (pte_paddr e) (Z.to_nat PAGE_SIZE)).

Lemma progress_resident es m l e i x :
  progress es m l -> pt O !! length es = Some e -> pte_in_mem e = true ->
  l !! i = Some x -> avail x = true ->
  let p := frame_paddr (k_cm k) i in
  progress (es ++ [resident p (fresh_entry (pte_vaddr e, pte_rwx e))]) (copied_to m p e)
    (<[i := with_allocpages 1 (core_entry (pte_vaddr e) false (Some a) x)]> l).
Proof.
  intros Hp He Hm Hi Hav p. pose proof Hp as [P1 P2 P3 P4 P5]. set (f := fresh_entry _). set (l' := <[i := _]> l).
  destruct (parent_page_ok _ _ _ _ _ Hp He) as [Hv Hal]. pose proof page_size_pos as Hps.
  destruct (frames_ok_take _ _ _ _ a i x (pte_vaddr e) l' (frames_ok_fresh _ _ _ _ _ Hp He) Hi Hav) as [F1 Ho];
    [by apply aligned_even | done |].
  assert (Hpf : pte_at (<[a := es ++ [f]]> (tables_of k)) a (length es) = Some f)
    by (rewrite pte_at_new; by apply list_lookup_middle).
  assert (Hdata : forall a' j e', pte_at (<[a := es ++ [f]]> (tables_of k)) a' j = Some e' -> ~ (a' = a /\ j = length es) ->
    page_data (copied_to m p e) st e' = page_data m st e').
  { intros a' j e' Hp' Hne. apply (other_page_data _ _ m _ st n a (length es) f i a' j e' F1); try done.
    - cbn. unfold l'. rewrite length_insert. by eapply lookup_lt_Some.
    - intros y Hy. apply mem_write_other. rewrite length_mem_read. change (frame_paddr _ i) with p in Hy. lia. }
  split.
  - pose proof (frames_ok_map _ _ _ _ _ _ _ _ F1 Hpf eq_refl Ho) as F2. cbn [pte_in_swap f fresh_entry] in F2.
    unfold upd_pte in F2. rewrite alter_insert_eq, insert_app_r_alt, Nat.sub_diag in F2 by lia. exact F2.
  - apply (page_copied_snoc _ _ e); [|done|].
    + intros j e0 e0' Hj Hj'. destruct (P2 _ _ _ Hj Hj') as (? & ? & ? & ? & Hd). repeat (split; [done|]).
      rewrite (Hdata a j); [done | rewrite pte_at_new; by apply lookup_app_l_Some |].
      intros [_ ->]. apply lookup_lt_Some in Hj'. lia.
    + repeat (split; [done|]). unfold page_data at 1. cbn [pte_in_mem resident pte_paddr].
      unfold copied_to. rewrite <- (length_mem_read m (pte_paddr e) (Z.to_nat PAGE_SIZE)) at 2.
      rewrite mem_read_write_same, <- (P3 old (length es)) by (apply pte_at_tables; eauto). unfold page_data. by rewrite Hm.
  - intros a' j e' Hp'. destruct (pte_at_others (es ++ [f]) _ _ _ Hp') as [Hne Hp2].
    rewrite (Hdata a' j) by (done || tauto). by apply (P3 a' j).
  - rewrite (residents_drop _ _ He), Hm in P4. rewrite length_app, Nat.add_1_r.
    apply (free_frames_sub (with_coremap l (k_cm k)) _ {[i]}); [|by rewrite size_singleton].
    intros i' (y & Hy & Hy'). destruct (decide (i' = i)) as [->|Hne]; [left; set_solver | right]. exists y.
    split; [|done]. cbn. unfold l'. by rewrite list_lookup_insert_ne.
  - intros i' y Hy Hy'. unfold l'. rewrite list_lookup_insert_ne; [by apply P5|]. intros ->.
    rewrite (P5 _ _ Hy Hy') in Hi. congruence.
Qed.

(** A page in memory goes to a free frame. *)
Lemma copy_resident es m l x junk e :
  progress es m l -> pt O !! length es = Some e -> pte_in_mem e = true ->
  wp (copy_page old a (length es)) (fun r K => r = OK /\ exists e' m' l', progress (es ++ [e']) m' l' /\
    K = copying (es ++ e' :: junk) m' l') (copying (es ++ x :: junk) m l).
Proof.
  intros Hp He Hm. pose proof (Hnoswap _ _ He) as Hs. pose proof Hq as [Q1 Q2 Q3 Q4 Q5].
  pose proof (pg_room _ _ _ Hp) as Hroom. rewrite (residents_drop _ _ He), Hm in Hroom.
  unfold copy_page. step. eapply wp_copying_old; [done|]. step.
  apply wp_copying_get. step. apply wp_copying_set. rewrite Hs, Hm. unfold getPages. step. change (1 <? 1) with false. cbv iota.
  eapply wp_mono; [apply getPage_free|].
  - split; [apply (fo_cm _ _ _ _ _ (pg_frames _ _ _ Hp)) | done].
  - apply (some_frame_free (with_coremap l (k_cm k)) (1 + residents (drop (S (length es)) (pt O)))); [lia | done].
  - intros p K (i & y & Hy & Hav & _ & -> & ->). step.
    set (l' := <[i := with_allocpages 1 (core_entry (pte_vaddr e) false (Some a) y)]> l).
    change (upd_entries _ (copying ?es m l)) with (copying es m l').
    eapply wp_copying_old; [done|]. steps.
    change (set_mem ?f (copying ?es m l')) with (copying es (f m) l'). cbv beta. apply wp_copying_get. step.
    apply wp_copying_set. apply wp_ret. split; [done|].
    eexists _, _, _. split; [exact (progress_resident es m l e i y Hp He Hm Hy Hav) | reflexivity].
Qed.

Lemma copy_pages_spec es m l junk :
  progress es m l -> length (es ++ junk) = length (pt O) ->
  wp (copy_pages old a (seq (length es) (length junk))) (fun r K => r = OK /\ exists es' m' l',
    progress es' m' l' /\ length es' = length (pt O) /\ K = copying es' m' l') (copying (es ++ junk) m l).
Proof.
  revert es m l. induction junk as [|x junk IH]; intros es m l Hp Hlen; cbn [length seq copy_pages].
  - apply wp_ret. split; [done|]. rewrite app_nil_r in *. by exists es, m, l.
  - rewrite length_app in Hlen. cbn in Hlen. destruct (lookup_lt_is_Some_2 (pt O) (length es) ltac:(lia)) as [e He].
    step. eapply wp_mono.
    + destruct (pte_in_mem e) eqn:Hm; [by apply (copy_resident es m l x junk e) | by apply (copy_fresh es m l x junk e)].
    + intros r K (-> & e' & m' & l' & Hp' & ->). change (e' :: junk) with ([e'] ++ junk). rewrite app_assoc.
      replace (S (length es)) with (length (es ++ [e'])) by (rewrite length_app; cbn; lia).
      apply IH; [done|]. rewrite !length_app. cbn. lia.
Qed.
End Loop.

(** ** The whole *)

Section Whole.
Context {P : Platform} {L : PlatformLaws P}.
Implicit Types (k : kernel).

(** What [as_copy] needs: the parent has no page in swap, its executable can
    be opened again, and there are frames for the table of the child and for
    every page of the parent that is in memory. *)
Record copyable k (b : bitmap) (v : vnode) (st : gmap Z page) (old : asid) (O : addrspace) (name : string)
    (f : vnode) (d : disk) (n : nat) : Prop := {
  cy_inv : vm_inv k b v st None;
  cy_quiet : quiet k;
  cy_spinlocks : curcpu_exists (k_cpu k) = true -> c_spinlocks (k_cpu k) = 0;
  cy_as : k_as k !! old = Some O;
  cy_lock : pt_lock O = None;
  cy_npages : npages O = Z.of_nat (length (pt O));
  cy_name : exists p, progname O = Some (p, name);
  cy_open : vfs_open name (k_disk k) = inr (f, d);
  cy_live : forall a, is_Some (k_as k !! a) -> heap_live (k_heap k) a;
  cy_swap : forall j e, pt O !! j = Some e -> pte_in_swap e = false;
  cy_size : DIVROUNDUP (u32 (sizeof_pt_entry * npages O)) PAGE_SIZE = Z.of_nat n;
  cy_pos : (0 < n)%nat;
  cy_ram : Z.of_nat n < u32 (coremapSize (k_cm k) - ram_used (k_cm k));
  cy_run : exists i, free_run (k_cm k) i n;
  cy_frames : (n + residents (pt O) <= free_frames (k_cm k))%nat;
}.

(** [a] is a copy of [O], whose executable is open once more as [f]. *)
Record duplicate k (b : bitmap) (v : vnode) (st : gmap Z page) (O : addrspace) (f : vnode)
    (k' : kernel) (a : asid) (N : addrspace) : Prop := {
  du_new : k_as k !! a = None;
  du_as : k_as k' = <[a := N]> (k_as k);
  du_file : as_v N = f;
  du_lock : pt_lock N = None;
  du_segments : Forall2 same_segment (as_segment O) (as_segment N);
  du_npages : npages N = npages O /\ length (pt N) = length (pt O);
  du_pages : forall j e, pt O !! j = Some e -> exists e', pt N !! j = Some e' /\ page_copied k st (k_mem k') e e';
  du_kept : forall a' j e, pte_at (tables_of k) a' j = Some e ->
    page_data (k_mem k') st e = page_data (k_mem k) st e;
  du_table : exists i n, table_frames (k_cm k') N i n;
  du_inv : vm_inv k' b v st None;
  du_quiet : quiet k';
  du_running : k_curproc k' = k_curproc k /\ k_cpu k' = k_cpu k;
  du_heap : grows (k_heap k) (k_heap k');
  du_disk : forall u off n, VOP_READ u off n (k_disk k') = VOP_READ u off n (k_disk k);
}.

(** The state before the loop, with the table of the child at frame [i]. *)
Lemma progress_start k b v st old O name f d n a h i l :
  copyable k b v st old O name f d n -> k_as k !! a = None ->
  free_run (k_cm k) i n -> kernel_run (k_cm k) i n l ->
  progress (upd_entries (fun _ => l) (set_heap h (set_disk d k))) a O st (bitmap_nbits b) [] (k_mem k) l.
Proof.
  intros [C1 C2 C3 C4 C5 C6 C7 C8 C9 C10 C11 C12 C13 C14 C15] Ha Hfree Hrun. split; try done.
  - apply frames_ok_table.
    + exact (frames_ok_reserve _ _ _ _ _ _ _ _ (vi_frames _ _ _ _ _ C1) Hfree Hrun).
    + right. change (tables_of k !! a = None). unfold tables_of. by rewrite lookup_fmap, Ha.
    + by intros e ?%elem_of_nil.
  - cbn [length]. rewrite drop_0. apply (free_frames_sub (k_cm k) _ (list_to_set (seq i n))).
    + intros j Hj. rewrite elem_of_list_to_set, elem_of_seq. destruct (decide (i <= j < i + n)%nat); [by left | right].
      destruct Hj as (x & Hx & Hx'). exists x. split; [|done]. cbn. destruct Hrun as (Hk & _). by rewrite Hk.
    + rewrite size_list_to_set, length_seq by apply NoDup_seq. done.
Qed.

(** The state after the loop is as promised. *)
Lemma duplicate_state k b v st old O name f d n a h i l N es m l' :
  copyable k b v st old O name f d n -> k_as k !! a = None ->
  free_run (k_cm k) i n -> kernel_run (k_cm k) i n l -> grows (k_heap k) h ->
  let k1 := upd_entries (fun _ => l) (set_heap h (set_disk d k)) in
  progress k1 a O st (bitmap_nbits b) es m l' -> length es = length (pt O) ->
  as_v N = f -> pt_lock N = None -> Forall2 same_segment (as_segment O) (as_segment N) -> npages N = npages O ->
  as_pt N = PADDR_TO_KVADDR (frame_paddr (k_cm k) i) ->
  duplicate k b v st O f (set_ases (<[a := with_pt es N]>) (set_mem (fun _ => m) (upd_entries (fun _ => l') k1))) a (with_pt es N).
Proof.
  intros C Ha Hfree Hrun Hgrow k1 [P1 P2 P3 P4 P5] Hlen E1 E2 E3 E4 E5. 
  pose proof (fun u off n' => vfs_open_reads _ _ _ _ u off n' (cy_open _ _ _ _ _ _ _ _ _ _ C)) as Hd.
  pose proof (cy_inv _ _ _ _ _ _ _ _ _ _ C) as [I1 I2 I3 I4 I5 I6]. pose proof (cy_quiet _ _ _ _ _ _ _ _ _ _ C) as [Q1 Q2 Q3 Q4 Q5].
  assert (Htb : forall X, tables_of (set_ases (<[a := with_pt es N]>) (set_mem (fun _ => m) (upd_entries X k1))) = <[a := es]> (tables_of k1))
    by (intros X; unfold tables_of; cbn; by rewrite fmap_insert).
  split; try done.
  - intros j e He. destruct (lookup_lt_is_Some_2 es j) as [e' He']; [rewrite Hlen; by eapply lookup_lt_Some|].
    exists e'. split; [done|]. by apply (P2 j e e').
  - exists i, n. destruct Hrun as (_ & R2 & x & Hx & Hax). split; [apply C|]. split; [done|].
    assert (Hk : forall j y, l !! j = Some y -> avail y = false -> l' !! j = Some y) by exact P5. split.
    + intros j Hj. destruct (R2 j Hj) as (y & Hy & Hya & Hav). exists y. split; [by apply Hk | done].
    + exists x. split; [|done]. apply Hk; [done|]. pose proof (cy_pos _ _ _ _ _ _ _ _ _ _ C).
      destruct (R2 i ltac:(lia)) as (y & Hy & _ & Hav). congruence.
  - split; try done.
    + rewrite Htb. exact P1.
    + destruct I2. split; try done. intros s bs Hs. cbn. rewrite Hd. by apply sr_pages.
    + intros a' A'. kred. rewrite lookup_insert. case_decide as E; [|apply I3]. intros [= <-] _. cbn.
      rewrite E4, Hlen. apply C.
    + intros a' Hcur u p dd Hm. destruct (I6 a' Hcur u p dd Hm) as (j & e & Hp & Hrest). exists j, e. split; [|done].
      rewrite Htb. by apply pte_at_others.
Qed.

(** The blocks of the copy: the structure, the name, the lock and a node for
    each segment. *)
Definition copy_blocks (A : addrspace) : nat := 7 + length (as_segment A).

Lemma as_copy_spec k b v st old O name f d n :
  copyable k b v st old O name f d n -> room (copy_blocks O) (k_heap k) = true ->
  wp (as_copy old) (fun r k' => exists a N, r = (OK, Some a) /\ duplicate k b v st O f k' a N /\
    spent (copy_blocks O) (k_heap k) (k_heap k')) k.
Proof.
  intros C Hmem. pose proof C as [C1 C2 C3 C4 C5 C6 [p0 C7] C8 C9 C10 C11 C12 C13 C14 C15]. pose proof C2 as [Q1 Q2 Q3 Q4 Q5].
  unfold as_copy. step. eapply wp_as_get; [done|]. rewrite C7. step.
  eapply wp_mono; [apply (as_create_ok _ f d); try done; by apply (room_le (copy_blocks O)); [unfold copy_blocks; lia|]|].
  intros r k1 (a & lk & p & h & -> & Ha & Hl & Hg & Hs & ->). apply (spent_room 7 _ _ _ Hs) in Hmem.
  assert (Hna : k_as k !! a = None).
  { destruct (k_as k !! a) eqn:E; [|done]. destruct Ha. apply C9. by eexists. }
  assert (Hne : old <> a) by congruence. unfold created. set (A0 := mk_addrspace _ _ _ _ _ _ _ _). step.
  eapply (wp_lock old O); [kred; by rewrite lookup_insert_ne | done | done |].
  unfold locked at 1. rewrite set_ases_commute by done. step.
  eapply wp_mono; [by apply (copy_segments_spec a A0)|]. intros ok k1 (-> & h2 & segs & Hsegs & Hg2 & Hs2 & ->).
  cbn [negb as_segment A0 app]. step. eapply wp_as_get; [kred; apply lookup_insert_eq|]. unfold as_set. steps.
  rewrite set_ases_twice. set (A1 := with_npages _ _).
  eapply wp_mono; [apply (ptAlloc_spec (npages O) n); try done; split; [apply C1 | done]|].
  intros q k2 (i & l & Hfree & -> & -> & Hrun).
  change (free_run (k_cm k) i n) in Hfree. change (kernel_run (k_cm k) i n l) in Hrun.
  assert (Hli : (i < length (coremap (k_cm k)))%nat).
  { destruct (Hfree i ltac:(lia)) as (x & Hx & _). by eapply lookup_lt_Some. }
  pose proof (fo_cm _ _ _ _ _ (vi_frames _ _ _ _ _ C1)) as Hwf. pose proof (frame_paddr_range _ _ Hwf Hli).
  pose proof (cm_base _ Hwf). rewrite (proj2 (Z.eqb_neq _ 0)) by (cbn; lia).
  step. eapply wp_as_get; [kred; apply lookup_insert_eq|]. steps. set (raw := _ <$> _). set (N := with_table _ _ A1).
  set (kb := upd_entries (fun _ => l) (set_heap h2 (set_disk d k))).
  match goal with |- wp _ _ ?K => assert (E : K = copying kb old a O N raw (k_mem k) l) end.
  { symmetry. exact (eq_sym (set_ases_twice a A1 N _)). }
  rewrite E. clear E. cbn [npages A1 with_npages with_segments N]. rewrite C6, Nat2Z.id.
  assert (Hraw : length raw = length (pt O)).
  { unfold raw. cbn [npages A1 with_npages with_segments]. by rewrite length_fmap, length_seq, C6, Nat2Z.id. }
  assert (Hqb : quiet kb) by by split.
  rewrite <- Hraw. eapply wp_mono.
  { apply (copy_pages_spec kb old a O N st (bitmap_nbits b) C4 Hna Hqb C10 [] (k_mem k) l raw); [|done].
    by eapply progress_start. }
  intros r K (-> & es & m & l' & Hp & Hes & ->). step.
  apply wp_copying_unlock; [done..|]. apply wp_ret. eexists a, _. split; [done|]. split; [|exact (spent_add 7 _ _ _ _ Hs Hs2)].
  eapply (duplicate_state k b v st old O name f d n a h2 i l); try done. by eapply grows_trans.
Qed.

(** A copy that has failed: no frame, page, slot or translation has changed,
    and no live block is lost. *)
Record copy_failed k k' : Prop := {
  cf_cm : k_cm k' = k_cm k;
  cf_swap : k_swap k' = k_swap k;
  cf_tlb : k_tlb k' = k_tlb k;
  cf_mem : k_mem k' = k_mem k;
  cf_tables : forall a A, k_as k !! a = Some A -> exists A', k_as k' !! a = Some A' /\ pt A' = pt A;
  cf_heap : grows (k_heap k) (k_heap k');
}.

Lemma as_copy_no_room k b v st old O name f d n :
  copyable k b v st old O name f d n -> room (copy_blocks O) (k_heap k) = false ->
  wp (as_copy old) (fun r k' => r = (Err ENOMEM, None) /\ copy_failed k k') k.
Proof.
  intros [C1 C2 C3 C4 C5 C6 [p0 C7] C8 C9 _ _ _ _ _ _] Hr. pose proof C2 as [Q1 Q2 Q3 Q4 Q5].
  unfold as_copy. step. eapply wp_as_get; [done|]. rewrite C7. step. destruct (room 7 (k_heap k)) eqn:H7.
  2: { eapply wp_mono; [by apply (as_create_no_room _ f d)|]. intros r k1 (-> & h & d' & -> & Hg). apply wp_ret.
       split; [done|]. split; try done. intros a A HA. by exists A. }
  eapply wp_mono; [by apply (as_create_ok _ f d)|]. intros r k1 (a & lk & p & h & -> & Ha & Hl & Hg & Hs & ->).
  assert (Hna : k_as k !! a = None).
  { destruct (k_as k !! a) eqn:E; [|done]. destruct Ha. apply C9. by eexists. }
  assert (Hne : old <> a) by congruence. unfold created. set (A0 := mk_addrspace _ _ _ _ _ _ _ _). step.
  eapply (wp_lock old O); [kred; by rewrite lookup_insert_ne | done | done |].
  unfold locked at 1. rewrite set_ases_commute by done. step.
  eapply wp_mono; [apply (copy_segments_no_room a A0); rewrite <- Hr; symmetry; apply (Hs (length (as_segment O)))|].
  intros ok k1 (-> & h2 & A' & Hg2 & ->). cbn [negb]. apply wp_ret. split; [done|]. split; try done.
  - intros a' A HA. kred. rewrite lookup_insert_ne by congruence. rewrite lookup_insert.
    case_decide as E; [subst a'; rewrite C4 in HA; injection HA as <-; by eexists | by exists A].
  - by eapply grows_trans.
Qed.
End Whole.

(** ** The memory of the child *)

Section Child.
Context {P : Platform} {L : PlatformLaws P}.
Implicit Types (k : kernel).

Lemma same_segments_layout l l' : Forall2 same_segment l l' -> layout l' = layout l.
Proof. induction 1 as [|s s' l l' [node ->] _ IH]; [done|]. by rewrite !layout_cons, IH. Qed.

Lemma same_segments_from lo l l' : Forall2 same_segment l l' -> segs_from lo l -> segs_from lo l'.
Proof.
  intros H. revert lo. induction H as [|s s' l l' [node ->] _ IH]; intros lo; [done|]. intros (H1 & [] & H3).
  split; [done|]. split; [by split | by apply IH].
Qed.

(** What a page not loaded yet will hold depends on the file and the segments
    only. *)
Lemma fresh_contents_same d d' A A' j pg :
  Forall2 same_segment (as_segment A) (as_segment A') ->
  (forall off n, VOP_READ (as_v A') off n d' = VOP_READ (as_v A) off n d) ->
  fresh_contents d A j pg -> fresh_contents d' A' j pg.
Proof.
  intros Hs Hd H seg' last x (l1' & l2' & E & Hlast & Hx). rewrite E in Hs.
  apply Forall2_app_inv_r in Hs as (l1 & l2 & H1 & H2 & E'). apply Forall2_cons_inv_r in H2 as (seg & l3 & [node Hn] & H3 & ->).
  assert (Hp : page_span seg' x = page_span seg x) by by rewrite Hn.
  specialize (H seg last x). rewrite Hd, Hp. apply H. exists l1, l3. split; [done|]. split.
  - rewrite Hlast. apply bool_decide_ext. split; intros ->; [by inversion H3 | by inversion H3].
  - rewrite (same_segments_layout _ _ H1) in Hx. by rewrite Hn in Hx.
Qed.

Lemma capacity_insert (lens : gmap asid nat) a n : lens !! a = None -> capacity (<[a := n]> lens) = (n + capacity lens)%nat.
Proof. intros H. unfold capacity. by rewrite map_to_list_insert. Qed.

Lemma duplicate_tables k b v st O f k' a N : duplicate k b v st O f k' a N -> tables_of k' = <[a := pt N]> (tables_of k).
Proof. intros D. unfold tables_of. rewrite (du_as _ _ _ _ _ _ _ _ _ D). by rewrite fmap_insert. Qed.

Lemma duplicate_entry k b v st O f k' a N j e' : duplicate k b v st O f k' a N -> pt N !! j = Some e' ->
  exists e, pt O !! j = Some e /\ page_copied k st (k_mem k') e e'.
Proof.
  intros D He'. destruct (lookup_lt_is_Some_2 (pt O) j) as [e He].
  { apply lookup_lt_Some in He'. by rewrite (proj2 (du_npages _ _ _ _ _ _ _ _ _ D)) in He'. }
  exists e. split; [done|]. destruct (du_pages _ _ _ _ _ _ _ _ _ D _ _ He) as (e1 & H1 & Hc). congruence.
Qed.

Lemma duplicate_layout k b v st O f k' a N : duplicate k b v st O f k' a N ->
  (fun e => (pte_vaddr e, pte_rwx e)) <$> pt N = (fun e => (pte_vaddr e, pte_rwx e)) <$> pt O.
Proof.
  intros D. apply list_eq_same_length with (length (pt O)); rewrite ?length_fmap; [done | apply D |].
  intros j x y _. rewrite !list_lookup_fmap. intros (e' & He' & ->)%fmap_Some (e & He & ->)%fmap_Some.
  destruct (duplicate_entry _ _ _ _ _ _ _ _ _ _ _ D He') as (e0 & H0 & Hv & Hr & _). rewrite He in H0. injection H0 as <-.
  by rewrite Hv, Hr.
Qed.

(** The others keep their memory. *)
Lemma duplicate_others k b v st O f k' a N a' w :
  duplicate k b v st O f k' a N -> memory_of k v st a' w -> memory_of k' v st a' w.
Proof.
  intros D [(l & M1 & M1') M2 M3 M4 (j & e & Hp & Hm) M6]. pose proof (duplicate_tables _ _ _ _ _ _ _ _ _ D) as Et.
  assert (Hne : a <> a') by (intros ->; pose proof (du_new _ _ _ _ _ _ _ _ _ D); congruence).
  assert (Hpt : forall j, pte_at (tables_of k') a' j = pte_at (tables_of k) a' j)
    by (intros j0; unfold pte_at; by rewrite Et, lookup_insert_ne).
  pose proof (du_disk _ _ _ _ _ _ _ _ _ D) as Hd.
  assert (Hfc : forall j pg, fresh_contents (k_disk k) (pv_as w) j pg -> fresh_contents (k_disk k') (pv_as w) j pg).
  { intros j0 pg. by apply (fresh_contents_disk _ _ v). }
  split; try done.
  - exists l. split; [|done]. by rewrite (du_as _ _ _ _ _ _ _ _ _ D), lookup_insert_ne.
  - exists j, e. by rewrite Hpt.
  - intros j0 e0 HD H0. rewrite Hpt in H0. destruct (M6 j0 e0 HD H0) as (Hlen & Hpg & Hro). split; [done|].
    rewrite (du_kept _ _ _ _ _ _ _ _ _ D _ _ _ H0). split; [|auto]. destruct (page_data _ st e0); [done | by apply Hfc].
Qed.

(** The child sees the memory of the parent. *)
Lemma duplicate_memory k b v st old O f k' a N w :
  duplicate k b v st O f k' a N -> memory_of k v st old w -> k_as k !! old = Some O ->
  f <> v -> (forall off n, VOP_READ f off n (k_disk k) = VOP_READ (as_v O) off n (k_disk k)) ->
  memory_of k' v st a (mk_pview N (pv_pages w) (pv_mem w)).
Proof.
  intros D [(l & M1 & M1') M2 M3 M4 (j & e & Hp & Hm) M6] HO Hf Hd.
  pose proof (duplicate_tables _ _ _ _ _ _ _ _ _ D) as Et. rewrite HO in M1. injection M1 as ->.
  pose proof (duplicate_layout _ _ _ _ _ _ _ _ _ D) as Hlay. pose proof (du_segments _ _ _ _ _ _ _ _ _ D) as Hseg.
  pose proof (du_file _ _ _ _ _ _ _ _ _ D) as Ef. cbn in Hlay, Hseg, Hd.
  assert (Hold : forall j e, l !! j = Some e <-> pte_at (tables_of k) old j = Some e).
  { intros j0 e0. rewrite pte_at_tables. split; [intros; eexists; eauto | intros (A & HA & ?); congruence || (rewrite HO in HA; by injection HA as <-)]. }
  assert (Hfc : forall j pg, fresh_contents (k_disk k) (pv_as w) j pg -> fresh_contents (k_disk k') N j pg).
  { intros j0 pg. apply fresh_contents_same; [done|]. intros off n. by rewrite Ef, (du_disk _ _ _ _ _ _ _ _ _ D), Hd. }
  split; cbn [pv_as pv_pages pv_mem].
  - exists (pt N). rewrite (du_as _ _ _ _ _ _ _ _ _ D), lookup_insert_eq. split; [by destruct N | done].
  - apply D.
  - destruct M3 as [W1 W2 W3]. split.
    + by eapply same_segments_from.
    + rewrite Hlay, M1', W2. symmetry. by apply same_segments_layout.
    + rewrite (proj2 (du_npages _ _ _ _ _ _ _ _ _ D)). cbn. apply (f_equal length) in M1'. rewrite !length_fmap in M1'. by rewrite M1'.
  - by rewrite Ef.
  - apply Hold in Hp. destruct (du_pages _ _ _ _ _ _ _ _ _ D j e Hp) as (e' & He' & _ & _ & Hm' & _).
    exists j, e'. rewrite Et, pte_at_new, Hm', Hm. done.
  - intros j0 e0' HD H0'. rewrite Et, pte_at_new in H0'.
    destruct (duplicate_entry _ _ _ _ _ _ _ _ _ _ _ D H0') as (e0 & H0 & _ & Hr & _ & _ & Hpd).
    apply Hold in H0. destruct (M6 j0 e0 HD H0) as (Hlen & Hpg & Hro). split; [done|]. rewrite Hpd. split.
    + destruct (page_data (k_mem k) st e0); [done | by apply Hfc].
    + unfold writable. rewrite Hr. intros Hw. by apply Hfc, Hro.
Qed.

Lemma as_copy_shared k b v st fam old w O name f d n :
  shared k b v st fam -> fam !! old = Some w -> copyable k b v st old O name f d n ->
  room (copy_blocks O) (k_heap k) = true ->
  f <> v -> (forall off n, VOP_READ f off n (k_disk k) = VOP_READ (as_v O) off n (k_disk k)) ->
  Z.of_nat (length (pt O) + capacity (length <$> tables_of k)) <= bitmap_nbits b ->
  wp (as_copy old) (fun r k' => exists a N, r = (OK, Some a) /\ duplicate k b v st O f k' a N /\
    spent (copy_blocks O) (k_heap k) (k_heap k') /\
    shared k' b v st (<[a := mk_pview N (pv_pages w) (pv_mem w)]> fam)) k.
Proof.
  intros [S1 S2 S3 S4 S5] Hw C Hmem Hf Hd Hroom. eapply wp_mono; [by eapply as_copy_spec|].
  intros r k' (a & N & -> & D & Hs). exists a, N. split; [done|]. split; [done|]. split; [done|].
  split; try done; [apply D | apply D | |].
  - rewrite (duplicate_tables _ _ _ _ _ _ _ _ _ D), fmap_insert, capacity_insert.
    + by rewrite (proj2 (du_npages _ _ _ _ _ _ _ _ _ D)).
    + unfold tables_of. by rewrite !lookup_fmap, (du_new _ _ _ _ _ _ _ _ _ D).
  - intros a' w'. rewrite lookup_insert. case_decide as E; [intros [= <-]; subst a' | intros Hw'].
    + eapply duplicate_memory; eauto. apply C.
    + eapply duplicate_others; eauto.
Qed.
End Child.
