(* ===== verification/Fork.v ===== *)
(** New threads ([thread_fork] of [thread/thread.c]): a thread is created
    with a stack, joins its process and is queued behind the threads that are
    ready on the processor of its creator; without memory nothing remains of
    it. *)

From Stdlib Require Import ZArith Lia.
From stdpp Require Import base list gmap strings.
From S2P Require Import Prelude Platform State Synch Boot Os Proc ProcTable Thread Sched Switch.
Local Open Scope Z_scope.

Section Fork.
Context {P : Platform} {L : PlatformLaws P}.
Implicit Types (s : os).

(** The structure of every thread is a live block. *)
Definition threads_live s : Prop := forall t, is_Some (o_threads s !! t) -> heap_live (k_heap (o_k s)) t.

(** A new thread at the end of the run queue of processor [i]. *)
Lemma sched_new s s' i c c' t th :
  sched_inv s -> o_threads s !! t = None -> o_threads s' = <[t := th]> (o_threads s) ->
  t_state th = S_READY -> t_cpu th = Some i -> o_cpus s !! i = Some c -> o_cpus s' = <[i := c']> (o_cpus s) ->
  enqueued t c c' -> o_wchans s' = o_wchans s -> sched_inv s'.
Proof.
  intros I Hnew Et Hst Hcpu Hc Ec (E1 & E2 & E3 & E4) Ew.
  assert (Hno : forall pl, ~ at_place s t pl) by (intros pl (th' & Ht' & _)%(si_place _ I); congruence).
  assert (Hq : t ∉ c_runqueue c) by (intros Hin; apply (Hno (Queued i)); by exists c).
  assert (Hd : t ∉ c_zombies c) by (intros Hin; apply (Hno (Dead i)); by exists c).
  destruct (si_queue _ I i c Hc) as [Hnq Hnd].
  eapply (sched_place s s' t th (Queued i)); try done.
  - unfold place_of. by rewrite Hst, Hcpu.
  - by rewrite Hst.
  - intros j. rewrite Ec. by eapply cpus_same.
  - exists i. split; [done|]. by eexists.
  - eapply (place_update s s' i c c'); try done.
    + by intros pl ?%Hno.
    + intros u. rewrite E3, E1. split; [|by intros [(_ & ?)|[_ ?]]]. intros [Hi Hu]. left. split; [|done].
      intros ->. apply (Hno (Running i)). by exists c.
    + intros u. rewrite E4, elem_of_snoc by done. tauto.
    + intros u. rewrite E2. split; [|by intros [[_ ?]|[_ ?]]]. intros Hu. left. split; [congruence | done].
    + intros w u. cbn. rewrite Ew. split; [|by intros [[_ ?]|[_ ?]]]. intros Hu. left. split; [|done].
      intros ->. by apply (Hno (Waiting w)).
  - intros j x. rewrite Ec. eapply (nodup_cpus _ i c); [apply (si_queue _ I) | done |]. rewrite E4, E2.
    split; [|done]. apply NoDup_app. split; [done|]. split; [|apply NoDup_singleton]. by intros x' Hx' ->%list_elem_of_singleton.
  - intros w q. rewrite Ew. apply (si_wchan _ I).
Qed.

(** The running thread [cur] of processor [i] creates a thread for process
    [p]. *)
Record forking s (i : nat) (c : cpu) (cur : nat) (cth : thread) (o : option nat) (p : nat) (x : proc) : Prop := {
  fg_sched : sched_inv s;
  fg_curcpu : o_curcpu s = Some i;
  fg_cpu : o_cpus s !! i = Some c;
  fg_busy : c_isidle c = false;
  fg_cur : c_curthread c = Some cur;
  fg_thread : o_threads s !! cur = Some cth;
  fg_target : match o with Some p => Some p | None => t_proc cth end = Some p;
  fg_proc : o_procs s !! p = Some x;
  fg_live : threads_live s;
}.

(** [s'] is [s] with the new thread [t] of process [p], which will start in
    [entry], last in the queue of processor [i]. *)
Record forked s s' (i : nat) (c : cpu) (entry : entrypoint) (p : nat) (x : proc) (t : nat) : Prop := {
  fd_new : o_threads s !! t = None;
  fd_thread : exists th, o_threads s' = <[t := th]> (o_threads s) /\ t_state th = S_READY /\ t_cpu th = Some i /\
    t_proc th = Some p /\ is_Some (t_stack th) /\ t_start th = Some entry;
  fd_queue : exists c', o_cpus s' = <[i := c']> (o_cpus s) /\ enqueued t c c';
  fd_proc : o_procs s' = <[p := with_numthreads (u32 (p_numthreads x + 1)) x]> (o_procs s);
  fd_others : o_wchans s' = o_wchans s /\ o_curcpu s' = o_curcpu s /\ o_files s' = o_files s /\ calm (o_k s) (o_k s') /\
    o_table s' = o_table s /\ o_last_i s' = o_last_i s /\ o_kproc s' = o_kproc s /\ grows (k_heap (o_k s)) (k_heap (o_k s'));
  fd_sched : sched_inv s';
  fd_live : threads_live s';
}.
Lemma grows_live s s' t : threads_live s -> grows (k_heap (o_k s)) (k_heap (o_k s')) -> heap_live (k_heap (o_k s')) t ->
  (forall u, is_Some (o_threads s' !! u) -> u = t \/ is_Some (o_threads s !! u)) -> threads_live s'.
Proof. intros Hl Hg Ht Hu u [->|H]%Hu; [done|]. by apply Hg, Hl. Qed.

(** The block and the name of a new thread, from a heap that may run out. *)
Lemma thread_create_spec s (Q : option nat -> os -> Prop) :
  threads_live s ->
  (forall h, room 2 (k_heap (o_k s)) = false -> Q None (set_kheap h s)) ->
  (forall t name h, o_threads s !! t = None -> ~ heap_live (k_heap (o_k s)) t -> heap_live h t -> grows (k_heap (o_k s)) h ->
     spent 2 (k_heap (o_k s)) h ->
     Q (Some t) (set_threads (<[t := mk_thread name S_READY None None None None IPL_HIGH 1 None]>) (set_kheap h s))) ->
  wp thread_create Q s.
Proof.
  intros Hl HN HS. unfold thread_create. step. apply wp_kmallocO; [intros Hno; steps; apply HN; cbn; by rewrite Hno|].
  intros t h Ht. pose proof (kmalloc_fresh _ _ _ Ht) as Hf. step. apply wp_kmallocO.
  - intros Hno. step. apply wp_kfreeO. steps. rewrite !set_kheap_twice. apply HN. cbn in *. by rewrite Ht, Hno.
  - intros name h' Hn. steps. rewrite set_kheap_twice. apply HS.
    + destruct (o_threads s !! t) as [th|] eqn:E; [|done]. destruct Hf. apply Hl. by rewrite E.
    + done.
    + apply (kmalloc_live _ _ _ _ Hn). right. by apply (kmalloc_live _ _ _ _ Ht); left.
    + intros q Hq. apply (kmalloc_live _ _ _ _ Hn). right. by apply (kmalloc_live _ _ _ _ Ht); right.
    + exact (spent_add 1 1 _ _ _ (spent_kmalloc _ _ _ Ht) (spent_kmalloc _ _ _ Hn)).
Qed.

Lemma fork_spec s i c cur cth o entry p x :
  forking s i c cur cth o p x ->
  wp (thread_fork o entry) (fun r s' => match r with
    | OK => exists t, forked s s' i c entry p x t
    | Err e => e = ENOMEM /\ o_threads s' = o_threads s /\ o_cpus s' = o_cpus s /\ o_procs s' = o_procs s /\ sched_inv s' /\
        room 3 (k_heap (o_k s)) = false
    end) s.
Proof.
  intros [F1 F2 F3 F4 F5 F6 F7 F8 F9]. assert (Hcur : cur_thread s = Some cur) by (unfold cur_thread, cur_cpu; rewrite F2; cbn; rewrite F3; exact F5).
  assert (Hcpu : t_cpu cth = Some i).
  { assert (Hat : at_place s cur (Running i)) by by exists c. apply (si_place _ F1) in Hat as (th' & Ht' & Hp).
    rewrite F6 in Ht'. injection Ht' as <-. unfold place_of in Hp. destruct (t_state cth), (t_cpu cth), (t_wchan cth); by simplify_eq/=. }
  unfold thread_fork. step. apply thread_create_spec; [done| |].
  { intros h Hno. apply wp_ret. split; [done|]. do 3 (split; [done|]). split; [by apply (sched_ext s)|]. eapply no_room_le, Hno. lia. }
  intros t name h Hnew Hdead Hlt Hg Hsp. set (th := mk_thread _ _ _ _ _ _ _ _ _). set (s1 := set_threads _ _).
  assert (Hne : cur <> t) by (intros ->; congruence).
  assert (Ht1 : o_threads s1 !! t = Some th) by apply lookup_insert_eq. step. apply wp_kmallocO.
  - intros Hno. step. eapply thread_destroy_spec; [exact Ht1 | change (cur_thread s <> Some t); congruence | done | done |].
    intros h'. steps. split; [done|]. unfold s1. ored. rewrite delete_insert_eq, delete_id by done. do 3 (split; [done|]).
    split; [apply (sched_ext s); [| done..]; ored; by rewrite delete_insert_eq, delete_id|].
    change 3%nat with (2 + 1)%nat. rewrite Hsp. cbn in *. by rewrite Hno.
  - intros stack h' Hs. assert (Hg' : grows h h') by (intros q Hq; apply (kmalloc_live _ _ _ _ Hs); by right).
    step. eapply wp_thread_upd; [exact Ht1|]. unfold curthread_self. steps.
    eapply wp_deref; [exact Hcur|]. step. eapply wp_thread_at; [unfold s1; ored; rewrite !lookup_insert_ne by done; exact F6|]. step.
    eapply wp_thread_upd; [apply lookup_insert_eq|]. step. rewrite F7. apply (wp_deref _ _ p); [done|]. unfold proc_addthread. step. step.
    eapply wp_thread_at; [apply lookup_insert_eq|]. step. apply wp_kassert; [done|]. step.
    eapply wp_proc_upd; [exact F8|]. eapply wp_thread_upd; [apply lookup_insert_eq|]. step.
    eapply wp_thread_upd; [apply lookup_insert_eq|]. step.
    eapply wp_thread_upd; [apply lookup_insert_eq|]. step.
    eapply (wp_make_runnable t _ i c i); [apply lookup_insert_eq | exact Hcpu | exact F3 | exact F2 | apply ipi_unidle_range|].
    intros c' He. apply wp_ret. exists t. set (th' := with_t_state S_READY _). set (s' := set_cpus _ _).
    assert (Et : o_threads s' = <[t := th']> (o_threads s)).
    { unfold s', s1. ored. by rewrite !insert_insert_eq. }
    split; try done.
    + exists th'. split; [exact Et|]. split; [done|]. split; [exact Hcpu|]. split; [done|]. split; [by eexists | done].
    + by exists c'.
    + repeat (split; [done|]). by eapply grows_trans.
    + eapply (sched_new s s' i c c' t th'); done.
    + eapply (grows_live s s' t F9).
      * by eapply grows_trans.
      * by apply Hg'.
      * intros u. rewrite Et, lookup_insert. destruct (decide (t = u)); [by left | by right].
Qed.

(** C17. Creating a thread: without room in the heap for its structure, name
    and stack the result is ENOMEM and the threads, queues and processes are
    as before; otherwise there is one thread more, with a stack, that belongs
    to the process asked for or to that of its creator, will start in the
    function asked for and is ready, last in the queue of the current
    processor.  Every thread is still in exactly one place. *)
Theorem thread_fork_queues s i c cur cth o entry p x :
  forking s i c cur cth o p x ->
  wp (thread_fork o entry) (fun r s' => match r with
    | OK => exists t, forked s s' i c entry p x t
    | Err e => e = ENOMEM /\ o_threads s' = o_threads s /\ o_cpus s' = o_cpus s /\ o_procs s' = o_procs s /\ sched_inv s' /\
        room 3 (k_heap (o_k s)) = false
    end) s.
Proof. apply fork_spec. Qed.
End Fork.
