(* ===== verification/ProcSyscalls.v ===== *)
(** System calls on processes ([syscall/proc_syscalls.c]).

    [sys_fork] is part of the source although the configuration does not
    select it; the trap frame it copies for the child is the argument of the
    child's first function and only its block is modelled. *)

From Stdlib Require Import ZArith Lia.
From stdpp Require Import base list gmap strings.
From S2P Require Import Prelude Platform State Synch AddrSpace VmFault Runs Os Proc Thread.
Local Open Scope Z_scope.

(** The bytes of a word in memory; the machine is big-endian. *)
Definition word_bytes (w : Z) : list Z :=
  [Z.land (Z.shiftr w 24) 0xff; Z.land (Z.shiftr w 16) 0xff; Z.land (Z.shiftr w 8) 0xff; Z.land w 0xff].

Section ProcSyscalls.
Context {P : Platform}.

(** A word is stored at a user address; an unaligned one is a fatal
    exception. *)
Definition user_store_word (va w : Z) : M kernel unit :=
  if va mod 4 =? 0 then
    let* pa := user_access true va in
    modify (set_mem (fun m => mem_write m pa (word_bytes w)))
  else halt (Panic "Fatal exception").

(** The statements of [sys__exit] up to [thread_exit], in order: the status is
    stored, the thread leaves its process, and the end is announced. *)
Definition exit_steps (status : Z) (p t : nat) : list (M os unit) :=
  [proc_upd p (with_status (Z.land status 0xff)); proc_remthread t; proc_signal_end p].

Fixpoint run_steps (ms : list (M os unit)) : M os unit :=
  match ms with [] => ret tt | m :: ms => m ;; run_steps ms end.

(** The result is the state in which the next thread goes on; this one does
    not return from [thread_exit]. *)
Definition sys__exit (status : Z) : M os unit :=
  let* p := curproc_self in
  let* cur := curthread_self in
  run_steps (exit_steps status p cur) ;;
  thread_exit.

(** [statusp] is NULL when it is zero. *)
Definition sys_waitpid (pid statusp options : Z) : M os Z :=
  let* p := proc_search_pid pid in
  let* s := proc_wait p in
  (if statusp =? 0 then ret tt else vm (user_store_word statusp s)) ;;
  ret pid.

Definition sys_getpid : M os Z :=
  let* p := gets cur_proc in
  kassert (bool_decide (p <> None)) "curproc != NULL" ;;
  let* p := deref p "curproc" in
  let* x := proc_at p in
  ret (p_pid x).

(** The return code and the value of [*retval]. *)
Definition sys_fork : M os (rc * Z) :=
  let* c := gets cur_proc in
  kassert (bool_decide (c <> None)) "curproc != NULL" ;;
  let* cur := deref c "curproc" in
  let* newp := proc_create_runprogram in
  match newp with
  | None => ret (Err ENOMEM, 0)
  | Some newp =>
      let* x := proc_at cur in
      let* a := deref (p_addrspace x) "old" in
      let* r := vm (as_copy a) in
      match r.2 with
      | None => ret tt
      | Some newas => proc_upd newp (with_addrspace (Some newas))
      end ;;
      let* y := proc_at newp in
      match p_addrspace y with
      | None => proc_destroy newp ;; ret (Err ENOMEM, 0)
      | Some _ =>
          proc_file_table_copy newp cur ;;
          let* tf_child := kmallocO in
          match tf_child with
          | None => proc_destroy newp ;; ret (Err ENOMEM, 0)
          | Some tf_child =>
              let* r := thread_fork (Some newp) (Call_enter_forked_process tf_child) in
              match r with
              | Err _ => proc_destroy newp ;; kfreeO tf_child ;; ret (Err ENOMEM, 0)
              | OK => let* y := proc_at newp in ret (OK, p_pid y)
              end
          end
      end
  end.
End ProcSyscalls.
