(* ===== verification/WaitPid.v ===== *)
(** The end of a process: [proc_destroy] gives everything back, and
    [proc_wait] returns the status given to [sys__exit].  *)

From Stdlib Require Import ZArith Lia.
From stdpp Require Import base list gmap strings.
From S2P Require Import Prelude Platform State Synch VmStats Tlb Swap Coremap Frames Paging AddrSpace KernelPages Regions Lifecycle Boot.
From S2P Require Import Runs Os Proc ProcTable Thread Sched Switch ProcSyscalls.
Local Open Scope Z_scope.

Section Views.
Context {P : Platform}.
Implicit Types (s : os).

(** Changing or removing a process that is not the current one. *)
Lemma view_other_proc s p f : cur_proc s <> Some p -> (forall q, q <> p -> f (o_procs s) !! q = o_procs s !! q) ->
  view (set_procs f s) = view s.
Proof.
  intros Hp Hf. assert (Et : cur_thread (set_procs f s) = cur_thread s) by done.
  assert (Ep : cur_proc (set_procs f s) = cur_proc s) by done.
  unfold view. rewrite Et, Ep. ored. destruct (cur_proc s) as [q|]; [|done]. cbn. rewrite Hf; [done | congruence].
Qed.

Lemma view_insert_proc s p y : cur_proc s <> Some p -> view (set_procs (<[p := y]>) s) = view s.
Proof. intros H. apply (view_other_proc _ p); [done|]. intros q Hq. by apply lookup_insert_ne. Qed.

Lemma view_delete_proc s p : cur_proc s <> Some p -> view (set_procs (delete p) s) = view s.
Proof. intros H. apply (view_other_proc _ p); [done|]. intros q Hq. by apply lookup_delete_ne. Qed.
End Views.

Section Destroy.
Context {P : Platform} {L : PlatformLaws P}.
Implicit Types (s : os).

(** The address space [o] of a process can be destroyed. *)
Definition as_idle (k : kernel) (o : option asid) : Prop :=
  match o with
  | None => True
  | Some a => exists A f n, k_as k !! a = Some A /\ pt_lock A = None /\ npages A = Z.of_nat (length (pt A)) /\
      table_frames (k_cm k) A f n /\ k_curproc k <> Some (Some a)
  end.

(** Process [p] has ended: no threads, nobody runs in it. *)
Record ended s (p : nat) (x : proc) (h : sem_h) (n : Z) : Prop := {
  en_proc : o_procs s !! p = Some x;
  en_kproc : o_kproc s <> Some p;
  en_cur : cur_proc s <> Some p;
  en_threads : p_numthreads x = 0;
  en_sem : p_sem x = Some (h, n);
  en_as : as_idle (view s) (p_addrspace x);
}.

(** The blocks a process consists of. *)
Definition proc_blocks (k : kernel) (p : nat) (x : proc) (h : sem_h) : list nat :=
  p :: p_name x :: sem_blocks h ++
  match p_addrspace x ≫= fun a => (pair a) <$> k_as k !! a with
  | Some (a, A) => as_blocks a A
  | None => []
  end.

Record reaped s s' (p : nat) (x : proc) (h : sem_h) (v : vnode) : Prop := {
  re_procs : o_procs s' = delete p (o_procs s);
  re_table : o_table s' = <[Z.to_nat (p_pid x) := None]> (o_table s);
  re_inv : proc_inv s';
  re_vm : exists b st, vm_inv (view s') b v st None /\ quiet (view s');
  re_as : k_as (view s') = match p_addrspace x with Some a => delete a (k_as (view s)) | None => k_as (view s) end;
  re_frames : forall a i, p_addrspace x = Some a -> owned_by (k_cm (view s)) a i -> frame_free (k_cm (view s')) i;
  re_heap : forall q, heap_live (k_heap (view s')) q <->
    (q ∉ proc_blocks (view s) p x h) /\ heap_live (k_heap (view s)) q;
  re_rest : o_threads s' = o_threads s /\ o_cpus s' = o_cpus s /\ o_curcpu s' = o_curcpu s /\ o_wchans s' = o_wchans s /\
    o_kproc s' = o_kproc s /\ o_last_i s' = o_last_i s /\ o_files s' = o_files s;
}.

(** ** Working on one process

    [s1] is [s] with [p] changed to [y] and the paging kernel to [k1]. *)
Definition rest_of s := (o_table s, o_last_i s, o_kproc s, o_threads s, o_cpus s, o_curcpu s, o_wchans s, o_files s).

Definition at_work s (p : nat) (y : proc) (k1 : kernel) (s1 : os) : Prop :=
  o_procs s1 = <[p := y]> (o_procs s) /\ view s1 = k1 /\ rest_of s1 = rest_of s.

Lemma at_work_cur s p y k1 s1 : at_work s p y k1 s1 -> cur_proc s1 = cur_proc s.
Proof. intros (_ & _ & [= _ _ _ E1 E2 E3 _ _]). unfold cur_proc, cur_thread, cur_cpu. by rewrite E1, E2, E3. Qed.

Lemma at_work_start s p x : o_procs s !! p = Some x -> at_work s p x (view s) s.
Proof. intros Hp. split; [by rewrite insert_id | done]. Qed.

Lemma at_work_vm {A} (m : M kernel A) s p y k1 s1 (Q : A -> os -> Prop) :
  at_work s p y k1 s1 ->
  wp m (fun a k2 => k_curproc k2 = k_curproc k1 /\ k_cpu k2 = k_cpu k1 /\ forall s2, at_work s p y k2 s2 -> Q a s2) k1 ->
  wp (vm m) Q s1.
Proof.
  intros (E1 & <- & E3) Hm. apply wp_vm_keep. eapply wp_mono; [exact Hm|]. intros a k2 (C1 & C2 & HQ).
  split; [by split|]. apply HQ. split; [done|]. split; [|done]. apply view_set_k. by split.
Qed.

Lemma at_work_upd f s p y k1 s1 (Q : unit -> os -> Prop) :
  at_work s p y k1 s1 -> cur_proc s <> Some p -> (forall s2, at_work s p (f y) k1 s2 -> Q tt s2) -> wp (proc_upd p f) Q s1.
Proof.
  intros Hw Hc HQ. pose proof (at_work_cur _ _ _ _ _ Hw) as Ec. destruct Hw as (E1 & E2 & E3).
  eapply wp_proc_upd; [rewrite E1; apply lookup_insert_eq|]. apply HQ. split; [ored; by rewrite E1, insert_insert_eq|].
  split; [|done]. rewrite view_insert_proc; [done | congruence].
Qed.

Lemma at_work_get s p y k1 s1 (Q : proc -> os -> Prop) : at_work s p y k1 s1 -> Q y s1 -> wp (proc_at p) Q s1.
Proof. intros (E1 & _ & _) HQ. eapply wp_proc_at; [rewrite E1; apply lookup_insert_eq | done]. Qed.

(** ** The parts of [proc_destroy] *)

Lemma drop_cwd s p x :
  o_procs s !! p = Some x -> cur_proc s <> Some p ->
  wp (match p_cwd x with
      | None => ret tt
      | Some v => vm (modify (fun k => set_disk (VOP_DECREF v (k_disk k)) k)) ;; proc_upd p (with_cwd None)
      end) (fun _ s1 => exists d y, at_work s p y (set_disk d (view s)) s1 /\
        (forall u off n, VOP_READ u off n d = VOP_READ u off n (k_disk (view s))) /\ y = with_cwd (p_cwd y) x) s.
Proof.
  intros Hp Hc. destruct (p_cwd x) as [v|] eqn:Ev.
  - step. eapply at_work_vm; [by apply at_work_start|]. apply wp_modify. split; [done|]. split; [done|]. intros s1 Hw.
    eapply at_work_upd; [done..|]. intros s2 Hw2. exists (VOP_DECREF v (k_disk (view s))), (with_cwd None x).
    split; [done|]. split; [|done]. intros u off n. apply vop_decref_reads.
  - apply wp_ret. exists (k_disk (view s)), x. split; [|split; [done|by destruct x]]. replace (set_disk _ (view s)) with (view s); [by apply at_work_start|].
    by destruct (view s).
Qed.

(** The address space goes; [bs] are its blocks. *)
Record unmapped (k k1 : kernel) (o : option asid) (v : vnode) : Prop := {
  um_vm : exists b st, vm_inv k1 b v st None /\ quiet k1;
  um_as : k_as k1 = match o with Some a => delete a (k_as k) | None => k_as k end;
  um_frames : forall a i, o = Some a -> owned_by (k_cm k) a i -> frame_free (k_cm k1) i;
  um_heap : forall q, heap_live (k_heap k1) q <->
    (q ∉ match o ≫= fun a => (pair a) <$> k_as k !! a with Some (a, A) => as_blocks a A | None => [] end) /\ heap_live (k_heap k) q;
}.

Lemma drop_as s p y k1 s1 b v st :
  at_work s p y k1 s1 -> cur_proc s <> Some p -> vm_inv k1 b v st None -> quiet k1 ->
  (curcpu_exists (k_cpu k1) = true -> c_spinlocks (k_cpu k1) = 0) -> as_idle k1 (p_addrspace y) ->
  wp (match p_addrspace y with
      | None => ret tt
      | Some a =>
          let* cur := gets cur_proc in
          (if decide (cur = Some p)
           then let* a := vm (proc_setas None) in vm as_deactivate ;; ret tt
           else proc_upd p (with_addrspace None)) ;;
          vm (as_destroy a)
      end) (fun _ s2 => exists k2, at_work s p (with_addrspace None y) k2 s2 /\ unmapped k1 k2 (p_addrspace y) v) s1.
Proof.
  intros Hw Hc Hinv Hq Hsp Hidle. destruct (p_addrspace y) as [a|] eqn:Ea.
  - destruct Hidle as (A & f & n & HA & Hl & Hnp & Htf & Hcur). steps.
    rewrite decide_False by (by rewrite (at_work_cur _ _ _ _ _ Hw)). eapply at_work_upd; [done..|]. intros s2 Hw2.
    eapply at_work_vm; [done|]. eapply wp_mono; [by eapply (as_destroy_spec k1 b v st a A f n)|].
    intros [] k2 [b' [D1 D2 D3 D4 D5 D6 D7 [D8 D9]]]. split; [done|]. split; [done|]. intros s3 Hw3. exists k2. split; [done|].
    split; [by eauto | done | | ].
    + intros a' i [= <-] Hi. apply D5. by left.
    + intros q. cbn. by rewrite HA.
  - apply wp_ret. exists k1. split; [|split; [by eauto | done | done |]].
    + replace (with_addrspace None y) with y; [done|]. destruct y. cbn in *. by subst.
    + intros q. cbn. pose proof (not_elem_of_nil q). tauto.
Qed.

(** The table without [p]. *)
Lemma proc_inv_delete s s' p x :
  proc_inv s -> o_procs s !! p = Some x -> o_last_i s <> 0 -> o_procs s' = delete p (o_procs s) ->
  o_table s' = <[Z.to_nat (p_pid x) := None]> (o_table s) -> o_last_i s' = o_last_i s -> proc_inv s'.
Proof.
  intros [I1 I2 I3 I4 I5] Hp Hl0 Ep Et El. destruct (I5 p x Hp) as [Hpid Hslot].
  split; rewrite ?Ep, ?Et, ?El; try done.
  - by rewrite length_insert.
  - intros i q Hq. destruct (decide (i = Z.to_nat (p_pid x))) as [->|Hi].
    + rewrite list_lookup_insert_eq in Hq by (by eapply lookup_lt_Some). done.
    + rewrite list_lookup_insert_ne in Hq by done. destruct (I4 i q Hq) as (Hi0 & y & Hy & Hyp). split; [done|].
      exists y. split; [|done]. rewrite lookup_delete_ne; [done|]. intros ->. rewrite Hp in Hy. injection Hy as <-. lia.
  - intros q y Hq. apply lookup_delete_Some in Hq as [Hne Hq]. destruct (I5 q y Hq) as [Hy Hys]. split; [done|].
    rewrite list_lookup_insert_ne; [done|]. intros E. rewrite <- E in Hys. congruence.
Qed.

Lemma pid_range s p x : proc_inv s -> o_procs s !! p = Some x -> 0 < p_pid x <= MAX_PROC.
Proof.
  intros I Hp. destruct (pi_registered _ I p x Hp) as [H1 H2]. apply lookup_lt_Some in H2.
  rewrite (pi_length _ I) in H2. lia.
Qed.

Lemma destroy_spec_proc s p x h n b v st :
  ended s p x h n -> proc_inv s -> vm_inv (view s) b v st None -> quiet (view s) ->
  (curcpu_exists (k_cpu (view s)) = true -> c_spinlocks (k_cpu (view s)) = 0) ->
  wp (proc_destroy p) (fun _ s' => reaped s s' p x h v) s.
Proof.
  intros [Hp Hk Hc Ht Hs Ha] I Hinv Hq Hsp. pose proof (pid_range _ _ _ I Hp) as Hpid.
  assert (Hlast : o_last_i s <> 0) by (intros E; by rewrite (pi_start _ I E), lookup_empty in Hp).
  unfold proc_destroy. steps. apply wp_kassert; [by apply bool_decide_eq_true|]. step. eapply wp_proc_at; [done|]. step.
  eapply wp_mono; [by apply drop_cwd|]. intros [] s1 (d & y & Hw & Hd & Ey). step.
  assert (Hinv1 : vm_inv (set_disk d (view s)) b v st None).
  { apply (vm_inv_env (view s) b v st None (k_heap (view s)) d) in Hinv; [|done]. by destruct (view s). }
  assert (Ha1 : p_addrspace y = p_addrspace x) by by rewrite Ey. rewrite <- Ha1.
  eapply wp_mono; [eapply (drop_as s p y (set_disk d (view s)) s1 b v st); try done|].
  { by destruct Hq. } { by rewrite Ha1. }
  intros [] s2 (k2 & Hw2 & [(b' & st' & U1 & U1') U2 U3 U4]). step. eapply at_work_get; [done|].
  set (z := with_addrspace None y) in *. assert (Ez : z = with_addrspace None (with_cwd (p_cwd y) x)) by (unfold z; by rewrite <- Ey).
  step. apply wp_kassert; [rewrite Ez; ored; by apply Z.eqb_eq|]. step.
  unfold proc_end_waitpid. step. eapply at_work_get; [done|]. rewrite Ez. ored. rewrite Hs.
  step. apply wp_kassert; [lia|]. steps. set (s3 := set_table _ _ s2).
  set (s0 := set_table (<[Z.to_nat (p_pid x) := None]> (o_table s)) (o_last_i s) s).
  assert (Hw3 : at_work s0 p z k2 s3).
  { destruct Hw2 as (W1 & W2 & [= R1 R2 R3 R4 R5 R6 R7 R8]). split; [done|]. split; [by rewrite <- W2|].
    unfold rest_of, s3, s0. ored. by rewrite R1, R2, R3, R4, R5, R6, R7, R8. }
  eapply at_work_vm; [done|]. eapply wp_mono; [apply (sem_destroy_spec h []), heap_minus_refl|].
  intros [] k3 [[h3 ->] Hh3]. split; [done|]. split; [done|]. intros s4 Hw4. step.
  eapply at_work_vm; [done|]. apply wp_modify. split; [done|]. split; [done|]. intros s5 Hw5. step.
  eapply at_work_vm; [done|]. apply wp_modify. split; [done|]. split; [done|]. intros s6 Hw6. apply wp_modify.
  pose proof (at_work_cur _ _ _ _ _ Hw6) as Ec. destruct Hw6 as (W1 & W2 & [= R1 R2 R3 R4 R5 R6 R7 R8]).
  assert (Ev : view (set_procs (delete p) s6) = set_heap (kfree p (kfree (p_name x) h3)) k2).
  { rewrite view_delete_proc; [rewrite W2; by destruct k2 | by rewrite Ec]. }
  assert (Ep : delete p (o_procs s6) = delete p (o_procs s)) by (rewrite W1; by rewrite delete_insert_eq).
  split; rewrite ?Ev; ored; try done.
  - by eapply (proc_inv_delete s).
  - exists b', st'. split; [|by destruct U1']. apply (vm_inv_env k2 b' v st' None (kfree p (kfree (p_name x) h3)) (k_disk k2)) in U1; [|done]. by destruct k2.
  - by rewrite <- Ha1.
  - intros a i E. apply U3. by rewrite Ha1.
  - intros q. cbn [k_heap set_heap] in *. rewrite !kfree_live, Hh3, U4, app_nil_r.
    unfold proc_blocks. rewrite Ha1, !not_elem_of_cons, !not_elem_of_app. cbn [k_heap k_as set_disk]. tauto.
Qed.

(** C20. Destroying an ended process gives back all but its open files: its
    entry in the process table is free again, its structure, name and
    semaphore and the blocks of its address space are the heap blocks that
    go, the frames of its pages are free, and the invariants of the process
    table and of the paging kernel hold.  The table of open files is as
    before, with the references of the process still counted in it. *)
Theorem proc_destroy_releases s p x h n b v st :
  ended s p x h n -> proc_inv s -> vm_inv (view s) b v st None -> quiet (view s) ->
  (curcpu_exists (k_cpu (view s)) = true -> c_spinlocks (k_cpu (view s)) = 0) ->
  wp (proc_destroy p) (fun _ s' => reaped s s' p x h v) s.
Proof. apply destroy_spec_proc. Qed.
End Destroy.

Section Exit.
Context {P : Platform} {L : PlatformLaws P}.
Implicit Types (s : os).

(** The only thread [t] of process [p] runs. *)
Record exiting s (p t : nat) (x : proc) (th : thread) (h : sem_h) : Prop := {
  ex_proc : o_procs s !! p = Some x;
  ex_thread : o_threads s !! t = Some th;
  ex_cur : cur_thread s = Some t;
  ex_in : t_proc th = Some p;
  ex_only : p_numthreads x = 1;
  ex_sem : p_sem x = Some (h, 0);
}.

(** What [n] of the steps leave. *)
Definition exit_proc (status : Z) (n : nat) (x : proc) (h : sem_h) : proc :=
  let x1 := if (0 <? n)%nat then with_status (Z.land status 0xff) x else x in
  let x2 := if (1 <? n)%nat then with_numthreads 0 x1 else x1 in
  if (2 <? n)%nat then with_sem (Some (h, 1)) x2 else x2.

Lemma exit_steps_spec s p t x th h status n :
  exiting s p t x th h -> (n <= 3)%nat ->
  wp (run_steps (take n (exit_steps status p t))) (fun _ s1 =>
    s1 = set_procs (fun _ => <[p := exit_proc status n x h]> (o_procs s))
           (if (1 <? n)%nat then set_threads (<[t := with_t_proc None th]>) s else s)) s.
Proof.
  intros [Hp Ht Hc Hin Ho Hs] Hn. unfold exit_steps, exit_proc.
  destruct n as [|[|[|[|n]]]]; [..|lia]; cbn [take run_steps Nat.ltb Nat.leb].
  - apply wp_ret. rewrite insert_id by done. by destruct s.
  - step. eapply wp_proc_upd; [done|]. by apply wp_ret.
  - step. eapply wp_proc_upd; [done|]. step. unfold proc_remthread. step. eapply wp_thread_at; [done|]. rewrite Hin.
    step. eapply wp_proc_at; [apply lookup_insert_eq|]. ored. rewrite Ho. step. apply wp_kassert; [done|].
    step. eapply wp_proc_upd; [apply lookup_insert_eq|]. eapply wp_thread_upd; [done|]. apply wp_ret.
    unfold set_procs, set_threads. ored. by rewrite insert_insert_eq.
  - step. eapply wp_proc_upd; [done|]. step. unfold proc_remthread. step. eapply wp_thread_at; [done|]. rewrite Hin.
    step. eapply wp_proc_at; [apply lookup_insert_eq|]. ored. rewrite Ho. step. apply wp_kassert; [done|].
    step. eapply wp_proc_upd; [apply lookup_insert_eq|]. eapply wp_thread_upd; [done|].
    step. unfold proc_signal_end, proc_V. step. eapply wp_proc_at; [ored; apply lookup_insert_eq|]. ored. rewrite Hs.
    step. apply wp_kassert; [done|]. eapply wp_proc_upd; [ored; apply lookup_insert_eq|]. apply wp_ret.
    unfold set_procs, set_threads. ored. by rewrite !insert_insert_eq.
Qed.

(** Waiting for a process whose end has not been announced. *)
Lemma proc_wait_blocks s p x h : o_kproc s <> Some p -> o_procs s !! p = Some x -> p_sem x = Some (h, 0) ->
  proc_wait p s = Stop (Blocked "p_sem") s.
Proof.
  intros Hk Hp Hs. unfold proc_wait, proc_P, proc_at, kassert, gets, deref, bind, ret.
  rewrite bool_decide_eq_true_2 by done. by rewrite Hp, Hs.
Qed.

(** C19. A parent that waits too early blocks, and one that gets through finds
    the process ended: after each of the statements of [sys__exit] before the
    announcement, [proc_wait] waits without having touched the process, and
    after the announcement the status is stored and the thread has left the
    process, which has no threads, as its destruction by the waiter requires. *)
Theorem wait_blocks_until_exit s p t x th h status n :
  exiting s p t x th h -> o_kproc s <> Some p -> (n <= length (exit_steps status p t))%nat ->
  wp (run_steps (take n (exit_steps status p t))) (fun _ s1 =>
    ((n < length (exit_steps status p t))%nat -> proc_wait p s1 = Stop (Blocked "p_sem") s1) /\
    (n = length (exit_steps status p t) -> exists y, o_procs s1 !! p = Some y /\ p_sem y = Some (h, 1) /\
       p_status y = Z.land status 0xff /\ p_numthreads y = 0 /\ t_proc <$> o_threads s1 !! t = Some None)) s.
Proof.
  change (length (exit_steps status p t)) with 3%nat. intros Hex Hk Hn.
  eapply wp_mono; [by apply (exit_steps_spec s p t x th h status n)|]. intros [] s1 ->. split.
  - intros Hlt. assert (Es : p_sem (exit_proc status n x h) = Some (h, 0)).
    { rewrite <- (ex_sem _ _ _ _ _ _ Hex). unfold exit_proc. destruct n as [|[|[|n]]]; [done..|lia]. }
    assert (Ek : o_kproc (if (1 <? n)%nat then set_threads <[t:=with_t_proc None th]> s else s) = o_kproc s) by by destruct (1 <? n)%nat.
    eapply proc_wait_blocks; [by ored; rewrite Ek | apply lookup_insert_eq | exact Es].
  - intros ->. cbn. exists (exit_proc status 3 x h). ored. rewrite !lookup_insert_eq. done.
Qed.

(** The conditions under which the end of [p] can be collected by [next], the
    thread that runs after [t]. *)
Record collected s (p t : nat) (x : proc) (i : nat) (c : cpu) (next : nat) (q : list nat) : Prop := {
  co_sched : sched_inv s;
  co_cpu : o_curcpu s = Some i /\ o_cpus s !! i = Some c /\ c_isidle c = false /\ c_curthread c = Some t;
  co_queue : c_runqueue c = next :: q;
  co_alone : forall u th, u <> t -> o_threads s !! u = Some th -> t_proc th <> Some p;
  co_kproc : o_kproc s <> Some p;
  co_private : forall q y, q <> p -> o_procs s !! q = Some y -> p_addrspace y <> None -> p_addrspace y <> p_addrspace x;
  co_as : forall a, p_addrspace x = Some a -> exists A f n, k_as (view s) !! a = Some A /\ pt_lock A = None /\
    npages A = Z.of_nat (length (pt A)) /\ table_frames (k_cm (view s)) A f n;
}.

(** Leaving the process: the paging kernel does not notice. *)
Lemma view_detached s t th f : cur_thread s = Some t -> o_threads s !! t = Some th ->
  view (set_procs f (set_threads (<[t := with_t_proc None th]>) s)) = set_curproc None (view s).
Proof.
  intros Hc Ht. set (s1 := set_procs f _). assert (E1 : cur_thread s1 = Some t) by exact Hc.
  unfold view, cur_proc. rewrite E1, Hc. unfold s1. ored. cbn [mbind option_bind]. by rewrite lookup_insert_eq, Ht.
Qed.

Lemma vm_inv_detached k b v st : vm_inv k b v st None -> quiet k ->
  vm_inv (set_curproc None k) b v st None /\ quiet (set_curproc None k).
Proof. intros [Hf Hsw Hn Ht Hrr Hc] [Q1 Q2 Q3 Q4 Q5]. split; [by split|by split]. Qed.

Lemma wp_run_steps ms (m : M os unit) (Q : unit -> os -> Prop) s :
  wp (run_steps ms) (fun _ s1 => wp m Q s1) s -> wp (run_steps ms ;; m) Q s.
Proof.
  revert s. induction ms as [|a ms IH]; intros s H; [exact H|]. cbn in *. unfold wp, bind in *.
  destruct (a s) as [[] s1|]; [by apply IH | done].
Qed.

(** A thread that has left its process exits, and [next] runs. *)
Lemma wp_zombie_switch s i c (Q : unit -> os -> Prop) :
  o_curcpu s = Some i -> o_cpus s !! i = Some c -> c_isidle c = false ->
  wp (thread_switch S_ZOMBIE None) Q s -> wp zombie_switch Q s.
Proof.
  intros Hi Hc Hid HQ. unfold zombie_switch, curcpu_self. steps. eapply wp_deref; [done|]. step. eapply wp_cpu_at; [done|]. step.
  rewrite Hid. eapply wp_mono; [exact HQ|]. intros [] s' H. by apply wp_ret.
Qed.

Lemma zombie_spec s t th f i c next q b v st :
  o_threads s !! t = Some th -> cur_thread s = Some t -> sched_inv s -> o_curcpu s = Some i -> o_cpus s !! i = Some c ->
  c_isidle c = false -> c_curthread c = Some t -> c_runqueue c = next :: q -> vm_inv (view s) b v st None -> quiet (view s) ->
  let s1 := set_procs f (set_threads (<[t := with_t_proc None th]>) s) in
  wp zombie_switch (fun _ s2 => switched s1 s2 i t next q S_ZOMBIE None b v st /\ next <> t) s1.
Proof.
  intros Ht Hct Hsi Hi Hc Hid Hcur Hrq Hinv Hq s1. set (th1 := with_t_proc None th).
  assert (Ht1 : o_threads s1 !! t = Some th1) by apply lookup_insert_eq.
  assert (Hsi1 : sched_inv s1) by (apply (sched_stay s s1 t th th1); [done..|]; intros _; done).
  assert (Ev1 : view s1 = set_curproc None (view s)) by by apply view_detached.
  destruct (vm_inv_detached _ _ _ _ Hinv Hq) as [Hinv1 Hq1]. rewrite <- Ev1 in Hinv1, Hq1.
  assert (Hsw : switching s1 i c t th1 S_ZOMBIE None) by by split.
  assert (Hnq : next_queue c t S_ZOMBIE = next :: q) by (unfold next_queue; by rewrite app_nil_r).
  pose proof (next_not_cur _ _ _ _ _ _ _ _ _ Hsw Hnq) as Hnt.
  apply (wp_zombie_switch s1 i c); [done..|].
  eapply wp_mono; [by apply (switch_runs_spec s1 i c t th1 S_ZOMBIE None next q b v st)|]. by intros [] s2 H2.
Qed.

(** The thread [t] of the process is gone and [next] runs: the process can be
    destroyed. *)
Lemma exited_spec s p t x th h status i c next q b v st :
  exiting s p t x th h -> collected s p t x i c next q -> vm_inv (view s) b v st None -> quiet (view s) ->
  wp (sys__exit status) (fun _ s2 => o_threads s2 !! t = None /\ cur_thread s2 = Some next /\
    ended s2 p (exit_proc status 3 x h) h 1 /\ o_procs s2 = <[p := exit_proc status 3 x h]> (o_procs s) /\
    o_table s2 = o_table s /\ o_last_i s2 = o_last_i s /\ sched_inv s2 /\
    vm_inv (view s2) b v st None /\ quiet (view s2) /\ c_spinlocks (k_cpu (view s2)) = c_spinlocks (k_cpu (view s))) s.
Proof.
  intros Hex [Hsi (Hi & Hc & Hid & Hcur) Hrq Hal Hk Hpr Has] Hinv Hq. pose proof Hex as [Hp Ht Hct Hin Ho Hs].
  assert (Hcp : cur_proc s = Some p) by (unfold cur_proc; rewrite Hct; cbn; by rewrite Ht).
  unfold sys__exit, curproc_self. steps. eapply wp_deref; [done|]. unfold curthread_self. steps. eapply wp_deref; [done|].
  apply (wp_run_steps (exit_steps status p t) thread_exit).
  eapply wp_mono; [apply (exit_steps_spec s p t x th h status 3 Hex); lia|]. intros [] s1 ->.
  cbn [Nat.ltb Nat.leb]. set (y := exit_proc status 3 x h). assert (Ev1 := view_detached s t th (fun _ => <[p := y]> (o_procs s)) Hct Ht).
  unfold thread_exit, curthread_self. steps. eapply wp_deref; [exact Hct|]. step. eapply wp_thread_at; [apply lookup_insert_eq|].
  ored. step. apply wp_ret. step. eapply wp_thread_at; [apply lookup_insert_eq|]. step. apply wp_kassert; [done|].
  eapply wp_mono; [by eapply (zombie_spec s t th _ i c next q b v st)|]. cbv zeta. set (s1 := set_procs _ _) in *.
  intros [] s2 [[S1 [S2 _] _ S3 S4 S5 [S6 S7] (S8 & S8' & S8'') _ _ S9 [= S10 S11 S12 S13 S14]] Hnt].
  assert (Hnx : t_proc <$> o_threads s2 !! next = t_proc <$> o_threads s !! next).
  { rewrite S9. unfold s1. ored. by rewrite lookup_insert_ne. }
  assert (Hcp2 : cur_proc s2 <> Some p).
  { unfold cur_proc. rewrite S2. cbn. destruct (o_threads s2 !! next) as [th2|] eqn:E2; [|done]. cbn.
    destruct (o_threads s !! next) as [th3|] eqn:E3; [|done]. cbn in Hnx. injection Hnx as ->. by apply (Hal next). }
  split; [done|]. split; [done|]. split.
  - split; try done.
    + rewrite S10. unfold s1. ored. apply lookup_insert_eq.
    + by rewrite S13.
    + unfold as_idle. change (p_addrspace y) with (p_addrspace x). destruct (p_addrspace x) as [a|] eqn:Ea; [|done].
      destruct (Has a eq_refl) as (A & f & n & H1 & H2 & H3 & H4). exists A, f, n. rewrite S8, S8', Ev1. cbn [k_as k_cm set_curproc].
      split; [done|]. split; [done|]. split; [done|]. split; [done|]. cbn [k_curproc view set_cpu set_curproc].
      destruct (cur_proc s2) as [p2|]; [|done]. cbn. rewrite S10. unfold s1. ored. rewrite lookup_insert_ne by congruence.
      destruct (o_procs s !! p2) as [y2|] eqn:E2; [|done]. cbn. intros [= Ey]. apply (Hpr p2 y2); congruence.
  - split; [done|]. split; [done|]. split; [done|]. split; [done|]. split; [done|]. split; [done|].
    by rewrite S8'', Ev1.
Qed.

(** The table does not care about the other fields. *)
Lemma proc_inv_upd s s' p x y :
  proc_inv s -> o_procs s !! p = Some x -> o_procs s' = <[p := y]> (o_procs s) -> p_pid y = p_pid x ->
  o_table s' = o_table s -> o_last_i s' = o_last_i s -> proc_inv s'.
Proof.
  intros [I1 I2 I3 I4 I5] Hp Ep Ey Et El. split; rewrite ?Ep, ?Et, ?El; try done.
  - intros E. by rewrite (I3 E), lookup_empty in Hp.
  - intros i q Hq. destruct (I4 i q Hq) as (Hi & z & Hz & Hzp). split; [done|]. rewrite lookup_insert.
    destruct (decide (p = q)) as [<-|]; [|by exists z]. exists y. split; [done|]. congruence.
  - intros q z. rewrite lookup_insert. destruct (decide (p = q)) as [<-|]; [|apply I5]. intros [= <-]. rewrite Ey. by apply I5.
Qed.

Lemma wait_spec s p x h b v st :
  ended s p x h 1 -> proc_inv s -> vm_inv (view s) b v st None -> quiet (view s) ->
  (curcpu_exists (k_cpu (view s)) = true -> c_spinlocks (k_cpu (view s)) = 0) ->
  wp (proc_wait p) (fun r s' => r = p_status x /\ reaped s s' p x h v) s.
Proof.
  intros [Hp Hk Hc Ht Hs Ha] I Hinv Hq Hsp. unfold proc_wait. steps. apply wp_kassert; [by apply bool_decide_eq_true|].
  step. unfold proc_P. step. eapply wp_proc_at; [done|]. rewrite Hs. cbn [Z.eqb]. eapply wp_proc_upd; [done|].
  set (y := with_sem _ x). set (s1 := set_procs _ s). assert (Ev : view s1 = view s) by by apply view_insert_proc.
  step. eapply wp_proc_at; [apply lookup_insert_eq|]. step.
  eapply wp_mono; [eapply (destroy_spec_proc s1 p y h 0 b v st); rewrite ?Ev; try done|].
  - split; try done; [apply lookup_insert_eq | by rewrite Ev].
  - by apply (proc_inv_upd s s1 p x y).
  - intros [] s' [R1 R2 R3 R4 R5 R6 R7 R8]. apply wp_ret. split; [done|]. rewrite Ev in *. split; try done.
    rewrite R1. unfold s1. ored. by rewrite delete_insert_eq.
Qed.

(** C18. Exit and wait: when the only thread of a process exits and the next
    thread waits for the process, the wait returns the low eight bits of the
    status given to [sys__exit]; the process and its thread are gone, its pid
    is free, its memory is returned, and the invariants of the scheduler, the
    process table and the paging kernel hold. *)
Theorem wait_returns_status s p t x th h status i c next q b v st :
  exiting s p t x th h -> collected s p t x i c next q -> proc_inv s -> vm_inv (view s) b v st None -> quiet (view s) ->
  c_spinlocks (k_cpu (view s)) = 0 ->
  wp (sys__exit status ;; proc_wait p) (fun r s' => r = Z.land status 0xff /\ o_procs s' = delete p (o_procs s) /\
    o_threads s' !! t = None /\ cur_thread s' = Some next /\
    o_table s' = <[Z.to_nat (p_pid x) := None]> (o_table s) /\ proc_inv s' /\ sched_inv s' /\
    exists b' st', vm_inv (view s') b' v st' None /\ quiet (view s')) s.
Proof.
  intros Hex Hco I Hinv Hq Hsp. pose proof (ex_proc _ _ _ _ _ _ Hex) as Hp. step.
  eapply wp_mono; [by eapply (exited_spec s p t x th h status)|].
  intros [] s2 (E1 & E2 & E3 & E4 & E5 & E6 & E7 & E8 & E9 & E10).
  eapply wp_mono; [eapply (wait_spec s2 p); try done|].
  - by apply (proc_inv_upd s s2 p x (exit_proc status 3 x h)).
  - intros _. by rewrite E10.
  - intros r s' [-> [R1 R2 R3 R4 R5 R6 R7 (R8 & R9 & R10 & R11 & R12)]]. split; [done|].
    split; [rewrite R1, E4; by rewrite delete_insert_eq|]. split; [by rewrite R8|].
    split; [unfold cur_thread, cur_cpu in *; by rewrite R9, R10|]. split; [by rewrite R2, E5|]. split; [done|].
    split; [|done]. apply (sched_ext s2); try done. intros j. by rewrite R9.
Qed.
End Exit.
