(* ===== verification/FileSyscalls.v ===== *)
(** System calls on files and the console ([syscall/file_syscalls.c]).

    The kernel reads and writes user buffers through the TLB: console output
    and input access them byte by byte ([user_load], [user_store] of
    [Runs.v]).  For files the source leaves the transfer to [VOP_READ] and
    [VOP_WRITE] with a [uio] on the user buffer; the two directions of that
    transfer are [copyin] and [copyout], which are not in the repository:
    [VOP_READ] yields the bytes of the device, which are then copied out, and
    [VOP_WRITE] is given the bytes that were copied in.

    Whether files and [fork] are compiled in is the configuration's choice
    ([Options]); the paging configuration selects neither.  Paths and flags
    are handed to the VFS as they are; kernel messages are not modelled. *)

From Stdlib Require Import ZArith Lia.
From stdpp Require Import base list gmap strings.
From S2P Require Import Prelude Platform State Synch AddrSpace VmFault Runs Os Proc.
Local Open Scope Z_scope.

(** [copyinout.c], as used by [uiomove]. *)
Class UserCopy {P : Platform} := {
  copyin : Z -> Z -> M kernel (errno + list Z);
  copyout : Z -> list Z -> M kernel rc;
  copyoutstr : Z -> list Z -> M kernel rc;
}.

(** The options of the kernel configuration that the system calls depend on. *)
Class Options := { OPT_FILE : bool; OPT_FORK : bool }.

Definition STDIN_FILENO : Z := 0.
Definition STDOUT_FILENO : Z := 1.
Definition STDERR_FILENO : Z := 2.

Section Files.
Context {P : Platform} {UC : UserCopy} {OPT : Options}.

Definition SYSTEM_OPEN_MAX : Z := 10 * OPEN_MAX.

(** ** Open files *)

(** [curproc->fileTable[fd]] after the test of [fd] that the functions share;
    [None] is the return value -1. *)
Definition file_entry (fd : Z) : M os (option nat) :=
  if (fd <? 0) || (OPEN_MAX <? fd) then ret None
  else
    let* p := curproc_self in
    let* x := proc_at p in
    deref (p_fileTable x !! Z.to_nat fd) "fileTable[fd]".

Definition openfile_at (i : nat) : M os openfile :=
  let* l := gets o_files in deref (l !! i) "of".

Definition openfile_upd (i : nat) (f : openfile -> openfile) : M os unit :=
  let* x := openfile_at i in modify (set_files (<[i := f x]>)).

Definition file_read (fd buf_ptr size : Z) : M os Z :=
  let* o := file_entry fd in
  match o with
  | None => ret (-1)
  | Some i =>
      let* x := openfile_at i in
      match of_vn x with
      | None => ret (-1)
      | Some vn =>
          let* d := gets (fun s => k_disk (o_k s)) in
          match VOP_READ vn (of_offset x) size d with
          | inl e => ret (errno_code e)
          | inr bs =>
              let* r := vm (copyout buf_ptr bs) in
              match r with
              | Err e => ret (errno_code e)
              | OK =>
                  openfile_upd i (fun x => mk_openfile (of_vn x) (of_offset x + Z.of_nat (length bs)) (of_countRef x)) ;;
                  ret (size - (size - Z.of_nat (length bs)))
              end
          end
      end
  end.

Definition file_write (fd buf_ptr size : Z) : M os Z :=
  let* o := file_entry fd in
  match o with
  | None => ret (-1)
  | Some i =>
      let* x := openfile_at i in
      match of_vn x with
      | None => ret (-1)
      | Some vn =>
          let* r := vm (copyin buf_ptr size) in
          match r with
          | inl e => ret (errno_code e)
          | inr bs =>
              let* d := gets (fun s => k_disk (o_k s)) in
              match VOP_WRITE vn (of_offset x) bs d with
              | inl e => ret (errno_code e)
              | inr d' =>
                  vm (modify (set_disk d')) ;;
                  openfile_upd i (fun x => mk_openfile (of_vn x) (of_offset x + Z.of_nat (length bs)) (of_countRef x)) ;;
                  ret (size - (size - Z.of_nat (length bs)))
              end
          end
      end
  end.

(** The first free slot of the system table among the indices. *)
Definition find_slot : M os (option nat) :=
  for_break (seq 0 (Z.to_nat SYSTEM_OPEN_MAX)) (fun i =>
    let* x := openfile_at i in ret (bool_decide (of_vn x = None))).

Definition find_fd (p : nat) : M os (option nat) :=
  for_break (seq (Z.to_nat (STDERR_FILENO + 1)) (Z.to_nat (OPEN_MAX - (STDERR_FILENO + 1)))) (fun fd =>
    let* x := proc_at p in
    let* o := deref (p_fileTable x !! fd) "fileTable[fd]" in
    ret (bool_decide (o = None))).

(** The result and the value of [*errp]. *)
Definition sys_open (path : string) : M os (Z * rc) :=
  let* d := gets (fun s => k_disk (o_k s)) in
  match vfs_open path d with
  | inl _ => ret (-1, Err ENOENT)
  | inr (v, d') =>
      vm (modify (set_disk d')) ;;
      let* slot := find_slot in
      let* err :=
        match slot with
        | None => ret (inl ENFILE)
        | Some i =>
            openfile_upd i (fun _ => mk_openfile (Some v) 0 1) ;;
            let* p := curproc_self in
            let* fd := find_fd p in
            match fd with
            | None => ret (inl EMFILE)
            | Some fd => proc_upd p (fun x => with_fileTable (<[fd := Some i]> (p_fileTable x)) x) ;; ret (inr fd)
            end
        end in
      match err with
      | inr fd => ret (Z.of_nat fd, OK)
      | inl e => vm (modify (fun k => set_disk (vfs_close v (k_disk k)) k)) ;; ret (-1, Err e)
      end
  end.

Definition sys_close (fd : Z) : M os Z :=
  let* o := file_entry fd in
  match o with
  | None => ret (-1)
  | Some i =>
      let* p := curproc_self in
      proc_upd p (fun x => with_fileTable (<[Z.to_nat fd := None]> (p_fileTable x)) x) ;;
      openfile_upd i (fun x => mk_openfile (of_vn x) (of_offset x) (u32 (of_countRef x - 1))) ;;
      let* x := openfile_at i in
      if 0 <? of_countRef x then ret 0
      else
        openfile_upd i (fun x => mk_openfile None (of_offset x) (of_countRef x)) ;;
        match of_vn x with
        | None => ret (-1)
        | Some vn => vm (modify (fun k => set_disk (vfs_close vn (k_disk k)) k)) ;; ret 0
        end
  end.

(** ** The console *)

Definition putch (c : Z) : M os unit := modify (fun s => set_console (o_console_in s) (o_console_out s ++ [c]) s).

(** [getch] waits for input. *)
Definition getch : M os Z :=
  let* i := gets o_console_in in
  match i with
  | [] => halt (Blocked "getch")
  | c :: i => modify (fun s => set_console i (o_console_out s) s) ;; ret c
  end.

Definition sys_write (fd buf_ptr size : Z) : M os Z :=
  if negb (fd =? STDOUT_FILENO) && negb (fd =? STDERR_FILENO) then (if OPT_FILE then file_write fd buf_ptr size else ret (-1))
  else
    for_each (seq 0 (Z.to_nat (to_int size))) (fun i =>
      let* c := vm (user_load (u32 (buf_ptr + Z.of_nat i))) in putch c) ;;
    ret (to_int size).

(** The loop of [sys_read]: [char] is signed, a byte above 127 ends it. *)
Fixpoint read_loop (buf_ptr : Z) (i n : nat) : M os (option nat) :=
  match n with
  | O => ret None
  | S n =>
      let* c := getch in
      vm (user_store (u32 (buf_ptr + Z.of_nat i)) (Z.land c 0xff)) ;;
      let* c := vm (user_load (u32 (buf_ptr + Z.of_nat i))) in
      if 0x80 <=? c then ret (Some i) else read_loop buf_ptr (S i) n
  end.

Definition sys_read (fd buf_ptr size : Z) : M os Z :=
  if negb (fd =? STDIN_FILENO) then (if OPT_FILE then file_read fd buf_ptr size else ret (-1))
  else
    let* r := read_loop buf_ptr 0 (Z.to_nat (to_int size)) in
    ret (match r with Some i => Z.of_nat i | None => to_int size end).
End Files.
