(* ===== verification/FileTable.v ===== *)
(** The open file tables: the reference counts of the system table are exact,
    and what opening, closing, console output and the tests on file
    descriptors do. *)

From Stdlib Require Import ZArith Lia.
From stdpp Require Import base list gmap strings.
From S2P Require Import Prelude Platform State Synch Swap Paging AddrSpace VmFault Runs Os Proc FileSyscalls.
Local Open Scope Z_scope.

(** ** Counting references *)

Definition count_refs (i : nat) (l : list (option nat)) : nat := length (filter (fun o => o = Some i) l).

Definition one (o : option nat) (i : nat) : nat := if decide (o = Some i) then 1 else 0.

Lemma count_refs_insert i l fd o o' : l !! fd = Some o ->
  (count_refs i (<[fd := o']> l) + one o i = count_refs i l + one o' i)%nat.
Proof.
  intros Hfd. assert (Hl : (fd < length l)%nat) by by eapply lookup_lt_Some.
  rewrite <- (take_drop_middle l fd o Hfd) at 2. rewrite insert_take_drop by done.
  unfold count_refs, one. rewrite !filter_app, !length_app. cbn [filter list_filter].
  destruct (decide (o' = Some i)), (decide (o = Some i)); cbn; lia.
Qed.

Lemma count_none i n : count_refs i (replicate n None) = 0%nat.
Proof. unfold count_refs. by induction n. Qed.

Section Refs.
Context {P : Platform}.
Implicit Types (s : os) (procs : gmap nat proc).

Definition refs procs (i : nat) : nat :=
  map_fold (fun _ x n => (count_refs i (p_fileTable x) + n)%nat) 0%nat procs.

Lemma refs_insert procs p y i : procs !! p = None -> refs (<[p := y]> procs) i = (count_refs i (p_fileTable y) + refs procs i)%nat.
Proof. intros Hp. unfold refs. rewrite map_fold_insert_L; [done | intros; lia | done]. Qed.

Lemma refs_update procs p x y i : procs !! p = Some x ->
  (refs (<[p := y]> procs) i + count_refs i (p_fileTable x) = refs procs i + count_refs i (p_fileTable y))%nat.
Proof.
  intros Hp. rewrite <- insert_delete_eq, refs_insert by apply lookup_delete_eq.
  rewrite <- (insert_delete_id procs p x Hp) at 2. rewrite refs_insert by apply lookup_delete_eq. lia.
Qed.

(** The file table of one process changes at [fd]. *)
Lemma refs_set procs p x fd o o' i : procs !! p = Some x -> p_fileTable x !! fd = Some o ->
  (refs (<[p := with_fileTable (<[fd := o']> (p_fileTable x)) x]> procs) i + one o i = refs procs i + one o' i)%nat.
Proof.
  intros Hp Hfd. pose proof (refs_update procs p x (with_fileTable (<[fd := o']> (p_fileTable x)) x) i Hp) as H1.
  pose proof (count_refs_insert i (p_fileTable x) fd o o' Hfd) as H2. cbn [p_fileTable with_fileTable] in H1. lia.
Qed.

Record files_ok s : Prop := {
  fk_length : length (o_files s) = Z.to_nat SYSTEM_OPEN_MAX;
  fk_tables : forall p x, o_procs s !! p = Some x -> length (p_fileTable x) = Z.to_nat OPEN_MAX;
  fk_counts : forall i f, o_files s !! i = Some f ->
    match of_vn f with
    | Some _ => of_countRef f = Z.of_nat (refs (o_procs s) i) /\ 0 < of_countRef f < 2 ^ 32
    | None => refs (o_procs s) i = O
    end;
}.

(** Process [p] runs. *)
Definition runs s (p : nat) (x : proc) : Prop := cur_proc s = Some p /\ o_procs s !! p = Some x.

(** Changing only file tables keeps who runs. *)
Lemma wp_curproc s p (Q : nat -> os -> Prop) : cur_proc s = Some p -> Q p s -> wp curproc_self Q s.
Proof. intros Hc HQ. unfold curproc_self. steps. by eapply wp_deref. Qed.

Lemma wp_openfile_at i f s (Q : openfile -> os -> Prop) : o_files s !! i = Some f -> Q f s -> wp (openfile_at i) Q s.
Proof. intros H HQ. unfold openfile_at. steps. by eapply wp_deref. Qed.

Lemma wp_openfile_upd i f g s (Q : unit -> os -> Prop) :
  o_files s !! i = Some f -> Q tt (set_files (<[i := g f]>) s) -> wp (openfile_upd i g) Q s.
Proof. intros H HQ. unfold openfile_upd. step. eapply wp_openfile_at; [done|]. by steps. Qed.

(** Changing the disk changes nothing else. *)
Lemma wp_disk f s (Q : unit -> os -> Prop) :
  Q tt (set_k (fun _ => set_disk (f (k_disk (o_k s))) (view s)) s) -> wp (vm (modify (fun k => set_disk (f (k_disk k)) k))) Q s.
Proof. intros HQ. apply wp_vm_keep, wp_modify. split; [by split | done]. Qed.

Lemma wp_set_disk d s (Q : unit -> os -> Prop) :
  Q tt (set_k (fun _ => set_disk d (view s)) s) -> wp (vm (modify (set_disk d))) Q s.
Proof. intros HQ. apply wp_vm_keep, wp_modify. split; [by split | done]. Qed.

Lemma wp_file_entry s p x fd o (Q : option nat -> os -> Prop) :
  runs s p x -> 0 <= fd < OPEN_MAX -> p_fileTable x !! Z.to_nat fd = Some o -> Q o s -> wp (file_entry fd) Q s.
Proof.
  intros [Hc Hp] Hfd Ho HQ. unfold file_entry. destruct (Z.ltb_spec fd 0); [lia|]. destruct (Z.ltb_spec OPEN_MAX fd); [lia|]. cbn.
  step. eapply wp_curproc; [done|]. step. eapply wp_proc_at; [done|]. by eapply wp_deref.
Qed.

(** ** Closing *)

(** What closing descriptor [fd] of [p], which refers to entry [i], does. *)
Record closed s s' (p : nat) (x : proc) (fd i : nat) (f : openfile) (vn : vnode) : Prop := {
  cl_files : files_ok s';
  cl_procs : o_procs s' = <[p := with_fileTable (<[fd := None]> (p_fileTable x)) x]> (o_procs s);
  cl_others : forall j, j <> i -> o_files s' !! j = o_files s !! j;
  cl_entry : if decide (of_countRef f = 1)
             then of_vn <$> o_files s' !! i = Some None /\ k_disk (o_k s') = vfs_close vn (k_disk (o_k s))
             else o_files s' !! i = Some (mk_openfile (Some vn) (of_offset f) (of_countRef f - 1)) /\ o_k s' = o_k s;
}.

Lemma close_spec s p x fd i f vn :
  files_ok s -> runs s p x -> 0 <= fd < OPEN_MAX -> p_fileTable x !! Z.to_nat fd = Some (Some i) ->
  o_files s !! i = Some f -> of_vn f = Some vn ->
  wp (sys_close fd) (fun r s' => r = 0 /\ closed s s' p x (Z.to_nat fd) i f vn) s.
Proof.
  intros Hok Hr Hfd Hi Hf Hvn. pose proof Hr as [Hc Hp]. pose proof Hok as [Hlen Htab Hcnt].
  pose proof (Hcnt i f Hf) as Hcf. rewrite Hvn in Hcf. destruct Hcf as [Hcf Hrg].
  unfold sys_close. step. eapply wp_file_entry; [done..|]. cbv beta match. step. eapply wp_curproc; [done|]. step.
  eapply wp_proc_upd; [done|]. step. eapply wp_openfile_upd; [done|]. rewrite u32_small by lia. ored.
  assert (Hli : (i < length (o_files s))%nat) by by eapply lookup_lt_Some.
  set (y := with_fileTable (<[Z.to_nat fd := None]> (p_fileTable x)) x).
  assert (Hrefs : forall j, (refs (<[p := y]> (o_procs s)) j + one (Some i) j = refs (o_procs s) j + 0)%nat).
  { intros j. apply (refs_set (o_procs s) p x (Z.to_nat fd) (Some i) None j Hp Hi). }
  assert (Hothers : forall j, j <> i -> refs (<[p := y]> (o_procs s)) j = refs (o_procs s) j).
  { intros j Hj. specialize (Hrefs j). unfold one in Hrefs. rewrite decide_False in Hrefs by congruence. lia. }
  assert (Hmine : (refs (<[p := y]> (o_procs s)) i + 1 = refs (o_procs s) i)%nat).
  { specialize (Hrefs i). unfold one in Hrefs. rewrite decide_True in Hrefs by done. lia. }
  assert (Htab' : forall q z, <[p := y]> (o_procs s) !! q = Some z -> length (p_fileTable z) = Z.to_nat OPEN_MAX).
  { intros q z. rewrite lookup_insert. destruct (decide (p = q)); [|apply Htab]. intros [= <-]. cbn. rewrite length_insert. eauto. }
  assert (Hcnts : forall (s' : os) g, o_procs s' = <[p := y]> (o_procs s) -> o_files s' = <[i := g]> (o_files s) ->
    (match of_vn g with Some _ => of_countRef g = of_countRef f - 1 /\ 1 < of_countRef f | None => of_countRef f = 1 end) -> files_ok s').
  { intros s' g Ep Ef Hg. split; rewrite ?Ep, ?Ef; [by rewrite length_insert | done|]. intros j z Hz.
    destruct (decide (j = i)) as [->|Hj].
    - rewrite list_lookup_insert_eq in Hz by done. injection Hz as <-. destruct (of_vn g); lia.
    - rewrite list_lookup_insert_ne in Hz by done. rewrite Hothers by done. by apply Hcnt. }
  step. eapply wp_openfile_at; [by apply list_lookup_insert_eq|]. ored. rewrite Hvn.
  destruct (Z.ltb_spec 0 (of_countRef f - 1)) as [Hmore|Hlast].
  - apply wp_ret. split; [done|]. split; ored.
    + eapply (Hcnts _ (mk_openfile (Some vn) (of_offset f) (of_countRef f - 1))); [done..|]. cbn. lia.
    + done.
    + intros j Hj. by apply list_lookup_insert_ne.
    + rewrite decide_False by lia. by rewrite list_lookup_insert_eq.
  - step. eapply wp_openfile_upd; [by apply list_lookup_insert_eq|]. step. eapply wp_disk. apply wp_ret. split; [done|].
    split; ored.
    + eapply (Hcnts _ (mk_openfile None (of_offset f) (of_countRef f - 1))); [done| |cbn; lia].
      ored. by rewrite list_insert_insert_eq.
    + done.
    + intros j Hj. rewrite !list_lookup_insert_ne by done. done.
    + rewrite decide_True by lia. split; [|done]. rewrite list_lookup_insert_eq; [done|]. by rewrite length_insert.
Qed.

(** ** Opening *)

Lemma find_slot_spec s : length (o_files s) = Z.to_nat SYSTEM_OPEN_MAX ->
  wp find_slot (fun r s' => s' = s /\ match r with
    | Some i => exists f, o_files s !! i = Some f /\ of_vn f = None /\
        forall j g, (j < i)%nat -> o_files s !! j = Some g -> of_vn g <> None
    | None => forall i f, o_files s !! i = Some f -> of_vn f <> None
    end) s.
Proof.
  intros Hlen. unfold find_slot.
  set (free := fun i => match o_files s !! i with Some f => bool_decide (of_vn f = None) | None => false end).
  eapply wp_eq; [apply (for_break_search _ _ free)|].
  - intros i Hi%elem_of_seq. destruct (lookup_lt_is_Some_2 (o_files s) i) as [f Hf]; [lia|].
    unfold free, openfile_at, gets, deref, bind, ret. by rewrite Hf.
  - split; [done|]. destruct (list_find _ _) as [[n i]|] eqn:E; cbn.
    + apply list_find_Some in E as (Hn & Hi & Hfirst). unfold free in Hi. destruct (o_files s !! i) as [f|]; [|done].
      exists f. split; [done|]. split; [by apply bool_decide_eq_true in Hi|]. intros j g Hj Hg Hv.
      apply lookup_seq in Hn as [Hin Hn]. apply (Hfirst j j); [apply lookup_seq; lia | lia|].
      unfold free. rewrite Hg. by apply bool_decide_eq_true.
    + apply list_find_None in E. intros i f Hf Hn. rewrite Forall_forall in E. apply (E i).
      * apply elem_of_seq. apply lookup_lt_Some in Hf. lia.
      * unfold free. rewrite Hf. by apply bool_decide_eq_true.
Qed.

Lemma find_fd_spec s p x : o_procs s !! p = Some x -> length (p_fileTable x) = Z.to_nat OPEN_MAX ->
  wp (find_fd p) (fun r s' => s' = s /\ match r with
    | Some fd => 3 <= Z.of_nat fd < OPEN_MAX /\ p_fileTable x !! fd = Some None /\
        forall j, 3 <= Z.of_nat j < Z.of_nat fd -> p_fileTable x !! j <> Some None
    | None => forall fd o, 3 <= Z.of_nat fd -> p_fileTable x !! fd = Some o -> o <> None
    end) s.
Proof.
  intros Hp Hlen. unfold find_fd.
  eapply wp_eq; [apply (for_break_search _ _ (fun fd => bool_decide (p_fileTable x !! fd = Some None)))|].
  - intros fd Hfd%elem_of_seq. unfold STDERR_FILENO in Hfd. destruct (lookup_lt_is_Some_2 (p_fileTable x) fd) as [o Ho]; [lia|].
    unfold proc_at, gets, deref, bind, ret. rewrite Hp, Ho. f_equal. apply bool_decide_ext. split; congruence.
  - split; [done|]. destruct (list_find _ _) as [[n fd]|] eqn:E; cbn.
    + apply list_find_Some in E as (Hn & Hi & Hfirst). apply bool_decide_eq_true in Hi.
      apply lookup_seq in Hn as [-> Hn]. unfold STDERR_FILENO in *. split; [lia|]. split; [done|]. intros j Hj Hnone.
      apply (Hfirst (j - 3)%nat j); [apply lookup_seq; lia | lia | by apply bool_decide_eq_true].
    + apply list_find_None in E. intros fd o Hfd Ho ->. rewrite Forall_forall in E. apply (E fd).
      * apply elem_of_seq. apply lookup_lt_Some in Ho. unfold STDERR_FILENO. lia.
      * by apply bool_decide_eq_true.
Qed.

(** Entry [i] of the system table, and descriptor [fd] of [x], is the first
    that is free. *)
Definition first_slot s (i : nat) : Prop :=
  of_vn <$> o_files s !! i = Some None /\ forall j g, (j < i)%nat -> o_files s !! j = Some g -> of_vn g <> None.
Definition first_fd (x : proc) (fd : Z) : Prop :=
  3 <= fd < OPEN_MAX /\ p_fileTable x !! Z.to_nat fd = Some None /\
  forall j, 3 <= Z.of_nat j < fd -> p_fileTable x !! j <> Some None.

(** What [sys_open] gives back for process [p]. *)
Definition opened s s' (p : nat) (x : proc) (path : string) (r : Z * rc) : Prop :=
  match r.2 with
  | OK => first_fd x r.1 /\ exists i v d,
      vfs_open path (k_disk (o_k s)) = inr (v, d) /\ first_slot s i /\
      o_files s' = <[i := mk_openfile (Some v) 0 1]> (o_files s) /\
      o_procs s' = <[p := with_fileTable (<[Z.to_nat r.1 := Some i]> (p_fileTable x)) x]> (o_procs s) /\
      k_disk (o_k s') = d /\ cur_proc s' = Some p /\ files_ok s'
  | Err ENOENT => r.1 = -1 /\ s' = s /\ exists e, vfs_open path (k_disk (o_k s)) = inl e
  | Err ENFILE => r.1 = -1 /\ o_files s' = o_files s /\ o_procs s' = o_procs s /\ files_ok s' /\
      (forall i f, o_files s !! i = Some f -> of_vn f <> None) /\
      exists v d, vfs_open path (k_disk (o_k s)) = inr (v, d) /\ k_disk (o_k s') = vfs_close v d
  | Err EMFILE => r.1 = -1 /\ o_procs s' = o_procs s /\ (forall fd o, 3 <= Z.of_nat fd -> p_fileTable x !! fd = Some o -> o <> None) /\
      exists i v d, vfs_open path (k_disk (o_k s)) = inr (v, d) /\ k_disk (o_k s') = vfs_close v d /\ first_slot s i /\
        o_files s' = <[i := mk_openfile (Some v) 0 1]> (o_files s) /\ refs (o_procs s') i = O
  | Err _ => False
  end.

Lemma open_spec s p x path : files_ok s -> runs s p x -> wp (sys_open path) (fun r s' => opened s s' p x path r) s.
Proof.
  intros Hok [Hc Hp]. pose proof Hok as [Hlen Htab Hcnt]. unfold sys_open. steps.
  destruct (vfs_open path (k_disk (o_k s))) as [e|[v d]] eqn:Ho; [apply wp_ret; cbn; by eauto|].
  step. apply wp_set_disk. set (s1 := set_k _ s). step.
  eapply wp_mono; [by apply (find_slot_spec s1)|]. intros slot s1' [-> Hslot]. step. destruct slot as [i|].
  - destruct Hslot as (f & Hf & Hvn & Hfirst). step. eapply wp_openfile_upd; [done|]. step. eapply wp_curproc; [done|]. step.
    set (s2 := set_files _ s1). eapply wp_mono; [by apply (find_fd_spec s2 p x); eauto|]. intros fd s2' [-> Hfd].
    assert (Hli : (i < length (o_files s))%nat) by by eapply lookup_lt_Some.
    assert (Hr0 : refs (o_procs s) i = O) by (pose proof (Hcnt i f Hf) as H; by rewrite Hvn in H).
    assert (Hfree : of_vn <$> o_files s !! i = Some None) by (change (o_files s1) with (o_files s) in Hf; rewrite Hf; cbn; by rewrite Hvn).
    assert (Hslot : first_slot s i) by by split.
    destruct fd as [fd|].
    + destruct Hfd as (Hfd & Hnone & Hffd). step. eapply wp_proc_upd; [done|]. steps. unfold opened. cbn [fst snd]. rewrite Nat2Z.id.
      split; [by unfold first_fd; rewrite Nat2Z.id|]. exists i, v, d. do 6 (split; [done|]).
      pose proof (refs_set (o_procs s) p x fd None (Some i)) as Hrefs.
      assert (Ef : o_files s2 = <[i := mk_openfile (Some v) 0 1]> (o_files s)) by done. assert (Ep : o_procs s2 = o_procs s) by done.
      split; ored; rewrite ?Ef, ?Ep; [by rewrite length_insert | |].
      * intros q z. rewrite lookup_insert. destruct (decide (p = q)); [|apply Htab]. intros [= <-]. cbn. rewrite length_insert. eauto.
      * intros j z Hz. specialize (Hrefs j Hp Hnone). unfold one in Hrefs. rewrite decide_False in Hrefs by done.
        destruct (decide (j = i)) as [->|Hj].
        -- rewrite decide_True in Hrefs by done. rewrite list_lookup_insert_eq in Hz by done. injection Hz as <-. cbn.
           lia.
        -- rewrite decide_False in Hrefs by congruence. rewrite list_lookup_insert_ne in Hz by done.
           replace (refs _ j) with (refs (o_procs s) j) by lia. by apply Hcnt.
    + steps. apply wp_disk. apply wp_ret. unfold opened. cbn [fst snd]. split; [done|]. split; [done|]. split; [done|]. by exists i, v, d.
  - steps. apply wp_disk. apply wp_ret. unfold opened. cbn [fst snd]. do 3 (split; [done|]). split; [by split|]. split; [done|]. by exists v, d.
Qed.

(** C25. Opening a file, on every path: on success the descriptor is the first
    free one above the standard ones, it refers to the first free entry of the
    system table, which now holds the file and counts one reference, and all
    counts are exact.  A path that cannot be opened changes nothing.  With the
    system table full the file is closed again and nothing else has changed.
    With the process's table full the file is closed too, but the entry of
    the system table stays taken, with a count of one although nothing refers
    to it. *)
Theorem sys_open_outcomes s p x path : files_ok s -> runs s p x -> wp (sys_open path) (fun r s' => opened s s' p x path r) s.
Proof. apply open_spec. Qed.

(** C26. Closing a descriptor frees it, and exactly the last reference to an
    entry closes the file; all counts stay exact. *)
Theorem sys_close_counts s p x fd i f vn :
  files_ok s -> runs s p x -> 0 <= fd < OPEN_MAX -> p_fileTable x !! Z.to_nat fd = Some (Some i) ->
  o_files s !! i = Some f -> of_vn f = Some vn ->
  wp (sys_close fd) (fun r s' => r = 0 /\ closed s s' p x (Z.to_nat fd) i f vn) s.
Proof. apply close_spec. Qed.

(** C27. Opening a file and closing it again restores every process's
    descriptors and the free entries of the system table, and the file is
    closed. *)
Theorem open_close_roundtrip s p x path :
  files_ok s -> runs s p x ->
  wp (sys_open path) (fun r s1 => r.2 = OK -> wp (sys_close r.1) (fun c s2 => c = 0 /\ o_procs s2 = o_procs s /\ files_ok s2 /\
    (forall j, of_vn <$> o_files s2 !! j = of_vn <$> o_files s !! j) /\
    exists v d, vfs_open path (k_disk (o_k s)) = inr (v, d) /\ k_disk (o_k s2) = vfs_close v d) s1) s.
Proof.
  intros Hok Hr. eapply wp_mono; [by eapply open_spec|]. intros [fd r] s1 Ho Hr1. cbn in Hr1. subst r.
  destruct Ho as ((Hfd & Hn & _) & i & v & d & Hopen & [Hfree _] & Ef & Ep & Ed & Ec & Hok1). cbn [fst snd] in *.
  set (y := with_fileTable (<[Z.to_nat fd := Some i]> (p_fileTable x)) x) in *.
  assert (Hr1 : runs s1 p y) by (split; [done | rewrite Ep; apply lookup_insert_eq]).
  assert (Hli : (i < length (o_files s))%nat) by (destruct (o_files s !! i) eqn:E; [by eapply lookup_lt_Some | done]).
  assert (Hlf : (Z.to_nat fd < length (p_fileTable x))%nat) by by eapply lookup_lt_Some.
  eapply wp_mono; [eapply (close_spec s1 p y fd i (mk_openfile (Some v) 0 1) v); try done; [lia| |]|].
  - by apply list_lookup_insert_eq.
  - rewrite Ef. by apply list_lookup_insert_eq.
  - intros c s2 [-> [C1 C2 C3 [C4 C5]]]. split; [done|]. split; [|split; [done|split]].
    + rewrite C2, Ep, insert_insert_eq. apply insert_id. destruct Hr as [_ Hp]. rewrite Hp. f_equal. unfold y. destruct x. unfold with_fileTable. cbn in *.
      by rewrite list_insert_insert_eq, list_insert_id.
    + intros j. destruct (decide (j = i)) as [->|Hj]; [by rewrite C4|]. rewrite C3, Ef by done. by rewrite list_lookup_insert_ne.
    + exists v, d. split; [done|]. by rewrite C5, Ed.
Qed.
(** The file tables of parent and child after the copy in [sys_fork], which
    names them in the wrong order: the table of the new process, which is
    empty, replaces that of its parent, while the system table still counts
    the parent's references. *)
Lemma fork_swaps_tables s newp cur x y :
  newp <> cur -> o_procs s !! newp = Some x -> p_fileTable x = replicate (Z.to_nat OPEN_MAX) None ->
  o_procs s !! cur = Some y -> length (p_fileTable y) = Z.to_nat OPEN_MAX ->
  wp (proc_file_table_copy newp cur) (fun _ s' =>
    s' = set_procs (<[cur := with_fileTable (replicate (Z.to_nat OPEN_MAX) None) y]>) s) s.
Proof.
  intros Hne Hx Hxt Hy Hyl. unfold proc_file_table_copy. set (m := Z.to_nat OPEN_MAX) in *.
  apply (wp_for_each (fun idx s' => exists n, idx = seq n (m - n) /\ (n <= m)%nat /\
    s' = set_procs (<[cur := with_fileTable (replicate n None ++ drop n (p_fileTable y)) y]>) s)).
  - exists 0%nat. rewrite Nat.sub_0_r. split; [done|]. split; [lia|]. unfold set_procs. rewrite insert_id; [by destruct s|].
    rewrite Hy. by destruct y.
  - intros fd idx s1 (n & Hidx & Hn & ->). destruct (m - n)%nat as [|k] eqn:Em; [done|]. cbn in Hidx. injection Hidx as -> ->.
    step. eapply wp_proc_at; [ored; rewrite lookup_insert_ne by done; exact Hx|]. step.
    eapply wp_deref; [rewrite Hxt; apply lookup_replicate_2; lia|]. step.
    eapply wp_proc_upd; [apply lookup_insert_eq|]. unfold openfileIncrRefCount. steps. exists (S n).
    split; [f_equal; lia|]. split; [lia|]. unfold set_procs. ored. rewrite insert_insert_eq, replicate_S_end. f_equal. f_equal.
    unfold with_fileTable. cbn. f_equal.
    destruct (lookup_lt_is_Some_2 (p_fileTable y) n) as [o Ho]; [lia|]. rewrite (drop_S _ _ _ Ho), insert_app_r_alt by (rewrite length_replicate; lia).
    rewrite length_replicate, Nat.sub_diag. cbn [insert list_insert]. by rewrite <- app_assoc.
  - intros s1 (n & Hidx & Hn & ->). assert (n = m) as -> by (destruct (m - n)%nat eqn:Em; [lia | done]).
    by rewrite drop_ge, app_nil_r by lia.
Qed.
End Refs.

Section Bounds.
Context {P : Platform} {L : PlatformLaws P} {UC : UserCopy} {OPT : Options}.
Implicit Types (s : os).

(** C39. The test on descriptors lets [OPEN_MAX] through: closing, reading or
    writing that descriptor, in a kernel with files, reads past the end of the process's table. *)
Theorem fd_check_off_by_one s p x buf size :
  OPT_FILE = true -> files_ok s -> runs s p x ->
  sys_close OPEN_MAX s = Stop (Undef "fileTable[fd]") s /\
  sys_read OPEN_MAX buf size s = Stop (Undef "fileTable[fd]") s /\
  sys_write OPEN_MAX buf size s = Stop (Undef "fileTable[fd]") s.
Proof.
  intros Hopt Hok [Hc Hp]. pose proof open_max_range. assert (He : file_entry OPEN_MAX s = Stop (Undef "fileTable[fd]") s).
  { unfold file_entry. destruct (Z.ltb_spec OPEN_MAX 0); [lia|]. rewrite Z.ltb_irrefl. cbn [orb].
    unfold curproc_self, proc_at, gets, deref, bind, ret. rewrite Hc, Hp.
    rewrite lookup_ge_None_2; [done|]. rewrite (fk_tables _ Hok p x Hp). lia. }
  unfold sys_close, sys_read, sys_write, file_read, file_write, STDIN_FILENO, STDOUT_FILENO, STDERR_FILENO.
  rewrite !(proj2 (Z.eqb_neq OPEN_MAX _)) by lia. cbn [negb andb]. rewrite Hopt. unfold bind. by rewrite !He.
Qed.
End Bounds.

Section Console.
Context {P : Platform} {L : PlatformLaws P} {UC : UserCopy} {OPT : Options}.
Implicit Types (s : os).

(** Byte [c] of the flat memory is at user address [va]. *)
Definition user_byte (A : addrspace) (D : nat -> Prop) (mem : memory) (va c : Z) : Prop :=
  exists j e off, D j /\ pt A !! j = Some e /\ Z.of_nat off < PAGE_SIZE /\ va = pte_vaddr e + Z.of_nat off /\
    c = default 0 (mem j !! off).

(** The process that runs in [s] sees the flat memory [mem]. *)
Definition os_running s (v : vnode) (a : asid) (A : addrspace) (D : nat -> Prop) (mem : memory) : Prop :=
  exists b st, running (view s) b v st a A D mem.

(** The paging kernel's own idea of the processor does not matter. *)
Lemma running_cpu k b v st a A D mem f :
  running k b v st a A D mem -> t_in_interrupt (f (k_cpu k)) = t_in_interrupt (k_cpu k) -> running (set_cpu f k) b v st a A D mem.
Proof.
  intros [H1 [Q1 Q2 Q3 Q4 Q5] H3 H4 H5 H6 H7 H8 H9 H10 H11] Hf. split; try done; [by destruct H1|].
  split; try done. unfold lockable in *. cbn. by rewrite Hf.
Qed.

(** One access of the process, from the whole kernel. *)
Lemma wp_vm_running {B} (m : M kernel B) s v a A D mem mem' (R : B -> Prop) (Q : B -> os -> Prop) :
  os_running s v a A D mem ->
  (forall k b st, running k b v st a A D mem -> wp m (fun r k' => R r /\ exists b' st', running k' b' v st' a A D mem') k) ->
  (forall r k', R r -> os_running (set_k (fun _ => k') s) v a A D mem' -> Q r (set_k (fun _ => k') s)) -> wp (vm m) Q s.
Proof.
  intros (b & st & Hrun) Hm HQ. apply wp_vm. eapply wp_mono; [by eapply Hm|]. intros r k' (HR & b' & st' & Hrun').
  rewrite put_back_keep by (by rewrite (rn_curproc _ _ _ _ _ _ _ _ Hrun'), (rn_curproc _ _ _ _ _ _ _ _ Hrun)).
  apply HQ; [done|]. exists b', st'.
  assert (E : view (set_k (fun _ => k') s) = set_cpu (fun c => mk_cpu (bool_decide (is_Some (o_curcpu s))) (c_spinlocks c) (t_in_interrupt c)
                      (default (curthread c) (cur_thread s))) k').
  { pose proof (rn_curproc _ _ _ _ _ _ _ _ Hrun') as E1. pose proof (rn_curproc _ _ _ _ _ _ _ _ Hrun) as E2.
    cbn in E2. unfold view. change (cur_proc (set_k (fun _ => k') s)) with (cur_proc s). change (cur_thread (set_k (fun _ => k') s)) with (cur_thread s).
    ored. rewrite E2, <- E1. by destruct k'. }
  rewrite E. by apply running_cpu.
Qed.

Lemma write_spec s v a A D mem fd buf bs :
  os_running s v a A D mem -> fd = STDOUT_FILENO \/ fd = STDERR_FILENO ->
  0 <= buf -> buf + Z.of_nat (length bs) <= 2 ^ 32 -> Z.of_nat (length bs) < 2 ^ 31 ->
  (forall i c, bs !! i = Some c -> user_byte A D mem (buf + Z.of_nat i) c) ->
  wp (sys_write fd buf (Z.of_nat (length bs))) (fun r s' => r = Z.of_nat (length bs) /\ o_console_in s' = o_console_in s /\
    o_console_out s' = o_console_out s ++ bs /\ os_running s' v a A D mem /\
    o_threads s' = o_threads s /\ cur_thread s' = cur_thread s) s.
Proof.
  intros Hrun Hfd Hb0 Hb1 Hlen Hbs. unfold sys_write.
  assert (Hn : negb (fd =? STDOUT_FILENO) && negb (fd =? STDERR_FILENO) = false).
  { destruct Hfd as [->| ->]; rewrite Z.eqb_refl; [done | by rewrite andb_false_r]. }
  rewrite Hn. assert (Hint : to_int (Z.of_nat (length bs)) = Z.of_nat (length bs)).
  { unfold to_int. rewrite u32_small by lia. destruct (Z.ltb_spec (Z.of_nat (length bs)) (2 ^ 31)); lia. }
  rewrite Hint, Nat2Z.id. step.
  apply (wp_for_each (fun idx s' => exists n, idx = seq n (length bs - n) /\ (n <= length bs)%nat /\ o_console_in s' = o_console_in s /\
    o_console_out s' = o_console_out s ++ take n bs /\ os_running s' v a A D mem /\ o_threads s' = o_threads s /\ cur_thread s' = cur_thread s)).
  - exists 0%nat. rewrite Nat.sub_0_r, take_0, app_nil_r. split; [done|]. split; [lia|]. done.
  - intros i idx s1 (n & Hidx & Hn' & Ei & Eo & Hrun1 & Et & Ec1).
    destruct (length bs - n)%nat as [|m] eqn:Em; [done|]. cbn in Hidx. injection Hidx as -> ->.
    destruct (lookup_lt_is_Some_2 bs n) as [c Hc]; [lia|]. destruct (Hbs n c Hc) as (j & e & off & HD & He & Hoff & Eva & Ec).
    step. rewrite u32_small by lia. rewrite Eva.
    eapply (wp_vm_running _ s1 v a A D mem mem (fun r => r = c)); [done| |].
    + intros k b st Hk. rewrite Ec. by eapply user_load_spec.
    + intros r k' -> Hrun'. unfold putch. apply wp_modify. exists (S n). split; [f_equal; lia|]. split; [lia|]. split; [done|].
      split; [|done]. ored. rewrite Eo, <- app_assoc. by rewrite (take_S_r _ _ _ Hc).
  - intros s1 (n & Hidx & Hn' & Ei & Eo & Hrun1 & Et & Ec1). apply wp_ret. split; [done|]. split; [done|]. split; [|done].
    destruct (length bs - n)%nat eqn:Em; [|done]. by rewrite Eo, take_ge by lia.
Qed.

End Console.
