(* ===== verification/KernelBuffer.v ===== *)
(** The second implementation of file transfers ([file_read] and [file_write]
    of [syscall/file_syscalls.c] under [USE_KERNEL_BUFFER]): the data goes
    through a buffer of the kernel heap instead of straight to the user
    buffer.  The source chooses between the two at compile time; as long as
    the user buffer can be accessed they do the same, except that the buffer
    is lost when the device reports an error.  This is for the model of the
    direct transfer in [FileSyscalls.v], where the device's part and the copy
    to the user buffer follow each other as they do here. *)

From Stdlib Require Import ZArith Lia.
From stdpp Require Import base list gmap strings.
From S2P Require Import Prelude Platform State Synch AddrSpace VmFault Runs Os Proc FileSyscalls.
Local Open Scope Z_scope.

Section KernelBuffer.
Context {P : Platform} {L : PlatformLaws P} {UC : UserCopy}.
Implicit Types (s : os) (k : kernel).

(** ** Operations *)

(** Storing into or loading from the buffer; the result of [kmalloc] has not
    been tested. *)
Definition kbuf_use (kbuf : option nat) (bs : list Z) : M os unit :=
  match bs with [] => ret tt | _ => let* _p := deref kbuf "kbuf" in ret tt end.

Definition kbuf_free (kbuf : option nat) : M os unit :=
  match kbuf with Some p => kfreeO p | None => ret tt end.

Definition file_read_kbuf (fd buf_ptr size : Z) : M os Z :=
  let* o := file_entry fd in
  match o with
  | None => ret (-1)
  | Some i =>
      let* x := openfile_at i in
      match of_vn x with
      | None => ret (-1)
      | Some vn =>
          let* kbuf := kmallocO in
          let* d := gets (fun s => k_disk (o_k s)) in
          match VOP_READ vn (of_offset x) size d with
          | inl e => ret (errno_code e)
          | inr bs =>
              kbuf_use kbuf bs ;;
              openfile_upd i (fun x => mk_openfile (of_vn x) (of_offset x + Z.of_nat (length bs)) (of_countRef x)) ;;
              let nread := size - (size - Z.of_nat (length bs)) in
              let* _r := vm (copyout buf_ptr bs) in
              kbuf_free kbuf ;;
              ret nread
          end
      end
  end.

(** When [copyin] fails, what is in the buffer is not determined. *)
Definition file_write_kbuf (fd buf_ptr size : Z) : M os Z :=
  let* o := file_entry fd in
  match o with
  | None => ret (-1)
  | Some i =>
      let* x := openfile_at i in
      match of_vn x with
      | None => ret (-1)
      | Some vn =>
          let* kbuf := kmallocO in
          let* r := vm (copyin buf_ptr size) in
          let* bs := deref (match r with inr bs => Some bs | inl _ => None end) "kbuf" in
          kbuf_use kbuf bs ;;
          let* d := gets (fun s => k_disk (o_k s)) in
          match VOP_WRITE vn (of_offset x) bs d with
          | inl e => ret (errno_code e)
          | inr d' =>
              vm (modify (set_disk d')) ;;
              kbuf_free kbuf ;;
              openfile_upd i (fun x => mk_openfile (of_vn x) (of_offset x + Z.of_nat (length bs)) (of_countRef x)) ;;
              ret (size - (size - Z.of_nat (length bs)))
          end
      end
  end.

(** ** States that differ in their heap *)

(** A computation of the paging kernel that neither uses nor changes the
    kernel heap. *)
Definition heap_blind {A} (m : M kernel A) : Prop := forall h k,
  m (set_heap h k) = match m k with Done a k' => Done a (set_heap h k') | Stop w k' => Stop w (set_heap h k') end.

(** The user buffer at [buf] can be read and written. *)
Record accessible (buf : Z) : Prop := {
  ac_out : forall bs k, exists k', copyout buf bs k = Done OK k';
  ac_in : forall n k, exists bs k', copyin buf n k = Done (inr bs) k';
  ac_out_heap : forall bs, heap_blind (copyout buf bs);
  ac_in_heap : forall n, heap_blind (copyin buf n);
}.

(** [s2] is [s1] but for the heap. *)
Record alike s1 s2 : Prop := {
  al_view : view s2 = set_heap (k_heap (o_k s2)) (view s1);
  al_others : set_k (fun _ => o_k s1) s2 = s1;
}.

Definition kept s1 s2 : Prop := forall q, heap_live (k_heap (o_k s2)) q <-> heap_live (k_heap (o_k s1)) q.

Definition leaked s1 s2 : Prop := exists p, ~ heap_live (k_heap (o_k s1)) p /\
  forall q, heap_live (k_heap (o_k s2)) q <-> q = p \/ heap_live (k_heap (o_k s1)) q.

(** The second computation returns what the first returns, or leaves one
    block behind when both report an error of the device. *)
Definition same_outcome (m1 m2 : M os Z) s : Prop :=
  match m1 s, m2 s with
  | Done r1 s1, Done r2 s2 => r2 = r1 /\ alike s1 s2 /\ (kept s1 s2 \/ leaked s1 s2 /\ o_files s1 = o_files s /\ exists e, r1 = errno_code e)
  | Stop w1 s1, Stop w2 s2 => w2 = w1 /\ s2 = s1
  | _, _ => False
  end.

Lemma alike_kheap h s : alike s (set_kheap h s).
Proof. split; [by rewrite view_set_kheap | by destruct s]. Qed.

Lemma alike_refl s : alike s s.
Proof. split; by destruct s. Qed.

Lemma same_refl m s : same_outcome m m s.
Proof. unfold same_outcome. destruct (m s); [|done]. split; [done|]. split; [apply alike_refl|]. by left. Qed.

(** A common prefix that changes nothing. *)
Lemma same_bind {A} (m : M os A) (f g : A -> M os Z) s :
  (forall a s1, m s = Done a s1 -> s1 = s /\ same_outcome (f a) (g a) s) -> same_outcome (bind m f) (bind m g) s.
Proof. intros H. unfold same_outcome, bind in *. destruct (m s) as [a s1|]; [by destruct (H a s1 eq_refl) as [-> ?] | done]. Qed.

(** The heap after the other changes. *)
Definition with_heap (h : heap) s : os := set_k (set_heap h) s.

Lemma put_back_heap h k s : put_back (set_heap h k) s = with_heap h (put_back k s).
Proof. unfold put_back, with_heap. cbn. by destruct (cur_proc s), (k_curproc k). Qed.

Lemma put_back_kheap h k s : put_back k (set_kheap h s) = put_back k s.
Proof. unfold put_back. change (cur_proc (set_kheap h s)) with (cur_proc s). by destruct (cur_proc s), (k_curproc k). Qed.

Lemma vm_blind {A} (m : M kernel A) h s : heap_blind m ->
  vm m (set_kheap h s) = match vm m s with Done a s1 => Done a (with_heap h s1) | Stop w s1 => Stop w (with_heap h s1) end.
Proof.
  intros Hm. unfold vm. rewrite view_set_kheap, Hm. destruct (m (view s)); by rewrite put_back_kheap, put_back_heap.
Qed.

(** Such a computation keeps the heap and the open files. *)
Lemma vm_blind_keeps {A} (m : M kernel A) a s s1 : heap_blind m -> vm m s = Done a s1 ->
  k_heap (o_k s1) = k_heap (o_k s) /\ o_files s1 = o_files s.
Proof.
  intros Hm H. pose proof (Hm (k_heap (o_k s)) (view s)) as E. unfold vm in H.
  change (set_heap (k_heap (o_k s)) (view s)) with (view s) in E.
  destruct (m (view s)) as [a' k|]; [|done]. injection H as <- <-. injection E as E.
  split; [|by unfold put_back; destruct (cur_proc s), (k_curproc k)].
  by rewrite E, put_back_heap.
Qed.

Lemma vm_files {A} (m : M kernel A) f s :
  vm m (set_files f s) = match vm m s with Done a s1 => Done a (set_files f s1) | Stop w s1 => Stop w (set_files f s1) end.
Proof.
  unfold vm. change (view (set_files f s)) with (view s).
  destruct (m (view s)) as [a k|w k]; unfold put_back; change (cur_proc (set_files f s)) with (cur_proc s);
    by destruct (cur_proc s), (k_curproc k).
Qed.

Lemma alike_heaps h h' s : alike s (set_kheap h' (with_heap h s)).
Proof. split; [by rewrite view_set_kheap | by destruct s]. Qed.

(** Allocating a block and freeing it. *)
Lemma kept_free s h h' p : kmalloc (k_heap (o_k s)) = Some (p, h) -> kept s (set_kheap (kfree p h) (with_heap h' s)).
Proof.
  intros Hk q. change (heap_live (kfree p h) q <-> heap_live (k_heap (o_k s)) q).
  rewrite kfree_live, (kmalloc_live _ _ _ _ Hk). pose proof (kmalloc_fresh _ _ _ Hk). split; [tauto|].
  intros Hq. split; [by intros -> | by right].
Qed.

Lemma leaked_kheap s h p : kmalloc (k_heap (o_k s)) = Some (p, h) -> leaked s (set_kheap h s).
Proof. intros Hk. exists p. split; [by eapply kmalloc_fresh|]. intros q. by apply (kmalloc_live _ _ _ _ Hk). Qed.

(** ** Equivalence *)

Lemma openfile_at_inv i s x s1 : openfile_at i s = Done x s1 -> s1 = s /\ o_files s !! i = Some x.
Proof. unfold openfile_at, gets, bind, deref. by destruct (o_files s !! i); intros [= <- <-]. Qed.

Lemma file_entry_inv fd s o s1 : file_entry fd s = Done o s1 -> s1 = s.
Proof.
  unfold file_entry, curproc_self, proc_at, gets, bind, deref, ret. intros H. repeat case_match; by simplify_eq.
Qed.

Section Entry.
Context (s : os) (p : nat) (h : heap) (i : nat) (x : openfile) (vn : vnode).
Hypothesis (Hk : kmalloc (k_heap (o_k s)) = Some (p, h)).
Hypothesis (Hx : o_files s !! i = Some x).

Lemma kmallocO_run : kmallocO s = Done (Some p) (set_kheap h s).
Proof. 
  unfold kmallocO, vm, kmallocM. change (k_heap (view s)) with (k_heap (o_k s)). rewrite Hk.
  by rewrite put_back_keep.
Qed.

Lemma openfile_upd_run f s' : o_files s' = o_files s -> openfile_upd i f s' = Done tt (set_files (<[i := f x]>) s').
Proof. intros E. unfold openfile_upd, openfile_at, gets, bind, deref, modify, ret. by rewrite E, Hx. Qed.

Lemma set_disk_run d s' : vm (modify (set_disk d)) s' = Done tt (set_k (fun _ => set_disk d (view s')) s').
Proof. unfold vm, modify. by rewrite put_back_keep. Qed.

Lemma kbuf_use_run bs s' : kbuf_use (Some p) bs s' = Done tt s'.
Proof. by destruct bs. Qed.

Lemma kbuf_free_run s' : kbuf_free (Some p) s' = Done tt (set_kheap (kfree p (k_heap (o_k s'))) s').
Proof. unfold kbuf_free, kfreeO, vm, kfreeM, modify. by rewrite put_back_keep. Qed.
End Entry.

(** The two implementations up to the transfer: the same tests of the file
    descriptor, then a block for the buffer. *)
Lemma same_entry fd (f g : nat -> openfile -> vnode -> M os Z) s :
  (forall i x vn, o_files s !! i = Some x -> of_vn x = Some vn -> same_outcome (f i x vn) (g i x vn) s) ->
  let body (f : nat -> openfile -> vnode -> M os Z) :=
    let* o := file_entry fd in
    match o with
    | None => ret (-1)
    | Some i => let* x := openfile_at i in match of_vn x with None => ret (-1) | Some vn => f i x vn end
    end in
  same_outcome (body f) (body g) s.
Proof.
  intros H. cbv zeta. apply same_bind. intros [i|] s1 ->%file_entry_inv; (split; [done|]); [|apply same_refl].
  apply same_bind. intros x s2 [-> Hx]%openfile_at_inv. split; [done|]. destruct (of_vn x) eqn:Ev; [by apply H | apply same_refl].
Qed.

Lemma read_same fd buf size s : accessible buf -> is_Some (kmalloc (k_heap (o_k s))) ->
  same_outcome (file_read fd buf size) (file_read_kbuf fd buf size) s.
Proof.
  intros [Ho _ Hb _] [[p h] Hk]. apply same_entry. intros i x vn Hx Hv. unfold same_outcome.
  erewrite (bind_Done kmallocO _ s) by (by apply kmallocO_run).
  rewrite !(bind_Done (gets _) _ _ _ _ eq_refl). change (k_disk (o_k (set_kheap h s))) with (k_disk (o_k s)).
  destruct (VOP_READ vn (of_offset x) size (k_disk (o_k s))) as [e|bs].
  { split; [done|]. split; [apply alike_kheap|]. right. split; [by eapply leaked_kheap|]. split; [done | by eexists]. }
  destruct (Ho bs (view s)) as [k' Ek]. assert (Ev : vm (copyout buf bs) s = Done OK (put_back k' s)) by (unfold vm; by rewrite Ek).
  destruct (vm_blind_keeps _ _ _ _ (Hb bs) Ev) as [Hh Hf]. set (s1 := put_back k' s) in *.
  rewrite (bind_Done _ _ _ _ _ Ev). rewrite (bind_Done _ _ _ _ _ (openfile_upd_run s i x Hx _ s1 Hf)).
  rewrite (bind_Done _ _ _ _ _ (kbuf_use_run p bs _)).
  rewrite (bind_Done _ _ _ _ _ (openfile_upd_run s i x Hx _ (set_kheap h s) eq_refl)). cbv zeta.
  set (f := <[i := _]>). erewrite (bind_Done (vm _)) by (by rewrite vm_files, (vm_blind _ h s (Hb bs)), Ev).
  rewrite (bind_Done _ _ _ _ _ (kbuf_free_run p _)). unfold ret. split; [done|].
  change (set_files f (with_heap h s1)) with (with_heap h (set_files f s1)). split; [apply alike_heaps|]. left.
  apply kept_free. by rewrite <- Hh in Hk.
Qed.

Lemma write_same fd buf size s : accessible buf -> is_Some (kmalloc (k_heap (o_k s))) ->
  same_outcome (file_write fd buf size) (file_write_kbuf fd buf size) s.
Proof.
  intros [_ Hi _ Hb] [[p h] Hk]. apply same_entry. intros i x vn Hx Hv. unfold same_outcome.
  erewrite (bind_Done kmallocO _ s) by (by apply kmallocO_run).
  destruct (Hi size (view s)) as (bs & k' & Ek).
  assert (Ev : vm (copyin buf size) s = Done (inr bs) (put_back k' s)) by (unfold vm; by rewrite Ek).
  destruct (vm_blind_keeps _ _ _ _ (Hb size) Ev) as [Hh Hf]. set (s1 := put_back k' s) in *.
  assert (Hk1 : kmalloc (k_heap (o_k s1)) = Some (p, h)) by by rewrite Hh.
  rewrite (bind_Done _ _ _ _ _ Ev). erewrite (bind_Done (vm _)) by (by rewrite (vm_blind _ h s (Hb size)), Ev).
  cbv beta match. rewrite (bind_Done (deref (Some bs) "kbuf") _ (with_heap h s1) bs _ eq_refl), (bind_Done _ _ _ _ _ (kbuf_use_run p bs _)).
  rewrite !(bind_Done (gets _) _ _ _ _ eq_refl). change (k_disk (o_k (with_heap h s1))) with (k_disk (o_k s1)).
  destruct (VOP_WRITE vn (of_offset x) bs (k_disk (o_k s1))) as [e|d].
  { split; [done|]. split; [by split|]. right. split; [by eapply (leaked_kheap s1 h p)|]. split; [done | by eexists]. }
  rewrite !(bind_Done _ _ _ _ _ (set_disk_run d _)). change (set_disk d (view (with_heap h s1))) with (set_heap h (set_disk d (view s1))).
  set (s2 := set_k (fun _ => set_disk d (view s1)) s1). change (set_k _ (with_heap h s1)) with (with_heap h s2).
  rewrite (bind_Done _ _ _ _ _ (kbuf_free_run p _)). rewrite (bind_Done _ _ _ _ _ (openfile_upd_run s i x Hx _ s2 Hf)).
  rewrite (bind_Done _ _ _ _ _ (openfile_upd_run s i x Hx _ (set_kheap _ (with_heap h s2)) Hf)). unfold ret.
  set (f := <[i := _]>). split; [done|]. change (set_files f (set_kheap ?h' (with_heap h s2))) with (set_kheap h' (with_heap h (set_files f s2))).
  split; [apply alike_heaps|]. left. by apply kept_free.
Qed.

(** Under the assumption that the user buffer can be accessed without a fault
    ([accessible], for every length), and with memory for the kernel buffer,
    reading and writing with a kernel buffer return the same result, move the
    same data and leave the same state as the direct transfers; only when the
    device reports an error, and the file has not moved, does the block of the
    kernel buffer stay allocated. *)
Lemma kernel_buffer_equivalent fd buf size s :
  accessible buf -> is_Some (kmalloc (k_heap (o_k s))) ->
  same_outcome (file_read fd buf size) (file_read_kbuf fd buf size) s /\
  same_outcome (file_write fd buf size) (file_write_kbuf fd buf size) s.
Proof. intros Ha Hk. split; [by apply read_same | by apply write_same]. Qed.
End KernelBuffer.
