(* ===== verification/Syscall.v ===== *)
(** The system call dispatcher ([arch/mips/syscall/syscall.c]) and the
    [reboot] call ([main/main.c]).

    A system call gets its number and arguments in the registers of the trap
    frame and returns its result there.  A thread that exits does not come
    back: the result is then no trap frame. *)

From Stdlib Require Import ZArith Lia.
From stdpp Require Import base list gmap strings.
From S2P Require Import Prelude Platform State Synch VmStats Tlb Swap AddrSpace VmFault Runs.
From S2P Require Import Os Proc Thread ProcSyscalls FileSyscalls.
Local Open Scope Z_scope.

Record trapframe := mk_tf { tf_v0 : Z; tf_a0 : Z; tf_a1 : Z; tf_a2 : Z; tf_a3 : Z; tf_epc : Z }.

(** What the dispatcher takes from elsewhere: the call numbers
    ([kern/syscall.h]), the codes of [kern/reboot.h], the clock, the VFS and
    the main bus, and how the VFS reads a path. *)
Class Environment {P : Platform} := {
  SYS_reboot : Z; SYS___time : Z; SYS_open : Z; SYS_close : Z; SYS_remove : Z; SYS_write : Z; SYS_read : Z;
  SYS__exit : Z; SYS_waitpid : Z; SYS_getpid : Z; SYS_fork : Z;
  RB_REBOOT : Z; RB_HALT : Z; RB_POWEROFF : Z;
  sys___time : Z -> Z -> M os rc;
  vfs_clearbootfs : M os unit;
  vfs_clearcurdir : M os unit;
  vfs_unmountall : M os unit;
  mainbus_halt : M os unit;
  mainbus_reboot : M os unit;
  mainbus_poweroff : M os unit;
  path_at : Z -> M kernel string;
}.

(** The call numbers are distinct. *)
Definition syscall_numbers {P : Platform} {E : Environment} : list Z :=
  [SYS_reboot; SYS___time; SYS_open; SYS_close; SYS_remove; SYS_write; SYS_read; SYS__exit; SYS_waitpid; SYS_getpid; SYS_fork].

Section Syscall.
Context {P : Platform} {UC : UserCopy} {OPT : Options} {E : Environment}.

Definition shutdown : M os unit :=
  vm close_swapfile ;;
  vm vm_stats_print ;;
  vfs_clearbootfs ;;
  vfs_clearcurdir ;;
  vfs_unmountall ;;
  thread_shutdown.

(** Halting, rebooting and switching off should not return. *)
Definition sys_reboot (code : Z) : M os rc :=
  if (code =? RB_REBOOT) || (code =? RB_HALT) || (code =? RB_POWEROFF) then
    shutdown ;;
    (if code =? RB_HALT then mainbus_halt
     else if code =? RB_REBOOT then mainbus_reboot
     else if code =? RB_POWEROFF then mainbus_poweroff
     else ret tt) ;;
    halt (Panic "reboot operation failed")
  else ret (Err EINVAL).

(** A result that is negative when the call failed. *)
Definition negative_fails (e : errno) (retval : Z) : rc * Z := (if retval <? 0 then Err e else OK, retval).

(** The [switch]: the error code and the return value; [None] after
    [sys__exit]. *)
Definition dispatch (tf : trapframe) : M os (option (rc * Z)) :=
  let callno := tf_v0 tf in
  let done m := let* r := m in ret (Some r) in
  if callno =? SYS_reboot then done (let* e := sys_reboot (to_int (tf_a0 tf)) in ret (e, 0))
  else if callno =? SYS___time then done (let* e := sys___time (tf_a0 tf) (tf_a1 tf) in ret (e, 0))
  else if OPT_FILE && (callno =? SYS_open) then
    done (let* path := vm (path_at (tf_a0 tf)) in let* r := sys_open path in ret (r.2, r.1))
  else if OPT_FILE && (callno =? SYS_close) then
    done (let* r := sys_close (to_int (tf_a0 tf)) in ret (negative_fails ENOENT r))
  else if OPT_FILE && (callno =? SYS_remove) then done (ret (OK, 0))
  else if callno =? SYS_write then
    done (let* r := sys_write (to_int (tf_a0 tf)) (tf_a1 tf) (tf_a2 tf) in ret (negative_fails ENOSYS r))
  else if callno =? SYS_read then
    done (let* r := sys_read (to_int (tf_a0 tf)) (tf_a1 tf) (tf_a2 tf) in ret (negative_fails ENOSYS r))
  else if callno =? SYS__exit then sys__exit (to_int (tf_a0 tf)) ;; ret None
  else if callno =? SYS_waitpid then
    done (let* r := sys_waitpid (to_int (tf_a0 tf)) (tf_a1 tf) (to_int (tf_a2 tf)) in ret (negative_fails ENOSYS r))
  else if callno =? SYS_getpid then done (let* r := sys_getpid in ret (negative_fails ENOSYS r))
  else if OPT_FORK && (callno =? SYS_fork) then done sys_fork
  else done (ret (Err ENOSYS, 0)).

(** The registers on return. *)
Definition return_to (tf : trapframe) (err : rc) (retval : Z) : trapframe :=
  match err with
  | Err e => mk_tf (errno_code e) (tf_a0 tf) (tf_a1 tf) (tf_a2 tf) 1 (u32 (tf_epc tf + 4))
  | OK => mk_tf (u32 retval) (tf_a0 tf) (tf_a1 tf) (tf_a2 tf) 0 (u32 (tf_epc tf + 4))
  end.

(** Interrupts are on and no spinlock is held. *)
Definition assert_low : M os unit :=
  let* cur := curthread_self in
  let* th := thread_at cur in
  kassert (t_curspl th =? 0) "curthread->t_curspl == 0" ;;
  kassert (t_iplhigh_count th =? 0) "curthread->t_iplhigh_count == 0".

Definition syscall (tf : trapframe) : M os (option trapframe) :=
  assert_low ;;
  let* r := dispatch tf in
  match r with
  | None => ret None
  | Some (err, retval) => assert_low ;; ret (Some (return_to tf err retval))
  end.

(** The child of a fork: [tf] is the copy of the parent's frame in block
    [p]; the result is the frame it enters user mode with. *)
Definition enter_forked_process (p : nat) (tf : trapframe) : M os trapframe :=
  kfreeO p ;;
  vm as_activate ;;
  ret (mk_tf 0 (tf_a0 tf) (tf_a1 tf) (tf_a2 tf) 0 (u32 (tf_epc tf + 4))).

(** The start of the child's thread; entering user mode does not come back to
    the panic that follows. *)
Definition call_enter_forked_process (tfv : nat) (tf : trapframe) : M os trapframe := enter_forked_process tfv tf.
End Syscall.
