(* ===== verification/SyscallSpec.v ===== *)
(** What a process gets back from a system call. *)

From Stdlib Require Import ZArith Lia.
From stdpp Require Import base list gmap strings.
From S2P Require Import Prelude Platform State Synch VmStats Tlb Swap AddrSpace VmFault Runs.
From S2P Require Import Os Proc Thread ProcSyscalls FileSyscalls FileTable Syscall.
Local Open Scope Z_scope.

(** Follows the dispatcher to the call whose number [Hno] gives. *)
Ltac pick_call Hnd Hno :=
  unfold dispatch; rewrite Hno; clear Hno;
  unfold syscall_numbers in Hnd; repeat apply NoDup_cons in Hnd as [?Hn Hnd]; rewrite ?not_elem_of_cons in *;
  repeat match goal with H : _ /\ _ |- _ => destruct H end;
  repeat match goal with |- context [?a =? ?b] => destruct (Z.eqb_spec a b); [first [congruence | reflexivity]|]; rewrite ?andb_false_r end;
  congruence.

Section Dispatch.
Context {P : Platform} {L : PlatformLaws P} {UC : UserCopy} {OPT : Options} {E : Environment}.
Implicit Types (s : os).

(** The current thread may enter the kernel. *)
Definition in_user_mode s : Prop :=
  exists cur th, cur_thread s = Some cur /\ o_threads s !! cur = Some th /\ t_curspl th = 0 /\ t_iplhigh_count th = 0.

Lemma wp_assert_low s (Q : unit -> os -> Prop) : in_user_mode s -> Q tt s -> wp assert_low Q s.
Proof.
  intros (cur & th & Hc & Ht & H1 & H2) HQ. unfold assert_low, curthread_self. steps. eapply wp_deref; [done|]. step.
  eapply wp_thread_at; [done|]. rewrite H1, H2. step. apply wp_kassert; [done|]. by apply wp_kassert.
Qed.

(** The whole path of a call whose part of the dispatcher is [m]. *)
Lemma wp_syscall tf s m (Q : trapframe -> os -> Prop) :
  in_user_mode s -> dispatch tf = (let* r := m in ret (Some r)) ->
  wp m (fun r s1 => in_user_mode s1 /\ Q (return_to tf r.1 r.2) s1) s ->
  wp (syscall tf) (fun o s' => exists tf', o = Some tf' /\ Q tf' s') s.
Proof.
  intros Hu Hd Hm. unfold syscall. step. apply wp_assert_low; [done|]. rewrite Hd. step. step.
  eapply wp_mono; [exact Hm|]. intros [e r] s1 [Hu1 HQ]. steps. apply wp_assert_low; [done|]. steps. by eexists.
Qed.

(** An unknown call number is answered with ENOSYS: the error flag is set,
    the program continues after the call, and nothing else changes. *)
Lemma syscall_unknown tf s :
  in_user_mode s -> (tf_v0 tf ∉ syscall_numbers) ->
  wp (syscall tf) (fun o s' => s' = s /\
    o = Some (mk_tf (errno_code ENOSYS) (tf_a0 tf) (tf_a1 tf) (tf_a2 tf) 1 (u32 (tf_epc tf + 4)))) s.
Proof.
  intros Hu Hn. assert (Hne : forall x, x ∈ syscall_numbers -> (tf_v0 tf =? x) = false).
  { intros x Hx. apply Z.eqb_neq. intros Ev. apply Hn. by rewrite Ev. }
  eapply wp_mono; [apply (wp_syscall tf s (ret (Err ENOSYS, 0)) (fun tf' s' => s' = s /\ tf' = return_to tf (Err ENOSYS) 0)); [done| |]|].
  - unfold dispatch. rewrite !Hne by (unfold syscall_numbers; set_solver). by rewrite !andb_false_r.
  - apply wp_ret. done.
  - intros o s' (tf' & -> & -> & ->). done.
Qed.

(** [getpid] returns the pid of the calling process. *)
Lemma syscall_getpid tf s p x :
  NoDup syscall_numbers -> tf_v0 tf = SYS_getpid -> in_user_mode s -> runs s p x -> 0 < p_pid x <= MAX_PROC ->
  wp (syscall tf) (fun o s' => s' = s /\
    o = Some (mk_tf (p_pid x) (tf_a0 tf) (tf_a1 tf) (tf_a2 tf) 0 (u32 (tf_epc tf + 4)))) s.
Proof.
  intros Hnd Hno Hu [Hc Hp] Hpid. unfold MAX_PROC in Hpid.
  eapply wp_mono; [eapply (wp_syscall tf s _ (fun tf' s' => s' = s /\ tf' = return_to tf OK (p_pid x))); [done| |]|].
  - pick_call Hnd Hno.
  - unfold sys_getpid. steps. rewrite Hc. apply wp_kassert; [done|]. step. eapply wp_deref; [done|]. step.
    eapply wp_proc_at; [done|]. steps. unfold negative_fails. destruct (Z.ltb_spec (p_pid x) 0); [lia|]. done.
  - intros o s' (tf' & -> & -> & ->). split; [done|]. unfold return_to. by rewrite u32_small by lia.
Qed.

(** C24. The [write] call on the console, from the trap to the return: the bytes
    that the process has stored in its buffer appear on the console, and the
    process continues with the size as result and with its memory as it
    was. *)
Theorem syscall_write_prints tf s v a A D mem bs :
  NoDup syscall_numbers -> tf_v0 tf = SYS_write -> tf_a0 tf = STDOUT_FILENO -> tf_a2 tf = Z.of_nat (length bs) ->
  in_user_mode s -> os_running s v a A D mem ->
  0 <= tf_a1 tf -> tf_a1 tf + Z.of_nat (length bs) <= 2 ^ 32 -> Z.of_nat (length bs) < 2 ^ 31 ->
  (forall i c, bs !! i = Some c -> user_byte A D mem (tf_a1 tf + Z.of_nat i) c) ->
  wp (syscall tf) (fun o s' => o_console_out s' = o_console_out s ++ bs /\ os_running s' v a A D mem /\
    o = Some (mk_tf (Z.of_nat (length bs)) (tf_a0 tf) (tf_a1 tf) (tf_a2 tf) 0 (u32 (tf_epc tf + 4)))) s.
Proof.
  intros Hnd Hno Hfd Hsz Hu Hrun Hb0 Hb1 Hlen Hbs.
  eapply wp_mono; [eapply (wp_syscall tf s _ (fun tf' s' => o_console_out s' = o_console_out s ++ bs /\ os_running s' v a A D mem /\
    tf' = return_to tf OK (Z.of_nat (length bs)))); [done | pick_call Hnd Hno|]|].
  - rewrite Hfd, Hsz. step. eapply wp_mono; [apply (write_spec s v a A D mem _ (tf_a1 tf) bs); try done; by left|].
    intros r s1 (-> & _ & Eo & Hrun1 & Et & Ec). apply wp_ret. unfold negative_fails.
    destruct (Z.ltb_spec (Z.of_nat (length bs)) 0); [lia|]. split; [|done].
    destruct Hu as (cur & th & Hc & Ht & Hlow). exists cur, th. by rewrite Et, Ec.
  - intros o s' (tf' & -> & Eo & Hrun' & ->). split; [done|]. split; [done|]. unfold return_to. by rewrite u32_small by lia.
Qed.

(** C38. A read from a file that fails is reported as a success: the error
    number comes back as the number of bytes read. *)
Theorem syscall_read_error_lost tf s p x fd i f vn e :
  NoDup syscall_numbers -> OPT_FILE = true -> tf_v0 tf = SYS_read -> to_int (tf_a0 tf) = fd -> 3 <= fd < OPEN_MAX ->
  in_user_mode s -> runs s p x -> p_fileTable x !! Z.to_nat fd = Some (Some i) -> o_files s !! i = Some f -> of_vn f = Some vn ->
  VOP_READ vn (of_offset f) (tf_a2 tf) (k_disk (o_k s)) = inl e -> errno_code e < 2 ^ 31 ->
  wp (syscall tf) (fun o s' => s' = s /\
    o = Some (mk_tf (errno_code e) (tf_a0 tf) (tf_a1 tf) (tf_a2 tf) 0 (u32 (tf_epc tf + 4)))) s.
Proof.
  intros Hnd Hopt Hno Hfd Hrg Hu Hr Hi Hf Hvn Hrd He. pose proof (errno_code_pos e).
  eapply wp_mono; [eapply (wp_syscall tf s _ (fun tf' s' => s' = s /\ tf' = return_to tf OK (errno_code e))); [done | pick_call Hnd Hno|]|].
  - rewrite Hfd. unfold sys_read, STDIN_FILENO. rewrite (proj2 (Z.eqb_neq fd 0)) by lia. cbn [negb]. rewrite Hopt.
    unfold file_read. steps. eapply wp_file_entry; [done | lia | done|]. cbv beta match. step.
    eapply wp_openfile_at; [done|]. rewrite Hvn. steps. rewrite Hrd. steps. unfold negative_fails.
    destruct (Z.ltb_spec (errno_code e) 0); [lia|]. done.
  - intros o s' (tf' & -> & -> & ->). split; [done|]. unfold return_to. by rewrite u32_small by lia.
Qed.
End Dispatch.
