(* ===== verification/LoadElf.v ===== *)
(** Reading an executable ([load_elf] of [syscall/loadelf.c]).

    The program headers become regions of the current address space; nothing
    but the headers is read, the pages come in on demand.  The layout of the
    two headers and the constants of [elf.h] are parameters. *)

From Stdlib Require Import ZArith Lia.
From stdpp Require Import base list gmap strings.
From S2P Require Import Prelude Platform State Synch VmStats Tlb LoadSegment Swap Coremap Frames.
From S2P Require Import Paging Segments VmFault AddrSpace KernelPages Regions.
Local Open Scope Z_scope.

Record Elf_Ehdr := mk_ehdr {
  e_ident : nat -> Z; e_type : Z; e_machine : Z; e_version : Z; e_entry : Z; e_phoff : Z; e_phentsize : Z; e_phnum : Z }.

Record Elf_Phdr := mk_phdr {
  p_type : Z; p_offset : Z; p_vaddr : Z; p_filesz : Z; p_memsz : Z; p_flags : Z }.

(** [elf.h] *)
Class Elf := {
  sizeof_Ehdr : Z;
  sizeof_Phdr : Z;
  ehdr_of : list Z -> Elf_Ehdr;
  phdr_of : list Z -> Elf_Phdr;
  EI_MAG0 : nat; EI_MAG1 : nat; EI_MAG2 : nat; EI_MAG3 : nat; EI_CLASS : nat; EI_DATA : nat; EI_VERSION : nat;
  ELFMAG0 : Z; ELFMAG1 : Z; ELFMAG2 : Z; ELFMAG3 : Z; ELFCLASS32 : Z; ELFDATA2MSB : Z; EV_CURRENT : Z;
  ET_EXEC : Z; EM_MACHINE : Z;
  PT_NULL : Z; PT_PHDR : Z; PT_MIPS_REGINFO : Z; PT_LOAD : Z;
}.

Section LoadElf.
Context {P : Platform} {EL : Elf}.

(** A 32-bit big-endian executable for this machine. *)
Definition executable (eh : Elf_Ehdr) : bool :=
  (e_ident eh EI_MAG0 =? ELFMAG0) && (e_ident eh EI_MAG1 =? ELFMAG1) && (e_ident eh EI_MAG2 =? ELFMAG2) &&
  (e_ident eh EI_MAG3 =? ELFMAG3) && (e_ident eh EI_CLASS =? ELFCLASS32) && (e_ident eh EI_DATA =? ELFDATA2MSB) &&
  (e_ident eh EI_VERSION =? EV_CURRENT) && (e_version eh =? EV_CURRENT) && (e_type eh =? ET_EXEC) &&
  (e_machine eh =? EM_MACHINE).

(** [n] bytes at [offset]; a short read is ENOEXEC. *)
Definition read_header (v : vnode) (offset n : Z) : M kernel (errno + list Z) :=
  let* d := gets k_disk in
  match VOP_READ v offset n d with
  | inl e => ret (inl e)
  | inr bs => ret (if n - Z.of_nat (length bs) =? 0 then inr bs else inl ENOEXEC)
  end.

(** The header types that are not loaded. *)
Definition skipped (ph : Elf_Phdr) : bool :=
  (p_type ph =? PT_NULL) || (p_type ph =? PT_PHDR) || (p_type ph =? PT_MIPS_REGINFO).

(** The loop over the program headers [idx]. *)
Fixpoint load_headers (v : vnode) (o : option asid) (eh : Elf_Ehdr) (idx : list nat) : M kernel rc :=
  match idx with
  | [] => ret OK
  | i :: idx =>
      let* r := read_header v (u32 (e_phoff eh + Z.of_nat i * e_phentsize eh)) sizeof_Phdr in
      match r with
      | inl e => ret (Err e)
      | inr bs =>
          let ph := phdr_of bs in
          if skipped ph then load_headers v o eh idx
          else if negb (p_type ph =? PT_LOAD) then ret (Err ENOEXEC)
          else match o with
               | None => halt (Undef "as->as_segment")
               | Some a =>
                   let* r := as_define_region a (p_vaddr ph) (p_memsz ph) (p_filesz ph) (Z.land (p_flags ph) PF_R)
                               (Z.land (p_flags ph) PF_W) (Z.land (p_flags ph) PF_X) (p_offset ph) in
                   match r with Err e => ret (Err e) | OK => load_headers v o eh idx end
               end
      end
  end.

(** The return code and the value of [*entrypoint]. *)
Definition load_elf (v : vnode) : M kernel (rc * Z) :=
  let* o := proc_getas in
  let* r := read_header v 0 sizeof_Ehdr in
  match r with
  | inl e => ret (Err e, 0)
  | inr bs =>
      let eh := ehdr_of bs in
      if negb (executable eh) then ret (Err ENOEXEC, 0)
      else
        let* r := load_headers v o eh (seq 0 (Z.to_nat (e_phnum eh))) in
        match r with
        | Err e => ret (Err e, 0)
        | OK =>
            match o with
            | None => halt (Undef "as->as_segment")
            | Some a =>
                let* r := as_prepare_load a in
                match r with Err e => ret (Err e, 0) | OK => ret (OK, e_entry eh) end
            end
        end
  end.
End LoadElf.

Section Theorems.
Context {P : Platform} {L : PlatformLaws P} {EL : Elf}.
Implicit Types (k : kernel).

(** The file [v] holds an executable with the program headers [phs]. *)
Record elf_file (v : vnode) (d : disk) (eh : Elf_Ehdr) (phs : list Elf_Phdr) : Prop := {
  ef_header : exists bs, VOP_READ v 0 sizeof_Ehdr d = inr bs /\ Z.of_nat (length bs) = sizeof_Ehdr /\ ehdr_of bs = eh;
  ef_executable : executable eh = true;
  ef_count : e_phnum eh = Z.of_nat (length phs);
  ef_headers : forall i ph, phs !! i = Some ph -> exists bs,
    VOP_READ v (u32 (e_phoff eh + Z.of_nat i * e_phentsize eh)) sizeof_Phdr d = inr bs /\
    Z.of_nat (length bs) = sizeof_Phdr /\ phdr_of bs = ph;
  ef_types : Forall (fun ph => skipped ph = true \/ skipped ph = false /\ p_type ph = PT_LOAD) phs;
}.

Lemma wp_read_header v off n k bs (Q : errno + list Z -> kernel -> Prop) :
  VOP_READ v off n (k_disk k) = inr bs -> Z.of_nat (length bs) = n -> Q (inr bs) k -> wp (read_header v off n) Q k.
Proof.
  intros Hr Hn HQ. unfold read_header. steps. rewrite Hr, Hn, Z.sub_diag. by apply wp_ret.
Qed.

(** The regions the headers ask for, in order and page-disjoint, from [lo] up
    to [hi]. *)
Definition page_down (x : Z) : Z := x - x mod PAGE_SIZE.

Fixpoint regions_ok (lo hi : Z) (phs : list Elf_Phdr) : Prop :=
  match phs with
  | [] => lo <= hi
  | ph :: phs =>
      0 <= p_vaddr ph /\ 0 <= p_memsz ph /\ 0 <= p_filesz ph < 2 ^ 32 /\ lo <= page_down (p_vaddr ph) /\
      p_vaddr ph + p_memsz ph <= hi /\
      regions_ok (page_down (p_vaddr ph + p_memsz ph + PAGE_SIZE - 1)) hi phs
  end.

Definition loaded_region (ph : Elf_Phdr) (seg : segment_t) : Prop :=
  region_of (p_vaddr ph) (p_memsz ph) (p_filesz ph) (Z.land (p_flags ph) PF_R) (Z.land (p_flags ph) PF_W)
    (Z.land (p_flags ph) PF_X) (p_offset ph) seg.

Lemma page_mul x y : x mod PAGE_SIZE = 0 -> y mod PAGE_SIZE = 0 -> x < y + PAGE_SIZE -> x <= y.
Proof.
  pose proof page_size_pos. assert (Hps : PAGE_SIZE <> 0) by lia. intros Hx Hy Hlt.
  pose proof (Z.div_mod x PAGE_SIZE Hps) as Ex. pose proof (Z.div_mod y PAGE_SIZE Hps) as Ey. assert (x / PAGE_SIZE < y / PAGE_SIZE + 1) by nia. nia.
Qed.

(** A region starts and ends where its pages do. *)
Lemma region_bounds va n fs r w x off seg : 0 <= va -> 0 <= n -> region_of va n fs r w x off seg ->
  seg_start seg = page_down va /\ seg_start seg + seg_size seg <= page_down (va + n + PAGE_SIZE - 1).
Proof.
  intros Hva Hn [Hok R1 R2 [R3 R3'] R4 R5 R6]. pose proof page_size_pos. destruct Hok as [[S0 S1] S2 S3 S4 S5 S6].
  assert (Hd : forall y, page_down y mod PAGE_SIZE = 0) by (intros; unfold page_down; by rewrite Zminus_mod, Zmod_mod, Z.sub_diag).
  pose proof (Z.mod_pos_bound va PAGE_SIZE page_size_pos). pose proof (Z.mod_pos_bound (va + n + PAGE_SIZE - 1) PAGE_SIZE page_size_pos).
  split.
  - apply Z.le_antisymm; apply page_mul; try done; unfold page_down; lia.
  - apply page_mul; [|done|unfold page_down; lia]. rewrite S3, Z.mod_add by lia. done.
Qed.

(** The loop adds one segment per loadable header. *)
Lemma load_headers_spec v a eh phs k A hi n :
  k_as k !! a = Some A -> hi <= MIPS_KSEG0 -> hi mod PAGE_SIZE = 0 ->
  (forall i ph, phs !! i = Some ph -> exists bs,
     VOP_READ v (u32 (e_phoff eh + Z.of_nat (n + i) * e_phentsize eh)) sizeof_Phdr (k_disk k) = inr bs /\
     Z.of_nat (length bs) = sizeof_Phdr /\ phdr_of bs = ph) ->
  Forall (fun ph => skipped ph = true \/ skipped ph = false /\ p_type ph = PT_LOAD) phs ->
  segs_from 0 (as_segment A) ->
  regions_ok (seg_end 0 (as_segment A)) hi (filter (fun ph => skipped ph = false) phs) ->
  wp (load_headers v (Some a) eh (seq n (length phs))) (fun r k' => r = Err ENOMEM \/ (r = OK /\ exists h segs,
    k' = set_ases (<[a := with_segments (as_segment A ++ segs) A]>) (set_heap h k) /\
    Forall2 loaded_region (filter (fun ph => skipped ph = false) phs) segs /\
    segs_from 0 (as_segment A ++ segs) /\ seg_end 0 (as_segment A ++ segs) <= hi)) k.
Proof.
  revert k A n. induction phs as [|ph phs IH]; intros k A n HA Hhi Hal Hph Hty Hsegs Hreg; cbn [length seq load_headers].
  { apply wp_ret. right. split; [done|]. exists (k_heap k), []. rewrite app_nil_r. split; [|split; [constructor | by split]].
    replace (set_heap (k_heap k) k) with k by by destruct k. replace (with_segments (as_segment A) A) with A by by destruct A.
    by rewrite set_ases_id. }
  apply Forall_cons in Hty as [Hty1 Hty]. destruct (Hph 0%nat ph eq_refl) as (bs & Hrd & Hlen & Eph). rewrite Nat.add_0_r in Hrd.
  assert (Hph' : forall i ph0, phs !! i = Some ph0 -> exists bs,
     VOP_READ v (u32 (e_phoff eh + Z.of_nat (S n + i) * e_phentsize eh)) sizeof_Phdr (k_disk k) = inr bs /\
     Z.of_nat (length bs) = sizeof_Phdr /\ phdr_of bs = ph0).
  { intros i ph0 Hi. replace (S n + i)%nat with (n + S i)%nat by lia. by apply (Hph (S i) ph0). }
  step. eapply wp_read_header; [done..|]. cbv zeta. rewrite Eph.
  destruct Hty1 as [Hskip|[Hskip Hload]].
  - rewrite filter_cons_False in Hreg |- * by congruence. rewrite Hskip. by apply IH.
  - rewrite filter_cons_True in Hreg |- * by congruence. rewrite Hskip.
    destruct Hreg as (R1 & R2 & R3 & R4 & R5 & R6). rewrite Hload, Z.eqb_refl. cbn [negb].
    step. eapply wp_mono; [by eapply (define_region_spec k a A _ _ _ _ _ _ _ hi)|].
    intros r k1 [[-> ->]|(-> & h & seg & Hr & He & Hm & ->)]; [apply wp_ret; by left|].
    destruct (region_bounds _ _ _ _ _ _ _ _ R1 R2 Hr) as [Hst Hend].
    set (A1 := with_segments (as_segment A ++ [seg]) A).
    assert (Hsegs1 : segs_from 0 (as_segment A1)) by (apply segs_from_snoc; [done | lia | apply Hr]).
    eapply wp_mono; [eapply (IH _ A1); try done|].
    + apply lookup_insert_eq.
    + cbn [as_segment A1 with_segments]. rewrite seg_end_snoc. clear -R6 Hend. revert R6.
      destruct (filter _ phs) as [|ph' phs']; cbn; [lia|]. intros (? & ? & ? & ? & ? & ?). repeat split; try done; lia.
    + intros r k2 [->|(-> & h2 & segs & -> & F1 & F2 & F3)]; [by left|]. right. split; [done|]. exists h2, (seg :: segs).
      cbn [as_segment A1 with_segments] in *. rewrite <- app_assoc in *. split; [|split; [by constructor | done]].
      unfold set_ases, set_heap. cbn. by rewrite insert_insert_eq.
Qed.

Lemma load_elf_spec k b v0 st a A v eh phs n :
  vm_inv k b v0 st None -> quiet k -> k_curproc k = Some (Some a) -> k_as k !! a = Some A ->
  pt A = [] -> as_segment A = [] -> pt_lock A = None ->
  elf_file v (k_disk k) eh phs -> 0 <= USERSTACK - STACKPAGES * PAGE_SIZE ->
  regions_ok 0 (USERSTACK - STACKPAGES * PAGE_SIZE) (filter (fun ph => skipped ph = false) phs) ->
  (forall segs, Forall2 loaded_region (filter (fun ph => skipped ph = false) phs) segs ->
     DIVROUNDUP (u32 (sizeof_pt_entry * (Z.of_nat (length (layout segs)) + STACKPAGES))) PAGE_SIZE = Z.of_nat n) -> (0 < n)%nat ->
  Z.of_nat n < u32 (coremapSize (k_cm k) - ram_used (k_cm k)) -> (exists f, free_run (k_cm k) f n) ->
  wp (load_elf v) (fun r k' => r.1 = Err ENOMEM \/ (r = (OK, e_entry eh) /\ exists k1 segs A',
    prepared k1 b v0 st a (with_segments segs A) k' A' /\ (exists h, k1 = set_ases (<[a := with_segments segs A]>) (set_heap h k)) /\
    Forall2 loaded_region (filter (fun ph => skipped ph = false) phs) segs)) k.
Proof.
  intros Hinv Hq Hcur HA Hpt Hsg Hpl [(bs & Hrd & Hlen & Eeh) Hex Hcnt Hph Hty] Hst Hreg Hn Hn0 Hav Hf.
  destruct userstack_range as [Hus1 Hus2]. pose proof userstack_aligned as Hual. pose proof page_size_pos.
  assert (Hal : (USERSTACK - STACKPAGES * PAGE_SIZE) mod PAGE_SIZE = 0) by (rewrite Zminus_mod, Hual, Z_mod_mult; done).
  unfold load_elf, proc_getas. steps. eapply wp_read_header; [done..|]. cbv zeta. rewrite Eeh, Hex. cbn [negb].
  rewrite Hcnt, Nat2Z.id, Hcur. cbn [mbind option_bind id]. step.
  eapply wp_mono; [eapply (load_headers_spec v a eh phs k A (USERSTACK - STACKPAGES * PAGE_SIZE) 0); rewrite ?Hsg; try done|].
  { unfold STACKPAGES in *. lia. }
  intros r k1 [->|(-> & h & segs & -> & F1 & F2 & F3)]; [apply wp_ret; by left|]. rewrite Hsg in *. cbn [app] in *.
  set (A1 := with_segments segs A). set (k1 := set_ases _ _).
  assert (Hinv1 : vm_inv k1 b v0 st None).
  { pose proof Hinv as [Hfr Hsw Hnp Ht Hrr Hc]. assert (Etb : tables_of k1 = tables_of k).
    { unfold tables_of, k1. cbn. rewrite fmap_insert. apply insert_id. by rewrite lookup_fmap, HA. }
    split; try done; [by rewrite Etb | | by intros a' Ha'; unfold pte_at; rewrite Etb; apply Hc].
    intros a' A'. unfold k1. kred. rewrite lookup_insert. case_decide; [intros [= <-]; exact (Hnp a A HA) | apply Hnp]. }
  step. eapply wp_mono; [eapply (prepare_spec k1 b v0 st a A1 n); try done|].
  - by destruct Hq.
  - apply lookup_insert_eq.
  - unfold STACKPAGES in *. lia.
  - by apply Hn.
  - intros r k2 [[-> ->]|(-> & A' & Hpr)]; apply wp_ret; [by left|]. right. split; [done|]. exists k1, segs, A'. eauto.
Qed.

(** A file that is not an executable for this machine, or whose headers
    cannot be read, is refused with ENOEXEC or the file system's error, and
    nothing has changed. *)
Lemma load_elf_rejects k v :
  match VOP_READ v 0 sizeof_Ehdr (k_disk k) with
  | inl e => load_elf v k = Done (Err e, 0) k
  | inr bs => Z.of_nat (length bs) <> sizeof_Ehdr \/ executable (ehdr_of bs) = false -> load_elf v k = Done (Err ENOEXEC, 0) k
  end.
Proof.
  unfold load_elf, read_header, proc_getas, bind, gets, ret. destruct (VOP_READ v 0 sizeof_Ehdr (k_disk k)) as [e|bs]; [done|].
  intros Hbad. destruct (Z.eqb_spec (sizeof_Ehdr - Z.of_nat (length bs)) 0); [|done].
  destruct Hbad as [?|Hbad]; [lia|]. by rewrite Hbad.
Qed.
End Theorems.
