(* ===== verification/RunProgram.v ===== *)
(** Starting a program ([syscall/runprogram.c]).

    Both functions end in user mode: their result is an error, or what
    [enter_new_process] is called with (the number of arguments, the address
    of the argument vector, the stack pointer and the entry point). *)

From Stdlib Require Import ZArith Lia Ascii.
From stdpp Require Import base list gmap strings.
From S2P Require Import Prelude Platform State Synch VmStats Tlb LoadSegment Swap Coremap Frames.
From S2P Require Import Paging Segments VmFault AddrSpace KernelPages Regions Lifecycle Boot Runs.
From S2P Require Import Os ProcSyscalls FileSyscalls LoadElf.
Local Open Scope Z_scope.

(** The bytes of a C string, up to its end. *)
Fixpoint bytes_of (s : string) : list Z :=
  match s with
  | EmptyString => []
  | String c s => if decide (c = zero) then [] else Z.of_N (N_of_ascii c) :: bytes_of s
  end.

Section RunProgram.
Context {P : Platform} {UC : UserCopy} {EL : Elf}.

Definition entry : Type := (Z * Z * Z * Z)%type.

(** The common beginning: a new address space with the program in it; the
    stack pointer and the entry point. *)
Definition load_program (progname : string) : M kernel (errno + Z * Z) :=
  let* o := proc_getas in
  kassert (bool_decide (o = None)) "proc_getas() == NULL" ;;
  let* r := as_create progname in
  match r with
  | (None, OK) => halt (Undef "result")
  | (None, Err e) => ret (inl e)
  | (Some a, _) =>
      let* _old := proc_setas (Some a) in
      as_activate ;;
      let* A := as_get a in
      let* r := load_elf (as_v A) in
      match r with
      | (Err e, _) => ret (inl e)
      | (OK, entrypoint) =>
          let* r := as_define_stack a in
          match r with
          | (Err e, _) => ret (inl e)
          | (OK, stackptr) => ret (inr (stackptr, entrypoint))
          end
      end
  end.

Definition runprogram (progname : string) : M kernel (errno + entry) :=
  let* r := load_program progname in
  match r with
  | inl e => ret (inl e)
  | inr (stackptr, entrypoint) => ret (inr (0, 0, stackptr, entrypoint))
  end.

(** The strings, last argument first: the result is the stack pointer and the
    addresses; a NULL argument ends the loop and leaves the addresses before
    it unset. *)
Fixpoint push_strings (rargs : list (option string)) (stackptr : Z) (addrargs : list (option Z))
    : M kernel (errno + Z * list (option Z)) :=
  match rargs with
  | [] => ret (inr (stackptr, addrargs))
  | None :: rargs => ret (inr (stackptr, replicate (S (length rargs)) None ++ addrargs))
  | Some arg :: rargs =>
      let strsize := Z.of_nat (length (bytes_of arg)) + 1 in
      let stackptr := u32 (stackptr - DIVROUNDUP strsize 4 * 4) in
      let* r := copyoutstr stackptr (bytes_of arg ++ [0]) in
      match r with
      | Err e => ret (inl e)
      | OK => push_strings rargs stackptr (Some stackptr :: addrargs)
      end
  end.

(** The argument vector, last entry first. *)
Fixpoint push_words (raddrs : list (option Z)) (stackptr : Z) : M kernel (errno + Z) :=
  match raddrs with
  | [] => ret (inr stackptr)
  | None :: _ => halt (Undef "addrargs[i]")
  | Some addr :: raddrs =>
      let stackptr := u32 (stackptr - 4) in
      let* r := copyout stackptr (word_bytes addr) in
      match r with Err e => ret (inl e) | OK => push_words raddrs stackptr end
  end.

Definition push_args (args : list (option string)) (stackptr : Z) : M kernel (errno + Z) :=
  let* r := push_strings (reverse args) stackptr [] in
  match r with
  | inl e => ret (inl e)
  | inr (stackptr, addrargs) => push_words (reverse (addrargs ++ [Some 0])) stackptr
  end.

Definition runprogramWithArgs (args : list (option string)) : M kernel (errno + entry) :=
  match args with
  | Some progname :: _ =>
      let* r := load_program progname in
      match r with
      | inl e => ret (inl e)
      | inr (stackptr, entrypoint) =>
          let* r := push_args args stackptr in
          match r with
          | inl e => ret (inl e)
          | inr stackptr =>
              ret (inr (Z.of_nat (length args), stackptr, stackptr - stackptr mod 8, entrypoint))
          end
      end
  | _ => halt (Undef "args[0]")
  end.
End RunProgram.

(** ** The stack a program starts with *)

Section Arguments.
Context {P : Platform} {L : PlatformLaws P} {UC : UserCopy}.
Implicit Types (k : kernel).

(** The user memory of the current process, as it sees it, the extent of its
    stack, and what the copying functions promise inside it. *)
Context (umem : kernel -> pmem) (bottom top : Z).
Context (copyout_ok : forall dest bs k, bottom <= dest -> dest + Z.of_nat (length bs) <= top ->
  wp (copyout dest bs) (fun r k' => r = OK /\ umem k' = mem_write (umem k) dest bs) k).
Context (copyoutstr_ok : forall dest bs k, bottom <= dest -> dest + Z.of_nat (length bs) <= top ->
  wp (copyoutstr dest bs) (fun r k' => r = OK /\ umem k' = mem_write (umem k) dest bs) k).
Context (stack_range : 0 <= bottom /\ top < 2 ^ 32).

(** The room the strings take. *)
Definition room_for (arg : string) : Z := (Z.of_nat (length (bytes_of arg)) + 1 + 3) / 4 * 4.
Definition rooms (args : list string) : Z := foldr (fun arg n => room_for arg + n) 0 args.

Lemma room_for_spec arg : Z.of_nat (length (bytes_of arg)) + 1 <= room_for arg /\ room_for arg mod 4 = 0.
Proof.
  unfold room_for. split; [|apply Z_mod_mult].
  pose proof (Z.div_mod (Z.of_nat (length (bytes_of arg)) + 1 + 3) 4 ltac:(lia)).
  pose proof (Z.mod_pos_bound (Z.of_nat (length (bytes_of arg)) + 1 + 3) 4 ltac:(lia)). lia.
Qed.

Lemma rooms_pos args : 0 <= rooms args.
Proof. unfold rooms. induction args as [|arg args IH]; cbn [foldr]; [lia|]. destruct (room_for_spec arg). lia. Qed.

(** String [arg] is at [addr]. *)
Definition string_at (m : pmem) (addr : Z) (arg : string) : Prop :=
  mem_read m addr (length (bytes_of arg ++ [0])) = bytes_of arg ++ [0].

(** What [push_strings] leaves between [lo] and [hi]. *)
Definition strings_between (m : pmem) (lo hi : Z) (addrs : list Z) (args : list string) : Prop :=
  Forall2 (fun addr arg => addr mod 4 = 0 /\ lo <= addr /\ addr + Z.of_nat (length (bytes_of arg ++ [0])) <= hi /\ string_at m addr arg)
    addrs args.

(** Writing below does not disturb it. *)
Lemma strings_kept m m' lo lo' hi addrs args :
  strings_between m lo hi addrs args -> lo' <= lo -> (forall x, lo <= x -> m' x = m x) -> strings_between m' lo' hi addrs args.
Proof.
  intros H Hlo Hm. eapply Forall2_impl; [exact H|]. cbn. intros addr arg (H1 & H2 & H3 & H4). split; [done|]. split; [lia|]. split; [done|].
  unfold string_at in *. rewrite <- H4 at 2. unfold mem_read. apply list_fmap_ext. intros i x Hi%lookup_seq. apply Hm. lia.
Qed.

Lemma push_strings_spec rargs sp acc addrs0 args0 k hi :
  bottom <= sp - rooms rargs -> sp <= hi -> hi <= top -> sp mod 4 = 0 -> acc = Some <$> addrs0 ->
  strings_between (umem k) sp hi addrs0 args0 ->
  wp (push_strings (Some <$> rargs) sp acc) (fun r k' => exists addrs, r = inr (sp - rooms rargs, Some <$> addrs) /\
    (sp - rooms rargs) mod 4 = 0 /\ strings_between (umem k') (sp - rooms rargs) hi addrs (reverse rargs ++ args0)) k.
Proof.
  revert sp acc addrs0 args0 k. induction rargs as [|arg rargs IH]; intros sp acc addrs0 args0 k H0 Hhi Hhi' Hal -> Hm.
  { apply wp_ret. exists addrs0. cbn [rooms foldr]. by rewrite Z.sub_0_r. }
  cbn [fmap list_fmap push_strings rooms foldr] in *. destruct (room_for_spec arg) as [Hr1 Hr2].
  pose proof (rooms_pos rargs) as Hrs.
  rewrite divroundup by lia. replace (Z.of_nat (length (bytes_of arg)) + 1 + 4 - 1) with (Z.of_nat (length (bytes_of arg)) + 1 + 3) by lia.
  fold (room_for arg). unfold rooms in *. rewrite u32_small by lia. step.
  eapply wp_mono; [apply copyoutstr_ok; rewrite ?length_app; cbn; lia|]. intros r k1 [-> Hk1].
  assert (Hal' : (sp - room_for arg) mod 4 = 0) by (by rewrite Zminus_mod, Hal, Hr2).
  eapply wp_mono; [apply (IH (sp - room_for arg) _ ((sp - room_for arg) :: addrs0) (arg :: args0)); try done; try lia|].
  - constructor.
    + split; [done|]. split; [lia|]. split; [rewrite length_app; cbn; lia|]. rewrite Hk1. apply mem_read_write_same.
    + eapply strings_kept; [exact Hm | lia |]. intros x Hx. rewrite Hk1. apply mem_write_other. rewrite length_app. cbn. lia.
  - intros r k2 (addrs & -> & H2 & H3). exists addrs. rewrite Z.sub_add_distr. split; [done|]. split; [done|].
    by rewrite reverse_cons, <- app_assoc.
Qed.

(** The words [ws] are at [addr], [addr + 4], ... *)
Definition words_at (m : pmem) (addr : Z) (ws : list Z) : Prop :=
  forall i w, ws !! i = Some w -> mem_read m (addr + 4 * Z.of_nat i) 4 = word_bytes w.

Lemma push_words_spec rws sp ws k :
  bottom <= sp - 4 * Z.of_nat (length rws) -> sp <= top -> words_at (umem k) sp ws ->
  wp (push_words (Some <$> rws) sp) (fun r k' => r = inr (sp - 4 * Z.of_nat (length rws)) /\
    words_at (umem k') (sp - 4 * Z.of_nat (length rws)) (reverse rws ++ ws) /\
    forall x, sp <= x -> umem k' x = umem k x) k.
Proof.
  revert sp ws k. induction rws as [|w rws IH]; intros sp ws k H0 Hsp Hw.
  { apply wp_ret. cbn [length Z.of_nat]. by rewrite Z.mul_0_r, Z.sub_0_r. }
  cbn [fmap list_fmap push_words length] in *. rewrite u32_small by lia. step.
  eapply wp_mono; [apply copyout_ok; cbn; lia|]. intros r k1 [-> Hk1].
  assert (Hkeep : forall x, sp <= x -> umem k1 x = umem k x) by (intros x Hx; rewrite Hk1; apply mem_write_other; cbn; lia).
  eapply wp_mono; [apply (IH (sp - 4) (w :: ws)); try lia|].
  - intros [|i] w' Hi; cbn in Hi.
    + injection Hi as <-. rewrite Z.mul_0_r, Z.add_0_r, Hk1. apply (mem_read_write_same (umem k) (sp - 4) (word_bytes w)).
    + rewrite <- (Hw i w' Hi). replace (sp - 4 + 4 * Z.of_nat (S i)) with (sp + 4 * Z.of_nat i) by lia.
      unfold mem_read. apply list_fmap_ext. intros j x Hj%lookup_seq. apply Hkeep. lia.
  - replace (sp - 4 - 4 * Z.of_nat (length rws)) with (sp - 4 * Z.of_nat (S (length rws))) by lia.
    intros r k2 (-> & H2 & H3). split; [done|]. split; [by rewrite reverse_cons, <- app_assoc|].
    intros x Hx. rewrite H3 by lia. by apply Hkeep.
Qed.

(** C22. The stack of a program started with arguments: the argument vector at
    the top of the stack has one word per argument and a NULL at the end, and
    every word points to a word-aligned, NUL-terminated copy of the argument
    above the vector. *)
Theorem arguments_on_stack args sp k :
  let strings := sp - rooms (reverse args) in
  let argv := strings - 4 * Z.of_nat (S (length args)) in
  bottom <= argv -> sp <= top -> sp mod 4 = 0 ->
  wp (push_args (Some <$> args) sp) (fun r k' => r = inr argv /\ exists addrs,
    words_at (umem k') argv (addrs ++ [0]) /\ length addrs = length args /\
    strings_between (umem k') strings sp addrs args) k.
Proof.
  intros strings argv H0 Hsp Hal. unfold push_args. rewrite <- fmap_reverse. step. pose proof (rooms_pos (reverse args)) as Hrs.
  eapply wp_mono; [apply (push_strings_spec (reverse args) sp [] [] [] k sp); try done; [lia | constructor]|].
  fold strings. intros r k1 (addrs & -> & H1 & H2). rewrite reverse_involutive, app_nil_r in H2.
  assert (Hlen : length addrs = length args) by by eapply Forall2_length.
  assert (Hrev : reverse ((Some <$> addrs) ++ [Some 0]) = Some <$> reverse (addrs ++ [0])) by by rewrite fmap_reverse, fmap_app.
  rewrite Hrev. assert (Hrl : length (reverse (addrs ++ [0])) = S (length args)).
  { rewrite length_reverse, length_app, Hlen. cbn. lia. }
  eapply wp_mono; [apply (push_words_spec _ _ []); rewrite ?Hrl; [done | lia | by intros i w]|].
  rewrite Hrl, reverse_involutive, app_nil_r. intros r k2 (-> & H3 & H4). split; [done|]. exists addrs.
  split; [done|]. split; [done|]. eapply strings_kept; [exact H2 | done | done].
Qed.
End Arguments.

(** ** Starting *)

Section Start.
Context {P : Platform} {L : PlatformLaws P} {EL : Elf}.
Implicit Types (k : kernel).

(** The program in file [name] can be loaded: its headers are in order and
    there are [n] frames for its page table. *)
Record loadable k (name : string) (eh : Elf_Ehdr) (phs : list Elf_Phdr) (n : nat) : Prop := {
  lo_file : forall v d, vfs_open name (k_disk k) = inr (v, d) -> elf_file v d eh phs;
  lo_stack : 0 <= USERSTACK - STACKPAGES * PAGE_SIZE;
  lo_regions : regions_ok 0 (USERSTACK - STACKPAGES * PAGE_SIZE) (filter (fun ph => skipped ph = false) phs);
  lo_table : forall segs, Forall2 loaded_region (filter (fun ph => skipped ph = false) phs) segs ->
     DIVROUNDUP (u32 (sizeof_pt_entry * (Z.of_nat (length (layout segs)) + STACKPAGES))) PAGE_SIZE = Z.of_nat n;
  lo_frames : (0 < n)%nat /\ Z.of_nat n < u32 (coremapSize (k_cm k) - ram_used (k_cm k)) /\ exists f, free_run (k_cm k) f n;
}.

End Start.
