(* ===== verification/Menu.v ===== *)
(** The kernel menu ([main/menu.c]): splitting a line into commands and a
    command into words, the command table, and the commands.

    Text is a list of characters.  [strtok_r] is the C library's; it puts its
    terminators inside the word it returns, so that the words of a command do
    not disturb the commands that follow on the line.  Commands that only
    call the VFS, the heap statistics or the test suite are parameters.  The
    menus, the current directory, the prompt and the commands of the kernel
    line are printed; error messages, which hold [strerror] texts, and the
    time a command took are not modelled. *)

From Stdlib Require Import ZArith Lia Ascii String.
From stdpp Require Import base list gmap strings.
From S2P Require Import Prelude Platform State Synch AddrSpace Os Proc Thread FileSyscalls LoadElf RunProgram Syscall.
Local Open Scope Z_scope.

Abbreviation text := (list ascii).

Definition MAXMENUARGS : nat := 16.
Definition _PATH_SHELL : string := "/bin/sh".

(** ** Splitting *)

(** The characters of [delims] at the front are skipped; the word goes up to
    the next one, which is consumed. *)
Fixpoint skip (delims s : text) : text :=
  match s with
  | c :: s' => if decide (c ∈ delims) then skip delims s' else s
  | [] => []
  end.

Fixpoint span (delims s : text) : text * text :=
  match s with
  | c :: s' => if decide (c ∈ delims) then ([], s')
               else let '(w, rest) := span delims s' in (c :: w, rest)
  | [] => ([], [])
  end.

Definition strtok_r (delims context : text) : option (text * text) :=
  match skip delims context with
  | [] => None
  | s => Some (span delims s)
  end.

(** The [for] loop around [strtok_r], with a bound on its rounds. *)
Fixpoint strtok_loop (fuel : nat) (delims context : text) : option (list text) :=
  match fuel with
  | O => None
  | S fuel =>
      match strtok_r delims context with
      | None => Some []
      | Some (word, context) => (cons word) <$> strtok_loop fuel delims context
      end
  end.

Definition blanks : text := [" "%char; "009"%char].
Definition semicolon : text := [";"%char].

(** ** Menus *)

Definition quoted (s : string) : string := String "034"%char (s ++ String "034"%char EmptyString).

Definition opsmenu : list string :=
  [ "[s]       Shell                     "; "[p]       Other program             "; "[mount]   Mount a filesystem        ";
    "[unmount] Unmount a filesystem      "; ("[bootfs]  Set " ++ quoted "boot" ++ " filesystem     "); "[pf]      Print a file              ";
    "[cd]      Change directory          "; "[pwd]     Print current directory   "; "[sync]    Sync filesystems          ";
    "[panic]   Intentional panic         "; "[q]       Quit and shut down        " ]%string.

Definition testmenu : list string :=
  [ "[at]  Array test                    "; "[at2] Large array test              "; "[bt]  Bitmap test                   ";
    "[tlt] Threadlist test               "; "[km1] Kernel malloc test            "; "[km2] kmalloc stress test           ";
    "[km3] Large kmalloc test            "; "[km4] Multipage kmalloc test        "; "[tt1] Thread test 1                 ";
    "[tt2] Thread test 2                 "; "[tt3] Thread test 3                 "; "[sy1] Semaphore test                ";
    "[sy2] Lock test             (1)     "; "[sy3] CV test               (1)     "; "[sy4] CV test #2            (1)     ";
    "[semu1-22] Semaphore unit tests     "; "[fs1] Filesystem test               "; "[fs2] FS read stress                ";
    "[fs3] FS write stress               "; "[fs4] FS write stress 2             "; "[fs5] FS long stress                ";
    "[fs6] FS create stress              " ]%string.

Definition mainmenu : list string :=
  [ "[?o] Operations menu                "; "[?t] Tests menu                     "; "[kh] Kernel heap stats              ";
    "[khgen] Next kernel heap generation "; "[khdump] Dump kernel heap           "; "[q] Quit and shut down              " ]%string.

Definition bytes (s : string) : list Z := (fun c => Z.of_N (N_of_ascii c)) <$> list_ascii_of_string s.

(** Text on the console. *)
Definition kprintf {P : Platform} (msg : string) : M os unit :=
  modify (fun s => set_console (o_console_in s) (o_console_out s ++ bytes msg) s).

Definition newline : string := String "010"%char EmptyString.

(** The conversion [%-36s]. *)
Definition left36 (s : string) : string :=
  (s ++ string_of_list_ascii (replicate (36 - String.length s) " "%char))%string.

(** Rows of two columns: entry [i] and, if there is one, entry [i + half]. *)
Definition showrow {P : Platform} (x : list string) (half i : nat) : M os unit :=
  let* a := deref (x !! i) "x[i]" in
  kprintf "    " ;; kprintf (left36 a) ;;
  (match x !! (i + half)%nat with Some b => kprintf b | None => ret tt end) ;;
  kprintf newline.

Definition showmenu {P : Platform} (name : string) (x : list string) : M os unit :=
  let half := ((length x + 1) / 2)%nat in
  kprintf newline ;;
  kprintf name ;; kprintf newline ;;
  for_each (seq 0 half) (showrow x half) ;;
  kprintf newline.

(** A colon after a device name is dropped. *)
Definition strip_colon (device : text) : text :=
  match reverse device with
  | c :: r => if decide (c = ":"%char) then reverse r else device
  | [] => device
  end.

(** What the commands call that is not in the repository. *)
Class MenuEnv {P : Platform} := {
  vfs_chdir : text -> M os rc;
  vfs_getcwd : M os (errno + text);
  vfs_sync : M os unit;
  vfs_unmount : text -> M os rc;
  vfs_setbootfs : text -> M os rc;
  kheap_printstats : M os unit;
  kheap_nextgeneration : M os unit;
  kheap_dump : M os unit;
  kheap_dumpall : M os unit;
  mounttable : list (text * (text -> M os rc));
  run_test : string -> list text -> M os rc;
}.

Section Menu.
Context {P : Platform} {UC : UserCopy} {OPT : Options} {E : Environment} {EL : Elf} {ME : MenuEnv}.

(** The thread of a new program: it only returns when the program could not be
    started. *)
Definition cmd_progthread (args : list text) : M os (errno + entry) :=
  kassert (1 <=? Z.of_nat (length args)) "nargs >= 1" ;;
  vm (runprogramWithArgs ((fun a => Some (string_of_list_ascii a)) <$> args)).

Definition common_prog (args : list text) : M os rc :=
  let* p := proc_create_runprogram in
  match p with
  | None => ret (Err ENOMEM)
  | Some p =>
      let* r := thread_fork (Some p) (Cmd_progthread (string_of_list_ascii <$> args)) in
      match r with
      | Err e => proc_destroy p ;; ret (Err e)
      | OK => let* _status := proc_wait p in ret OK
      end
  end.

Definition cmd_prog (args : list text) : M os rc :=
  match args with _ :: (_ :: _ as args) => common_prog args | _ => ret (Err EINVAL) end.

Definition cmd_shell (args : list text) : M os rc :=
  if (length args =? 1)%nat then common_prog [list_ascii_of_string _PATH_SHELL] else ret (Err EINVAL).

Definition cmd_chdir (args : list text) : M os rc :=
  match args with [_; dir] => vfs_chdir dir | _ => ret (Err EINVAL) end.

Definition cmd_pwd (args : list text) : M os rc :=
  let* r := vfs_getcwd in
  match r with
  | inl e => ret (Err e)
  | inr buf => kprintf (string_of_list_ascii buf) ;; kprintf newline ;; ret OK
  end.

Definition cmd_sync (args : list text) : M os rc := vfs_sync ;; ret OK.

Definition cmd_panic (args : list text) : M os rc := halt (Panic "User requested panic").

Definition cmd_quit (args : list text) : M os rc :=
  vfs_sync ;;
  let* _r := sys_reboot RB_POWEROFF in
  thread_exit ;;
  ret OK.

Definition cmd_mount (args : list text) : M os rc :=
  match args with
  | [_; fstype; device] =>
      match list_find (fun e => e.1 = fstype) mounttable with
      | Some (_, (_, func)) => func (strip_colon device)
      | None => ret (Err EINVAL)
      end
  | _ => ret (Err EINVAL)
  end.

Definition cmd_unmount (args : list text) : M os rc :=
  match args with [_; device] => vfs_unmount (strip_colon device) | _ => ret (Err EINVAL) end.

Definition cmd_bootfs (args : list text) : M os rc :=
  match args with [_; device] => vfs_setbootfs (strip_colon device) | _ => ret (Err EINVAL) end.

Definition cmd_kheapstats (args : list text) : M os rc := kheap_printstats ;; ret OK.

Definition cmd_kheapgeneration (args : list text) : M os rc := kheap_nextgeneration ;; ret OK.

Definition cmd_kheapdump (args : list text) : M os rc :=
  match args with
  | [_] => kheap_dump ;; ret OK
  | [_; a] => if decide (a = list_ascii_of_string "all") then kheap_dumpall ;; ret OK else ret OK
  | _ => ret OK
  end.

Definition cmd_opsmenu (args : list text) : M os rc := showmenu "OS/161 operations menu" opsmenu ;; ret OK.

Definition cmd_testmenu (args : list text) : M os rc :=
  showmenu "OS/161 tests menu" testmenu ;;
  kprintf "    (1) These tests will fail until you finish the synch assignment." ;; kprintf newline ;;
  kprintf newline ;;
  ret OK.

Definition cmd_mainmenu (args : list text) : M os rc := showmenu "OS/161 kernel menu" mainmenu ;; ret OK.

Definition cmdtable : list (string * (list text -> M os rc)) :=
  [ ("?", cmd_mainmenu); ("h", cmd_mainmenu); ("help", cmd_mainmenu); ("?o", cmd_opsmenu); ("?t", cmd_testmenu);
    ("s", cmd_shell); ("p", cmd_prog); ("mount", cmd_mount); ("unmount", cmd_unmount); ("bootfs", cmd_bootfs);
    ("pf", run_test "printfile"); ("cd", cmd_chdir); ("pwd", cmd_pwd); ("sync", cmd_sync); ("panic", cmd_panic);
    ("q", cmd_quit); ("exit", cmd_quit); ("halt", cmd_quit);
    ("kh", cmd_kheapstats); ("khgen", cmd_kheapgeneration); ("khdump", cmd_kheapdump);
    ("at", run_test "arraytest"); ("at2", run_test "arraytest2"); ("bt", run_test "bitmaptest");
    ("tlt", run_test "threadlisttest"); ("km1", run_test "kmalloctest"); ("km2", run_test "kmallocstress");
    ("km3", run_test "kmalloctest3"); ("km4", run_test "kmalloctest4");
    ("tt1", run_test "threadtest"); ("tt2", run_test "threadtest2"); ("tt3", run_test "threadtest3");
    ("sy1", run_test "semtest"); ("sy2", run_test "locktest"); ("sy3", run_test "cvtest");
    ("sy4", run_test "cvtest2");
    ("semu1", run_test "semu1"); ("semu2", run_test "semu2"); ("semu3", run_test "semu3");
    ("semu4", run_test "semu4"); ("semu5", run_test "semu5"); ("semu6", run_test "semu6");
    ("semu7", run_test "semu7"); ("semu8", run_test "semu8"); ("semu9", run_test "semu9");
    ("semu10", run_test "semu10"); ("semu11", run_test "semu11"); ("semu12", run_test "semu12");
    ("semu13", run_test "semu13"); ("semu14", run_test "semu14"); ("semu15", run_test "semu15");
    ("semu16", run_test "semu16"); ("semu17", run_test "semu17"); ("semu18", run_test "semu18");
    ("semu19", run_test "semu19"); ("semu20", run_test "semu20"); ("semu21", run_test "semu21");
    ("semu22", run_test "semu22");
    ("fs1", run_test "fstest"); ("fs2", run_test "readstress"); ("fs3", run_test "writestress");
    ("fs4", run_test "writestress2"); ("fs5", run_test "longstress"); ("fs6", run_test "createstress") ]%string.

(** The loop over the words of a command, [args] being those found so far: a
    seventeenth is refused when it is met. *)
Fixpoint collect_args (fuel : nat) (context : text) (args : list text) : option (errno + list text) :=
  match fuel with
  | O => None
  | S fuel =>
      match strtok_r blanks context with
      | None => Some (inr args)
      | Some (word, context) =>
          if (MAXMENUARGS <=? length args)%nat then Some (inl E2BIG)
          else collect_args fuel context (args ++ [word])
      end
  end.

Definition cmd_dispatch (cmd : text) : M os rc :=
  match collect_args (S (length cmd)) cmd [] with
  | None => halt (Loops "strtok_r")
  | Some (inl e) => ret (Err e)
  | Some (inr args) =>
      match args with
      | [] => ret OK
      | word :: _ =>
          match list_find (fun e => list_ascii_of_string e.1 = word) cmdtable with
          | Some (_, (_, func)) => func args
          | None => ret (Err EINVAL)
          end
      end
  end.

(** A command of the kernel line is shown before it is run. *)
Definition announce (command : text) : M os unit :=
  kprintf "OS/161 kernel: " ;; kprintf (string_of_list_ascii command) ;; kprintf newline.

Fixpoint run_commands (isargs : bool) (commands : list text) : M os unit :=
  match commands with
  | [] => ret tt
  | command :: commands =>
      (if isargs then announce command else ret tt) ;;
      let* result := cmd_dispatch command in
      match result with
      | OK => run_commands isargs commands
      | Err _ => if isargs then halt (Panic "Failure processing kernel arguments") else run_commands isargs commands
      end
  end.

Definition menu_execute (line : text) (isargs : bool) : M os unit :=
  match strtok_loop (S (length line)) semicolon line with
  | None => halt (Loops "strtok_r")
  | Some commands => run_commands isargs commands
  end.
End Menu.

(** ** Words *)

(** The words of a line, without [strtok_r]. *)
Fixpoint words (delims s : text) : list text :=
  match s with
  | [] => []
  | c :: s' =>
      if decide (c ∈ delims) then words delims s'
      else match s' with
           | d :: _ => if decide (d ∈ delims) then [c] :: words delims s'
                       else match words delims s' with w :: ws => (c :: w) :: ws | [] => [[c]] end
           | [] => [[c]]
           end
  end.

Lemma words_skip delims s : words delims (skip delims s) = words delims s.
Proof. induction s as [|c s IH]; [done|]. cbn. case_decide as E; [done|]. cbn. by rewrite decide_False. Qed.

Lemma skip_head delims s c s' : skip delims s = c :: s' -> c ∉ delims.
Proof. induction s as [|d s IH]; cbn; [done|]. case_decide; [apply IH|]. by intros [= -> ->]. Qed.

Lemma skip_length delims s : (length (skip delims s) <= length s)%nat.
Proof. induction s as [|c s IH]; [done|]. cbn. case_decide; cbn; lia. Qed.

Lemma span_spec delims c s w rest : c ∉ delims -> span delims (c :: s) = (w, rest) ->
  words delims (c :: s) = w :: words delims rest /\ (length rest <= length s)%nat.
Proof.
  revert c w. induction s as [|d s IH]; intros c w Hc; cbn [span]; rewrite decide_False by done.
  - intros [= <- <-]. cbn. rewrite decide_False by done. split; [done | lia].
  - destruct (decide (d ∈ delims)) as [Hd|Hd].
    + intros [= <- <-]. cbn [words]. rewrite (decide_False (P := c ∈ delims)), decide_True by done. cbn. rewrite decide_True by done.
      split; [done | lia].
    + destruct (span delims s) as [w' rest'] eqn:E. intros [= <- <-].
      destruct (IH d (d :: w') Hd) as [IH1 IH2]; [cbn; rewrite decide_False by done; by rewrite E|].
      split; [|cbn; lia]. cbn [words]. rewrite (decide_False (P := c ∈ delims)) by done. cbn [words] in IH1.
      rewrite decide_False in IH1 |- * by done. rewrite decide_False by done. by rewrite IH1.
Qed.

Lemma strtok_loop_words fuel delims s : (length s < fuel)%nat -> strtok_loop fuel delims s = Some (words delims s).
Proof.
  revert s. induction fuel as [|fuel IH]; intros s Hf; [lia|]. cbn. unfold strtok_r.
  pose proof (skip_length delims s). rewrite <- (words_skip delims s). destruct (skip delims s) as [|c s'] eqn:E; [done|].
  destruct (span delims (c :: s')) as [w rest] eqn:Es.
  destruct (span_spec delims c s' w rest (skip_head _ _ _ _ E) Es) as [-> Hl]. rewrite IH; [done|]. cbn in *. lia.
Qed.

Lemma words_chars delims s : mjoin (words delims s) = filter (fun c => c ∉ delims) s /\
  Forall (fun w => w <> [] /\ Forall (fun c => c ∉ delims) w) (words delims s).
Proof.
  induction s as [|c s [IH1 IH2]]; [by split; [|constructor]|]. cbn [words]. destruct (decide (c ∈ delims)) as [Hc|Hc].
  { rewrite filter_cons_False by tauto. done. }
  rewrite filter_cons_True by done. assert (Hone : [c] <> [] /\ Forall (fun c => c ∉ delims) [c]) by by split; [|repeat constructor].
  destruct s as [|d s]; [by split; [|repeat constructor]|]. destruct (decide (d ∈ delims)) as [Hd|Hd].
  - rewrite <- IH1. split; [done | by constructor].
  - destruct (words delims (d :: s)) as [|w ws] eqn:E.
    + rewrite <- IH1. by split; [|repeat constructor].
    + rewrite <- IH1. split; [done|]. apply Forall_cons in IH2 as [[Hw1 Hw2] IH2]. constructor; [|done]. split; [done|]. by constructor.
Qed.

(** Words with a separator after each. *)
Definition line_of (sep : ascii) (ws : list text) : text := mjoin ((fun w => w ++ [sep]) <$> ws).

Lemma words_cons delims w d s : w <> [] -> Forall (fun c => c ∉ delims) w -> d ∈ delims ->
  words delims (w ++ d :: s) = w :: words delims s.
Proof.
  intros Hne Hw Hd. induction Hw as [|c w Hc Hw IH]; [done|]. cbn [app words]. rewrite decide_False by done.
  destruct w as [|c' w]; cbn [app].
  - rewrite (decide_True (P := d ∈ delims)) by done. cbn [words]. by rewrite decide_True.
  - rewrite decide_False by (by apply Forall_cons in Hw as [? _]). cbn [app] in IH. by rewrite IH.
Qed.

Lemma line_of_cons sep w ws : line_of sep (w :: ws) = w ++ sep :: line_of sep ws.
Proof. unfold line_of. rewrite fmap_cons. cbn [mjoin list_join]. by rewrite <- app_assoc. Qed.

Lemma words_line_of delims sep ws : sep ∈ delims -> Forall (fun w => w <> [] /\ Forall (fun c => c ∉ delims) w) ws ->
  words delims (line_of sep ws) = ws.
Proof.
  intros Hsep Hws. induction Hws as [|w ws [Hw1 Hw2] Hws IH]; [done|].
  rewrite line_of_cons, words_cons by done. by rewrite IH.
Qed.

(** The loop around [strtok_r] always ends and delivers exactly the words of
    the line: they are not empty, contain no separator, and together are the
    line without its separators. *)
Lemma strtok_words delims s :
  strtok_loop (S (length s)) delims s = Some (words delims s) /\
  mjoin (words delims s) = filter (fun c => c ∉ delims) s /\
  Forall (fun w => w <> [] /\ Forall (fun c => c ∉ delims) w) (words delims s).
Proof. split; [apply strtok_loop_words; lia | apply words_chars]. Qed.

(** The loop of [cmd_dispatch] collects the words, up to sixteen. *)
Lemma collect_args_words fuel s args : (length s < fuel)%nat -> (length args <= MAXMENUARGS)%nat ->
  collect_args fuel s args =
  Some (if (MAXMENUARGS <? length (args ++ words blanks s))%nat then inl E2BIG else inr (args ++ words blanks s)).
Proof.
  revert s args. induction fuel as [|fuel IH]; intros s args Hf Ha; [lia|]. cbn [collect_args]. unfold strtok_r.
  pose proof (skip_length blanks s). rewrite <- (words_skip blanks s). destruct (skip blanks s) as [|c s'] eqn:E.
  { cbn [words]. rewrite app_nil_r. by rewrite (proj2 (Nat.ltb_ge _ _) Ha). }
  destruct (span blanks (c :: s')) as [w rest] eqn:Es.
  destruct (span_spec blanks c s' w rest (skip_head _ _ _ _ E) Es) as [-> Hl].
  destruct (Nat.leb_spec MAXMENUARGS (length args)) as [Hm|Hm].
  - rewrite (proj2 (Nat.ltb_lt _ _)); [done|]. rewrite length_app. cbn. lia.
  - rewrite IH; [by rewrite <- app_assoc | cbn in *; lia | rewrite length_app; cbn; lia].
Qed.

(** Splitting undoes joining: a line of words with a separator after each
    is split into these words. *)
Lemma strtok_roundtrip delims sep ws :
  sep ∈ delims -> Forall (fun w => w <> [] /\ Forall (fun c => c ∉ delims) w) ws ->
  strtok_loop (S (length (line_of sep ws))) delims (line_of sep ws) = Some ws.
Proof.
  intros Hsep Hws. rewrite strtok_loop_words by lia. by rewrite words_line_of.
Qed.

Section Theorems.
Context {P : Platform} {UC : UserCopy} {OPT : Options} {E : Environment} {EL : Elf} {ME : MenuEnv}.
Implicit Types (s : os).

(** No two commands have the same name. *)
Lemma cmdtable_names : NoDup ((fun e => list_ascii_of_string e.1) <$> cmdtable).
Proof. by apply (bool_decide_unpack _); vm_compute. Qed.

(** C36. A command line is dispatched to the command of the table with that
    name, which gets all the words of the line; an empty line does nothing;
    more than sixteen words are refused with E2BIG and a name that is not in
    the table with EINVAL, and then nothing is run. *)
Theorem cmd_dispatch_selects cmd :
  (words blanks cmd = [] -> cmd_dispatch cmd = ret OK) /\
  ((MAXMENUARGS < length (words blanks cmd))%nat -> cmd_dispatch cmd = ret (Err E2BIG)) /\
  (forall w ws, words blanks cmd = w :: ws -> (length (w :: ws) <= MAXMENUARGS)%nat ->
     (forall name func, (name, func) ∈ cmdtable -> list_ascii_of_string name = w -> cmd_dispatch cmd = func (w :: ws)) /\
     ((forall name func, (name, func) ∈ cmdtable -> list_ascii_of_string name <> w) -> cmd_dispatch cmd = ret (Err EINVAL))).
Proof.
  unfold cmd_dispatch. rewrite collect_args_words by (cbn; lia). cbn [app]. split; [by intros ->|]. split.
  { intros H. by rewrite (proj2 (Nat.ltb_lt _ _) H). }
  intros w ws -> Hle. rewrite (proj2 (Nat.ltb_ge _ _) Hle). split.
  - intros name func Hin Hname. destruct (list_find _ cmdtable) as [[i [name' func']]|] eqn:Ef.
    + apply list_find_Some in Ef as (Hi & Hn & _). cbn in Hn. apply list_elem_of_lookup in Hin as [j Hj].
      assert (i = j) as ->.
      { eapply NoDup_lookup; [apply cmdtable_names | by rewrite list_lookup_fmap, Hi | by rewrite list_lookup_fmap, Hj; cbn; rewrite Hname, Hn]. }
      congruence.
    + apply list_find_None in Ef. rewrite Forall_forall in Ef. by destruct (Ef (name, func) Hin).
  - intros Hno. destruct (list_find _ cmdtable) as [[i [name' func']]|] eqn:Ef; [|done].
    apply list_find_Some in Ef as (Hi & Hn & _). cbn in Hn. apply list_elem_of_lookup_2 in Hi. by destruct (Hno name' func').
Qed.

(** What is printed. *)
Definition prints s (l : list Z) : os := set_console (o_console_in s) (o_console_out s ++ l) s.

Lemma prints_prints s l l' : prints (prints s l) l' = prints s (l ++ l').
Proof. unfold prints, set_console. cbn. by rewrite app_assoc. Qed.

Definition announcement (command : text) : list Z :=
  bytes "OS/161 kernel: " ++ bytes (string_of_list_ascii command) ++ bytes newline.

Lemma announce_prints command s : announce command s = Done tt (prints s (announcement command)).
Proof. unfold announce, announcement, bind, kprintf, modify, prints, set_console. cbn -[bytes newline]. by rewrite <- !app_assoc. Qed.

Lemma run_commands_app isargs before after s s1 :
  run_commands isargs before s = Done tt s1 -> run_commands isargs (before ++ after) s = run_commands isargs after s1.
Proof.
  revert s. induction before as [|b before IH]; intros s Hb; [by injection Hb as ->|].
  cbn [app run_commands] in *. unfold bind in *. destruct ((if isargs then announce b else ret tt) s) as [[] s'|]; [|done].
  destruct (cmd_dispatch b s') as [[|e] s2|]; [by apply IH | | done]. destruct isargs; [done | by apply IH].
Qed.

(** C37. Commands on a line are run in order.  Typed at the prompt, a failing
    command does not keep the next ones from running; on the kernel's command
    line each command is shown before it is run, and the first failure is a
    panic, with the commands before it done. *)
Theorem menu_runs_in_order before c after s s1 s2 s1' s2' sep e :
  sep ∈ semicolon -> Forall (fun w => w <> [] /\ Forall (fun c => c ∉ semicolon) w) (before ++ c :: after) ->
  run_commands false before s = Done tt s1 -> cmd_dispatch c s1 = Done (Err e) s2 ->
  run_commands true before s = Done tt s1' -> cmd_dispatch c (prints s1' (announcement c)) = Done (Err e) s2' ->
  menu_execute (line_of sep (before ++ c :: after)) false s = run_commands false after s2 /\
  menu_execute (line_of sep (before ++ c :: after)) true s = Stop (Panic "Failure processing kernel arguments") s2'.
Proof.
  intros Hsep Hws Hb Hc Hb' Hc'. unfold menu_execute. rewrite strtok_loop_words, words_line_of by done || lia.
  rewrite (run_commands_app _ _ _ _ _ Hb), (run_commands_app _ _ _ _ _ Hb'). cbn [run_commands]. unfold bind.
  rewrite announce_prints, Hc'. cbn. by rewrite Hc.
Qed.

(** The rows of a menu contain every entry exactly once. *)
Definition rows {A} (x : list A) : list (option A * option A) :=
  let half := ((length x + 1) / 2)%nat in
  (fun i => (x !! i, x !! (i + half)%nat)) <$> seq 0 half.

Lemma rows_complete {A} (x : list A) : omap id ((rows x).*1 ++ (rows x).*2) = x.
Proof.
  unfold rows. rewrite <- !list_fmap_compose. set (half := ((length x + 1) / 2)%nat).
  change (omap id (((fun i => x !! i) <$> seq 0 half) ++ ((fun i => x !! (i + half)%nat) <$> seq 0 half)) = x).
  assert (Hh : (length x <= half + half)%nat /\ (half <= length x)%nat).
  { pose proof (Nat.div_mod_eq (length x + 1) 2). pose proof (Nat.mod_upper_bound (length x + 1) 2 ltac:(lia)). subst half. lia. }
  assert (Hsh : (fun i => x !! (i + half)%nat) <$> seq 0 half = (fun i => x !! i) <$> seq half half).
  { rewrite <- (Nat.add_0_r half) at 2. rewrite <- fmap_add_seq, <- list_fmap_compose. apply list_fmap_ext. intros i j _. cbn. f_equal. lia. }
  rewrite Hsh, <- fmap_app, <- seq_app. clearbody half. clear Hsh.
  assert (Hgen : forall n (l : list A), (length l <= n)%nat -> omap id ((fun i => l !! i) <$> seq 0 n) = l).
  { induction n as [|n IH]; intros l Hl; [by destruct l; [|cbn in Hl; lia]|]. destruct l as [|a l].
    - clear. generalize (seq 0 (S n)). induction l as [|i l IH]; [done|]. cbn. done.
    - cbn. f_equal. rewrite <- fmap_S_seq, <- list_fmap_compose. unfold compose. cbn. apply IH. cbn in Hl. lia. }
  apply Hgen. lia.
Qed.
(** The text of a row. *)
Definition row_text (r : option string * option string) : list Z :=
  from_option (fun a => bytes "    " ++ bytes (left36 a)) [] r.1 ++ from_option bytes [] r.2 ++ bytes newline.

Lemma print_rows x half l s : (forall i, i ∈ l -> (i < length x)%nat) ->
  for_each l (showrow x half) s = Done tt (prints s (mjoin ((fun i => row_text (x !! i, x !! (i + half)%nat)) <$> l))).
Proof.
  revert s. induction l as [|i l IH]; intros s Hl.
  { cbn. unfold ret, prints, set_console. rewrite app_nil_r. by destruct s. }
  destruct (lookup_lt_is_Some_2 x i) as [a Ha]; [apply Hl; left|]. cbn [for_each]. unfold showrow at 1, bind. rewrite Ha.
  rewrite fmap_cons. unfold row_text at 1. rewrite Ha. cbn [fst snd from_option].
  change (mjoin ?h) with (mjoin h). unfold deref, bind, ret, kprintf, modify.
  destruct (x !! (i + half)%nat) as [b|]; cbn [from_option]; rewrite IH by (intros; apply Hl; by right); f_equal;
    unfold prints, set_console; cbn -[bytes newline left36]; rewrite <- ?app_assoc; reflexivity.
Qed.

(** Every entry of a menu is printed exactly once, in two columns. *)
Lemma showmenu_prints name x s :
  showmenu name x s = Done tt (prints s (bytes newline ++ bytes name ++ bytes newline ++ mjoin (row_text <$> rows x) ++ bytes newline)) /\
  omap id ((rows x).*1 ++ (rows x).*2) = x.
Proof.
  split; [|apply rows_complete]. unfold showmenu, rows, bind, kprintf, modify.
  rewrite print_rows.
  - rewrite <- list_fmap_compose. unfold prints, set_console. cbn -[bytes newline left36 mjoin].
    by rewrite <- !app_assoc.
  - intros i [_ Hi]%elem_of_seq. pose proof (Nat.div_mod_eq (length x + 1) 2). lia.
Qed.
End Theorems.
