(* ===== verification/Programs.v ===== *)
(** Running a program from the menu ([common_prog] of [main/menu.c]): the
    components together.  A process is registered, a thread of it is queued,
    and the menu waits for the end of the process; a program that cannot be
    started never announces its end. *)

From Stdlib Require Import ZArith Lia Ascii String.
From stdpp Require Import base list gmap strings.
From S2P Require Import Prelude Platform State Synch VmStats Tlb Swap Coremap Frames Paging VmFault AddrSpace Lifecycle Boot.
From S2P Require Import Os Proc ProcTable Thread Sched Switch Fork ProcSyscalls WaitPid.
From S2P Require Import FileSyscalls FileTable LoadElf Syscall RunProgram Menu.
Local Open Scope Z_scope.

Section Programs.
Context {P : Platform} {L : PlatformLaws P} {UC : UserCopy} {OPT : Options} {E : Environment} {EL : Elf} {ME : MenuEnv}.
Implicit Types (s : os).

(** [s'] is [s] with a process [p] for a program: registered under a new pid,
    without threads or memory, its end not announced. *)
Record fresh_process s s' (p : nat) (x : proc) (h : sem_h) : Prop := {
  fp_new : o_procs s !! p = None;
  fp_procs : o_procs s' = <[p := x]> (o_procs s);
  fp_proc : p_numthreads x = 0 /\ p_addrspace x = None /\ p_sem x = Some (h, 0);
  fp_pid : forall q y, o_procs s !! q = Some y -> p_pid y <> p_pid x;
  fp_inv : proc_inv s';
  fp_live : procs_live s';
  fp_sched : o_threads s' = o_threads s /\ o_cpus s' = o_cpus s /\ o_curcpu s' = o_curcpu s /\ o_wchans s' = o_wchans s;
  fp_kproc : o_kproc s' = o_kproc s;
  fp_heap : grows (k_heap (o_k s)) (k_heap (o_k s'));
}.

(** What the new process has from the current one, [cx]: the reference to its
    directory; it has no open files. *)
Definition cwd_disk (cx : proc) (d : disk) : disk :=
  match p_cwd cx with Some v => VOP_INCREF v d | None => d end.

Record inherits s s' (cx x : proc) : Prop := {
  ih_cwd : p_cwd x = p_cwd cx;
  ih_files : p_fileTable x = replicate (Z.to_nat OPEN_MAX) None /\ o_files s' = o_files s;
  ih_kernel : calm (set_disk (cwd_disk cx (k_disk (o_k s))) (o_k s)) (o_k s');
}.

Definition free_pid s : Prop := exists j, 1 <= j <= MAX_PROC /\ j <> o_last_i s /\ o_table s !! Z.to_nat j = Some None.

(** Changing the other fields of the new process keeps this. *)
Lemma fresh_process_upd s s1 s3 p x y h :
  fresh_process s s1 p x h -> o_procs s3 = <[p := y]> (o_procs s1) ->
  p_numthreads y = 0 -> p_addrspace y = None -> p_sem y = p_sem x -> p_pid y = p_pid x ->
  o_table s3 = o_table s1 -> o_last_i s3 = o_last_i s1 -> o_threads s3 = o_threads s1 -> o_cpus s3 = o_cpus s1 ->
  o_curcpu s3 = o_curcpu s1 -> o_wchans s3 = o_wchans s1 -> o_kproc s3 = o_kproc s1 -> k_heap (o_k s3) = k_heap (o_k s1) ->
  fresh_process s s3 p y h.
Proof.
  intros [G1 G2 (G3 & G4 & G5) G6 G7 G8 (G9 & G10 & G11 & G12) G13 G14] F1 F2 F3 F4 F5 F6 F7 F8 F9 F10 F11 F12 F13.
  assert (Hp1 : o_procs s1 !! p = Some x) by (rewrite G2; apply lookup_insert_eq).
  split; rewrite ?F4, ?F5, ?F8, ?F9, ?F10, ?F11, ?F12, ?F13; try done.
  - by rewrite F1, G2, insert_insert_eq.
  - by apply (proc_inv_upd s1 s3 p x y).
  - intros q. rewrite F13, F1. intros Hq. apply G8. revert Hq. rewrite G2, !lookup_insert. by case_decide.
Qed.

Lemma create_runprogram_spec s cur cx :
  proc_inv s -> procs_live s -> room 5 (k_heap (o_k s)) = true -> free_pid s ->
  cur_proc s = Some cur -> o_procs s !! cur = Some cx ->
  wp proc_create_runprogram (fun r s' => exists p x h, r = Some p /\ fresh_process s s' p x h /\
    inherits s s' cx x /\ spent 5 (k_heap (o_k s)) (k_heap (o_k s'))) s.
Proof.
  intros I Hl Hh Hfree Hcur Hcx. unfold proc_create_runprogram. step.
  eapply wp_mono; [by apply create_spec_proc|]. intros [p|] s1 H1; cbv beta match in H1.
  2: { destruct H1 as (_ & _ & _ & Hn). by rewrite (no_room_le 5 2 _ ltac:(lia) Hn) in Hh. }
  destruct H1 as [[G1 (x & G2 & [N1 N2 N3 N4 N5 N6] & G3 & G4 & G5 & G6) _ G7 (G8 & G9 & G10 & G11 & G12 & G13) G14 G15] [Hl1 Hpaid]].
  unfold sem_paid in Hpaid. rewrite G2, lookup_insert_eq in Hpaid. cbn [mbind option_bind] in Hpaid.
  assert (Hsem : exists h, p_sem x = Some (h, 0)).
  { destruct (p_sem x) as [[h n]|]; [subst; by eauto|]. congruence. }
  destruct Hsem as [h Hsem]. rewrite Hsem in Hpaid. assert (Hf1 : fresh_process s s1 p x h) by by split.
  assert (Hp1 : o_procs s1 !! p = Some x) by (rewrite G2; apply lookup_insert_eq).
  step. eapply wp_proc_upd; [done|].
  set (s2 := set_procs _ s1).
  assert (Hf2 : fresh_process s s2 p (with_addrspace None x) h).
  { apply (fresh_process_upd s s1 s2 p x); done. }
  step. apply (wp_curproc s2 cur); [unfold cur_proc, cur_thread, cur_cpu in *; unfold s2; ored; by rewrite G8, G9, G10|].
  step. eapply wp_proc_at; [rewrite (fp_procs _ _ _ _ _ Hf2), lookup_insert_ne by congruence; exact Hcx|].
  destruct (p_cwd cx) as [v|] eqn:Ecwd.
  - step. step. apply wp_disk. eapply wp_proc_upd; [apply lookup_insert_eq|]. apply wp_ret. exists p, (with_cwd (Some v) (with_addrspace None x)), h.
    split; [done|]. split; [by eapply (fresh_process_upd s s2 _ p (with_addrspace None x))|]. split; [|exact Hpaid]. split; [done | done |].
    unfold cwd_disk. rewrite Ecwd. destruct G14. split; try done. cbn in *. by rewrite ca_disk.
  - step. apply wp_ret. apply wp_ret. exists p, (with_addrspace None x), h. split; [done|]. split; [done|]. split; [|exact Hpaid]. split; [|done|].
    + ored. by rewrite Ecwd.
    + unfold cwd_disk. rewrite Ecwd. destruct G14. by split.
Qed.

(** C23. Running a program from the menu: with a free pid and room in the heap
    for a process and a thread, which are eight blocks, the command registers
    a new process and queues a thread of it last on the current processor,
    which will start in [cmd_progthread] with the words of the command; and
    then it waits: the menu stops at the semaphore of the new process, which
    only the end of that process raises.  (The comment of [common_prog] says
    that it returns immediately to the menu; it does not.)  The process table
    and the scheduler are in order, so that the program can run. *)
Theorem common_prog_waits args s i c cur cth q cx :
  sched_inv s -> o_curcpu s = Some i -> o_cpus s !! i = Some c -> c_isidle c = false -> c_curthread c = Some cur ->
  o_threads s !! cur = Some cth -> t_proc cth = Some q -> o_procs s !! q = Some cx ->
  proc_inv s -> procs_live s -> threads_live s -> free_pid s -> is_Some (o_kproc s ≫= fun p => o_procs s !! p) ->
  room 8 (k_heap (o_k s)) = true ->
  exists s', common_prog args s = Stop (Blocked "p_sem") s' /\ exists p x h t th c',
    o_procs s !! p = None /\ o_procs s' = <[p := x]> (o_procs s) /\ p_numthreads x = 1 /\ p_sem x = Some (h, 0) /\
    proc_inv s' /\ sched_inv s' /\ o_threads s !! t = None /\ o_threads s' = <[t := th]> (o_threads s) /\
    t_proc th = Some p /\ t_start th = Some (Cmd_progthread (string_of_list_ascii <$> args)) /\
    o_cpus s' !! i = Some c' /\ enqueued t c c'.
Proof.
  intros I Hi Hc Hid Hcur Hct Hq Hcx Hp Hl Htl Hfree Hk Hh.
  assert (Hcp : cur_proc s = Some q) by (unfold cur_proc, cur_thread, cur_cpu; rewrite Hi; cbn; rewrite Hc; cbn; rewrite Hcur; cbn; by rewrite Hct).
  unfold common_prog. apply bind_stops.
  eapply wp_mono; [eapply create_runprogram_spec; try done; by apply (room_le 8); [lia|]|].
  intros r s1 (p & x & h & -> & [G1 G2 (G3 & G4 & G5) G6 G7 G8 (G9 & G10 & G11 & G12) G13 G14] & _ & Hsp).
  apply (spent_room 5 3 _ _ Hsp) in Hh.
  assert (Hp1 : o_procs s1 !! p = Some x) by (rewrite G2; apply lookup_insert_eq).
  assert (Hf : forking s1 i c cur cth (Some p) p x).
  { split; try done; [apply (sched_ext s); try done; intros j; by rewrite G10|by rewrite G11|by rewrite G10|by rewrite G9|]. intros u. rewrite G9. intros Hu. apply G14, Htl, Hu. }
  apply bind_stops. eapply wp_mono; [by eapply fork_spec|]. intros [|e] s2 H2; cbv beta match in H2.
  2: { destruct H2 as (_ & _ & _ & _ & _ & Hn). congruence. }
  destruct H2 as [t [F1 (th & F2 & _ & _ & F3 & _ & F3') (c' & F4 & F5) F6 (_ & _ & _ & _ & F7 & F8 & F9 & _) F10 _]].
  set (y := with_numthreads _ x) in *. assert (Hp2 : o_procs s2 !! p = Some y) by (rewrite F6; apply lookup_insert_eq).
  assert (Hkp : o_kproc s2 <> Some p) by (rewrite F9, G13; intros Ek; rewrite Ek in Hk; cbn in Hk; rewrite G1 in Hk; by destruct Hk).
  exists s2. split; [apply bind_Stop; by eapply proc_wait_blocks|]. exists p, y, h, t, th, c'.
  split; [done|]. split; [by rewrite F6, G2, insert_insert_eq|]. split; [unfold y; ored; by rewrite G3|]. split; [exact G5|].
  split; [by apply (proc_inv_upd s1 s2 p x y)|]. split; [done|]. rewrite <- G9. do 4 (split; [done|]).
  split; [|done]. rewrite F4. apply list_lookup_insert_eq; rewrite G10; by eapply lookup_lt_Some.
Qed.

(** A program that cannot be started: its thread returns and exits without
    announcing the end of the process, which is left without threads, and
    whoever waits for it waits for ever. *)
Lemma failed_start_hangs s p t x th h i c next q b v st :
  exiting s p t x th h -> collected s p t x i c next q -> vm_inv (view s) b v st None -> quiet (view s) ->
  wp thread_exit (fun _ s2 => o_procs s2 !! p = Some (with_numthreads 0 x) /\ o_threads s2 !! t = None /\
    cur_thread s2 = Some next /\ proc_wait p s2 = Stop (Blocked "p_sem") s2) s.
Proof.
  intros [Hp Ht Hct Hin Ho Hs] [Hsi (Hi & Hc & Hid & Hcur) Hrq Hal Hk Hpr Has] Hinv Hq.
  unfold thread_exit, curthread_self. steps. eapply wp_deref; [done|]. step. eapply wp_thread_at; [done|]. rewrite Hin.
  step. unfold proc_remthread. step. eapply wp_thread_at; [done|]. rewrite Hin. step. eapply wp_proc_at; [done|]. rewrite Ho.
  step. apply wp_kassert; [done|]. step. eapply wp_proc_upd; [done|]. eapply wp_thread_upd; [done|].
  step. eapply wp_thread_at; [apply lookup_insert_eq|]. step. apply wp_kassert; [done|].
  eapply wp_mono; [by eapply (zombie_spec s t th _ i c next q b v st)|]. cbv zeta. set (s1 := set_procs _ _).
  intros [] s2 [[S1 [S2 _] _ _ S4 _ _ _ _ _ _ [= S10 _ _ S13 _]] Hnt].
  assert (Hp2 : o_procs s2 !! p = Some (with_numthreads 0 x)) by (rewrite S10; apply lookup_insert_eq).
  split; [done|]. split; [done|]. split; [done|]. eapply proc_wait_blocks; [by rewrite S13 | done | done].
Qed.
End Programs.
