(* ===== verification/ForkProcess.v ===== *)
(** The system call fork ([sys_fork] of [syscall/proc_syscalls.c]): processes,
    memory, open files and threads together. *)

From Stdlib Require Import ZArith Lia.
From stdpp Require Import base list gmap strings.
From S2P Require Import Prelude Platform State Synch VmStats Tlb LoadSegment Swap Coremap Frames.
From S2P Require Import Paging Segments VmFault Runs AddrSpace Lifecycle Boot.
From S2P Require Import Os Proc ProcTable Thread Sched Switch Migrate Isolation Copy Fork ProcSyscalls WaitPid.
From S2P Require Import FileSyscalls FileTable LoadElf Syscall RunProgram Menu Programs.
Local Open Scope Z_scope.

Section Fork.
Context {P : Platform} {L : PlatformLaws P}.
Implicit Types (k : kernel) (s : os).

(** ** What a change of the heap leaves alone *)

Lemma vm_inv_calm k k' b v st ex : calm k k' -> k_curproc k' = k_curproc k -> vm_inv k b v st ex -> vm_inv k' b v st ex.
Proof.
  intros [E1 E2 E3 E4 E5 E6 E7 _ _] Ec [I1 I2 I3 I4 I5 I6]. assert (Et : tables_of k' = tables_of k) by (unfold tables_of; by rewrite E5).
  split; rewrite ?E1, ?E2, ?E3, ?E5, ?E7, ?Et; try done. unfold tlb_coherent. by rewrite Ec, E3, Et.
Qed.

Lemma quiet_calm k k' : calm k k' -> quiet k -> quiet k'.
Proof.
  intros [E1 E2 E3 E4 E5 E6 E7 _ [E8 _]] [Q1 Q2 Q3 Q4 Q5]. split; rewrite ?E1, ?E2, ?E4; try done. unfold lockable in *. by rewrite E8.
Qed.

Lemma shared_calm k k' b v st fam : calm k k' -> k_curproc k' = k_curproc k -> shared k b v st fam -> shared k' b v st fam.
Proof.
  intros Hc Ec Hsh. eapply shared_switch; [done | by eapply vm_inv_calm, Hsh | by eapply quiet_calm, Hsh | apply Hc..].
Qed.

Lemma copyable_calm k k' b v st old O name f d n :
  calm k k' -> k_curproc k' = k_curproc k -> curcpu_exists (k_cpu k') = curcpu_exists (k_cpu k) ->
  grows (k_heap k) (k_heap k') ->
  copyable k b v st old O name f d n -> copyable k' b v st old O name f d n.
Proof.
  intros Hc Ec Ex Hg [C1 C2 C3 C4 C5 C6 C7 C8 C9 C10 C11 C12 C13 C14 C15]. pose proof Hc as [E1 E2 E3 E4 E5 E6 E7 _ [_ E8]].
  split; rewrite ?E1, ?E5, ?E7, ?E8, ?Ex; try done; [by eapply vm_inv_calm | by eapply quiet_calm|].
  intros a Ha. by apply Hg, C9.
Qed.

(** ** The system call *)

(** The running thread of processor [i] forks its process [p], which has the
    address space [a].  Opening a file comes after one more reference to the
    directory of [p] has been taken. *)
Record may_fork s (b : bitmap) (v : vnode) (st : gmap Z page) (fam : gmap asid pview) (i : nat) (c : cpu) (cur : nat)
    (cth : thread) (p : nat) (x : proc) (a : asid) (w : pview) (O : addrspace) (name : string) (f : vnode) (d : disk)
    (n : nat) : Prop := {
  mf_sched : sched_inv s;
  mf_curcpu : o_curcpu s = Some i;
  mf_cpu : o_cpus s !! i = Some c;
  mf_busy : c_isidle c = false;
  mf_cur : c_curthread c = Some cur;
  mf_thread : o_threads s !! cur = Some cth;
  mf_self : t_proc cth = Some p;
  mf_proc : o_procs s !! p = Some x;
  mf_as : p_addrspace x = Some a;
  mf_files : length (p_fileTable x) = Z.to_nat OPEN_MAX;
  mf_table : proc_inv s;
  mf_procs : procs_live s;
  mf_threads : threads_live s;
  mf_pid : free_pid s;
  mf_shared : shared (view s) b v st fam;
  mf_view : fam !! a = Some w;
  mf_copyable : copyable (set_disk (cwd_disk x (k_disk (view s))) (view s)) b v st a O name f d n;
  mf_file : f <> v /\ forall off n, VOP_READ f off n (k_disk (view s)) = VOP_READ (as_v O) off n (k_disk (view s));
  mf_slots : Z.of_nat (length (pt O) + capacity (length <$> tables_of (view s))) <= bitmap_nbits b;
}.

(** [s'] is [s] with the child [np] of [p] and its thread [t]. *)
Record process_forked s (b : bitmap) (v : vnode) (st : gmap Z page) (fam : gmap asid pview) (i : nat) (c : cpu)
    (p : nat) (x : proc) (a : asid) (w : pview) (s' : os) (np : nat) (y : proc) (t : nat) : Prop := {
  pf_new : o_procs s !! np = None;
  pf_procs : o_procs s' = <[np := y]> (<[p := with_fileTable (replicate (Z.to_nat OPEN_MAX) None) x]> (o_procs s));
  pf_pid : forall q z, o_procs s !! q = Some z -> p_pid z <> p_pid y;
  pf_child : p_numthreads y = 1 /\ p_cwd y = p_cwd x /\ p_fileTable y = replicate (Z.to_nat OPEN_MAX) None;
  pf_memory : exists a' N, p_addrspace y = Some a' /\ fam !! a' = None /\
    shared (view s') b v st (<[a' := mk_pview N (pv_pages w) (pv_mem w)]> fam);
  pf_running : k_curproc (view s') = Some (Some a);
  pf_files : o_files s' = o_files s;
  pf_thread : exists th tf, o_threads s' = <[t := th]> (o_threads s) /\ t_state th = S_READY /\ t_proc th = Some np /\
    t_start th = Some (Call_enter_forked_process tf) /\ ~ heap_live (k_heap (o_k s)) tf;
  pf_queue : exists c', o_cpus s' = <[i := c']> (o_cpus s) /\ enqueued t c c';
  pf_sched : sched_inv s';
  pf_table : proc_inv s';
}.

Lemma cwd_disk_reads x dd u off n : VOP_READ u off n (cwd_disk x dd) = VOP_READ u off n dd.
Proof. unfold cwd_disk. destruct (p_cwd x); [apply vop_incref_reads | done]. Qed.

(** The current process of the paging kernel. *)
Lemma view_curproc s p x : cur_proc s = Some p -> o_procs s !! p = Some x -> k_curproc (view s) = Some (p_addrspace x).
Proof. intros Hp Hx. cbn. rewrite Hp. cbn. by rewrite Hx. Qed.

Lemma cur_proc_same s s' : o_threads s' = o_threads s -> o_cpus s' = o_cpus s -> o_curcpu s' = o_curcpu s -> cur_proc s' = cur_proc s.
Proof. intros E1 E2 E3. unfold cur_proc, cur_thread, cur_cpu. by rewrite E1, E2, E3. Qed.

(** The process is made and the memory copied. *)
Lemma fork_copies_memory s b v st fam i c cur cth p x a w O name f d n s1 np y h :
  may_fork s b v st fam i c cur cth p x a w O name f d n -> room (copy_blocks O) (k_heap (o_k s1)) = true ->
  fresh_process s s1 np y h -> inherits s s1 x y ->
  wp (vm (as_copy a)) (fun r s2 => exists a' N k2, r = (OK, Some a') /\ s2 = set_k (fun _ => k2) s1 /\
    view s2 = k2 /\ k_curproc k2 = Some (Some a) /\ grows (k_heap (o_k s1)) (k_heap k2) /\
    spent (copy_blocks O) (k_heap (o_k s1)) (k_heap k2) /\ fam !! a' = None /\
    shared k2 b v st (<[a' := mk_pview N (pv_pages w) (pv_mem w)]> fam)) s1.
Proof.
  intros [M1 M2 M3 M4 M5 M6 M7 M8 M9 M10 M11 M12 M13 M14 M15 M16 M17 [M18 M19] M20] Hh [G1 G2 _ _ _ _ (G3 & G4 & G5 & _) _ G6] [H1 H2 H3].
  set (k0 := set_disk _ _) in M17. pose proof (cur_proc_same s s1 G3 G4 G5) as Ecp.
  assert (Hcp : cur_proc s = Some p) by (unfold cur_proc, cur_thread, cur_cpu; rewrite M2; cbn; rewrite M3; cbn; rewrite M5; cbn; by rewrite M6).
  assert (Hx1 : o_procs s1 !! p = Some x) by (rewrite G2, lookup_insert_ne by congruence; exact M8).
  assert (Ec0 : k_curproc k0 = Some (Some a)) by (rewrite <- M9; by apply (view_curproc s p)).
  assert (Ec1 : k_curproc (view s1) = Some (Some a)) by (rewrite <- M9; apply (view_curproc s1 p); congruence).
  assert (Hcalm : calm k0 (view s1)).
  { eapply calm_trans; [|apply calm_view]. eapply calm_trans; [|exact H3]. by split. }
  assert (Hsh0 : shared k0 b v st fam).
  { eapply shared_env; [exact M15 | apply M17 | apply M17 | done | done |]. intros u off n'. apply cwd_disk_reads. }
  assert (Hc1 : copyable (view s1) b v st a O name f d n).
  { eapply copyable_calm; [exact Hcalm | congruence | | exact G6 | exact M17]. cbn. by rewrite G5. }
  apply wp_vm_keep. eapply wp_mono; [eapply (as_copy_shared (view s1) b v st fam a w O name f d n); try done|].
  - eapply shared_calm; [exact Hcalm | congruence | exact Hsh0].
  - intros off n'. destruct Hcalm. rewrite ca_disk. unfold k0. cbn. rewrite !cwd_disk_reads. apply M19.
  - replace (tables_of (view s1)) with (tables_of (view s)); [done|]. unfold tables_of. destruct Hcalm. by rewrite ca_as.
  - intros r k2 (a' & N & -> & D & Hsp & Hsh). destruct (du_running _ _ _ _ _ _ _ _ _ D) as [E1 E2].
    assert (Hv : in_view s1 k2) by by split. split; [done|]. exists a', N, k2. split; [done|]. split; [done|].
    split; [by apply view_set_k|]. split; [congruence|]. split; [apply D|]. split; [exact Hsp|]. split; [|done].
    destruct (fam !! a') as [w'|] eqn:Ew; [|done]. destruct (sh_each _ _ _ _ _ Hsh0 a' w' Ew) as [(l & Hl & _) _ _ _ _ _].
    pose proof (du_new _ _ _ _ _ _ _ _ _ D) as Hn. rewrite (ca_as _ _ Hcalm) in Hn. congruence.
Qed.

(** The thread of the child is queued. *)
Lemma fork_queues_thread s b v st fam i c p x a w s5 np y3 s6 t cur cth a' N tf :
  o_curcpu s5 = Some i -> o_cpus s5 !! i = Some c -> c_curthread c = Some cur -> o_threads s5 !! cur = Some cth -> t_proc cth = Some p ->
  p_addrspace x = Some a -> p_numthreads y3 = 0 -> p_addrspace y3 = Some a' -> p_cwd y3 = p_cwd x ->
  p_fileTable y3 = replicate (Z.to_nat OPEN_MAX) None -> fam !! a' = None -> o_procs s !! np = None -> is_Some (o_procs s !! p) ->
  o_procs s5 = <[np := y3]> (<[p := with_fileTable (replicate (Z.to_nat OPEN_MAX) None) x]> (o_procs s)) ->
  (forall q z, o_procs s !! q = Some z -> p_pid z <> p_pid y3) ->
  o_threads s5 = o_threads s -> o_cpus s5 = o_cpus s -> o_files s5 = o_files s -> proc_inv s5 ->
  k_curproc (view s5) = Some (Some a) -> shared (view s5) b v st (<[a' := mk_pview N (pv_pages w) (pv_mem w)]> fam) ->
  forked s5 s6 i c (Call_enter_forked_process tf) np y3 t -> ~ heap_live (k_heap (o_k s)) tf ->
  process_forked s b v st fam i c p x a w s6 np (with_numthreads 1 y3) t.
Proof.
  intros E1 E2 E3 E4 E5 E6 E7 E8 E9 E10 E11 E12 E13 E14 E15 E16 E17 E18 E19 E20 Hsh
    [F1 (th & F2 & F3 & F4 & F5 & F6 & F6') (c' & F7 & F8) F9 (F10 & F11 & F12 & F13 & F14 & F15 & F16 & F17) F18 F19] Htf.
  assert (Hy : with_numthreads (u32 (p_numthreads y3 + 1)) y3 = with_numthreads 1 y3) by by rewrite E7. rewrite Hy in F9.
  assert (Hne : p <> np) by (intros ->; rewrite E12 in E13; by destruct E13).
  assert (Hct : cur <> t) by (intros ->; congruence).
  assert (Hcp : cur_proc s6 = Some p).
  { unfold cur_proc, cur_thread, cur_cpu. rewrite F11, E1. cbn. rewrite F7, list_lookup_insert_eq by by eapply lookup_lt_Some.
    cbn. rewrite (proj1 F8), E3. cbn. by rewrite F2, lookup_insert_ne, E4. }
  assert (Hx6 : o_procs s6 !! p = Some (with_fileTable (replicate (Z.to_nat OPEN_MAX) None) x))
    by (rewrite F9, E14, insert_insert_eq, lookup_insert_ne by done; apply lookup_insert_eq).
  pose proof (view_curproc _ _ _ Hcp Hx6) as Hc6. cbn [p_addrspace with_fileTable] in Hc6. rewrite E6 in Hc6.
  split; try done.
  - by rewrite F9, E14, insert_insert_eq.
  - exists a', N. split; [done|]. split; [done|]. eapply (shared_calm (view s5)); [|congruence | done].
    eapply calm_trans; [|apply calm_view]. eapply calm_trans; [|exact F13]. by split.
  - congruence.
  - exists th, tf. by rewrite <- E16.
  - exists c'. by rewrite <- E17.
  - apply (proc_inv_upd s5 s6 np y3 (with_numthreads 1 y3)); try done. rewrite E14. apply lookup_insert_eq.
Qed.

(** The heap blocks of a fork: five of the process, those of the copy of its
    memory, the trap frame, and three of the thread. *)
Definition fork_blocks (A : addrspace) : nat := 5 + (copy_blocks A + (1 + 3)).

(** C4. Fork.  Let no page of the process be in swap, and let there be a free
    pid, frames and swap slots for the copy as [as_copy] needs them, and room
    in the heap for the blocks of a process, of the copy, of a trap frame and
    of a thread.  Then the system call succeeds and returns the pid of a new
    process, which no other process has.  The child has an address space of
    its own with the memory its parent sees, the directory of its parent, and
    one thread, which will start in [call_enter_forked_process] with a new
    trap frame and is ready, last in the queue of the current processor; all
    processes see the memory they saw, the parent goes on in its address
    space, and the scheduler and the process table are in order.  But the
    parent has lost its open files: its table is as empty as that of the
    child, and the references it had are still counted. *)
Theorem sys_fork_copies s b v st fam i c cur cth p x a w O name f d n :
  may_fork s b v st fam i c cur cth p x a w O name f d n -> room (fork_blocks O) (k_heap (o_k s)) = true ->
  wp sys_fork (fun r s' => exists np y t, r = (OK, p_pid y) /\
    process_forked s b v st fam i c p x a w s' np y t) s.
Proof.
  intros M Hh. pose proof M as [M1 M2 M3 M4 M5 M6 M7 M8 M9 M10 M11 M12 M13 M14 M15 M16 M17 M18 M20].
  assert (Hcp : cur_proc s = Some p) by (unfold cur_proc, cur_thread, cur_cpu; rewrite M2; cbn; rewrite M3; cbn; rewrite M5; cbn; by rewrite M6).
  unfold sys_fork. steps. rewrite Hcp. apply wp_kassert; [done|]. step. eapply wp_deref; [done|]. step.
  eapply wp_mono; [eapply create_runprogram_spec; try done; by eapply room_le, Hh; unfold fork_blocks; lia|].
  intros r s1 (np & y & h & -> & Hf & Hin & Hsp). apply (spent_room 5 _ _ _ Hsp) in Hh.
  pose proof Hf as [G1 G2 (G3 & G4 & G5) G6 G7 G8 (G9 & G10 & G11 & G12) G13 G14]. pose proof Hin as [H1 [H2 H2'] H3].
  assert (Hne : np <> p) by congruence.
  step. eapply wp_proc_at; [rewrite G2, lookup_insert_ne by done; exact M8|]. step. eapply wp_deref; [exact M9|]. step.
  eapply wp_mono; [eapply fork_copies_memory; try done; by eapply room_le, Hh; lia|].
  intros r s2 (a' & N & k2 & -> & -> & Hv & Hc2 & Hg2 & Hsp2 & Hnew & Hsh). cbn [snd]. apply (spent_room _ _ _ _ Hsp2) in Hh.
  set (s2 := set_k _ s1) in *. assert (Hy2 : o_procs s2 !! np = Some y) by (cbn; rewrite G2; apply lookup_insert_eq).
  step. eapply wp_proc_upd; [exact Hy2|]. set (y3 := with_addrspace (Some a') y). set (s3 := set_procs _ s2). step.
  assert (Hy3 : o_procs s3 !! np = Some y3) by apply lookup_insert_eq. eapply wp_proc_at; [exact Hy3|]. cbn [p_addrspace y3 with_addrspace].
  assert (Hx3 : o_procs s3 !! p = Some x) by (cbn; rewrite lookup_insert_ne, G2, lookup_insert_ne by done; exact M8).
  step. eapply wp_mono; [by eapply (fork_swaps_tables s3 np p y3 x)|]. intros [] s4 ->. set (x' := with_fileTable _ x). set (s4 := set_procs _ s3).
  change (k_heap k2) with (k_heap (o_k s4)) in Hh.
  step. apply wp_kmallocO; [intros Hn; cbn [Nat.add room] in Hh; by rewrite Hn in Hh|]. intros tf h5 Htf. set (s5 := set_kheap h5 s4).
  apply (spent_room 1 3 _ _ (spent_kmalloc _ _ _ Htf)) in Hh.
  assert (Hdead : ~ heap_live (k_heap (o_k s)) tf).
  { intros Hl. apply (kmalloc_fresh _ _ _ Htf). by apply Hg2, G14. }
  assert (Ep5 : o_procs s5 = <[np := y3]> (<[p := x']> (o_procs s))).
  { unfold s5, s4, s3, s2. ored. rewrite G2, insert_insert_eq. by rewrite insert_insert_ne. }
  assert (Hg5 : grows (k_heap (o_k s)) (k_heap (o_k s5))).
  { eapply grows_trans; [exact G14|]. eapply grows_trans; [exact Hg2|]. intros q Hq. by apply (kmalloc_live _ _ _ _ Htf); right. }
  assert (Hcp5 : cur_proc s5 = Some p) by (rewrite <- Hcp; by apply (cur_proc_same s s5)).
  assert (Hc5 : k_curproc (view s5) = Some (Some a)).
  { rewrite <- M9. apply (view_curproc s5 p x'); [done|]. rewrite Ep5, lookup_insert_ne by done. apply lookup_insert_eq. }
  assert (Hfk : forking s5 i c cur cth (Some np) np y3).
  { split; try done; [apply (sched_ext s); try done; intros j; by rewrite <- G10 | by rewrite <- M2 | by rewrite <- M3, <- G10 | by rewrite <- M6, <- G9 |
      rewrite Ep5; apply lookup_insert_eq|]. intros u Hu. apply Hg5, M13. by rewrite <- G9. }
  step. eapply wp_mono; [by eapply fork_spec|]. intros [|e] s6 H6; cbv beta match in H6.
  2: { destruct H6 as (_ & _ & _ & _ & _ & Hn). change (k_heap (o_k s5)) with h5 in Hn. congruence. }
  destruct H6 as [t H6].
  assert (Hpf : process_forked s b v st fam i c p x a w s6 np (with_numthreads 1 y3) t).
  { eapply (fork_queues_thread s b v st fam i c p x a w s5 np y3 s6 t cur cth a' N tf); try done.
    - apply Hfk.
    - apply Hfk.
    - apply Hfk.
    - apply (proc_inv_upd s3 s5 p x x'); try done. by apply (proc_inv_upd s1 s3 np y y3).
    - eapply (shared_calm k2); [by split | congruence | done]. }
  step. eapply wp_proc_at; [rewrite (pf_procs _ _ _ _ _ _ _ _ _ _ _ _ _ _ _ Hpf); apply lookup_insert_eq|]. apply wp_ret.
  by exists np, (with_numthreads 1 y3), t.
Qed.
End Fork.
