(* ===== verification/Kmain.v ===== *)
(** The start of the system ([boot], [kmain] of [main/main.c]) and the main
    loop of the menu ([menu] of [main/menu.c]), and what holds when the boot
    is over: the invariants of the paging system, of the process table, of the
    open files and of the scheduler, all together.

    Start-up of the devices is not in the repository: [Devices] are these
    calls and [DeviceLaws] what the theorem relies on.  They may use the
    kernel heap, but leave the structures of the kernel alone; the probe of
    the main bus ends with the interrupts on.  The machine of the theorem has
    one processor. *)

From Stdlib Require Import ZArith Lia Ascii String.
From stdpp Require Import base list gmap strings.
From S2P Require Import Prelude Platform State Synch VmStats Tlb LoadSegment Swap Coremap Frames.
From S2P Require Import Paging VmFault AddrSpace KernelPages Lifecycle Boot Os Proc ProcTable Thread Sched WaitPid.
From S2P Require Import FileSyscalls FileTable LoadElf Syscall RunProgram Menu.
Local Open Scope Z_scope.

Class Devices {P : Platform} := {
  ram_bootstrap : M os unit;
  hardclock_bootstrap : M os unit;
  vfs_bootstrap : M os unit;
  mainbus_bootstrap : M os unit;
  pseudoconfig : M os unit;
  kprintf_bootstrap : M os unit;
  mainbus_start_cpus : M os unit;
  cpuarray_add : rc;
  kgets : M os (list ascii);
}.

Section Kmain.
Context {P : Platform} {UC : UserCopy} {OPT : Options} {E : Environment} {EL : Elf} {ME : MenuEnv} {DV : Devices}.

Definition boot : M os unit :=
  ram_bootstrap ;;
  proc_bootstrap ;;
  thread_bootstrap cpuarray_add ;;
  hardclock_bootstrap ;;
  vfs_bootstrap ;;
  kheap_nextgeneration ;;
  (let* cur := curthread_self in let* th := thread_at cur in kassert (0 <? t_curspl th) "curthread->t_curspl > 0") ;;
  mainbus_bootstrap ;;
  (let* cur := curthread_self in let* th := thread_at cur in kassert (t_curspl th =? 0) "curthread->t_curspl == 0") ;;
  pseudoconfig ;;
  kheap_nextgeneration ;;
  vm vm_bootstrap ;;
  kprintf_bootstrap ;;
  thread_start_cpus mainbus_start_cpus ;;
  let* _r := vfs_setbootfs (list_ascii_of_string "emu0") in
  kheap_nextgeneration.

(** The endless loop of the menu, watched for some rounds. *)
Fixpoint menu_loop (rounds : nat) : M os unit :=
  match rounds with
  | O => halt (Loops "menu")
  | S rounds => kprintf "OS/161 kernel [? for menu]: " ;; let* buf := kgets in menu_execute buf false ;; menu_loop rounds
  end.

Definition menu (rounds : nat) (args : list ascii) : M os unit :=
  menu_execute args true ;;
  menu_loop rounds.

Definition kmain (rounds : nat) (arguments : list ascii) : M os unit :=
  boot ;;
  menu rounds arguments.
End Kmain.

(** ** What the devices promise *)

(** [h'] is [h] after at most [n] allocations: no live block is lost, and the
    room has shrunk by at most [n] blocks. *)
Definition uses {P : Platform} (n : nat) (h h' : heap) : Prop :=
  grows h h' /\ forall m, room (n + m) h = true -> room m h' = true.

(** Only the heap changes, by at most [n] blocks. *)
Definition passive {P : Platform} (n : nat) {A} (m : M os A) : Prop :=
  forall s, wp m (fun _ s' => exists h, s' = set_k (set_heap h) s /\ uses n (k_heap (o_k s)) h) s.

(** [need] bounds the heap blocks that one of these calls allocates. *)
Class DeviceLaws {P : Platform} (DV : Devices) (ME : MenuEnv) (memory : ram) (need : nat) : Prop := {
  ram_bootstrap_ok : forall s, ram_bootstrap s = Done tt (set_k (set_ram memory) s);
  hardclock_passive : passive need hardclock_bootstrap;
  vfs_passive : passive need vfs_bootstrap;
  pseudoconfig_passive : passive need pseudoconfig;
  kprintf_passive : passive need kprintf_bootstrap;
  start_cpus_passive : passive need mainbus_start_cpus;
  generation_passive : passive need kheap_nextgeneration;
  bootfs_passive : forall name, passive need (vfs_setbootfs name);
  mainbus_lowers : forall s t th, cur_thread s = Some t -> o_threads s !! t = Some th ->
    wp mainbus_bootstrap (fun _ s' => exists h, s' = set_threads (<[t := with_t_curspl 0 th]>) (set_k (set_heap h) s) /\
      uses need (k_heap (o_k s)) h) s;
  cpuarray_adds : cpuarray_add = OK;
}.

Section Theorems.
Context {P : Platform} {L : PlatformLaws P} {ME : MenuEnv} {DV : Devices}.
Implicit Types (s : os) (k : kernel).

(** The kernel's data before the first statement. *)
Record reset s : Prop := {
  rs_procs : o_procs s = ∅;
  rs_table : o_table s = replicate (S (Z.to_nat MAX_PROC)) None;
  rs_last : o_last_i s = 0;
  rs_threads : o_threads s = ∅;
  rs_wchans : o_wchans s = ∅;
  rs_curcpu : o_curcpu s = None;
  rs_files : o_files s = replicate (Z.to_nat SYSTEM_OPEN_MAX) (mk_openfile None 0 0);
}.

(** One process, the kernel [p], with one thread [t] on one processor.  The
    thread runs, although its state still says [S_READY]. *)
Record up s (p t : nat) (x : proc) (th : thread) : Prop := {
  up_kproc : o_kproc s = Some p;
  up_procs : o_procs s = {[p := x]};
  up_threads : o_threads s = {[t := th]};
  up_cpus : o_cpus s = [mk_cpus (Some t) [] false [] 0 []];
  up_curcpu : o_curcpu s = Some 0%nat;
  up_wchans : o_wchans s = ∅;
  up_files : o_files s = replicate (Z.to_nat SYSTEM_OPEN_MAX) (mk_openfile None 0 0);
  up_proc : p_addrspace x = None /\ p_numthreads x = 1 /\ p_fileTable x = replicate (Z.to_nat OPEN_MAX) None;
  up_thread : t_proc th = Some p /\ t_cpu th = Some 0%nat /\ t_state th = S_READY;
  up_inv : proc_inv s;
  up_live : procs_live s;
}.

Lemma up_cur s p t x th : up s p t x th -> cur_thread s = Some t /\ cur_proc s = Some p /\ k_curproc (view s) = Some None.
Proof.
  intros [U1 U2 U3 U4 U5 U6 U7 (U8 & _) (U9 & _) U10 U11].
  assert (Et : cur_thread s = Some t) by (unfold cur_thread, cur_cpu; by rewrite U5, U4).
  assert (Ep : cur_proc s = Some p) by (unfold cur_proc; rewrite Et, U3; cbn; by rewrite lookup_singleton_eq).
  split; [done|]. split; [done|]. unfold view. cbn [k_curproc set_cpu set_curproc]. rewrite Ep, U2. cbn. rewrite lookup_singleton_eq. cbn.
  by rewrite U8.
Qed.

(** A passive step keeps all this. *)
Lemma up_heap s h p t x th : up s p t x th -> grows (k_heap (o_k s)) h -> up (set_k (set_heap h) s) p t x th.
Proof.
  intros [U1 U2 U3 U4 U5 U6 U7 U8 U9 U10 U11] Hg. split; try done; [by destruct U10|].
  intros q Hq. apply Hg, U11, Hq.
Qed.

Lemma up_sched s p t x th : up s p t x th -> sched_inv (set_threads (<[t := with_t_state S_RUN th]>) s).
Proof.
  intros [U1 U2 U3 U4 U5 U6 U7 U8 (U9 & U10 & U11) _ _].
  assert (Ht : forall u y, o_threads (set_threads (<[t := with_t_state S_RUN th]>) s) !! u = Some y -> u = t /\ y = with_t_state S_RUN th).
  { intros u y. ored. rewrite U3, insert_singleton_eq. by intros [<- <-]%lookup_singleton_Some. }
  assert (Hc : forall i c, o_cpus s !! i = Some c -> i = 0%nat /\ c = mk_cpus (Some t) [] false [] 0 []).
  { intros i c. rewrite U4. destruct i; cbn; [|done]. by intros [= <-]. }
  assert (Hpl : place_of (with_t_state S_RUN th) = Some (Running 0)) by (unfold place_of; cbn; by rewrite U10).
  assert (Hme : o_threads (set_threads (<[t := with_t_state S_RUN th]>) s) !! t = Some (with_t_state S_RUN th)) by (ored; apply lookup_insert_eq).
  split.
  - intros u pl. split.
    + destruct pl as [i|i|w|i]; cbn; ored;
        [intros (c & [-> ->]%Hc & _ & [= ->]); by eauto | intros (c & [-> ->]%Hc & Hin) |
         intros (q & Hq & _); by rewrite U6 in Hq | intros (c & [-> ->]%Hc & Hin)]; by apply not_elem_of_nil in Hin.
    + intros (y & [-> ->]%Ht & Hy). rewrite Hpl in Hy. injection Hy as <-. cbn. ored. rewrite U4. by eexists.
  - intros i c. ored. intros [-> ->]%Hc. split; constructor.
  - intros w q. ored. by rewrite U6.
  - intros u y [-> ->]%Ht. by rewrite Hpl.
  - by intros u y [-> ->]%Ht.
  - intros u y [-> ->]%Ht. exists 0%nat. eexists. ored. rewrite U4. done.
Qed.

Lemma up_files_ok s p t x th : up s p t x th -> files_ok s.
Proof.
  intros [U1 U2 U3 U4 U5 U6 U7 (_ & _ & U8) _ _ _].
  split; rewrite ?U2, ?U7.
  - apply length_replicate.
  - intros q y [<- <-]%lookup_singleton_Some. rewrite U8. apply length_replicate.
  - intros i f [-> _]%lookup_replicate_1. cbn. rewrite <- insert_empty, refs_insert by done. rewrite U8.
    by rewrite count_none.
Qed.
(** Running a passive step of the boot. *)
Lemma wp_passive {A} n (m : M os A) s (Q : A -> os -> Prop) :
  passive n m -> (forall a h, uses n (k_heap (o_k s)) h -> Q a (set_k (set_heap h) s)) -> wp m Q s.
Proof. intros Hm HQ. eapply wp_mono; [apply Hm|]. intros a s' (h & -> & Hg). by apply HQ. Qed.

(** ** The process table and the first thread *)

Lemma proc_bootstrap_spec s :
  reset s -> room 5 (k_heap (o_k s)) = true ->
  wp proc_bootstrap (fun _ s' => exists p x, o_kproc s' = Some p /\ o_procs s' = {[p := x]} /\ new_proc x /\
    o_threads s' = ∅ /\ o_wchans s' = ∅ /\ o_curcpu s' = None /\ o_files s' = o_files s /\
    proc_inv s' /\ procs_live s' /\ calm (o_k s) (o_k s') /\ spent 5 (k_heap (o_k s)) (k_heap (o_k s'))) s.
Proof.
  intros [R1 R2 R3 R4 R5 R6 R7] Hh. unfold proc_bootstrap. step.
  eapply wp_mono; [apply create_spec_proc|].
  - split; rewrite ?R1, ?R2, ?R3; try done.
    + intros i p [H _]%lookup_replicate_1. done.
  - intros p. rewrite R1. by intros [].
  - exists 1. rewrite R2, R3. split; [unfold MAX_PROC; lia|]. split; [lia | done].
  - intros [p|] s1 H1; cbv beta match in H1.
    2: { destruct H1 as (_ & _ & _ & Hn). by rewrite (no_room_le 5 2 _ ltac:(lia) Hn) in Hh. }
    destruct H1 as [[G1 (x & G2 & G3 & _) G4 G5 (G6 & G7 & G8 & G9 & G10 & G11) G12 G13] [Hl Hpaid]]. rewrite R1 in G2.
    assert (Hsp : spent 5 (k_heap (o_k s)) (k_heap (o_k s1))).
    { unfold sem_paid in Hpaid. destruct (_ ≫= p_sem); [exact Hpaid | congruence]. }
    apply wp_modify. exists p, x. ored. rewrite G2, insert_empty, G6, G8, G10, G11. repeat (split; [done|]).
    split; [destruct G5; split; ored; rewrite <- ?insert_empty, <- ?G2; done|]. split; [|by split]. intros q Hq. by apply Hl.
Qed.

(** Allocation in a heap with room. *)
Lemma wp_kmallocO_room n s (Q : option nat -> os -> Prop) :
  room (S n) (k_heap (o_k s)) = true ->
  (forall p h, grows (k_heap (o_k s)) h -> room n h = true -> spent 1 (k_heap (o_k s)) h -> Q (Some p) (set_kheap h s)) -> wp kmallocO Q s.
Proof.
  intros Hr HQ. cbn [room] in Hr. apply wp_kmallocO; [intros E; by rewrite E in Hr|].
  intros p h E. rewrite E in Hr. apply HQ; [by eapply grows_kmalloc | done | by eapply spent_kmalloc].
Qed.

Lemma thread_bootstrap_spec s p x :
  room 3 (k_heap (o_k s)) = true -> o_kproc s = Some p -> o_procs s = {[p := x]} -> new_proc x -> o_threads s = ∅ ->
  o_wchans s = ∅ -> o_curcpu s = None -> o_files s = replicate (Z.to_nat SYSTEM_OPEN_MAX) (mk_openfile None 0 0) ->
  proc_inv s -> procs_live s ->
  wp (thread_bootstrap OK) (fun _ s' => exists t x' th, up s' p t x' th /\ t_curspl th = IPL_HIGH /\ calm (o_k s) (o_k s') /\
    spent 3 (k_heap (o_k s)) (k_heap (o_k s'))) s.
Proof.
  intros Hh K1 K2 K3 K4 K5 K6 K7 K8 K9. unfold thread_bootstrap, cpu_create. steps. apply wp_kassert; [ored; by rewrite K6|]. step. step.
  apply (wp_kmallocO_room 2); [done|]. intros c h1 G1 Hr1 S1. steps. unfold thread_create. step.
  apply (wp_kmallocO_room 1); [done|]. intros t h2 G2 Hr2 S2. step.
  apply (wp_kmallocO_room 0); [done|]. intros name h3 G3 _ S3. steps.
  change (length (o_cpus (set_kheap h1 (set_cpus (fun _ => []) s)))) with 0%nat.
  eapply wp_cpu_upd; [reflexivity|]. step. eapply wp_thread_upd; [apply lookup_insert_eq|]. cbn [Nat.eqb]. steps. ored.
  rewrite K6. steps. ored. rewrite K1. eapply wp_deref; [done|]. unfold proc_addthread. step. step.
  eapply wp_thread_at; [apply lookup_insert_eq|]. step. apply wp_kassert; [done|]. step.
  eapply wp_proc_upd; [ored; by rewrite K2, lookup_singleton_eq|].
  eapply wp_thread_upd; [apply lookup_insert_eq|]. step.
  set (x' := with_numthreads _ x). set (th := with_t_proc _ _). set (s' := set_threads _ _).
  assert (Ep : o_procs s' = {[p := x']}) by (change (o_procs s') with (<[p := x']> (o_procs s)); by rewrite K2, insert_singleton_eq).
  assert (Et : o_threads s' = {[t := th]}).
  { change (o_threads s') with (<[t := th]> (<[t := with_t_cpu (Some 0%nat) (mk_thread name S_READY None None None None IPL_HIGH 1 None)]>
      (<[t := mk_thread name S_READY None None None None IPL_HIGH 1 None]> (o_threads s)))). by rewrite K4, !insert_insert_eq, insert_empty. }
  assert (Hup : up s' p t x' th).
  { destruct K3 as [N1 N2 _ _ _ N6]. split; try done.
    - split; [done|]. split; [|done]. cbn. by rewrite N1.
    - apply (proc_inv_upd s s' p x x'); try done. by rewrite K2, lookup_singleton_eq.
    - intros q. rewrite Ep, lookup_singleton_is_Some. intros <-. apply G3, G2, G1, K9. by rewrite K2, lookup_singleton_eq. }
  destruct (up_cur _ _ _ _ _ Hup) as (Ec & _). steps. apply wp_kassert; [done|]. unfold curthread_self. steps.
  eapply wp_deref; [exact Ec|]. step. eapply wp_thread_at; [rewrite Et; apply lookup_singleton_eq|]. steps.
  apply wp_kassert; [done|]. apply wp_kassert; [by apply bool_decide_eq_true_2; rewrite (up_kproc _ _ _ _ _ Hup)|].
  exists t, x', th. split; [done|]. split; [done|]. split; [by split|].
  exact (spent_add 1 2 _ _ _ S1 (spent_add 1 1 _ _ _ S2 S3)).
Qed.
(** ** Starting the other processors, when there are none *)

Lemma start_cpus_spec s need :
  room 3 (k_heap (o_k s)) = true -> length (o_cpus s) = 1%nat -> passive need mainbus_start_cpus ->
  wp (thread_start_cpus mainbus_start_cpus) (fun _ s' => exists h, s' = set_cpu_startup_sem None (set_kheap h s) /\
    grows (k_heap (o_k s)) h) s.
Proof.
  intros Hh H1 Hm. unfold thread_start_cpus. step. apply wp_vm_heap.
  eapply wp_mono; [apply (wp_conj _ _ _ _ (sem_create_takes (view s)) (sem_create_spec [] (view s) (view s) (heap_plus_refl _)))|].
  intros [sem|] k1 [(h & -> & _ & Hs) Hp]; [|change (k_heap (view s)) with (k_heap (o_k s)) in Hs; congruence].
  destruct Hp as (_ & _ & Hfr & Hl). exists h. split; [done|]. steps. cbn [fmap option_fmap option_map].
  eapply wp_passive; [done|]. intros [] h2 [G2 _]. steps.
  change (o_cpus (set_k (set_heap h2) (set_cpu_startup_sem (Some (sem, 0)) (set_kheap h s)))) with (o_cpus s).
  rewrite H1. cbn [Nat.sub seq for_each]. steps. ored. apply wp_vm_heap.
  eapply wp_mono; [apply sem_destroy_spec, heap_minus_refl|]. rewrite app_nil_r in *. intros [] k2 [[h3 ->] Hl3]. exists h3.
  split; [done|]. apply wp_modify. exists h3.
  assert (Ev : view (set_k (set_heap h2) (set_cpu_startup_sem (Some (sem, 0)) (set_kheap h s))) = set_heap h2 (view s))
    by exact (view_set_kheap h2 s).
  split; [unfold set_kheap at 1; by rewrite Ev|]. intros q Hq. apply Hl3. split.
  - intros Hin. by apply (Hfr q Hin).
  - apply G2, Hl. by right.
Qed.

(** ** The whole boot *)

(** The kernel is up and its memory management works. *)
Definition ready s (p t : nat) (x : proc) (th : thread) (b : bitmap) (v : vnode) : Prop :=
  up s p t x th /\ t_curspl th = 0 /\ vm_inv (view s) b v ∅ None /\ quiet (view s) /\
  (forall i, (i < length (coremap (k_cm (o_k s))))%nat -> frame_free (k_cm (o_k s)) i).

Lemma ready_heap s h p t x th b v :
  ready s p t x th b v -> grows (k_heap (o_k s)) h -> ready (set_k (set_heap h) s) p t x th b v.
Proof.
  intros (H1 & H2 & H3 & H4 & H5) Hg. split; [by apply up_heap|]. split; [done|].
  split; [exact (vm_inv_env (view s) b v ∅ None h _ (fun _ _ _ => eq_refl) H3)|]. split; [by destruct H4 | done].
Qed.

Lemma powered_calm k k' v d nslots b :
  powered k v d nslots b -> calm k k' -> (forall a, k_curproc k' <> Some (Some a)) -> powered k' v d nslots b.
Proof.
  intros [] [E1 E2 E3 E4 E5 E6 E7 E8 [E9 E10]] Hc. split; rewrite ?E1, ?E2, ?E3, ?E5, ?E7, ?E8; try done.
  unfold lockable in *. by rewrite E9.
Qed.
(** Before the memory management starts. *)
Definition early k s (p t : nat) (x : proc) (th : thread) : Prop := up s p t x th /\ calm k (o_k s).

Lemma early_heap k s h p t x th :
  early k s p t x th -> grows (k_heap (o_k s)) h -> early k (set_k (set_heap h) s) p t x th.
Proof. intros [H1 H2] Hg. split; [by apply up_heap|]. eapply calm_trans; [exact H2 | by split]. Qed.

(** The checks of the interrupt priority. *)
Lemma wp_check_spl s p t x th (f : Z -> bool) what (Q : unit -> os -> Prop) :
  up s p t x th -> f (t_curspl th) = true -> Q tt s ->
  wp (let* cur := curthread_self in let* th := thread_at cur in kassert (f (t_curspl th)) what) Q s.
Proof.
  intros Hup Hf HQ. destruct (up_cur _ _ _ _ _ Hup) as (Ec & _). unfold curthread_self. steps. eapply wp_deref; [done|]. step.
  eapply wp_thread_at; [rewrite (up_threads _ _ _ _ _ Hup); apply lookup_singleton_eq|]. by apply wp_kassert.
Qed.

(** [vm_bootstrap] on top of processes and threads. *)
Lemma vm_bootstrap_ready s p t x th v d nslots b (Q : unit -> os -> Prop) :
  up s p t x th -> t_curspl th = 0 -> powered (view s) v d nslots b -> room 10 (k_heap (o_k s)) = true ->
  (forall s', ready s' p t x th b v -> spent 10 (k_heap (o_k s)) (k_heap (o_k s')) -> Q tt s') -> wp (vm vm_bootstrap) Q s.
Proof.
  intros Hup Hspl Hpw Hr HQ. apply wp_vm_keep. eapply wp_mono; [by eapply vm_bootstrap_spec|].
  intros [] k' (H1 & H2 & H3 & _ & _ & _ & E1 & E2 & _ & Hg & Hs). split; [by split|]. apply HQ; [|exact Hs].
  assert (Ev : view (set_k (fun _ => k') s) = k') by (apply view_set_k; by split).
  split; [|split; [done|split; [by rewrite Ev|split; [by rewrite Ev | done]]]].
  destruct Hup as [U1 U2 U3 U4 U5 U6 U7 U8 U9 U10 U11]. split; try done; [by destruct U10|]. intros q Hq. apply Hg, U11, Hq.
Qed.

Lemma ready_startup s h o p t x th b v :
  ready s p t x th b v -> grows (k_heap (o_k s)) h -> ready (set_cpu_startup_sem o (set_kheap h s)) p t x th b v.
Proof.
  intros (H1 & H2 & H3 & H4 & H5) Hg. change (view (set_cpu_startup_sem o (set_kheap h s))) with (view (set_kheap h s)).
  assert (Ev : view (set_cpu_startup_sem o (set_kheap h s)) = set_heap h (view s)) by exact (view_set_kheap h s).
  split; [|split; [done|rewrite Ev; split; [exact (vm_inv_env (view s) b v ∅ None h _ (fun _ _ _ => eq_refl) H3)|split; [by destruct H4 | done]]]].
  destruct H1 as [U1 U2 U3 U4 U5 U6 U7 U8 U9 U10 U11]. split; try done; [by destruct U10|]. intros q Hq. apply Hg, U11, Hq.
Qed.

(** The probe of the devices, between its two checks. *)
Lemma probe_spec k s memory need p t x th (Q : unit -> os -> Prop) :
  DeviceLaws DV ME memory need -> early k s p t x th ->
  (forall s', early k s' p t x (with_t_curspl 0 th) -> uses need (k_heap (o_k s)) (k_heap (o_k s')) -> Q tt s') -> wp mainbus_bootstrap Q s.
Proof.
  intros DL [Hup Hcalm] HQ. destruct (up_cur _ _ _ _ _ Hup) as (Ec & _ & _).
  eapply wp_mono; [apply (mainbus_lowers s t th Ec); rewrite (up_threads _ _ _ _ _ Hup); apply lookup_singleton_eq|].
  intros [] s4 (h & -> & [Hg Hu]). apply HQ; [|done]. split; [|eapply calm_trans; [exact Hcalm | by split]].
  destruct Hup as [U1 U2 U3 U4 U5 U6 U7 U8 U9 U10 U11].
  split; try done; [ored; by rewrite U3, insert_singleton_eq | by destruct U10|]. intros q Hq. apply Hg, U11, Hq.
Qed.

Lemma wp_assoc {A} (m n : M os unit) (r : M os A) s (Q : A -> os -> Prop) : wp ((m ;; n) ;; r) Q s -> wp (m ;; n ;; r) Q s.
Proof. unfold wp, bind. by destruct (m s). Qed.

(** The first two components. *)
Lemma structures_spec s memory need (Q : unit -> os -> Prop) :
  DeviceLaws DV ME memory need -> reset s -> room 8 (k_heap (o_k s)) = true ->
  (forall s' p t x th, early (o_k s) s' p t x th -> t_curspl th = IPL_HIGH -> spent 8 (k_heap (o_k s)) (k_heap (o_k s')) -> Q tt s') ->
  wp (proc_bootstrap ;; thread_bootstrap cpuarray_add) Q s.
Proof.
  intros DL HR Hh HQ. step. eapply wp_mono; [apply proc_bootstrap_spec; [done | by apply (room_le 8); [lia|]]|].
  intros [] s1 (p & x0 & B1 & B2 & B3 & B4 & B5 & B6 & B7 & B8 & B9 & B10 & B11). rewrite cpuarray_adds.
  apply (spent_room 5 3 _ _ B11) in Hh.
  eapply wp_mono; [apply (thread_bootstrap_spec s1 p x0); try done; rewrite B7; apply HR|].
  intros [] s2 (t & x & th & Hup & Hspl & Hcalm & Hs3). eapply HQ; [split; [exact Hup | by eapply calm_trans] | done|].
  exact (spent_add 5 3 _ _ _ B11 Hs3).
Qed.

(** The state of the boot thread, which runs, is [S_READY] as
    [thread_create] has set it.  [thread_switch] does not look at it. *)
Definition marked_running s (t : nat) : os := set_threads (alter (with_t_state S_RUN) t) s.

(** The running thread is marked [S_READY]: the only thing wrong. *)
Lemma up_marked_ready s p t x th : up s p t x th -> ~ sched_inv s.
Proof.
  intros Hup I. pose proof Hup as [U1 U2 U3 U4 U5 U6 U7 U8 (U9 & U10 & U11) _ _].
  assert (Hat : at_place s t (Running 0)) by (eexists; rewrite U4; done).
  apply (si_place _ I) in Hat as (th' & Ht & Hp). rewrite U3 in Ht. apply lookup_singleton_Some in Ht as [_ <-].
  unfold place_of in Hp. by rewrite U11, U10 in Hp.
Qed.

Lemma ready_summary s p t x th b v : ready s p t x th b v ->
  exists p t x th, o_kproc s = Some p /\ cur_proc s = Some p /\ cur_thread s = Some t /\
    o_procs s = {[p := x]} /\ p_numthreads x = 1 /\ o_table s !! Z.to_nat (p_pid x) = Some (Some p) /\
    o_threads s = {[t := th]} /\ t_curspl th = 0 /\
    proc_inv s /\ procs_live s /\ files_ok s /\
    t_state th = S_READY /\ ~ sched_inv s /\ sched_inv (marked_running s t) /\
    vm_inv (view s) b v ∅ None /\ quiet (view s) /\
    forall i, (i < length (coremap (k_cm (o_k s))))%nat -> frame_free (k_cm (o_k s)) i.
Proof.
  intros (Hup & Hs & Hvm & Hq & Hf). destruct (up_cur _ _ _ _ _ Hup) as (Ec & Ep & _). exists p, t, x, th.
  pose proof (up_sched _ _ _ _ _ Hup) as Hsi. pose proof (up_files_ok _ _ _ _ _ Hup). pose proof (up_marked_ready _ _ _ _ _ Hup).
  assert (Ht : o_table s !! Z.to_nat (p_pid x) = Some (Some p)).
  { apply (pi_registered _ (up_inv _ _ _ _ _ Hup) p x). rewrite (up_procs _ _ _ _ _ Hup). apply lookup_singleton_eq. }
  assert (Hr : sched_inv (marked_running s t)).
  { unfold marked_running. replace (set_threads (alter (with_t_state S_RUN) t) s) with (set_threads (<[t := with_t_state S_RUN th]>) s); [done|].
    unfold set_threads. f_equal. rewrite (up_threads _ _ _ _ _ Hup). by rewrite insert_singleton_eq, alter_singleton_eq. }
  destruct Hup as [? ? ? ? ? ? ? (_ & ? & _) (_ & _ & ?) ? ?]. by repeat (split; [done|]).
Qed.

(** A passive step in the middle of the boot; [H] says how far it is and [R]
    what room is left. *)
Local Ltac passing law H R :=
  step; eapply wp_passive; [apply law|];
  let h := fresh "h" in let G := fresh "G" in let U := fresh "U" in intros _ h [G U];
  first [apply (early_heap _ _ h) in H; [|exact G] | apply (ready_heap _ h) in H; [|exact G]]; apply U in R; clear G U.

(** The heap blocks the boot takes: for the kernel process, the first
    processor and its thread, two locks of the paging system and a semaphore,
    and [need] for each start of a device. *)
Definition boot_blocks (need : nat) : nat := 8 + (need + (need + (need + (need + (need + (need + (10 + (need + 3)))))))).

(** C5. The boot succeeds: from reset memory, with room in the heap for what
    the kernel and the devices allocate, devices that keep to their contract
    and a swap device, [boot] ends, without panic or failed assertion, with
    the kernel process and its thread running alone.  The kernel process is
    registered in the process table (a comment in [proc_bootstrap]'s file
    says that it is not), and the invariants of the process table, the open
    file tables and the paging system hold; every frame is free.  The
    scheduler's invariant does not hold of this state, because the running
    thread is still marked [S_READY]: it is the only thing wrong, and the
    invariant holds of the state with the mark put right. *)
Theorem boot_establishes s memory need v d nslots b :
  DeviceLaws DV ME memory need -> reset s -> powered (set_curproc None (set_ram memory (o_k s))) v d nslots b ->
  room (boot_blocks need) (k_heap (o_k s)) = true ->
  wp boot (fun _ s' => exists p t x th, o_kproc s' = Some p /\ cur_proc s' = Some p /\ cur_thread s' = Some t /\
    o_procs s' = {[p := x]} /\ p_numthreads x = 1 /\ o_table s' !! Z.to_nat (p_pid x) = Some (Some p) /\
    o_threads s' = {[t := th]} /\ t_curspl th = 0 /\
    proc_inv s' /\ procs_live s' /\ files_ok s' /\
    t_state th = S_READY /\ ~ sched_inv s' /\ sched_inv (marked_running s' t) /\
    vm_inv (view s') b v ∅ None /\ quiet (view s') /\
    forall i, (i < length (coremap (k_cm (o_k s'))))%nat -> frame_free (k_cm (o_k s')) i) s.
Proof.
  intros DL HR HP Hh. unfold boot.
  step. eapply wp_eq; [apply ram_bootstrap_ok|]. set (s0 := set_k _ s). apply wp_assoc. step.
  eapply structures_spec; [done | by destruct HR | by eapply room_le, Hh; unfold boot_blocks; lia|].
  intros s2 p t x th He Hspl Hs8. apply (spent_room 8 _ _ _ Hs8) in Hh.
  passing hardclock_passive He Hh. passing vfs_passive He Hh. passing generation_passive He Hh.
  step. eapply (wp_check_spl _ p t x th (fun z => 0 <? z)); [apply He | apply Z.ltb_lt; rewrite Hspl; apply ipl_high_pos|].
  step. eapply probe_spec; [done | exact He|]. clear He. intros s4 He [_ Hu]. apply Hu in Hh. clear Hu.
  step. eapply (wp_check_spl _ p t x _ (fun z => z =? 0)); [apply He | done |].
  passing pseudoconfig_passive He Hh. passing generation_passive He Hh. destruct He as [Hup Hcalm].
  step. eapply vm_bootstrap_ready; [exact Hup | done | | by eapply room_le, Hh; lia|].
  { eapply powered_calm; [exact HP | | by rewrite (proj2 (proj2 (up_cur _ _ _ _ _ Hup)))].
    eapply calm_trans; [|apply calm_view]. eapply calm_trans; [|exact Hcalm]. by split. }
  intros s7 Hr Hs10. apply (spent_room 10 _ _ _ Hs10) in Hh. passing kprintf_passive Hr Hh.
  step. eapply wp_mono; [eapply start_cpus_spec; [exact Hh | by rewrite (up_cpus _ _ _ _ _ (proj1 Hr)) | apply start_cpus_passive]|].
  intros [] s8 (h8 & -> & G8). apply (ready_startup _ h8 None) in Hr; [|done].
  step. eapply wp_passive; [apply bootfs_passive|]. intros _ h9 [G9 _]. apply (ready_heap _ h9) in Hr; [|done].
  eapply wp_passive; [apply generation_passive|]. intros _ h10 [G10 _]. apply (ready_heap _ h10) in Hr; [|done].
  by eapply ready_summary.
Qed.
End Theorems.
