(* ===== verification/Sys161.v ===== *)
(** A platform: System/161 in miniature.

    A concrete [Platform] with the constants of the real machine and simple
    devices, and the proof that it satisfies [PlatformLaws].  Pages have 4096
    bytes and the TLB 64 slots as on the MIPS r3000 of System/161.  A device
    or file is an array of bytes that reads and writes in full; the kernel
    heap is the set of live blocks and runs out at 256; a bitmap is the set
    of its marked bits. *)

From Stdlib Require Import ZArith Lia.
From stdpp Require Import base list gmap strings.
From S2P Require Import Prelude Platform.
Local Open Scope Z_scope.

Definition files := nat -> Z -> Z.

Definition vnode_read (v : nat) (off n : Z) (d : files) : list Z :=
  mem_read (d v) off (Z.to_nat n).

Definition vnode_write (v : nat) (off : Z) (bs : list Z) (d : files) : files :=
  fun w => if decide (w = v) then mem_write (d v) off bs else d w.

Definition tlb_array := nat -> Z * Z.

Definition probe_slot (v : Z) (t : tlb_array) : option nat :=
  list_find (fun i => Z.land (t i).1 0xfffff000 = Z.land v 0xfffff000) (seq 0 64)
    ≫= fun p => Some p.2.

Record bits := mk_bits { bits_n : Z; bits_set : gset Z }.

Definition bits_get (b : bits) (i : Z) : bool :=
  (0 <=? i) && (i <? bits_n b) && bool_decide (i ∈ bits_set b).

Definition bits_alloc (b : bits) : errno + (bits * Z) :=
  match list_find (fun i => i ∉ bits_set b) (seqZ 0 (bits_n b)) with
  | Some (_, i) => inr (mk_bits (bits_n b) ({[i]} ∪ bits_set b), i)
  | None => inl ENOSPC
  end.

Definition bits_unmark (b : bits) (i : Z) : option bits :=
  if bits_get b i then Some (mk_bits (bits_n b) (bits_set b ∖ {[i]})) else None.

Arguments probe_slot : simpl never.
Arguments bits_get : simpl never.
Arguments bits_alloc : simpl never.
Arguments bits_unmark : simpl never.
Arguments vnode_read : simpl never.
Arguments vnode_write : simpl never.

(** File 0 is the swap disk of 16 pages, file 3 the program [bin/prog], every
    other name opens file 1.  File 2 is a device that is broken. *)
#[export] Instance sys161 : Platform := {|
  PAGE_SIZE := 4096;
  PAGE_FRAME := 0xfffff000;
  MIPS_KSEG0 := 0x80000000;
  USERSTACK := 0x80000000;
  PADDR_TO_KVADDR p := u32 (p + 0x80000000);
  DIVROUNDUP a b := (a + b - 1) / b;
  sizeof_c_entry := 12;
  sizeof_pt_entry := 12;
  VM_FAULT_READ := 0; VM_FAULT_WRITE := 1; VM_FAULT_READONLY := 2;
  PF_R := 4; PF_W := 2; PF_X := 1;
  IPI_PANIC := 0; IPI_OFFLINE := 1; IPI_UNIDLE := 2; IPI_TLBSHOOTDOWN := 3;
  TLBSHOOTDOWN_MAX := 16;
  OPEN_MAX := 128;
  IPL_HIGH := 1;
  errno_code e := match e with ENOSYS => 1 | ENOMEM => 2 | EFAULT => 3 | EINVAL => 4 | ENOENT => 5 | ENOEXEC => 6
    | ENOSPC => 7 | ENFILE => 8 | EMFILE => 9 | E2BIG => 10 | Eother n => 11 + Z.abs n end;
  NUM_TLB := 64;
  TLBLO_VALID := 0x200;
  TLBLO_DIRTY := 0x400;
  TLBHI_INVALID i := (0x80000 + Z.of_nat i) * 4096;
  TLBLO_INVALID := 0;
  tlb_hw := tlb_array;
  tlb_read t i := t i;
  tlb_write hi lo i t := fun j => if decide (j = i) then (hi, lo) else t j;
  tlb_probe v t := match probe_slot v t with Some i => Z.of_nat i | None => -1 end;
  ram := (Z * Z)%type;
  ram_getsize r := r.2;
  ram_getfirstfree r := (r.1, r);
  ram_stealmem n r := if r.1 + n * 4096 <=? r.2 then (r.1, (r.1 + n * 4096, r.2)) else (0, r);
  heap := gset nat;
  kmalloc h := if (size h <? 256)%nat then Some (fresh h, {[fresh h]} ∪ h) else None;
  kfree p h := h ∖ {[p]};
  heap_live h p := p ∈ h;
  heap_word _ p := Z.of_nat p;
  pte_raw _ _ i := (Z.of_nat i, 0, false, false, 0);
  bitmap := bits;
  bitmap_nbits := bits_n;
  bitmap_create n := Some (mk_bits n ∅);
  bitmap_isset := bits_get;
  bitmap_alloc := bits_alloc;
  bitmap_unmark := bits_unmark;
  vnode := nat;
  disk := files;
  vfs_open name d := inr (if decide (name = "bin/prog"%string) then 3%nat else 1%nat, d);
  vfs_close _ d := d;
  vfs_swapon _ d := inr (0%nat, d);
  vfs_swapoff _ d := inr d;
  VOP_STAT_size v _ := inr (16 * 4096);
  VOP_READ v off n d := if (v =? 2)%nat then inl (Eother 5) else inr (vnode_read v off n d);
  VOP_READ_partial v off n d := vnode_read v off (n / 2) d;
  VOP_WRITE v off bs d := if (v =? 2)%nat then inl (Eother 5) else inr (vnode_write v off bs d);
  VOP_INCREF _ d := d;
  VOP_DECREF _ d := d;
|}.

Lemma probe_slot_Some v t i : probe_slot v t = Some i ->
  (i < 64)%nat /\ Z.land (t i).1 0xfffff000 = Z.land v 0xfffff000.
Proof.
  unfold probe_slot. destruct (list_find _ _) as [[n x]|] eqn:E; [|done].
  cbn. intros [= ->]. apply list_find_Some in E as (Hl & He & _).
  apply lookup_seq in Hl as [-> Hn]. done.
Qed.

Lemma probe_slot_None v t i : probe_slot v t = None -> (i < 64)%nat ->
  Z.land (t i).1 0xfffff000 <> Z.land v 0xfffff000.
Proof.
  unfold probe_slot. destruct (list_find _ _) as [[n x]|] eqn:E; [done|].
  intros _ Hi. apply list_find_None in E. rewrite Forall_forall in E. apply E, elem_of_seq. lia.
Qed.

Lemma bits_get_spec b i : bits_get b i = true <-> 0 <= i < bits_n b /\ i ∈ bits_set b.
Proof.
  unfold bits_get. rewrite !andb_true_iff, Z.leb_le, Z.ltb_lt, bool_decide_eq_true. tauto.
Qed.

Lemma bits_alloc_ok b b' i : bits_alloc b = inr (b', i) ->
  0 <= i < bits_n b /\ bits_get b i = false /\ bits_n b' = bits_n b /\
  forall j, bits_get b' j = (j =? i) || bits_get b j.
Proof.
  unfold bits_alloc. destruct (list_find _ _) as [[n x]|] eqn:E; [|done]. intros [= <- <-].
  apply list_find_Some in E as (Hl & Hx & _). apply lookup_seqZ in Hl as [-> Hn].
  cbn [bits_n] in *. split; [lia|]. split.
  - apply not_true_is_false. rewrite bits_get_spec. tauto.
  - split; [done|]. intros j. apply eq_true_iff_eq.
    rewrite orb_true_iff, !bits_get_spec, Z.eqb_eq. cbn.
    rewrite elem_of_union, elem_of_singleton. intuition lia.
Qed.

Lemma bits_alloc_full b e i : bits_alloc b = inl e -> 0 <= i < bits_n b -> bits_get b i = true.
Proof.
  unfold bits_alloc. destruct (list_find _ _) as [[n x]|] eqn:E; [done|]. intros _ Hi.
  apply list_find_None in E. rewrite Forall_forall in E.
  specialize (E i ltac:(by apply elem_of_seqZ; lia)). apply bits_get_spec. split; [done|].
  by destruct (decide (i ∈ bits_set b)).
Qed.

Lemma bits_unmark_ok b i : bits_get b i = true ->
  exists b', bits_unmark b i = Some b' /\ bits_n b' = bits_n b /\
    forall j, bits_get b' j = negb (j =? i) && bits_get b j.
Proof.
  intros H. unfold bits_unmark. rewrite H. eexists. split; [done|]. split; [done|].
  intros j. apply eq_true_iff_eq. rewrite andb_true_iff, negb_true_iff, Z.eqb_neq, !bits_get_spec.
  cbn. rewrite elem_of_difference, elem_of_singleton. tauto.
Qed.

Lemma file_write_read v off bs d :
  vnode_read v off (Z.of_nat (length bs)) (vnode_write v off bs d) = bs.
Proof.
  unfold vnode_read, vnode_write. rewrite decide_True, Nat2Z.id by done. apply mem_read_write_same.
Qed.

Lemma file_write_disjoint v off bs d off' n :
  off' + n <= off \/ off + Z.of_nat (length bs) <= off' ->
  vnode_read v off' n (vnode_write v off bs d) = vnode_read v off' n d.
Proof.
  intros H. unfold vnode_read, vnode_write. rewrite decide_True by done.
  destruct (decide (0 <= n)).
  - apply mem_read_write_other. lia.
  - by replace (Z.to_nat n) with 0%nat by lia.
Qed.

#[export] Instance sys161_laws : PlatformLaws sys161.
Proof.
  split; cbn; try done; try lia.
  - exists 12. done.
  - split; [repeat constructor; set_solver | repeat constructor; lia].
  - intros []; lia.
  - exists 9, 10. done.
  - intros i Hi. split; [|lia]. change 4096 with (2 ^ 12).
    replace 0xfffff000 with (Z.shiftl (Z.ones 20) 12) by reflexivity.
    rewrite <- Z.shiftl_mul_pow2, <- Z.shiftl_land by lia. f_equal.
    rewrite Z.land_ones by lia. apply Z.mod_small. lia.
  - intros t v. unfold tlb_vpage. cbn. destruct (probe_slot v t) as [i|] eqn:E; [|lia].
    intros _. rewrite Nat2Z.id. by apply probe_slot_Some.
  - intros t v i. unfold tlb_vpage. cbn. destruct (probe_slot v t) as [j|] eqn:E; [lia|].
    intros _. by apply probe_slot_None.
  - intros h p h' E. cbn in E. case_match; [|done]. injection E as <- <-. apply is_fresh.
  - intros h p h' q E. cbn in E. case_match; [|done]. injection E as <- <-. rewrite elem_of_union, elem_of_singleton. done.
  - intros h p q. rewrite elem_of_difference, elem_of_singleton. tauto.
  - intros n b [= <-]. split; [done|]. intros i. apply not_true_is_false.
    rewrite bits_get_spec. cbn. set_solver.
  - intros b i. rewrite bits_get_spec. tauto.
  - apply bits_alloc_ok.
  - intros b e H i. by apply bits_alloc_full with e.
  - apply bits_unmark_ok.
  - intros b i H. unfold bits_unmark. by rewrite H.
  - intros v off n d bs Hn. destruct (v =? 2)%nat; [done|]. intros [= <-]. unfold vnode_read. rewrite length_mem_read. lia.
  - intros v off n d Hn. cbn. unfold vnode_read. rewrite length_mem_read. pose proof (Z.div_le_upper_bound n 2 n). pose proof (Z.div_pos n 2). lia.
  - intros v off bs d d'. destruct (v =? 2)%nat; [done|]. intros [= <-]. f_equal. apply file_write_read.
  - intros v off bs d d' off' n. destruct (v =? 2)%nat; [done|]. intros [= <-] H. f_equal. by apply file_write_disjoint.
  - intros v w off bs d d' off' n. destruct (v =? 2)%nat; [done|]. intros [= <-] H. destruct (w =? 2)%nat; [done|].
    f_equal. unfold vnode_read, vnode_write. by rewrite decide_False by congruence.
  - intros name d v d' w off n [= <- <-]. done.
Qed.
