(* ===== verification/Scenario.v ===== *)
(** A small machine in the middle of a run, and the conditions of the theorems
    checked on it.

    Two frames are managed: one holds a page table, the other the data page of
    the only process.  Memory is therefore full: a fault on one of the other
    pages, of which one is in swap slot 0, has to evict the data page. *)

From Stdlib Require Import ZArith Lia.
From stdpp Require Import base list gmap strings.
From S2P Require Import Prelude Platform State Synch VmStats Tlb LoadSegment Swap Coremap Frames.
From S2P Require Import Paging Segments VmFault Runs Sys161.
Local Open Scope Z_scope.

Definition demo_segments : list segment_t :=
  [ mk_segment 1 0x400000 0x2000 5000 2 5 0 0;
    mk_segment 2 0x10000000 0x1000 100 1 6 8192 0;
    mk_segment 3 0x7fffe000 0x2000 0x2000 2 6 0 0 ].

Definition demo_pt : list pt_entry :=
  [ mk_pt_entry 0 0x400000 false false 5;
    mk_pt_entry 0 0x401000 false false 5;
    mk_pt_entry 0x21000 0x10000000 true false 6;
    mk_pt_entry 0 0x7fffe000 false true 6;
    mk_pt_entry 0 0x7ffff000 false false 6 ].

Definition demo_lock : lock_h := mk_lock_h 10 11 (mk_sem_h 12 13 14).

Definition demo_as : addrspace :=
  mk_addrspace 0x80020000 demo_pt demo_segments 1%nat 5 None demo_lock None.

Definition demo_cm : coremap_st :=
  mk_coremap [mk_c_entry 3 None 1; mk_c_entry 0x10000002 (Some 7%nat) 1]
    2 0 0x20000 0x22000 true 0 false.

(** The executable [bin/prog] in file 3: the header, and three program
    headers, of which the first is not loaded. *)
Definition be16 (x : Z) : list Z := [x / 256 mod 256; x mod 256].
Definition be32 (x : Z) : list Z := be16 (x / 65536) ++ be16 x.

Definition program_image : list Z :=
  [0x7f; 0x45; 0x4c; 0x46; 1; 2; 1; 0; 0; 0; 0; 0; 0; 0; 0; 0] ++ be16 2 ++ be16 8 ++ be32 1 ++ be32 0x400120 ++ be32 52 ++
  be32 0 ++ be32 0 ++ be16 52 ++ be16 32 ++ be16 3 ++ be16 0 ++ be16 0 ++ be16 0 ++
  mjoin (be32 <$> [0x70000000; 0x100; 0x400100; 0x400100; 0x18; 0x18; 4; 4]) ++
  mjoin (be32 <$> [1; 0x1000; 0x400000; 0x400000; 0x1800; 0x1800; 5; 0x1000]) ++
  mjoin (be32 <$> [1; 0x3000; 0x10000000; 0x10000000; 0x80; 0x100; 6; 0x1000]).

Definition demo_files : files := fun v off =>
  if (v =? 3)%nat then default 0 (program_image !! Z.to_nat off) else (off + Z.of_nat v) mod 256.

Definition demo_bits : bits := mk_bits 16 {[0]}.
Definition demo_store : gmap Z page := {[0 := vnode_read 0 0 4096 demo_files]}.

Definition demo : kernel :=
  mk_kernel demo_cm
    (mk_swap (Some 0%nat) (16 * 4096) (Some demo_bits) 1 None (Some demo_lock))
    (mk_tlb (fun i => (TLBHI_INVALID i, TLBLO_INVALID)) false 0)
    (mk_stats (replicate STATS_TOT 0) None (Some demo_lock))
    (mk_cpu true 0 false 3) {[7%nat := demo_as]} (Some (Some 7%nat))
    (fun x => x mod 7) demo_files ∅ (0x20000, 0x22000) false.

Lemma demo_page a j e : pte_at (tables_of demo) a j = Some e -> a = 7%nat /\ demo_pt !! j = Some e.
Proof.
  intros (A & HA & He)%pte_at_tables. cbn in HA. apply lookup_singleton_Some in HA as [<- <-]. done.
Qed.

Lemma demo_owned a i : owned_by demo_cm a i -> a = 7%nat /\ i = 1%nat.
Proof. intros (x & Hx & Ha). destruct i as [|[|i]]; cbn in Hx; simplify_eq/=. done. Qed.

(** Case analysis on the entry of a page table. *)
Ltac demo_cases H :=
  apply demo_page in H as [-> H];
  repeat match type of H with
  | context [demo_pt !! ?j] => unfold demo_pt in H
  end;
  lazymatch type of H with
  | _ !! ?j = Some _ => destruct j as [|[|[|[|[|?]]]]]; cbn in H; simplify_eq
  end.

Lemma demo_cm_wf : cm_wf demo_cm.
Proof. split; cbn; try done; lia. Qed.

Lemma demo_frames : frames_ok demo_cm (tables_of demo) demo_store 16 None.
Proof.
  split.
  - apply demo_cm_wf.
  - intros a j e H. demo_cases H; (split; [by repeat split|]); cbn; try done.
    split; [done|]. exists 1%nat. split; [|done]. by eexists.
  - intros a j e a' j' e' H H'. demo_cases H; demo_cases H'; done.
  - intros a j e a' j' e' H H'. demo_cases H; demo_cases H'; done.
  - intros a i [-> ->]%demo_owned _. eexists 2%nat, _. done.
  - intros a i x Hx Ha. destruct i as [|[|i]]; cbn in Hx; simplify_eq/=. done.
  - cbn. lia.
  - intros s [pg Hs]. unfold demo_store in Hs. apply lookup_singleton_Some in Hs as [<- _]. lia.
  - intros s [pg Hs]. unfold demo_store in Hs. apply lookup_singleton_Some in Hs as [<- _].
    eexists 7%nat, 3%nat, _. done.
Qed.

Lemma demo_swap : swap_refines (k_swap demo) (k_disk demo) demo_bits 0%nat demo_store.
Proof.
  split; try done; cbn; try lia.
  - intros i. rewrite bits_get_spec. unfold demo_store. cbn. rewrite lookup_singleton_is_Some.
    rewrite elem_of_singleton. intuition lia.
  - intros i bs Hi. unfold demo_store in Hi. apply lookup_singleton_Some in Hi as [<- <-].
    split; [|done]. unfold vnode_read. rewrite length_mem_read. lia.
Qed.

Lemma demo_slot_invalid i : slot_valid (tlb (k_tlb demo)) i = false.
Proof. done. Qed.

Lemma demo_tlb : tlb_wf (tlb (k_tlb demo)).
Proof.
  split.
  - intros i Hi. unfold slot_wf. rewrite demo_slot_invalid.
    by apply (tlbhi_invalid_page (P := sys161) i Hi).
  - intros i j Hi Hj. unfold tlb_vpage. cbn [tlb_read sys161 k_tlb demo tlb fst].
    rewrite (proj1 (tlbhi_invalid_page (P := sys161) i Hi)),
      (proj1 (tlbhi_invalid_page (P := sys161) j Hj)).
    by apply (tlbhi_invalid_inj (P := sys161)).
Qed.

Lemma demo_misses v : v < 0x80000000 -> tlb_misses (tlb (k_tlb demo)) v.
Proof.
  intros Hv i Hi E. destruct (tlbhi_invalid_page (P := sys161) i Hi) as [H1 H2].
  change (Z.land (TLBHI_INVALID i) PAGE_FRAME = v) in E. rewrite H1 in E. rewrite E in H2.
  change (0x80000000 <= v) in H2. lia.
Qed.

Lemma demo_inv : vm_inv demo demo_bits 0%nat demo_store None.
Proof.
  split.
  - apply demo_frames.
  - apply demo_swap.
  - intros a A HA. cbn in HA. by apply lookup_singleton_Some in HA as [<- <-].
  - apply demo_tlb.
  - unfold rr_wf. cbn. lia.
  - intros a _ u p d (i & Hi & Hv & _). by rewrite demo_slot_invalid in Hv.
Qed.

Lemma demo_quiet : quiet demo.
Proof. by split. Qed.

Lemma demo_as_wf : as_wf demo_as.
Proof.
  split; [|done|done]. cbn [as_segment demo_as demo_segments segs_from].
  repeat match goal with |- _ /\ _ => split end; try done; try (cbn; lia);
    split; cbn; try done; lia.
Qed.

Lemma demo_device : swap_writes_ok 0%nat (bitmap_nbits demo_bits).
Proof. intros d i bs _ _. by eexists. Qed.

Lemma demo_available : frame_available demo demo_bits demo_store 7%nat.
Proof.
  right. split; [|by vm_compute]. exists 1%nat. by eexists.
Qed.

(** Every page but the resident one can be faulted in. *)
Lemma demo_ready j e : demo_pt !! j = Some e ->
  fault_ready demo demo_bits 0%nat demo_store 7%nat demo_as j e (pte_vaddr e).
Proof.
  intros He. assert (Hp : pte_at (tables_of demo) 7%nat j = Some e)
    by (apply pte_at_tables; eexists; split; [apply lookup_singleton_eq | done]).
  destruct (fo_pte _ _ _ _ _ demo_frames _ _ _ Hp) as [[Hv Ha] _].
  split; try apply demo_as_wf; try apply demo_inv; try done.
  - apply land_page_frame_aligned; [cbn in *; lia | done].
  - apply demo_misses, Hv.
  - intros _. apply demo_available.
  - apply demo_device.
Qed.

(** ** The fault theorems at work: page 3 comes back from swap *)

Definition demo_fault : Z := 0x7fffe000.

Lemma demo_fault_ready : exists e, demo_pt !! 3%nat = Some e /\
  fault_ready demo demo_bits 0%nat demo_store 7%nat demo_as 3%nat e demo_fault.
Proof. eexists. split; [reflexivity|]. by apply (demo_ready 3). Qed.

Lemma vm_fault_resolves_witness : exists e, demo_pt !! 3%nat = Some e /\
  wp (vm_fault 0 demo_fault) (fun r k' => r = OK /\ exists b' st' p,
    vm_inv k' b' 0%nat st' None /\ quiet k' /\ k_cpu k' = k_cpu demo /\
    pte_at (tables_of k') 7%nat 3%nat = Some (resident p e) /\
    tlb_maps (tlb (k_tlb k')) (Z.land demo_fault PAGE_FRAME) p (writable e)) demo.
Proof.
  destruct demo_fault_ready as (e & He & Hr). exists e. split; [exact He|].
  apply (vm_fault_resolves demo demo_bits 0%nat demo_store 7%nat demo_as 3%nat e 0 demo_fault Hr).
  left. reflexivity.
Defined.

(** The executable of the demo in file 1. *)
Definition demo_image (off : Z) : Z := (off + 1) mod 256.

Lemma demo_image_ok : file_image 1%nat (k_disk demo) demo_image 16384.
Proof.
  intros off n Ho Hn. exists (vnode_read 1 off n demo_files). split; [done|]. unfold vnode_read. rewrite length_mem_read. split; [lia|].
  intros i c Hc. pose proof (lookup_lt_Some _ _ _ Hc) as Hi. rewrite length_mem_read in Hi. rewrite mem_read_lookup in Hc by done.
  by injection Hc as <-.
Qed.

(** A page of the text, which is read from the executable. *)
Lemma vm_fault_contents_witness : exists e, demo_pt !! 1%nat = Some e /\
  wp (vm_fault 1 0x401000) (fun _ k' => exists p seg last x,
    pte_at (tables_of k') 7%nat 1%nat = Some (resident p e) /\ page_in_segment demo_as 1%nat seg last x /\
    page_meant demo demo_store demo_image 16384 seg x e (event_of last e)
      (mem_read (k_mem k') p (Z.to_nat 4096))) demo.
Proof.
  eexists. split; [reflexivity|].
  apply (vm_fault_contents demo demo_bits 0%nat demo_store 7%nat demo_as 1%nat _ 1 0x401000 demo_image 16384).
  - by apply (demo_ready 1).
  - right. reflexivity.
  - exact demo_image_ok.
Defined.

(** A segment that starts 0x123 bytes into its first page: its second page is
    read from file offset 0x1000 instead of 0x1000 - 0x123, so that its first
    byte is 1 and not 0xde. *)
Example load_elf_wrong_offset :
  match load_elf_ondemand (mk_segment 1 0x400000 0x2000 0x1f00 2 5 0 0x123) 0x21000 0x401000 demo with
  | Done _ k' => (k_mem k' 0x21000, demo_image (0x401000 - (0x400000 + 0x123)))
  | Stop _ _ => (0, 0)
  end = (1, 0xde).
Proof. by vm_compute. Qed.

(** A segment with 100 bytes in the file: the bytes after them are read from
    the file as well, and not zero. *)
Example load_elf_no_zero_fill :
  match load_elf_ondemand (mk_segment 2 0x10000000 0x1000 100 1 6 8192 0) 0x21000 0x10000000 demo with
  | Done _ k' => k_mem k' (0x21000 + 200)
  | Stop _ _ => 0
  end = 201.
Proof. by vm_compute. Qed.


Lemma demo_stats : stats_wf (k_stats demo) /\ counters_u32 (k_stats demo) /\
  filter (fun l => is_inconsistency l = true) (report (k_stats demo)) = [].
Proof. split; [done|]. split; [by intros []|]. reflexivity. Qed.

Lemma vm_fault_statistics_witness :
  wp (vm_fault 0 demo_fault) (fun _ k' => stats_wf (k_stats k') /\ counters_u32 (k_stats k') /\
    counter (k_stats k') TLB_FAULT = u32 (counter (k_stats demo) TLB_FAULT + 1) /\
    filter (fun l => is_inconsistency l = true) (report (k_stats k')) = []) demo.
Proof.
  destruct demo_fault_ready as (e & He & Hr). destruct demo_stats as (H1 & H2 & H3).
  apply (vm_fault_statistics demo demo_bits 0%nat demo_store 7%nat demo_as 3%nat e 0 demo_fault Hr);
    [left; reflexivity | exact H1 | exact H2 | exact H3].
Defined.

Lemma vm_fault_errors_witness :
  vm_fault 0 0x5000 demo = Stop (Panic "pt with addr not initialized!") (set_stats (bump TLB_FAULT) demo) /\
  vm_fault 2 0x400010 demo = Stop (Panic "vm: got VM_FAULT_READONLY") (set_stats (bump TLB_FAULT) demo) /\
  vm_fault 9 0x400010 demo = Done (Err EINVAL) (set_stats (bump TLB_FAULT) demo).
Proof.
  assert (HA : k_as demo !! 7%nat = Some demo_as) by apply lookup_singleton_eq.
  split; [|split].
  - apply (proj2 (vm_fault_errors demo 0 0x5000 demo_quiet) 7%nat demo_as eq_refl HA eq_refl demo_as_wf).
    + discriminate.
    + intros j e He. destruct j as [|[|[|[|[|j]]]]]; cbn in He; simplify_eq; done.
  - apply (proj2 (proj2 (vm_fault_errors demo 2 0x400010 demo_quiet) 7%nat demo_as eq_refl HA eq_refl
      demo_as_wf) 0%nat _ eq_refl eq_refl). reflexivity.
  - apply (proj2 (proj2 (vm_fault_errors demo 9 0x400010 demo_quiet) 7%nat demo_as eq_refl HA eq_refl
      demo_as_wf) 0%nat _ eq_refl eq_refl); discriminate.
Defined.

(** Early in the boot there is no process. *)
Definition demo_early : kernel :=
  mk_kernel (k_cm demo) (k_swap demo) (k_tlb demo) (k_stats demo) (k_cpu demo) ∅ None
    (k_mem demo) (k_disk demo) (k_heap demo) (k_ram demo) false.

Lemma vm_fault_error_unbalanced_witness :
  wp (vm_fault 0 0x400000) (fun r k' => r = Err EFAULT /\
    filter (fun l => is_inconsistency l = true) (report (k_stats k')) <> []) demo_early.
Proof.
  destruct demo_stats as (H1 & H2 & H3).
  apply (vm_fault_error_unbalanced demo_early 0 0x400000);
    [split; reflexivity | reflexivity | exact H1 | exact H2 | exact H3].
Defined.

(** ** A program on this machine *)

(** The first text page, the data page and the two stack pages. *)
Definition demo_pages (j : nat) : Prop := j = 0%nat \/ j = 2%nat \/ j = 3%nat \/ j = 4%nat.

Definition demo_memory : memory := fun j =>
  match j with
  | 0%nat => vnode_read 1 0 4096 demo_files
  | 2%nat => mem_read (k_mem demo) 0x21000 4096
  | 3%nat => vnode_read 0 0 4096 demo_files
  | _ => replicate 4096 0
  end.

(** Where the pages are. *)
Lemma demo_segment j seg last x : page_in_segment demo_as j seg last x ->
  (j = 0%nat -> last = false /\ seg = mk_segment 1 0x400000 0x2000 5000 2 5 0 0 /\ x = 0) /\
  ((j = 3 \/ j = 4)%nat -> last = true).
Proof.
  intros (l1 & l2 & El & -> & Ej & Hx).
  change (as_segment demo_as) with demo_segments in El. unfold demo_segments in El.
  destruct l1 as [|s1 [|s2 [|s3 l1]]]; cbn in El; simplify_eq/=.
  - split; [|intros; lia]. intros ->. split; [done|]. split; [done|]. lia.
  - split; intros; lia.
  - split; [intros; lia | done].
  - by destruct l1.
Qed.

Lemma demo_running : running demo demo_bits 0%nat demo_store 7%nat demo_as demo_pages demo_memory.
Proof.
  split; try apply demo_as_wf; try apply demo_inv; try apply demo_device; try done.
  - exists demo_pt. split; [apply lookup_singleton_eq | done].
  - right. exists 1%nat. by eexists.
  - intros j e HD [_ Hp]%demo_page.
    destruct HD as [-> | [-> | [-> | -> ] ] ]; cbn in Hp; injection Hp as <-.
    + split; [unfold demo_memory, vnode_read; rewrite length_mem_read; cbn; lia|].
      assert (Hf : fresh_contents (k_disk demo) demo_as 0%nat (demo_memory 0%nat)).
      { intros seg last x Hx. destruct (demo_segment _ _ _ _ Hx) as [H0 _].
        destruct (H0 eq_refl) as (-> & -> & ->). split; [done|]. split; [done|].
        unfold demo_memory, vnode_read. rewrite length_mem_read. cbn. lia. }
      split; [exact Hf | by intros _].
    + split; [unfold demo_memory; rewrite length_mem_read; cbn; lia|]. by split.
    + split; [unfold demo_memory, vnode_read; rewrite length_mem_read; cbn; lia|]. by split.
    + split; [unfold demo_memory; rewrite length_replicate; cbn; lia|]. split; [|done].
      intros seg last x Hx. destruct (demo_segment _ _ _ _ Hx) as [_ H1].
      by rewrite (H1 (or_intror eq_refl)).
Qed.

(** Stores to three pages that take turns in the only frame, then loads. *)
Definition demo_prog : list access :=
  [Store 2 5 11; Store 3 5 22; Store 4 5 33; Load 0 9; Load 2 5; Load 3 5; Load 4 5; Load 4 6].

Lemma demo_allowed : Forall (allowed demo_as demo_pages) demo_prog.
Proof.
  unfold demo_prog. repeat apply Forall_cons_2; try apply Forall_nil_2; unfold allowed, demo_pages;
    (split; [lia|]); (split; [reflexivity|]); eexists; try split; reflexivity.
Qed.

Lemma paging_transparent_witness :
  wp (run demo_as demo_prog) (fun out k' => out = (flat_run demo_memory demo_prog).1 /\ exists b' st',
    running k' b' 0%nat st' 7%nat demo_as demo_pages (flat_run demo_memory demo_prog).2) demo.
Proof.
  apply (paging_transparent demo demo_bits 0%nat demo_store 7%nat demo_as demo_pages demo_memory demo_prog).
  - exact demo_running.
  - exact demo_allowed.
Defined.

Example demo_prog_output : (flat_run demo_memory demo_prog).1 = [10; 11; 22; 33; 0].
Proof. by vm_compute. Qed.
