(* ===== verification/Startup.v ===== *)
(** The life of the system on a small machine: the conditions of the theorems
    on start, kernel pages, regions and address spaces checked at concrete
    states. *)

From Stdlib Require Import ZArith Lia.
From stdpp Require Import base list gmap strings.
From S2P Require Import Prelude Platform State Synch VmStats Tlb LoadSegment Swap Coremap Frames.
From S2P Require Import Paging Segments VmFault AddrSpace KernelPages Regions Lifecycle Boot.
From S2P Require Import Sys161 Scenario.
Local Open Scope Z_scope.

(** ** Power-on *)

Definition power_on : kernel :=
  mk_kernel (mk_coremap [] 0 0 0 0 false 0 false) (mk_swap None 0 None 0 None None)
    (mk_tlb (fun i => (TLBHI_INVALID i, TLBLO_INVALID)) false 0)
    (mk_stats [] None None) (mk_cpu true 0 false 3) ∅ (Some None)
    (fun x => x mod 7) demo_files ∅ (0x30123, 0x80000) false.

Lemma power_on_powered : powered power_on 0%nat demo_files 16 (mk_bits 16 ∅).
Proof.
  split; try apply demo_tlb; try (unfold rr_wf); try done; cbn; try lia; try done; by eexists.
Qed.

(** ** Page table look-ups on the running machine *)

Lemma demo_table_ready : table_ready demo 7%nat demo_as.
Proof. by split. Qed.

Lemma pt_lookups_report_failure_witness :
  getPageV 0x10000000 demo = Done (-1, Some 2%nat) demo /\
  getPageP 0x21000 demo = Done (-1, Some 2%nat) demo /\
  getPageVtoP 0x10000000 demo = Done (-1, Some 0x21000) demo.
Proof.
  split; [|split].
  - exact (proj1 (pt_lookups_report_failure demo 7%nat demo_as 0x10000000 demo_table_ready)).
  - exact (proj1 (proj2 (pt_lookups_report_failure demo 7%nat demo_as 0x21000 demo_table_ready))).
  - exact (proj2 (proj2 (pt_lookups_report_failure demo 7%nat demo_as 0x10000000 demo_table_ready))).
Defined.

Lemma free_kpages_panics_witness :
  free_kpages 0x80020000 demo = Stop (Panic "vaddr not found in the page table") demo.
Proof. exact (free_kpages_panics demo 7%nat demo_as 0x80020000 demo_table_ready eq_refl eq_refl). Defined.

Lemma as_define_region_covers_witness :
  wp (as_define_region 7%nat 0x500123 0x2000 100 4 0 1 64) (fun res k' =>
    (res = Err ENOMEM /\ k' = demo) \/
    (res = OK /\ exists h seg, region_of 0x500123 0x2000 100 4 0 1 64 seg /\
       k' = set_ases (<[7%nat := with_segments (demo_segments ++ [seg]) demo_as]>) (set_heap h demo))) demo.
Proof.
  apply (as_define_region_covers demo 7%nat demo_as 0x500123 0x2000 100 4 0 1 64);
    [apply lookup_singleton_eq | cbn; lia..].
Defined.

(** ** A machine with free memory and one program without a page table *)

Definition loading_as : addrspace :=
  mk_addrspace 0 [] [mk_segment 1 0x400000 0x2000 5000 2 5 0 0; mk_segment 2 0x10000000 0x1000 100 1 6 8192 0]
    1%nat 99 None demo_lock None.

Definition loading_cm : coremap_st :=
  mk_coremap (replicate 4 (mk_c_entry 0 None 0)) 4 0 0x20000 0x24000 true 0 false.

Definition loading : kernel :=
  mk_kernel loading_cm (mk_swap (Some 0%nat) (16 * 4096) (Some (mk_bits 16 ∅)) 0 None (Some demo_lock))
    (k_tlb demo) (k_stats demo) (k_cpu demo) {[7%nat := loading_as]} (Some None)
    (k_mem demo) demo_files {[7%nat]} (0x20000, 0x24000) false.

Lemma loading_cm_wf : cm_wf loading_cm.
Proof. split; cbn; try done; lia. Qed.

Lemma loading_free f n : (f + n <= 4)%nat -> free_run loading_cm f n.
Proof.
  intros H j Hj. eexists. split; [apply lookup_replicate_2; lia | done].
Qed.

Lemma loading_no_page a j : pte_at (tables_of loading) a j = None.
Proof.
  destruct (pte_at _ a j) as [e|] eqn:H; [|done].
  apply pte_at_tables in H as (A & HA & He). cbn in HA. by apply lookup_singleton_Some in HA as [<- <-].
Qed.

Lemma loading_inv : vm_inv loading (mk_bits 16 ∅) 0%nat ∅ None.
Proof.
  assert (Hno : forall a i x, coremap loading_cm !! i = Some x -> ce_as x <> Some a)
    by (intros a i x Hx; by apply lookup_replicate_1 in Hx as [-> _]).
  split.
  - split; try (intros; by rewrite loading_no_page in *); try (intros ? []%lookup_empty_is_Some).
    + apply loading_cm_wf.
    + intros a i (x & Hx & Ha). by destruct (Hno a i x).
    + intros a i x Hx Ha. by destruct (Hno a i x).
    + cbn. lia.
  - apply (swap_refines_empty (P := sys161) 0%nat demo_files 16 (mk_bits 16 ∅) demo_lock); [done | cbn; lia..].
  - intros a A HA. cbn in HA. apply lookup_singleton_Some in HA as [<- <-]. by intros [].
  - apply demo_tlb.
  - unfold rr_wf. cbn. lia.
  - by intros a Ha.
Qed.

Lemma loading_quiet : quiet loading.
Proof. by split. Qed.

Lemma kpages_roundtrip_witness :
  wp (let* va := alloc_kpages 3 in free_kpages va) (fun _ k' => exists l,
    k' = upd_entries (fun _ => l) loading /\
    (forall j, frame_free (k_cm k') j <-> frame_free loading_cm j) /\
    (forall j, ~ frame_free loading_cm j -> l !! j = coremap loading_cm !! j)) loading.
Proof.
  apply (kpages_roundtrip 3 loading).
  - split; [apply loading_cm_wf | done].
  - split; [by right|]. by split.
  - lia.
  - reflexivity.
  - exists 0%nat. apply loading_free. lia.
Defined.

Lemma as_prepare_load_builds_witness :
  wp (as_prepare_load 7%nat) (fun r k' =>
    (r = Err ENOMEM /\ k' = loading) \/
    (r = OK /\ exists A', prepared loading (mk_bits 16 ∅) 0%nat ∅ 7%nat loading_as k' A')) loading.
Proof.
  apply (as_prepare_load_builds loading (mk_bits 16 ∅) 0%nat ∅ 7%nat loading_as 1).
  - exact loading_inv.
  - exact loading_quiet.
  - apply lookup_singleton_eq.
  - reflexivity.
  - reflexivity.
  - cbn [as_segment loading_as segs_from].
    repeat match goal with |- _ /\ _ => split end; try done; try (cbn; lia); split; cbn; try done; lia.
  - discriminate.
  - discriminate.
  - reflexivity.
  - lia.
  - reflexivity.
  - exists 0%nat. apply loading_free. lia.
Defined.


(** ** Switching away from a process and destroying it *)

Lemma switch_keeps_invariant_witness :
  wp (let* _old := proc_setas None in as_activate) (fun _ k' =>
    vm_inv k' demo_bits 0%nat demo_store None /\ quiet k' /\ k_curproc k' = Some None /\ k_mem k' = k_mem demo /\
    k_as k' = k_as demo /\ (None <> None (A := nat) -> forall u p d, ~ tlb_maps (tlb (k_tlb k')) u p d)) demo.
Proof.
  apply (switch_keeps_invariant demo demo_bits 0%nat demo_store None demo_inv demo_quiet). discriminate.
Defined.

Definition demo_left : kernel := set_curproc (Some None) demo.

Lemma demo_left_inv : vm_inv demo_left demo_bits 0%nat demo_store None.
Proof. destruct demo_inv. by split. Qed.

Lemma demo_table : table_frames demo_cm demo_as 0 1.
Proof.
  split; [lia|]. split; [reflexivity|]. split; [|by eexists].
  intros j Hj. assert (j = 0%nat) as -> by lia. by eexists.
Qed.

Lemma as_destroy_releases_witness :
  wp (as_destroy 7%nat) (fun _ k' => exists b',
    destroyed demo_left demo_bits 0%nat demo_store 7%nat demo_as 0 1 k' b') demo_left.
Proof.
  apply (as_destroy_releases demo_left demo_bits 0%nat demo_store 7%nat demo_as 0 1).
  - exact demo_left_inv.
  - by split.
  - done.
  - apply lookup_singleton_eq.
  - reflexivity.
  - reflexivity.
  - discriminate.
  - exact demo_table.
Defined.

(** ** Synchronisation objects *)

Lemma synch_objects_balanced_witness :
  wp (let* o := sem_create in match o with Some x => sem_destroy x | None => ret tt end) (fun _ => heap_same demo) demo /\
  wp (let* o := lock_create in match o with Some x => lock_destroy x | None => ret tt end) (fun _ => heap_same demo) demo /\
  wp (let* o := cv_create in match o with Some x => cv_destroy x | None => ret tt end) (fun _ => heap_same demo) demo.
Proof. exact (synch_objects_balanced demo). Defined.
