(* ===== verification/Machine.v ===== *)
(** The whole kernel on a machine with two processors: the conditions of the
    theorems on processes, threads and the scheduler checked at a concrete
    state. *)

From Stdlib Require Import ZArith Lia.
From stdpp Require Import base list gmap strings.
From S2P Require Import Prelude Platform State Synch VmStats Tlb LoadSegment Swap Coremap Frames.
From S2P Require Import Paging Segments VmFault AddrSpace KernelPages Regions Lifecycle Boot.
From S2P Require Import Os Proc ProcTable Thread Sched Switch Migrate Fork ProcSyscalls WaitPid Sys161 Scenario Startup.
Local Open Scope Z_scope.

(** Process 19 is the kernel, process 20 runs the program of [Scenario.v] in
    thread 3 on processor 0; processor 1 idles. *)
Definition machine_threads : gmap nat thread :=
  {[ 3%nat := mk_thread 31 S_RUN (Some 41%nat) (Some 0%nat) (Some 20%nat) None 0 0 None;
     4%nat := mk_thread 32 S_READY (Some 42%nat) (Some 0%nat) (Some 19%nat) None 1 1 None;
     10%nat := mk_thread 33 S_READY (Some 43%nat) (Some 0%nat) (Some 19%nat) None 1 1 None;
     11%nat := mk_thread 34 S_READY (Some 44%nat) (Some 0%nat) (Some 19%nat) None 1 1 None;
     5%nat := mk_thread 35 S_SLEEP (Some 45%nat) (Some 0%nat) (Some 19%nat) (Some 9%nat) 1 1 None;
     6%nat := mk_thread 36 S_SLEEP (Some 46%nat) (Some 1%nat) (Some 19%nat) (Some 9%nat) 1 1 None;
     8%nat := mk_thread 37 S_ZOMBIE (Some 47%nat) (Some 0%nat) None None 1 1 None ]}.

Definition machine_cpus : list cpu :=
  [ mk_cpus (Some 3%nat) [8%nat] false [4; 10; 11]%nat 0 []; mk_cpus (Some 6%nat) [] true [] 0 [] ].

Definition machine_procs : gmap nat proc :=
  {[ 19%nat := mk_proc 51 6 None None 0 1 (Some (mk_sem_h 61 62 63, 0)) (replicate 128 None);
     20%nat := mk_proc 52 1 (Some 7%nat) None 0 2 (Some (mk_sem_h 64 65 66, 0)) (replicate 128 None) ]}.

Definition machine_kernel : kernel := set_heap {[3%nat; 4%nat; 5%nat; 6%nat; 8%nat; 10%nat; 11%nat; 19%nat; 20%nat]} demo.

Definition machine : os :=
  mk_os machine_kernel machine_procs (<[1%nat := Some 19%nat]> (<[2%nat := Some 20%nat]> (replicate 101 None))) 2 true
    (Some 19%nat) machine_threads machine_cpus (Some 0%nat) {[9%nat := [5; 6]%nat]} (replicate 10 (mk_openfile None 0 0)) [] [] None.

Lemma machine_view : view machine = machine_kernel.
Proof. reflexivity. Qed.

Lemma machine_vm : vm_inv (view machine) demo_bits 0%nat demo_store None.
Proof. rewrite machine_view. exact (vm_inv_env demo _ _ _ None _ (k_disk demo) (fun _ _ _ => eq_refl) demo_inv). Qed.

Lemma machine_quiet : quiet (view machine).
Proof. by destruct demo_quiet. Qed.

(** Case analysis on a concrete map. *)
Ltac map_cases H :=
  repeat (apply lookup_insert_Some in H as [[<- <-]|[_ H]]); try (apply lookup_singleton_Some in H as [<- <-]).

Lemma machine_thread t th : o_threads machine !! t = Some th ->
  exists pl, place_of th = Some pl /\ at_place machine t pl /\ (t_state th = S_ZOMBIE -> t_proc th = None) /\
    exists i c, t_cpu th = Some i /\ o_cpus machine !! i = Some c.
Proof.
  intros H. cbn in H. unfold machine_threads in H. map_cases H;
    (eexists; split; [reflexivity|]; split;
       [eexists; split; [reflexivity|]; by first [done | repeat constructor]|]; split; [done|]; by eexists _, _).
Qed.

Lemma machine_place t pl : at_place machine t pl -> exists th, o_threads machine !! t = Some th /\ place_of th = Some pl.
Proof.
  destruct pl as [i|i|w|i]; cbn.
  - intros (c & Hc & Hid & Hcur). destruct i as [|[|i]]; cbn in Hc; simplify_eq/=. by eexists.
  - intros (c & Hc & Hin). destruct i as [|[|i]]; cbn in Hc; simplify_eq/=; [|by apply not_elem_of_nil in Hin].
    rewrite !elem_of_cons, elem_of_nil in Hin. destruct Hin as [->|[->|[->|[]]]]; by eexists.
  - intros (q & Hq & Hin). apply lookup_singleton_Some in Hq as [<- <-].
    rewrite !elem_of_cons, elem_of_nil in Hin. destruct Hin as [->|[->|[]]]; by eexists.
  - intros (c & Hc & Hin). destruct i as [|[|i]]; cbn in Hc; simplify_eq/=; [|by apply not_elem_of_nil in Hin].
    apply list_elem_of_singleton in Hin as ->. by eexists.
Qed.

Lemma machine_sched : sched_inv machine.
Proof.
  split.
  - intros t pl. split; [apply machine_place|]. intros (th & Ht & Hp).
    destruct (machine_thread t th Ht) as (pl' & Hp' & Hat & _). congruence.
  - intros i c Hc. destruct i as [|[|i]]; cbn in Hc; simplify_eq/=; (split; repeat constructor; set_solver).
  - intros w q Hq. cbn in Hq. apply lookup_singleton_Some in Hq as [<- <-]. repeat constructor; set_solver.
  - intros t th Ht. destruct (machine_thread t th Ht) as (pl & -> & _). by eexists.
  - intros t th Ht. by destruct (machine_thread t th Ht) as (pl & _ & _ & H & _).
  - intros t th Ht. by destruct (machine_thread t th Ht) as (pl & _ & _ & _ & H).
Qed.

Lemma machine_procs_inv : proc_inv machine.
Proof.
  split; try done.
  - intros i p Hi. cbn -[replicate] in Hi.
    destruct (decide (i = 1%nat)) as [->|H1]; [rewrite list_lookup_insert_eq in Hi by (cbn; lia); injection Hi as <-|].
    + split; [lia|]. eexists. split; reflexivity.
    + rewrite list_lookup_insert_ne in Hi by done.
      destruct (decide (i = 2%nat)) as [->|H2]; [rewrite list_lookup_insert_eq in Hi by (cbn; lia); injection Hi as <-|].
      * split; [lia|]. eexists. split; reflexivity.
      * rewrite list_lookup_insert_ne in Hi by done. by apply lookup_replicate in Hi as [? _].
  - intros p x Hp. cbn in Hp. unfold machine_procs in Hp. map_cases Hp; done.
Qed.

Lemma machine_live : procs_live machine.
Proof. intros p [x Hp]. cbn in Hp. unfold machine_procs in Hp. map_cases Hp; cbn; set_solver. Qed.

Lemma machine_threads_live : threads_live machine.
Proof. intros t [th Ht]. cbn in Ht. unfold machine_threads in Ht. map_cases Ht; cbn; set_solver. Qed.

(** ** Processes *)

Lemma proc_create_registers_witness :
  wp proc_create (fun r s' => match r with
    | Some p => registered machine s' p /\ procs_live s' /\ sem_paid 5 (k_heap (o_k machine)) s' p
    | None => o_procs s' = o_procs machine /\ o_table s' = o_table machine /\ proc_inv s' /\ room 2 (k_heap (o_k machine)) = false
    end) machine.
Proof.
  apply (proc_create_registers machine machine_procs_inv machine_live). exists 3.
  split; [unfold MAX_PROC; lia|]. by split.
Defined.

Lemma pid_search_complete_witness :
  wp (pid_search (S (Z.to_nat MAX_PROC)) (next_i 2) 2) (fun r s' => s' = machine /\
    (r = 0 <-> forall j, 1 <= j <= MAX_PROC -> j <> 2 ->
       exists p, o_table machine !! Z.to_nat j = Some (Some p)) /\
    (r <> 0 -> 1 <= r <= MAX_PROC /\ o_table machine !! Z.to_nat r = Some None)) machine.
Proof. exact (pid_search_complete machine machine_procs_inv). Defined.

Lemma proc_search_pid_spec_witness :
  match proc_search_pid 2 machine with
  | Done p s' => s' = machine /\ 2 < MAX_PROC /\ exists x, o_procs machine !! p = Some x /\ p_pid x = 2
  | Stop (Kassert _) s' => s' = machine /\ 2 = MAX_PROC
  | Stop (Undef _) s' => s' = machine /\ forall p x, o_procs machine !! p = Some x -> p_pid x <> 2
  | Stop _ _ => False
  end.
Proof. apply (proc_search_pid_spec machine 2 machine_procs_inv). unfold MAX_PROC. lia. Defined.

(** ** The scheduler *)

Lemma machine_switching : switching machine 0 (mk_cpus (Some 3%nat) [8%nat] false [4; 10; 11]%nat 0 []) 3
  (mk_thread 31 S_RUN (Some 41%nat) (Some 0%nat) (Some 20%nat) None 0 0 None) S_SLEEP (Some 9%nat).
Proof. split; try done; [apply machine_sched|]. exists 9%nat. split; [done|]. by eexists. Qed.

Definition machine_proc : proc := mk_proc 52 1 (Some 7%nat) None 0 2 (Some (mk_sem_h 64 65 66, 0)) (replicate 128 None).

Lemma machine_forking : forking machine 0 (mk_cpus (Some 3%nat) [8%nat] false [4; 10; 11]%nat 0 []) 3
  (mk_thread 31 S_RUN (Some 41%nat) (Some 0%nat) (Some 20%nat) None 0 0 None) None 20 machine_proc.
Proof. split; try done; [apply machine_sched | apply machine_threads_live]. Qed.

Lemma thread_fork_queues_witness :
  wp (thread_fork None (Cmd_progthread [])) (fun r s' => match r with
    | OK => exists t, forked machine s' 0 (mk_cpus (Some 3%nat) [8%nat] false [4; 10; 11]%nat 0 []) (Cmd_progthread []) 20 machine_proc t
    | Err e => e = ENOMEM /\ o_threads s' = o_threads machine /\ o_cpus s' = o_cpus machine /\ o_procs s' = o_procs machine /\
        sched_inv s' /\ room 3 (k_heap (o_k machine)) = false
    end) machine.
Proof. exact (thread_fork_queues machine 0 _ 3 _ None (Cmd_progthread []) 20 machine_proc machine_forking). Defined.

Lemma thread_switch_runs_witness :
  wp (thread_switch S_SLEEP (Some 9%nat))
    (fun _ s' => switched machine s' 0 3 4 [10; 11]%nat S_SLEEP (Some 9%nat) demo_bits 0%nat demo_store) machine.
Proof.
  apply (thread_switch_runs machine 0 _ 3 _ S_SLEEP (Some 9%nat) 4 [10; 11]%nat demo_bits 0%nat demo_store machine_switching).
  - reflexivity.
  - exact machine_vm.
  - exact machine_quiet.
Defined.

(** The same machine with nothing but thread 3. *)
Definition alone : os :=
  mk_os machine_kernel machine_procs (o_table machine) 2 true (Some 19%nat)
    {[ 3%nat := mk_thread 31 S_RUN (Some 41%nat) (Some 0%nat) (Some 20%nat) None 0 0 None ]}
    [ mk_cpus (Some 3%nat) [] false [] 0 [] ] (Some 0%nat) {[9%nat := []]} [] [] [] None.

Lemma alone_sched : sched_inv alone.
Proof.
  assert (Hc : forall i c, o_cpus alone !! i = Some c -> i = 0%nat /\ c = mk_cpus (Some 3%nat) [] false [] 0 []).
  { intros [|i] c Hc; cbn in Hc; by simplify_eq. }
  assert (Hw : forall w q, o_wchans alone !! w = Some q -> q = []) by (intros w q Hq; cbn in Hq; by apply lookup_singleton_Some in Hq as [_ <-]).
  assert (Ht : forall t th, o_threads alone !! t = Some th ->
    t = 3%nat /\ th = mk_thread 31 S_RUN (Some 41%nat) (Some 0%nat) (Some 20%nat) None 0 0 None)
    by (intros t th Ht; cbn in Ht; by apply lookup_singleton_Some in Ht as [<- <-]).
  split.
  - intros t pl. split.
    + destruct pl as [i|i|w|i]; [intros (c & [-> ->]%Hc & _ & [= <-]); by eexists|
        intros (c & [-> ->]%Hc & Hin); by apply not_elem_of_nil in Hin|
        intros (q & ->%Hw & Hin); by apply not_elem_of_nil in Hin|
        intros (c & [-> ->]%Hc & Hin); by apply not_elem_of_nil in Hin].
    + intros (th & [-> ->]%Ht & [= <-]). by eexists.
  - intros i c [-> ->]%Hc. split; constructor.
  - intros w q ->%Hw. constructor.
  - intros t th [-> ->]%Ht. by eexists.
  - by intros t th [-> ->]%Ht.
  - intros t th [-> ->]%Ht. by eexists _, _.
Qed.

Lemma thread_switch_idles_witness :
  exists s1, thread_switch S_SLEEP (Some 9%nat) alone = Stop (Blocked "cpu_idle") s1 /\ sched_inv s1 /\
    at_place s1 3 (Waiting 9) /\ view s1 = view alone.
Proof.
  apply (thread_switch_idles alone 0 (mk_cpus (Some 3%nat) [] false [] 0 []) 3
    (mk_thread 31 S_RUN (Some 41%nat) (Some 0%nat) (Some 20%nat) None 0 0 None) S_SLEEP (Some 9%nat)).
  - split; try done; [apply alone_sched|]. exists 9%nat. split; [done|]. by eexists.
  - reflexivity.
Defined.

Lemma wakeups_fifo_witness :
  wp (wchan_wakeone 9) (fun _ s' => sched_inv s' /\ o_wchans s' = <[9%nat := [6%nat]]> (o_wchans machine) /\
    woken machine s' [5%nat]) machine /\
  wp (wchan_wakeall 9) (fun _ s' => sched_inv s' /\ o_wchans s' = <[9%nat := []]> (o_wchans machine) /\
    woken machine s' [5; 6]%nat) machine.
Proof. exact (wakeups_fifo machine 9 [5; 6]%nat 0 machine_sched eq_refl eq_refl). Defined.

Lemma migration_balances_witness :
  let me := mk_cpus (Some 3%nat) [8%nat] false [4; 10; 11]%nat 0 [] in
  wp thread_consider_migration (fun _ s' => moved machine 0 me 3 3 s') machine /\
  wp (migrate 2 1) (fun _ s' => moved machine 0 me 2 1 s') machine.
Proof.
  intros me. destruct (migration_balances machine 0 me machine_sched eq_refl eq_refl) as [H1 H2].
  split; [exact H2 | apply H1; cbn; lia].
Defined.

(** ** Exit and wait: process 20 ends and thread 4 collects it *)

Lemma machine_exiting : exiting machine 20 3 machine_proc
  (mk_thread 31 S_RUN (Some 41%nat) (Some 0%nat) (Some 20%nat) None 0 0 None) (mk_sem_h 64 65 66).
Proof. by split. Qed.

Lemma machine_collected : collected machine 20 3 machine_proc 0 (mk_cpus (Some 3%nat) [8%nat] false [4; 10; 11]%nat 0 []) 4 [10; 11]%nat.
Proof.
  split; try done.
  - apply machine_sched.
  - intros u th Hu Ht. cbn in Ht. unfold machine_threads in Ht. map_cases Ht; done.
  - intros q y Hq Hy. cbn in Hy. unfold machine_procs in Hy. map_cases Hy; done.
  - intros a [= <-]. exists demo_as, 0%nat, 1%nat. split; [done|]. split; [done|]. split; [done|]. apply demo_table.
Qed.

Lemma wait_returns_status_witness :
  wp (sys__exit 300 ;; proc_wait 20) (fun r s' => r = 44 /\ o_procs s' = delete 20%nat (o_procs machine) /\
    o_threads s' !! 3%nat = None /\ cur_thread s' = Some 4%nat /\
    o_table s' = <[2%nat := None]> (o_table machine) /\ proc_inv s' /\ sched_inv s' /\
    exists b' st', vm_inv (view s') b' 0%nat st' None /\ quiet (view s')) machine.
Proof.
  apply (wait_returns_status machine 20 3 machine_proc _ _ 300 0 _ 4 [10; 11]%nat demo_bits 0%nat demo_store machine_exiting machine_collected).
  - exact machine_procs_inv.
  - exact machine_vm.
  - exact machine_quiet.
  - reflexivity.
Defined.

Lemma wait_blocks_until_exit_witness :
  wp (run_steps (take 2 (exit_steps 300 20 3))) (fun _ s1 => proc_wait 20 s1 = Stop (Blocked "p_sem") s1) machine.
Proof.
  eapply wp_mono; [apply (wait_blocks_until_exit machine 20 3 machine_proc _ _ 300 2 machine_exiting); [done | cbn; lia]|].
  intros [] s1 [H _]. apply H. cbn. lia.
Defined.

(** The same process without threads, while nothing runs. *)
Definition over : os := set_curcpu None (set_procs (<[20%nat := with_numthreads 0 machine_proc]>) machine).

Lemma over_vm : vm_inv (view over) demo_bits 0%nat demo_store None.
Proof. by destruct machine_vm. Qed.

Lemma proc_destroy_releases_witness :
  wp (proc_destroy 20) (fun _ s' => reaped over s' 20 (with_numthreads 0 machine_proc) (mk_sem_h 64 65 66) 0%nat) over.
Proof.
  apply (proc_destroy_releases over 20 _ _ 0 demo_bits 0%nat demo_store).
  - split; try done. exists demo_as, 0%nat, 1%nat. split; [done|]. split; [done|]. split; [done|]. split; [apply demo_table | done].
  - apply (proc_inv_upd machine over 20 machine_proc (with_numthreads 0 machine_proc) machine_procs_inv); done.
  - exact over_vm.
  - by split.
  - discriminate.
Defined.
