(* ===== verification/Duo.v ===== *)
(** Two processes on the small machine: process 20 with address space 7 and
    process 21 with address space 8, each with one page in memory, and kernel
    threads.  The conditions under which they are isolated hold; with frames
    to spare, so do those under which the second can be copied. *)

From Stdlib Require Import ZArith Lia.
From stdpp Require Import base list gmap strings.
From S2P Require Import Prelude Platform State Synch VmStats Tlb LoadSegment Swap Coremap Frames.
From S2P Require Import Paging Segments VmFault AddrSpace Runs Lifecycle Boot Os Proc ProcTable Thread Sched Switch.
From S2P Require Import Migrate Isolation Copy Fork WaitPid ProcSyscalls Programs ForkProcess.
From S2P Require Import Sys161 Scenario Startup Machine.
Local Open Scope Z_scope.

(** ** Memory *)

Definition other_pt : list pt_entry :=
  [ mk_pt_entry 0 0x400000 false false 5;
    mk_pt_entry 0 0x401000 false false 5;
    mk_pt_entry 0x22000 0x10000000 true false 6;
    mk_pt_entry 0 0x7fffe000 false false 6;
    mk_pt_entry 0 0x7ffff000 false false 6 ].

Definition other_as : addrspace := mk_addrspace 0x80020000 other_pt demo_segments 1%nat 5 None demo_lock (Some (33%nat, "bin/other"%string)).

(** The machine has [spare] free frames. *)
Definition duo_cm (spare : nat) : coremap_st :=
  mk_coremap ([mk_c_entry 3 None 1; mk_c_entry 0x10000002 (Some 7%nat) 1; mk_c_entry 0x10000002 (Some 8%nat) 1]
      ++ replicate spare (mk_c_entry 0 None 0))
    (3 + Z.of_nat spare) 0 0x20000 (0x23000 + Z.of_nat spare * 4096) true 0 false.

Definition duo_kernel (spare : nat) : kernel :=
  mk_kernel (duo_cm spare) (k_swap demo) (k_tlb demo) (k_stats demo) (k_cpu demo) {[7%nat := demo_as; 8%nat := other_as]}
    (Some (Some 7%nat)) (k_mem demo) (k_disk demo) ({[7%nat]} ∪ k_heap machine_kernel) (0x20000, 0x23000) false.

Lemma duo_page spare a j e : pte_at (tables_of (duo_kernel spare)) a j = Some e ->
  (a = 7%nat /\ demo_pt !! j = Some e) \/ (a = 8%nat /\ other_pt !! j = Some e).
Proof.
  intros (A & HA & He)%pte_at_tables. cbn in HA. apply lookup_insert_Some in HA as [[<- <-]|[_ HA]]; [by left|].
  apply lookup_singleton_Some in HA as [<- <-]. by right.
Qed.

Ltac duo_cases H :=
  apply duo_page in H as [[-> H]|[-> H]]; unfold demo_pt, other_pt in H;
  lazymatch type of H with
  | _ !! ?j = Some _ => destruct j as [|[|[|[|[|?]]]]]; cbn in H; simplify_eq
  end.

Lemma duo_owned spare a i : owned_by (duo_cm spare) a i -> (a = 7%nat /\ i = 1%nat) \/ (a = 8%nat /\ i = 2%nat).
Proof.
  intros (x & Hx & Ha). destruct i as [|[|[|i]]]; cbn in Hx; simplify_eq/=; auto. by apply lookup_replicate_1 in Hx as [-> _].
Qed.

Lemma duo_frames spare : (spare < 16)%nat -> frames_ok (duo_cm spare) (tables_of (duo_kernel spare)) demo_store 16 None.
Proof.
  intros Hsp. split.
  - split; cbn; rewrite ?length_replicate; try done; lia.
  - intros a j e H. duo_cases H; (split; [by repeat split|]); cbn; try done; (split; [done|]);
      [exists 1%nat | exists 2%nat]; (split; [|done]); by eexists.
  - intros a j e a' j' e' H H'. duo_cases H; duo_cases H'; done.
  - intros a j e a' j' e' H H'. duo_cases H; duo_cases H'; done.
  - intros a i [[-> ->]|[-> ->]]%duo_owned _; by eexists 2%nat, _.
  - intros a i x Hx Ha. destruct i as [|[|[|i]]]; cbn in Hx; simplify_eq/=; try done. by apply lookup_replicate_1 in Hx as [-> _].
  - cbn. lia.
  - intros s [pg Hs]. unfold demo_store in Hs. apply lookup_singleton_Some in Hs as [<- _]. lia.
  - intros s [pg Hs]. unfold demo_store in Hs. apply lookup_singleton_Some in Hs as [<- _].
    by eexists 7%nat, 3%nat, _.
Qed.

Lemma duo_inv spare : (spare < 16)%nat -> vm_inv (duo_kernel spare) demo_bits 0%nat demo_store None.
Proof.
  intros Hsp. split; [by apply duo_frames | apply demo_swap | | apply demo_tlb | by destruct demo_inv |].
  - intros a A HA. cbn in HA. apply lookup_insert_Some in HA as [[<- <-]|[_ HA]]; [done|]. by apply lookup_singleton_Some in HA as [<- <-].
  - intros a _ u p d (i & Hi & Hv & _). change (slot_valid (tlb (k_tlb demo)) i = true) in Hv. by rewrite demo_slot_invalid in Hv.
Qed.

(** The contents of the pages: the second process has loaded only its data. *)
Definition other_memory : memory := fun j =>
  match j with
  | 0%nat => vnode_read 1 0 4096 demo_files
  | 2%nat => mem_read (k_mem demo) 0x22000 4096
  | _ => replicate 4096 0
  end.

Definition duo_views : gmap asid pview :=
  {[7%nat := mk_pview demo_as demo_pages demo_memory; 8%nat := mk_pview other_as demo_pages other_memory]}.

(** Text and stack pages that have not been loaded. *)
Lemma fresh_text A : as_segment A = demo_segments -> as_v A = 1%nat ->
  fresh_contents demo_files A 0%nat (vnode_read 1 0 4096 demo_files).
Proof.
  intros E1 E2 seg last x Hx. destruct (demo_segment 0 seg last x) as [H0 _].
  { unfold page_in_segment in *. by rewrite E1 in Hx. }
  destruct (H0 eq_refl) as (-> & -> & ->). rewrite E2. split; [done|]. split; [done|].
  unfold vnode_read. rewrite length_mem_read. cbn. lia.
Qed.

Lemma fresh_stack A j : as_segment A = demo_segments -> (j = 3 \/ j = 4)%nat -> fresh_contents demo_files A j (replicate 4096 0).
Proof.
  intros E1 Hj seg last x Hx. destruct (demo_segment j seg last x) as [_ H1].
  { unfold page_in_segment in *. by rewrite E1 in Hx. }
  by rewrite (H1 Hj).
Qed.

Lemma duo_memory_7 spare : memory_of (duo_kernel spare) 0%nat demo_store 7 (mk_pview demo_as demo_pages demo_memory).
Proof.
  split; try apply demo_as_wf; try done.
  - by exists demo_pt.
  - by eexists 2%nat, _.
  - intros j e HD [[_ Hp]|[? _]]%duo_page; [|done]. cbn [pv_pages pv_mem pv_as] in *.
    destruct HD as [-> | [-> | [-> | -> ] ] ]; cbn in Hp; injection Hp as <-; (split; [unfold demo_memory, vnode_read; rewrite ?length_mem_read, ?length_replicate; cbn; lia|]).
    + split; [|intros _]; by apply fresh_text.
    + by split.
    + by split.
    + split; [|done]. apply fresh_stack; auto.
Qed.

Lemma other_as_wf : as_wf other_as.
Proof. destruct demo_as_wf. by split. Qed.

Lemma duo_memory_8 spare : memory_of (duo_kernel spare) 0%nat demo_store 8 (mk_pview other_as demo_pages other_memory).
Proof.
  split; try apply other_as_wf; try done.
  - by exists other_pt.
  - by eexists 2%nat, _.
  - intros j e HD [[? _]|[_ Hp]]%duo_page; [done|]. cbn [pv_pages pv_mem pv_as] in *.
    destruct HD as [-> | [-> | [-> | -> ] ] ]; cbn in Hp; injection Hp as <-; (split; [unfold other_memory, vnode_read; rewrite ?length_mem_read, ?length_replicate; cbn; lia|]).
    + split; [|intros _]; by apply fresh_text.
    + by split.
    + split; [|done]. apply fresh_stack; auto.
    + split; [|done]. apply fresh_stack; auto.
Qed.

Lemma duo_shared spare : (spare < 16)%nat -> shared (duo_kernel spare) demo_bits 0%nat demo_store duo_views.
Proof.
  intros Hsp. split; [by apply duo_inv | by destruct demo_quiet | apply demo_device | by vm_compute|].
  intros a w Hw. unfold duo_views in Hw. apply lookup_insert_Some in Hw as [[<- <-]|[_ Hw]]; [apply duo_memory_7|].
  apply lookup_singleton_Some in Hw as [<- <-]. apply duo_memory_8.
Qed.

(** ** A fork of the second process *)

Lemma duo_copyable : copyable (duo_kernel 2) demo_bits 0%nat demo_store 8%nat other_as "bin/other" 1%nat demo_files 1.
Proof.
  split; try done.
  - apply duo_inv. lia.
  - by exists 33%nat.
  - intros a [A HA]. cbn in HA. apply lookup_insert_Some in HA as [[<- _]|[_ HA]]; [|apply lookup_singleton_Some in HA as [<- _]];
      set_solver.
  - intros j e He. unfold other_as, other_pt in He. destruct j as [|[|[|[|[|?]]]]]; cbn in He; by simplify_eq.
  - lia.
  - exists 3%nat. intros j Hj. assert (j = 3%nat) as -> by lia. by eexists.
Qed.


(** The child stores into its copy of a page and its parent does not see it. *)
Definition fork_and_store : M kernel (list Z * list Z) :=
  let* r := as_copy 8%nat in
  match r.2 with
  | Some a =>
      modify (set_curproc (Some (Some a))) ;; as_activate ;;
      let* A := as_get a in let* child := run A [Load 2 5; Store 2 5 200; Load 2 5] in
      modify (set_curproc (Some (Some 8%nat))) ;; as_activate ;;
      let* parent := run other_as [Load 2 5] in ret (child, parent)
  | None => ret ([], [])
  end.

Example fork_output :
  match fork_and_store (duo_kernel 2) with Done x _ => x | Stop _ _ => ([], []) end = ([4; 200], [4]).
Proof. by vm_compute. Qed.

(** The copy of an address space with a page in swap, here page 3 of address
    space 7 in slot 0: the slot is taken from the new entry, which has not
    been set, and the assertion in [swap_in] fails. *)
Definition swapped_parent : kernel :=
  set_ases (<[7%nat := mk_addrspace 0x80020000 demo_pt demo_segments 1%nat 5 None demo_lock (Some (34%nat, "bin/demo"%string))]>)
    (duo_kernel 4).

Example as_copy_swapped :
  match as_copy 7%nat swapped_parent with Done _ _ => None | Stop w _ => Some w end =
  Some (Kassert "bitmap_isset(swapMap, *swap_paddr) != 0").
Proof. by vm_compute. Qed.

(** Process 20 runs in address space 8, has a file open, and forks. *)
Definition parent : proc := with_fileTable (<[3%nat := Some 0%nat]> (replicate 128 None)) (with_addrspace (Some 8%nat) machine_proc).

Definition forking_machine : os := set_procs (<[20%nat := parent]>) (set_k (fun _ => duo_kernel 2) machine).

Definition fork_kernel : kernel := set_curproc (Some (Some 8%nat)) (duo_kernel 2).

Lemma fork_view : view forking_machine = fork_kernel.
Proof. reflexivity. Qed.

Lemma fork_inv : vm_inv fork_kernel demo_bits 0%nat demo_store None.
Proof.
  destruct (duo_inv 2 ltac:(lia)) as [I1 I2 I3 I4 I5 I6]. split; try done.
  intros a _ u p d (i & Hi & Hv & _). change (slot_valid (tlb (k_tlb demo)) i = true) in Hv. by rewrite demo_slot_invalid in Hv.
Qed.

Lemma fork_shared : shared fork_kernel demo_bits 0%nat demo_store duo_views.
Proof. by apply (shared_switch (duo_kernel 2)); [apply duo_shared; lia | apply fork_inv | destruct demo_quiet | ..]. Qed.

Lemma fork_copyable : copyable fork_kernel demo_bits 0%nat demo_store 8%nat other_as "bin/other" 1%nat demo_files 1.
Proof. destruct duo_copyable. split; try done. apply fork_inv. Qed.

Lemma machine_may_fork : may_fork forking_machine demo_bits 0%nat demo_store duo_views 0
  (mk_cpus (Some 3%nat) [8%nat] false [4; 10; 11]%nat 0 []) 3 (mk_thread 31 S_RUN (Some 41%nat) (Some 0%nat) (Some 20%nat) None 0 0 None)
  20 parent 8 (mk_pview other_as demo_pages other_memory) other_as "bin/other" 1%nat demo_files 1.
Proof.
  split; rewrite ?fork_view; try done.
  - by apply (sched_ext machine); [done..| apply machine_sched].
  - by apply (proc_inv_upd machine _ 20 machine_proc parent machine_procs_inv).
  - intros q [z Hq]. cbn in Hq. unfold machine_procs in Hq. map_cases Hq; cbn; set_solver.
  - intros t Ht. pose proof (machine_threads_live t Ht) as H. cbn in *. set_solver.
  - exists 3. split; [unfold MAX_PROC; lia|]. by split.
  - apply fork_shared.
  - apply fork_copyable.
Qed.

Lemma sys_fork_copies_witness :
  wp sys_fork (fun r s' => exists np y t, r = (OK, p_pid y) /\
    process_forked forking_machine demo_bits 0%nat demo_store duo_views 0
      (mk_cpus (Some 3%nat) [8%nat] false [4; 10; 11]%nat 0 []) 20 parent 8 (mk_pview other_as demo_pages other_memory)
      s' np y t) forking_machine.
Proof.
  apply (sys_fork_copies forking_machine _ _ _ _ _ _ _ _ _ _ _ _ _ _ _ _ _ machine_may_fork). vm_compute. reflexivity.
Defined.

(** The pid, and descriptor 3 of the parent before and after. *)
Example fork_loses_files :
  match sys_fork forking_machine with
  | Done r s' => (r, (fun x => p_fileTable x !! 3%nat) <$> [parent] ++ option_list (o_procs s' !! 20%nat))
  | Stop _ _ => ((Err ENOMEM, 0), [])
  end = ((OK, 3), [Some (Some 0%nat); Some None]).
Proof. by vm_compute. Qed.

(** ** The machine *)

Definition other_thread : thread := mk_thread 32 S_READY (Some 42%nat) (Some 0%nat) (Some 21%nat) None 1 1 None.

Definition duo : os :=
  set_threads (<[4%nat := other_thread]>)
    (set_procs (<[21%nat := mk_proc 53 1 (Some 8%nat) None 0 3 (Some (mk_sem_h 67 68 69, 0)) (replicate 128 None)]>)
      (set_k (fun _ => duo_kernel 0) machine)).

Lemma duo_sched : sched_inv duo.
Proof. eapply (sched_stay machine duo 4); [apply machine_sched | reflexivity..| done]. Qed.

Lemma duo_timesharing : timesharing duo demo_bits 0%nat demo_store duo_views {[9%nat]}.
Proof.
  split.
  - apply duo_sched.
  - by eexists 0%nat, _, 3%nat.
  - change (view duo) with (duo_kernel 0). apply duo_shared. lia.
  - intros w ->%elem_of_singleton. by eexists.
Qed.

(** The programs write to the same addresses. *)
Definition other_prog : list access := [Store 2 5 77; Store 4 5 88; Load 2 5; Load 4 5; Load 4 6].

Definition duo_jobs : gmap asid job := {[7%nat := mk_job demo_as demo_prog []; 8%nat := mk_job other_as other_prog []]}.

Definition duo_events : list event :=
  [Tick; Tick; Yield; Tick; Tick; WakeOne 9; Yield; Tick; Yield; Yield; Tick; Tick; Tick; Tick; Tick; Tick; Sleep 9; Tick; Yield; Tick; Tick; Tick; Balance].

Lemma duo_jobs_ok : jobs_ok duo_views duo_jobs.
Proof.
  intros a j Hj. unfold duo_jobs in Hj. apply lookup_insert_Some in Hj as [[<- <-]|[_ Hj]].
  - eexists. split; [reflexivity|]. split; [done|]. apply demo_allowed.
  - apply lookup_singleton_Some in Hj as [<- <-]. eexists. split; [reflexivity|]. split; [done|]. cbn [jb_left pv_as pv_pages].
    unfold other_prog. repeat apply Forall_cons_2; try apply Forall_nil_2; unfold allowed, demo_pages;
      (split; [lia|]); (split; [reflexivity|]); eexists; try split; reflexivity.
Qed.

Lemma duo_channels : Forall (on_channel {[9%nat]}) duo_events.
Proof. unfold duo_events. repeat apply Forall_cons_2; try apply Forall_nil_2; cbn; try done; set_solver. Qed.

Lemma processes_isolated_witness :
  match timeshare duo_events duo_jobs duo with
  | Done jobs' s' => exists b' st' fam', timesharing s' b' 0%nat st' fam' {[9%nat]} /\ advanced duo_views duo_jobs fam' jobs'
  | Stop r _ => r = Blocked "cpu_idle"
  end.
Proof.
  exact (processes_isolated duo demo_bits 0%nat demo_store duo_views {[9%nat]} duo_jobs duo_events
    duo_timesharing duo_jobs_ok duo_channels).
Defined.

(** Both programs get to their end, each with its own values. *)
Example duo_output :
  match timeshare duo_events duo_jobs duo with
  | Done jobs' _ => (fun j => (jb_left j, jb_out j)) <$> omap (fun a => jobs' !! a) [7; 8]%nat
  | Stop _ _ => []
  end = [([], [10; 11; 22; 33; 0]); ([], [77; 88; 0])].
Proof. by vm_compute. Qed.
