(* ===== verification/Session.v ===== *)
(** A session on the small machine: a program file, open files, system calls
    and menu commands, with the conditions of the theorems about them checked
    at concrete states. *)

From Stdlib Require Import ZArith Lia Ascii String.
From stdpp Require Import base list gmap strings.
From S2P Require Import Prelude Platform State Synch VmStats Tlb LoadSegment Swap Coremap Frames.
From S2P Require Import Paging Segments VmFault Runs AddrSpace KernelPages Regions Lifecycle Boot.
From S2P Require Import Os Proc ProcTable Thread Sched Fork ProcSyscalls FileSyscalls FileTable KernelBuffer Syscall SyscallSpec.
From S2P Require Import LoadElf RunProgram Menu Programs Kmain Sys161 Scenario Startup Machine.
Local Open Scope Z_scope.

(** ** The rest of the platform *)

(** User memory is the physical memory. *)
#[export] Instance flat_copy : UserCopy := {|
  copyin va n := gets (fun k => inr (mem_read (k_mem k) va (Z.to_nat n)));
  copyout va bs := modify (set_mem (fun m => mem_write m va bs)) ;; ret OK;
  copyoutstr va bs := modify (set_mem (fun m => mem_write m va bs)) ;; ret OK;
|}.

#[export] Instance all_options : Options := {| OPT_FILE := true; OPT_FORK := true |}.

(** The numbers of OS/161. *)
#[export] Instance os161_environment : Environment := {|
  SYS_reboot := 119; SYS___time := 113; SYS_open := 45; SYS_close := 49; SYS_remove := 68; SYS_write := 55; SYS_read := 50;
  SYS__exit := 3; SYS_waitpid := 4; SYS_getpid := 5; SYS_fork := 0;
  RB_REBOOT := 0; RB_HALT := 1; RB_POWEROFF := 2;
  sys___time _ _ := ret OK;
  vfs_clearbootfs := ret tt; vfs_clearcurdir := ret tt; vfs_unmountall := ret tt;
  mainbus_halt := halt (Loops "mainbus_halt"); mainbus_reboot := halt (Loops "mainbus_reboot");
  mainbus_poweroff := halt (Loops "mainbus_poweroff");
  path_at _ := ret "file"%string;
|}.

Lemma os161_numbers : NoDup syscall_numbers.
Proof. by apply (bool_decide_unpack _); vm_compute. Qed.

Definition word_at (bs : list Z) (i n : nat) : Z := foldl (fun x b => x * 256 + b) 0 (take n (drop i bs)).

(** The layout of 32-bit ELF files. *)
#[export] Instance elf32 : Elf := {|
  sizeof_Ehdr := 52; sizeof_Phdr := 32;
  ehdr_of bs := mk_ehdr (fun i => default 0 (bs !! i)) (word_at bs 16 2) (word_at bs 18 2) (word_at bs 20 4) (word_at bs 24 4)
    (word_at bs 28 4) (word_at bs 42 2) (word_at bs 44 2);
  phdr_of bs := mk_phdr (word_at bs 0 4) (word_at bs 4 4) (word_at bs 8 4) (word_at bs 16 4) (word_at bs 20 4) (word_at bs 24 4);
  EI_MAG0 := 0; EI_MAG1 := 1; EI_MAG2 := 2; EI_MAG3 := 3; EI_CLASS := 4; EI_DATA := 5; EI_VERSION := 6;
  ELFMAG0 := 0x7f; ELFMAG1 := 0x45; ELFMAG2 := 0x4c; ELFMAG3 := 0x46; ELFCLASS32 := 1; ELFDATA2MSB := 2; EV_CURRENT := 1;
  ET_EXEC := 2; EM_MACHINE := 8;
  PT_NULL := 0; PT_PHDR := 6; PT_MIPS_REGINFO := 0x70000000; PT_LOAD := 1;
|}.

#[export] Instance quiet_menu : MenuEnv := {|
  vfs_chdir _ := ret OK; vfs_getcwd := ret (inr (list_ascii_of_string "emu0:")); vfs_sync := ret tt; vfs_unmount _ := ret (Err EINVAL);
  vfs_setbootfs _ := ret OK; kheap_printstats := ret tt; kheap_nextgeneration := ret tt; kheap_dump := ret tt;
  kheap_dumpall := ret tt; mounttable := []; run_test _ _ := ret OK;
|}.

(** A device that takes a block of the heap when there is one. *)
Definition take_block : M os unit := fun s =>
  match kmalloc (k_heap (o_k s)) with Some (_, h) => Done tt (set_k (set_heap h) s) | None => Done tt s end.

#[export] Instance simple_devices : Devices := {|
  ram_bootstrap := modify (set_k (set_ram (0x30123, 0x80000)));
  hardclock_bootstrap := ret tt; vfs_bootstrap := take_block;
  mainbus_bootstrap := let* t := curthread_self in thread_upd t (with_t_curspl 0);
  pseudoconfig := ret tt; kprintf_bootstrap := ret tt; mainbus_start_cpus := ret tt;
  cpuarray_add := OK;
  kgets := ret [];
|}.

(** ** Boot *)

Lemma set_heap_id (s : os) : set_k (set_heap (k_heap (o_k s))) s = s.
Proof. by destruct s as [[] ? ? ? ? ? ? ? ? ? ? ? ? ?]. Qed.

Lemma uses_none n (h : heap) : uses n h h.
Proof. split; [apply grows_refl|]. intros m. apply room_le. lia. Qed.

Lemma ret_passive {A} n (a : A) : passive n (ret a).
Proof. intros s. apply wp_ret. exists (k_heap (o_k s)). rewrite set_heap_id. split; [done | apply uses_none]. Qed.

Lemma take_block_passive : passive 1 take_block.
Proof.
  intros s. unfold wp, take_block. destruct (kmalloc (k_heap (o_k s))) as [[p h]|] eqn:E.
  - exists h. split; [done|]. split; [by eapply grows_kmalloc|]. intros m. by apply spent_room, (spent_kmalloc _ p).
  - exists (k_heap (o_k s)). rewrite set_heap_id. split; [done | apply uses_none].
Qed.

Lemma simple_laws : DeviceLaws simple_devices quiet_menu (0x30123, 0x80000) 1.
Proof.
  split; try (intros; apply ret_passive); try apply take_block_passive; try done.
  intros s t th Hc Ht. unfold mainbus_bootstrap, simple_devices, curthread_self. steps. eapply wp_deref; [done|].
  eapply wp_thread_upd; [done|]. exists (k_heap (o_k s)). rewrite set_heap_id. split; [done | apply uses_none].
Qed.

Definition cold : os :=
  mk_os power_on ∅ (replicate 101 None) 0 false None ∅ [] None ∅ (replicate 1280 (mk_openfile None 0 0)) [] [] None.

Lemma boot_establishes_witness :
  wp boot (fun _ s' => exists p t x th, o_kproc s' = Some p /\ cur_proc s' = Some p /\ cur_thread s' = Some t /\
    o_procs s' = {[p := x]} /\ p_numthreads x = 1 /\ o_table s' !! Z.to_nat (p_pid x) = Some (Some p) /\
    o_threads s' = {[t := th]} /\ t_curspl th = 0 /\
    proc_inv s' /\ procs_live s' /\ files_ok s' /\
    t_state th = S_READY /\ ~ sched_inv s' /\ sched_inv (marked_running s' t) /\
    vm_inv (view s') (mk_bits 16 ∅) 0%nat ∅ None /\ quiet (view s') /\
    forall i, (i < length (coremap (k_cm (o_k s'))))%nat -> frame_free (k_cm (o_k s')) i) cold.
Proof.
  apply (boot_establishes cold (0x30123, 0x80000) 1 0%nat demo_files 16 (mk_bits 16 ∅) simple_laws).
  - split; reflexivity.
  - destruct power_on_powered. split; try assumption; done.
  - vm_compute. reflexivity.
Defined.

(** ** Starting the program in file 3 *)

Definition program_header : Elf_Ehdr := ehdr_of (vnode_read 3 0 52 demo_files).

Definition program_headers : list Elf_Phdr :=
  [ mk_phdr 0x70000000 0x100 0x400100 0x18 0x18 4;
    mk_phdr 1 0x1000 0x400000 0x1800 0x1800 5;
    mk_phdr 1 0x3000 0x10000000 0x80 0x100 6 ].

Lemma program_file : elf_file 3%nat demo_files program_header program_headers.
Proof.
  split.
  - eexists. split; [reflexivity|]. split; reflexivity.
  - by vm_compute.
  - by vm_compute.
  - intros i ph Hi. destruct i as [|[|[|i]]]; cbn in Hi; simplify_eq; (eexists; split; [reflexivity|]; split; [|vm_compute]; reflexivity).
  - repeat constructor; first [by left; vm_compute | by right; vm_compute].
Qed.

Lemma program_table segs : Forall2 loaded_region (filter (fun ph => skipped ph = false) program_headers) segs ->
  DIVROUNDUP (u32 (sizeof_pt_entry * (Z.of_nat (length (layout segs)) + STACKPAGES))) PAGE_SIZE = 1.
Proof.
  intros H. assert (E : filter (fun ph => skipped ph = false) program_headers = drop 1 program_headers) by by vm_compute.
  rewrite E in H. clear E. cbn in H. destruct segs as [|s1 [|s2 [|s3 segs]]]; try (by repeat (apply Forall2_cons in H as [_ H]); inversion H).
  apply Forall2_cons in H as [H1 H]. apply Forall2_cons in H as [H2 _].
  assert (Hn : (length (layout [s1; s2]) <= 10)%nat).
  { rewrite !layout_cons, !length_app, !length_pages_of. change (length (layout [])) with 0%nat.
    destruct H1 as [[? ? Z1 ? ? ?] ? ? [? T1] ? ? ?], H2 as [[? ? Z2 ? ? ?] ? ? [? T2] ? ? ?]. cbn in *. lia. }
  generalize dependent (length (layout [s1; s2])). intros n Hn. unfold STACKPAGES. cbn [DIVROUNDUP PAGE_SIZE sizeof_pt_entry sys161].
  rewrite u32_small by lia. symmetry. apply Z.div_unique with (r := 12 * (Z.of_nat n + 18) - 1); lia.
Qed.

Lemma program_loadable : loadable loading "bin/prog" program_header program_headers 1.
Proof.
  split.
  - intros v d [= <- <-]. exact program_file.
  - done.
  - by vm_compute.
  - exact program_table.
  - split; [lia|]. split; [done|]. exists 0%nat. apply loading_free. lia.
Qed.


Lemma arguments_on_stack_witness :
  let args := ["bin/prog"; "-x"; "hello"]%string in
  wp (push_args (Some <$> args) 0x80000000) (fun r k' => r = inr 0x7fffffd8 /\ exists addrs,
    words_at (k_mem k') 0x7fffffd8 (addrs ++ [0]) /\ length addrs = 3%nat /\
    strings_between (k_mem k') 0x7fffffe8 0x80000000 addrs args) loading.
Proof.
  apply (arguments_on_stack k_mem 0x7ffee000 0x80000000).
  - intros dest bs k _ _. by split.
  - intros dest bs k _ _. by split.
  - lia.
  - vm_compute. discriminate.
  - lia.
  - reflexivity.
Defined.

(** ** Open files *)

(** Process 20 has file 1 open as descriptor 3 and the broken device as
    descriptor 4. *)
Definition filing_procs : gmap nat proc :=
  <[20%nat := with_fileTable (<[4%nat := Some 1%nat]> (<[3%nat := Some 0%nat]> (replicate 128 None))) machine_proc]> machine_procs.

Definition filing_proc : proc := with_fileTable (<[4%nat := Some 1%nat]> (<[3%nat := Some 0%nat]> (replicate 128 None))) machine_proc.

Definition filing : os :=
  set_files (fun _ => [mk_openfile (Some 1%nat) 7 1; mk_openfile (Some 2%nat) 0 1] ++ replicate 1278 (mk_openfile None 0 0))
    (set_procs (fun _ => filing_procs) machine).

Lemma filing_runs : runs filing 20 filing_proc.
Proof. by split. Qed.

Lemma filing_refs i : refs filing_procs i = (one (Some 0%nat) i + one (Some 1%nat) i)%nat.
Proof.
  assert (H0 : forall j, refs machine_procs j = 0%nat).
  { intros j. unfold machine_procs. rewrite refs_insert by done. rewrite <- insert_empty, refs_insert by done. cbn [p_fileTable].
    by rewrite count_none. }
  pose proof (refs_update machine_procs 20 machine_proc filing_proc i eq_refl) as H. rewrite H0 in H.
  pose proof (count_refs_insert i (replicate 128 None) 3 None (Some 0%nat) eq_refl) as H1.
  pose proof (count_refs_insert i (<[3%nat := Some 0%nat]> (replicate 128 None)) 4 None (Some 1%nat) eq_refl) as H2.
  change (refs filing_procs i) with (refs (<[20%nat := filing_proc]> machine_procs) i).
  change (p_fileTable machine_proc) with (replicate 128 (@None nat)) in H.
  change (p_fileTable filing_proc) with (<[4%nat := Some 1%nat]> (<[3%nat := Some 0%nat]> (replicate 128 None))) in H.
  rewrite !count_none in *. change (one None i) with 0%nat in *. lia.
Qed.

Lemma filing_ok : files_ok filing.
Proof.
  split.
  - by vm_compute.
  - intros p x Hp. cbn [o_procs filing set_files set_procs] in Hp. unfold filing_procs, machine_procs in Hp. map_cases Hp; by vm_compute.
  - intros i f Hf. change (o_procs filing) with filing_procs. rewrite filing_refs. change (o_files filing) with
      ([mk_openfile (Some 1%nat) 7 1; mk_openfile (Some 2%nat) 0 1] ++ replicate 1278 (mk_openfile None 0 0)) in Hf.
    destruct i as [|[|i]]; cbn -[replicate] in Hf; [by simplify_eq|by simplify_eq|].
    by apply lookup_replicate_1 in Hf as [-> _].
Qed.

Lemma sys_open_outcomes_witness :
  wp (sys_open "file") (fun r s' => opened filing s' 20 filing_proc "file" r) filing.
Proof. exact (sys_open_outcomes filing 20 filing_proc "file" filing_ok filing_runs). Defined.

Lemma sys_close_counts_witness :
  wp (sys_close 3) (fun r s' => r = 0 /\ closed filing s' 20 filing_proc 3 0 (mk_openfile (Some 1%nat) 7 1) 1%nat) filing.
Proof.
  apply (sys_close_counts filing 20 filing_proc 3 0 _ 1%nat filing_ok filing_runs).
  - cbn. lia.
  - reflexivity.
  - reflexivity.
  - reflexivity.
Defined.

Lemma open_close_roundtrip_witness :
  wp (sys_open "file") (fun r s1 => r.2 = OK -> wp (sys_close r.1) (fun c s2 => c = 0 /\ o_procs s2 = filing_procs /\ files_ok s2 /\
    (forall j, of_vn <$> o_files s2 !! j = of_vn <$> o_files filing !! j) /\
    exists v d, vfs_open "file" demo_files = inr (v, d) /\ k_disk (o_k s2) = vfs_close v d) s1) filing.
Proof. exact (open_close_roundtrip filing 20 filing_proc "file" filing_ok filing_runs). Defined.

Lemma fd_check_off_by_one_witness :
  sys_close 128 filing = Stop (Undef "fileTable[fd]") filing /\
  sys_read 128 0x10000000 5 filing = Stop (Undef "fileTable[fd]") filing /\
  sys_write 128 0x10000000 5 filing = Stop (Undef "fileTable[fd]") filing.
Proof. exact (fd_check_off_by_one filing 20 filing_proc 0x10000000 5 eq_refl filing_ok filing_runs). Defined.

Lemma flat_accessible buf : accessible buf.
Proof. split; intros; first [reflexivity | by repeat eexists]. Qed.

Example kernel_buffer_example :
  same_outcome (file_read 3 0x20000 5) (file_read_kbuf 3 0x20000 5) filing /\
  same_outcome (file_write 3 0x20000 5) (file_write_kbuf 3 0x20000 5) filing.
Proof. exact (kernel_buffer_equivalent 3 0x20000 5 filing (flat_accessible 0x20000) (mk_is_Some _ _ eq_refl)). Defined.

(** ** System calls *)

Lemma filing_user : in_user_mode filing.
Proof. by eexists _, _. Qed.

Lemma syscall_unknown_witness :
  wp (syscall (mk_tf 200 1 2 3 4 0x400120)) (fun o s' => s' = filing /\ o = Some (mk_tf 1 1 2 3 1 0x400124)) filing.
Proof.
  apply (syscall_unknown (mk_tf 200 1 2 3 4 0x400120) filing filing_user).
  apply (bool_decide_unpack _). by vm_compute.
Defined.

Lemma syscall_read_error_lost_witness :
  wp (syscall (mk_tf 50 4 0x10000000 16 0 0x400120)) (fun o s' => s' = filing /\
    o = Some (mk_tf 16 4 0x10000000 16 0 0x400124)) filing.
Proof.
  eapply (syscall_read_error_lost (mk_tf 50 4 0x10000000 16 0 0x400120) filing 20 filing_proc 4 1 _ 2%nat (Eother 5));
    try reflexivity.
  - exact os161_numbers.
  - cbn. lia.
  - exact filing_user.
  - exact filing_runs.
Defined.

Lemma filing_running : os_running filing 0%nat 7%nat demo_as demo_pages demo_memory.
Proof.
  exists demo_bits, demo_store. change (view filing) with (machine_kernel).
  destruct demo_running. split; try done. by destruct rn_inv.
Qed.

(** Four bytes of the data page. *)
Lemma syscall_write_prints_witness :
  wp (syscall (mk_tf 55 1 0x10000011 4 0 0x400120)) (fun o s' => o_console_out s' = [1; 2; 3; 4] /\
    os_running s' 0%nat 7%nat demo_as demo_pages demo_memory /\ o = Some (mk_tf 4 1 0x10000011 4 0 0x400124)) filing.
Proof.
  apply (syscall_write_prints (mk_tf 55 1 0x10000011 4 0 0x400120) filing 0%nat 7%nat demo_as demo_pages demo_memory [1; 2; 3; 4]);
    try reflexivity; try (cbn; lia).
  - exact os161_numbers.
  - exact filing_user.
  - exact filing_running.
  - intros i c Hi. exists 2%nat. eexists _, (17 + i)%nat. split; [by right; left|]. split; [reflexivity|].
    destruct i as [|[|[|[|i]]]]; cbn in Hi; simplify_eq; (split; [cbn; lia|]; split; [cbn; lia | by vm_compute]).
Defined.

(** ** The menu *)

(** What the two commands leave: the directory is printed, on the kernel line
    with each command before it is run. *)
Definition after_pwd : os := prints filing (bytes "emu0:" ++ bytes newline).
Definition after_pwd_shown : os :=
  prints (prints filing (announcement (list_ascii_of_string "pwd"))) (bytes "emu0:" ++ bytes newline).

Lemma menu_runs_in_order_witness :
  let line := list_ascii_of_string "pwd;nonsense;sync;" in
  menu_execute line false filing = Done tt after_pwd /\
  menu_execute line true filing = Stop (Panic "Failure processing kernel arguments")
    (prints after_pwd_shown (announcement (list_ascii_of_string "nonsense"))).
Proof.
  intros line. assert (El : line = line_of ";"%char (list_ascii_of_string <$> ["pwd"; "nonsense"; "sync"]%string)) by by vm_compute.
  assert (Er : Done tt after_pwd = run_commands false [list_ascii_of_string "sync"] after_pwd) by reflexivity.
  rewrite El, Er.
  apply (menu_runs_in_order [list_ascii_of_string "pwd"] (list_ascii_of_string "nonsense") [list_ascii_of_string "sync"] filing
    after_pwd after_pwd after_pwd_shown (prints after_pwd_shown (announcement (list_ascii_of_string "nonsense"))) ";"%char EINVAL).
  - by left.
  - apply (bool_decide_unpack _). by vm_compute.
  - reflexivity.
  - reflexivity.
  - reflexivity.
  - reflexivity.
Defined.

(** Sixteen words are dispatched, seventeen are not. *)
Lemma cmd_dispatch_selects_witness :
  let line := list_ascii_of_string "khdump all" in
  (length (words blanks line) <= MAXMENUARGS)%nat /\
  cmd_dispatch line = cmd_kheapdump (list_ascii_of_string <$> ["khdump"; "all"]%string) /\
  cmd_dispatch (line_of " "%char (replicate 17 (list_ascii_of_string "x"))) = ret (Err E2BIG).
Proof.
  intros line. split; [vm_compute; lia|]. split.
  - destruct (cmd_dispatch_selects line) as (_ & _ & H).
    destruct (H (list_ascii_of_string "khdump") [list_ascii_of_string "all"] eq_refl ltac:(vm_compute; lia)) as [Hc _].
    apply (Hc "khdump"%string); [|done]. unfold cmdtable. repeat first [by left | right].
  - destruct (cmd_dispatch_selects (line_of " "%char (replicate 17 (list_ascii_of_string "x")))) as (_ & H & _). apply H.
    vm_compute. lia.
Defined.

(** ** Programs from the menu *)

Lemma common_prog_waits_witness :
  exists s', common_prog [list_ascii_of_string "prog"] machine = Stop (Blocked "p_sem") s' /\ exists p x h t th c',
    o_procs machine !! p = None /\ o_procs s' = <[p := x]> (o_procs machine) /\ p_numthreads x = 1 /\ p_sem x = Some (h, 0) /\
    proc_inv s' /\ sched_inv s' /\ o_threads machine !! t = None /\ o_threads s' = <[t := th]> (o_threads machine) /\
    t_proc th = Some p /\ t_start th = Some (Cmd_progthread ["prog"%string]) /\
    o_cpus s' !! 0%nat = Some c' /\ enqueued t (mk_cpus (Some 3%nat) [8%nat] false [4; 10; 11]%nat 0 []) c'.
Proof.
  apply (common_prog_waits [list_ascii_of_string "prog"] machine 0 _ 3
    (mk_thread 31 S_RUN (Some 41%nat) (Some 0%nat) (Some 20%nat) None 0 0 None) 20 machine_proc machine_sched); try reflexivity.
  - exact machine_procs_inv.
  - exact machine_live.
  - exact machine_threads_live.
  - exists 3. split; [unfold MAX_PROC; lia|]. by split.
  - by eexists.
Defined.
